(* ===== verification/_CoqProject ===== *)
-Q . S2P
Prelude.v
FdbDef.v
Crc32.v
Status.v
FlashIO.v
FlashSpec.v
Mount.v
FileIO.v
FileSpec.v
Term.v
FileThm.v
PosixIO.v
PosixSpec.v
PosixThm.v
Disk.v
KvDef.v
KvRead.v
KvWrite.v
KvApi.v
TsDef.v
TsOps.v
TsApi.v
KvRing.v
KvCacheSpec.v
KvSpec.v
KvGetSpec.v
KvThm.v
KvFrame.v
KvApiThm.v
KvLimits.v
KvTerm.v
TsSpec.v
TsRead.v
TsAppend.v
TsIter.v
TsRing.v
TsLog.v
TsStore.v
TsDb.v
TsInit.v
TsFormat.v
TsCalls.v
TsSearch.v
TsQuery.v
TsThm.v
KvState.v
KvTriple.v
KvBase.v
KvLook.v
KvSector.v
KvIter.v
KvFind.v
KvDel.v
KvAlloc.v
KvStore.v
KvMove.v
KvGc.v
KvCollect.v
KvStable.v
KvSet.v
KvMap.v
KvItr.v
KvMapThm.v
KvBoot.v
KvDefault.v
KvRecover.v
KvCrash.v
KvFormat.v
KvBlank.v
KvWit.v
KvCrashWit.v
Fal.v
FalSpec.v
FalThm.v
FalInit.v
FalTable.v
FalWit.v
TsRun.v
TsCrash.v
TsWit.v
