(* ===== verification/Prelude.v ===== *)
(** * FlashDB, the embedded database of the cache

    The repository's cache ([crates/ixmati-cache]) keeps its data in FlashDB, a
    C library compiled from [crates/ixmati-cache/flashdb-native]; the file names
    below are relative to that directory.  This development models the whole of
    the library as the repository builds it, and proves what its two databases
    promise.

    ** The program

    - [src/fdb_utils.c]: CRC-32, the status tables (state machines programmed
      into flash one bit at a time), and access to the storage medium.
    - [src/fdb.c]: what both databases share: initialisation, locking.
    - [src/fdb_file.c]: the storage medium made of files, one per sector, with
      a cache of two open files.
    - [src/fdb_kvdb.c]: the key-value database.  Records are appended to
      sectors; an update writes a new record and deletes the old one; when the
      space runs out, garbage collection moves the live records.  Two caches,
      of sectors and of records, speed it up.
    - [port/fal]: the flash abstraction layer, which divides flash devices into
      partitions; an alternative to the files.
    - [src/fdb_tsdb.c]: the time-series database.  A ring of sectors, each with
      an index that grows upwards and data that grows downwards; when the ring
      is full the oldest sector is reused.

    The databases call [fdb_utils.c], which calls the storage.  The user
    supplies the lock functions, the clock and the callbacks of the iterators.

    ** The configuration

    The one of [fdb_cfg.h] and the build script: both databases, file mode, a write granularity of one bit, both caches, 32-bit
    timestamps, variable-size log entries, no automatic update of defaults (a
    parameter, [KvBuild]).  The machine is LP64 and little-endian.  The build
    keeps its files by the C library's streams; the variant of [fdb_file.c] by
    descriptors and the flash abstraction layer, which it leaves out, are
    modelled too, the latter for any configuration of its own ([FalConfig]).

    ** How the code is modelled

    A C function is a computation of the monad [M] ([S -> outcome (A * S)]) over
    the structure it receives by pointer; [gets], [modify], [zoom] (a function
    of the common part called on a database) and [loop] build it.  A failed
    assertion, undefined behaviour and a loop that exceeds its fuel are the
    three ways to be stuck.  Integers are [Z], with [u32], [u64], [i32] where
    the C expression can wrap; buffers are lists of bytes; uninitialised locals
    are arbitrary ([Indeterminate]).  A structure passed by pointer and filled
    by the callee is passed and returned by value.  The lock functions are
    modelled by the trace of their calls.

    Fuel.  Every loop of the code is a [loop] whose fuel is computed from the
    structure before it: the number of bytes, sectors or nodes left.  It is
    enough: the [wp] theorems say that the computation finishes, and
    [KvTerm.calls_terminate] says for the key-value database that no call runs
    out of fuel, whatever the medium contains.

    ** The files

    Foundations
    - [Prelude]: integers, the monad, weakest preconditions [wp], partial
      correctness [may], buffers ([slice], [splice]), little-endian integers.
    - [FdbDef]: types and constants of [inc/fdb_def.h], [inc/fdb_low_lvl.h].
    - [Crc32], [Status]: the first half of [fdb_utils.c].
    - [FlashIO]: the class [Storage] (what [fdb_utils.c] calls in other files),
      the rest of [fdb_utils.c], and [fdb.c].
    - [FlashSpec]: the class [StorageLaws]: a medium is a flat array of bytes,
      erased by the sector, with writes that only clear bits.  The databases
      are verified against this contract.
    - [Mount]: opening a storage: [opens], what the databases need of
      [_fdb_init_ex]; in file mode it holds.  Closing: the class
      [StorageCloses]; both variants of the file storage are instances.
    - [FileIO], [FileSpec], [FileThm]: [fdb_file.c] over a model of streams with
      a fault oracle; its instance of [Storage] satisfies [StorageLaws].
    - [PosixIO], [PosixSpec], [PosixThm]: the variant of [fdb_file.c] over file
      descriptors, over a model of the system calls; another instance.
    - [Fal], [FalSpec], [FalThm], [FalInit], [FalTable], [FalWit]: [port/fal]
      over drivers with the contract [FlashLaws]; its instance of [Storage]
      satisfies [StorageLaws] as well, so both databases are verified on
      partitions too.  Operations on partitions; initialisation; the search for
      the table on the flash; devices in memory as witnesses.
    - [Term]: termination of the access functions.  [Disk]: concrete media.

    Key-value database
    - [KvDef], [KvRead], [KvWrite], [KvApi]: [fdb_kvdb.c], in the order of the
      file: data, caches and reading, writing and collection, public functions and
      sequences of calls of them.
    - [KvRing], [KvCacheSpec], [KvSpec], [KvGetSpec]: the ring of sectors, the
      caches, records on the medium, lookups.
    - [KvThm]: a concrete database.
    - [KvFrame], [KvApiThm]: what the functions leave alone; locking, sector
      order, errors.
    - [KvLimits]: the edges, and what goes wrong there.
    - [KvTerm]: termination of all calls on arbitrary media.
    - [KvState], [KvTriple]: the abstract state of the database, a list of
      sectors with their records ([kst]); [rep], what it means that a structure
      and a medium represent it, caches included; Hoare triples over it.
    - [KvBase], [KvLook], [KvSector], [KvIter], [KvFind]: reading records and
      sectors, the iterators over sectors and records, finding a key.
    - [KvDel], [KvAlloc], [KvStore], [KvMove], [KvGc], [KvCollect]: deleting,
      finding space, storing, moving, collecting garbage.
    - [KvStable], [KvSet], [KvMap]: between two calls ([kstable]); setting a
      key; the public functions refine a finite map ([kv_rep]).
    - [KvItr], [KvMapThm]: the public iterator; room for a value.
    - [KvBoot]: closing and opening.
    - [KvDefault], [KvFormat], [KvBlank]: storing the default values, replacing
      everything by them, opening an empty medium.
    - [KvRecover], [KvCrash]: opening a medium on which a replacement was left
      unfinished; power failures between the steps of a replacement.
    - [KvWit], [KvCrashWit]: the concrete database holds a map; power failures
      on concrete databases.

    Time-series database
    - [TsDef], [TsOps], [TsApi]: [fdb_tsdb.c]: data, appending, the rest.
    - [TsSpec], [TsRead], [TsAppend]: the log of a sector on the medium, reading
      it, appending to it.
    - [TsIter], [TsRing], [TsLog]: the nodes of a sector, the ring of sectors,
      the two iterators over the whole log.
    - [TsStore], [TsDb]: closing and formatting sectors; the abstract ring of
      logs [ts_push], which appending refines.
    - [TsInit], [TsFormat]: initialisation recovers the state from the medium,
      or formats it; cleaning.
    - [TsCalls]: refused appends, a full database without rollover, statuses of
      entries, reading blobs.
    - [TsSearch], [TsQuery]: the binary search and the queries by time.
    - [TsThm]: a concrete database on which the hypotheses hold, and examples of
      what happens where they do not.
    - [TsRun]: sequences of calls refine an abstract machine ([ts_spec]); closing
      and opening.
    - [TsCrash]: power failures.  [TsWit]: databases over descriptors and on a
      partition.

    ** What the theorems show

    - Storage: the files and their cache refine the array of bytes
      ([FileThm.file_storage_refines], [PosixThm.posix_storage_refines]); any status survives programming
      ([Status]); the checksum is CRC-32 and detects bursts ([Crc32]).
    - Partitions: independent arrays of bytes ([FalThm.partitions_refine]); a
      database opens on one ([FalInit.partition_opens]); the table of partitions
      is found ([FalTable.fal_init_finds_table]).
    - Key-value database: the calls that get, set and delete refine a finite map
      ([KvMap.kv_refines_map]), through allocation, garbage collection and both
      caches; a value is stored when there is room ([KvMapThm.set_with_room]);
      the iterator enumerates the map ([KvMapThm.iterate_enumerates]); the map
      survives closing and opening ([KvBoot.kv_init_recovers],
      [KvBoot.kv_reopen]); an empty medium and [fdb_kv_set_default] give the
      default values ([KvBlank.kv_init_formats], [KvFormat.set_default_loads]);
      every call locks and unlocks once and keeps the configuration
      ([KvApiThm.locking_balanced]); everything terminates ([KvTerm]).
    - Power failures: between the steps of a replacement nothing is lost
      ([KvCrash.replace_survives_power_failure]); in the middle of a collection a
      key can be lost ([KvCrashWit.resumed_collection_loses_key]), and a torn
      record can hide another one ([KvCrashWit.torn_record_hides_old]).  While
      a sector of the time-series database is formatted everything can be lost
      ([TsCrash.interrupted_format_loses_log]); a torn append hides entries from
      the queries by time ([TsCrash.torn_append_hides_entries]).
    - Time-series database: the calls refine an abstract machine on the logs of
      the sectors ([TsRun.tsdb_refines_machine]), whose state survives closing
      and opening ([TsRun.tsdb_reopen]).  The parts, for any callback and any
      state of the ring: [TsDb.append_refines], [TsLog.iter_log],
      [TsLog.iter_reverse_log], [TsQuery.query_log],
      [TsCalls.set_status_refines], [TsInit.init_recovers],
      [TsFormat.init_formats], and the refusals ([TsFormat.init_refuses],
      [TsCalls.append_full]).

    The state of the time-series database in the theorems on single calls is
    [TsDb.ts_state d m o c secs]: the structure [d] and the medium [m] represent
    the sectors [secs], the oldest one at index [o], the current one at position
    [c] from there.  In those on sequences of calls it is [TsRun.ts_rep G max a d]:
    [d] holds the state [a] of the machine.  The state of the key-value database
    is [KvMap.kv_rep G keys d m]: [d] holds the map [m], on a medium of the
    geometry [G].  Its keys come from a set [keys] in which the cache of records
    confuses no two ([KvTriple.key_set]; [KvLimits.cache_prefix_match] shows what
    happens otherwise); all names of one length are such a set.

    ** Not modelled

    - [port/fal/src/fal_rtt.c]: glue to the RT-Thread kernel, not compiled.
    - Log messages.
    - The fixed-size-blob and 64-bit-timestamp variants of [fdb_tsdb.c]: not
      compiled.
    - The Rust crates that call the library, and the services around them.

    ** Not proved

    Recovery from a power failure in the middle of a write, and the resumption
    of a collection where no other sector holds deleted records; the automatic
    update of default values. *)
From Stdlib Require Export ZArith Lia.
From stdpp Require Export base numbers list strings gmap pretty.
#[global] Open Scope Z_scope.
Set Default Goal Selector "!".

(** * Machine integers *)

(** The C code runs on an LP64 machine: [uint32_t] is 32 bits wide, [size_t]
    and [unsigned long] 64 bits.  Values are integers; the wrap-around of an
    operation is written where the C expression can wrap. *)
Definition u8 (z : Z) : Z := z mod 256.
Definition u16 (z : Z) : Z := z mod 65536.
Definition u32 (z : Z) : Z := z mod 4294967296.
Definition u64 (z : Z) : Z := z mod 18446744073709551616.
(** Conversion to a signed 32-bit [int] (two's complement). *)
Definition i32 (z : Z) : Z := (z + 2147483648) mod 4294967296 - 2147483648.
(** Conversion to a 64-bit [long]. *)
Definition i64 (z : Z) : Z := (z + 9223372036854775808) mod 18446744073709551616 - 9223372036854775808.

Lemma u32_small z : 0 <= z < 4294967296 -> u32 z = z.
Proof. apply Z.mod_small. Qed.
Lemma u64_small z : 0 <= z < 18446744073709551616 -> u64 z = z.
Proof. apply Z.mod_small. Qed.
Lemma u16_small z : 0 <= z < 65536 -> u16 z = z.
Proof. apply Z.mod_small. Qed.
Lemma i32_small z : -2147483648 <= z < 2147483648 -> i32 z = z.
Proof. unfold i32. intros. rewrite Z.mod_small; lia. Qed.
Lemma u32_range z : 0 <= u32 z < 4294967296.
Proof. apply Z.mod_pos_bound. lia. Qed.

(** Quotient and remainder from a decomposition. *)
Lemma div_mod_eq a b q r : a = b * q + r -> 0 <= r < b -> a / b = q /\ a mod b = r.
Proof.
  intros -> ?. split; [symmetry; apply Z.div_unique with r|symmetry; apply Z.mod_unique with q];
    lia.
Qed.

(** Removes a wrap-around whose argument is in range. *)
Ltac wrap_small :=
  repeat match goal with
  | |- context [u32 ?z] => rewrite (u32_small z) by lia
  | |- context [u64 ?z] => rewrite (u64_small z) by lia
  | |- context [i32 ?z] => rewrite (i32_small z) by lia
  | |- context [u16 ?z] => rewrite (u16_small z) by lia
  end.

(** * Computations of the C code: state, failure, loops *)

(** Ways in which a C computation yields no value: a failed [FDB_ASSERT]
    (which loops forever), undefined behaviour, or a loop of the model whose
    fuel ran out (excluded by the theorems). *)
Inductive stuck := AssertFailed | Undefined | OutOfFuel.

Inductive outcome (A : Type) :=
| Done (a : A)
| Stuck (why : stuck).
Arguments Done {A} a.
Arguments Stuck {A} why.

Definition M (S A : Type) : Type := S -> outcome (A * S).

#[global] Instance M_ret S : MRet (M S) := fun _ a s => Done (a, s).
#[global] Instance M_bind S : MBind (M S) := fun _ _ k m s =>
  match m s with
  | Done (a, s') => k a s'
  | Stuck w => Stuck w
  end.

(** The state is the structure the C functions receive by pointer. *)
Definition gets {S A} (f : S -> A) : M S A := fun s => Done (f s, s).
Definition modify {S} (f : S -> S) : M S unit := fun s => Done (tt, f s).
Definition stuck_at {S A} (w : stuck) : M S A := fun _ => Stuck w.

(** [FDB_ASSERT]. *)
Definition fdb_assert {S} (b : bool) : M S unit :=
  if b then mret tt else stuck_at AssertFailed.

(** A loop: the body returns the next loop variables or the loop's result.
    [fuel] bounds the number of iterations. *)
Fixpoint loop {S X R} (fuel : nat) (body : X -> M S (X + R)) (x : X) : M S R :=
  match fuel with
  | O => stuck_at OutOfFuel
  | S fuel => r ← body x;
      match r with
      | inl x => loop fuel body x
      | inr r => mret r
      end
  end.

(** A computation on a part of the state, as when the code casts an
    [fdb_kvdb_t] to the [fdb_db_t] it starts with. *)
Definition zoom {S T A} (get : S -> T) (set : T -> S -> S) (m : M T A) : M S A :=
  fun s => match m (get s) with
           | Done (a, t) => Done (a, set t s)
           | Stuck w => Stuck w
           end.

(** * Total correctness *)

(** [wp m Q s]: started in [s], [m] finishes and its value and final state
    satisfy [Q]. *)
Definition wp {S A} (m : M S A) (Q : A -> S -> Prop) (s : S) : Prop :=
  match m s with
  | Done (a, s') => Q a s'
  | Stuck _ => False
  end.

(** The value of a finished computation, and its final state. *)
Definition result {S A} (m : M S A) (s : S) : option A :=
  match m s with Done (a, _) => Some a | Stuck _ => None end.

(** * Byte buffers *)

(** The [n] bytes of [m] at offset [a]. *)
Definition slice (m : list Z) (a n : Z) : list Z :=
  take (Z.to_nat n) (drop (Z.to_nat a) m).

(** [m] with the bytes [d] stored at offset [a]; bytes past the end of [m]
    are dropped, as on a medium of fixed size. *)
Definition splice (m : list Z) (a : Z) (d : list Z) : list Z :=
  let k := Z.to_nat a in
  take k m ++ take (length m - k)%nat d ++ drop (k + length d)%nat m.

Definition len (m : list Z) : Z := Z.of_nat (length m).

Definition is_byte (b : Z) : Prop := 0 <= b < 256.
Definition bytes (m : list Z) : Prop := Forall is_byte m.

(** Little-endian encoding of an [n]-byte integer. *)
Fixpoint le_bytes (n : nat) (z : Z) : list Z :=
  match n with
  | O => []
  | S n => (z mod 256) :: le_bytes n (z / 256)
  end.
Fixpoint le_value (l : list Z) : Z :=
  match l with
  | [] => 0
  | b :: l => b + 256 * le_value l
  end.

(** Bytes that a C program reads as the integer at offset [a]. *)
Definition le32_at (m : list Z) (a : Z) : Z := le_value (slice m a 4).

(** * C strings

    A string argument is the list of its bytes before the terminator. *)

(** The bytes of a buffer before its first NUL. *)
Fixpoint until_nul (l : list Z) : list Z :=
  match l with
  | [] => []
  | b :: l => if b =? 0 then [] else b :: until_nul l
  end.

(** [strncmp(a, b, n) == 0]; [None] when it reads past the end of a buffer. *)
Fixpoint strncmp_eq (n : nat) (a b : list Z) : option bool :=
  match n with
  | O => Some true
  | S n =>
      match a, b with
      | x :: a, y :: b =>
          if x =? y then (if x =? 0 then Some true else strncmp_eq n a b) else Some false
      | _, _ => None
      end
  end.

(** * Lemmas: weakest preconditions *)

Section wp_rules.
Context {S : Type}.

Lemma wp_ret {A} (a : A) (Q : A -> S -> Prop) s : Q a s -> wp (mret a) Q s.
Proof. done. Qed.

Lemma wp_bind {A B} (m : M S A) (k : A -> M S B) Q s :
  wp m (fun a => wp (k a) Q) s -> wp (m ≫= k) Q s.
Proof. unfold wp, mbind, M_bind. destruct (m s) as [[a s']|]; done. Qed.

Lemma wp_mono {A} (m : M S A) (P Q : A -> S -> Prop) s :
  wp m P s -> (forall a s', P a s' -> Q a s') -> wp m Q s.
Proof. unfold wp. destruct (m s) as [[a s']|]; eauto. Qed.

Lemma wp_gets {A} (f : S -> A) Q s : Q (f s) s -> wp (gets f) Q s.
Proof. done. Qed.

Lemma wp_modify (f : S -> S) Q s : Q tt (f s) -> wp (modify f) Q s.
Proof. done. Qed.

Lemma wp_assert b (Q : unit -> S -> Prop) s : b = true -> Q tt s -> wp (fdb_assert b) Q s.
Proof. intros -> HQ. exact HQ. Qed.

Lemma wp_zoom {T A} (get : S -> T) set (m : M T A) Q s :
  wp m (fun a t => Q a (set t s)) (get s) -> wp (zoom get set m) Q s.
Proof. unfold wp, zoom. destruct (m (get s)) as [[a t]|]; done. Qed.

(** Loop rule: an invariant and a measure bounded by the fuel. *)
Lemma wp_loop {X R} (Inv : X -> S -> Prop) (measure : X -> S -> nat)
    (body : X -> M S (X + R)) (Q : R -> S -> Prop) :
  (forall x s, Inv x s ->
     wp (body x) (fun r s' =>
       match r with
       | inl x' => Inv x' s' /\ (measure x' s' < measure x s)%nat
       | inr r => Q r s'
       end) s) ->
  forall fuel x s, Inv x s -> (measure x s < fuel)%nat -> wp (loop fuel body x) Q s.
Proof.
  intros Hbody fuel. induction fuel as [|fuel IH]; intros x s HI Hm; [lia|].
  simpl. apply wp_bind. eapply wp_mono; [apply Hbody, HI|].
  intros [x'|r] s' Hr; [|exact Hr].
  destruct Hr. apply IH; [done|lia].
Qed.

(** What a finished computation computed. *)
Lemma wp_run {A} (m : M S A) Q s :
  wp m Q s <-> exists a s', m s = Done (a, s') /\ Q a s'.
Proof.
  unfold wp. destruct (m s) as [[a s']|w].
  - split; [eauto|]. intros (? & ? & [= -> ->] & ?). done.
  - split; [done|]. by intros (? & ? & ? & ?).
Qed.
End wp_rules.

(** * Termination

    [may m Q s]: started in [s], [m] does not run out of fuel; when it finishes
    (rather than stop at a failed assertion or at undefined behaviour), its
    value and final state satisfy [Q]. *)
Definition may {S A} (m : M S A) (Q : A -> S -> Prop) (s : S) : Prop :=
  match m s with
  | Done (a, s') => Q a s'
  | Stuck w => w <> OutOfFuel
  end.

Section may_rules.
Context {S : Type}.

Lemma may_ret {A} (a : A) (Q : A -> S -> Prop) s : Q a s -> may (mret a) Q s.
Proof. done. Qed.
Lemma may_bind {A B} (m : M S A) (k : A -> M S B) Q s :
  may m (fun a => may (k a) Q) s -> may (m ≫= k) Q s.
Proof. unfold may, mbind, M_bind. destruct (m s) as [[a s']|]; done. Qed.
Lemma may_mono {A} (m : M S A) (P Q : A -> S -> Prop) s :
  may m P s -> (forall a s', P a s' -> Q a s') -> may m Q s.
Proof. unfold may. destruct (m s) as [[a s']|]; eauto. Qed.
Lemma may_gets {A} (f : S -> A) Q s : Q (f s) s -> may (gets f) Q s.
Proof. done. Qed.
Lemma may_modify (f : S -> S) Q s : Q tt (f s) -> may (modify f) Q s.
Proof. done. Qed.

Lemma may_zoom {T A} (get : S -> T) set (m : M T A) Q s :
  may m (fun a t => Q a (set t s)) (get s) -> may (zoom get set m) Q s.
Proof. unfold may, zoom. destruct (m (get s)) as [[a t]|]; done. Qed.

(** Loop rule, as for [wp]. *)
Lemma may_loop {X R} (Inv : X -> S -> Prop) (measure : X -> nat)
    (body : X -> M S (X + R)) (Q : R -> S -> Prop) :
  (forall x s, Inv x s ->
     may (body x) (fun r s' =>
       match r with
       | inl x' => Inv x' s' /\ (measure x' < measure x)%nat
       | inr r => Q r s'
       end) s) ->
  forall fuel x s, Inv x s -> (measure x < fuel)%nat -> may (loop fuel body x) Q s.
Proof.
  intros Hbody fuel. induction fuel as [|fuel IH]; intros x s HI Hm; [lia|].
  simpl. apply may_bind. eapply may_mono; [apply Hbody, HI|].
  intros [x'|r] s' Hr; [|exact Hr]. destruct Hr. apply IH; [done|lia].
Qed.
End may_rules.

(** One step of symbolic execution. *)
Ltac wp_step :=
  match goal with
  | |- wp (mbind _ _) _ _ => apply wp_bind
  | |- wp (mret _) _ _ => apply wp_ret
  | |- wp (gets _) _ _ => apply wp_gets
  | |- wp (modify _) _ _ => apply wp_modify
  | |- wp (zoom _ _ _) _ _ => apply wp_zoom
  end; cbv beta.

(** * Lemmas: byte buffers *)

Lemma len_nonneg m : 0 <= len m.
Proof. unfold len. lia. Qed.
Lemma len_app a b : len (a ++ b) = len a + len b.
Proof. unfold len. rewrite length_app. lia. Qed.
Lemma len_nil : len [] = 0.
Proof. done. Qed.
Lemma len_one x : len [x] = 1.
Proof. done. Qed.
Lemma len_cons x m : len (x :: m) = 1 + len m.
Proof. unfold len. simpl. lia. Qed.
Lemma len_replicate n x : len (replicate n x) = Z.of_nat n.
Proof. unfold len. by rewrite length_replicate. Qed.

Lemma slice_length m a n :
  0 <= a -> 0 <= n -> a + n <= len m -> length (slice m a n) = Z.to_nat n.
Proof. unfold slice, len. rewrite length_take, length_drop. lia. Qed.
Lemma len_slice m a n : 0 <= a -> 0 <= n -> a + n <= len m -> len (slice m a n) = n.
Proof. intros. unfold len. rewrite slice_length; lia. Qed.

Lemma splice_length m a d : length (splice m a d) = length m.
Proof. unfold splice. rewrite !length_app, !length_take, length_drop. lia. Qed.
Lemma len_splice m a d : len (splice m a d) = len m.
Proof. unfold len. by rewrite splice_length. Qed.

Lemma slice_lookup m a n (i : nat) :
  0 <= a -> 0 <= n -> (i < Z.to_nat n)%nat -> slice m a n !! i = m !! (Z.to_nat a + i)%nat.
Proof. intros. unfold slice. rewrite lookup_take_lt by lia. by rewrite lookup_drop. Qed.
Lemma slice_lookup_ge m a n (i : nat) : (Z.to_nat n <= i)%nat -> slice m a n !! i = None.
Proof. intros. unfold slice. by rewrite lookup_take_ge. Qed.

Lemma splice_lookup m a d (i : nat) :
  0 <= a -> a + len d <= len m ->
  splice m a d !! i =
    if decide (Z.to_nat a <= i < Z.to_nat a + length d)%nat
    then d !! (i - Z.to_nat a)%nat else m !! i.
Proof.
  unfold len. intros Ha Hd. unfold splice.
  rewrite (take_ge d) by lia.
  case_decide as Hi.
  - rewrite lookup_app_r; rewrite length_take; [|lia].
    rewrite lookup_app_l by lia. f_equal. lia.
  - destruct (decide (i < Z.to_nat a)%nat).
    + rewrite lookup_app_l by (rewrite length_take; lia). by rewrite lookup_take_lt.
    + rewrite lookup_app_r; rewrite length_take; [|lia].
      rewrite lookup_app_r by lia. rewrite lookup_drop. f_equal. lia.
Qed.

(** Reading back what was stored, and what was not touched. *)
Lemma slice_splice_same m a d :
  0 <= a -> a + len d <= len m -> slice (splice m a d) a (len d) = d.
Proof.
  intros Ha Hd. apply list_eq. intros i.
  destruct (decide (i < length d)%nat).
  - rewrite slice_lookup, splice_lookup by (unfold len in *; lia).
    rewrite decide_True by lia. f_equal. lia.
  - rewrite slice_lookup_ge by (unfold len; lia). symmetry. apply lookup_ge_None_2. lia.
Qed.

Lemma slice_splice_other m a d b n :
  0 <= a -> a + len d <= len m -> 0 <= b -> 0 <= n ->
  b + n <= a \/ a + len d <= b ->
  slice (splice m a d) b n = slice m b n.
Proof.
  unfold len. intros Ha Hd Hb Hn Hdisj. apply list_eq. intros i.
  destruct (decide (i < Z.to_nat n)%nat).
  - rewrite !slice_lookup, splice_lookup by (unfold len in *; lia).
    rewrite decide_False by lia. done.
  - rewrite !slice_lookup_ge by lia. done.
Qed.

Lemma slice_app_l m m' a n :
  0 <= a -> 0 <= n -> a + n <= len m -> slice (m ++ m') a n = slice m a n.
Proof.
  unfold len. intros. apply list_eq. intros i. destruct (decide (i < Z.to_nat n)%nat).
  - rewrite !slice_lookup by lia. rewrite lookup_app_l by lia. done.
  - rewrite !slice_lookup_ge by lia. done.
Qed.

Lemma slice_app_r m m' a n :
  len m <= a -> 0 <= n -> slice (m ++ m') a n = slice m' (a - len m) n.
Proof.
  unfold len. intros. apply list_eq. intros i. destruct (decide (i < Z.to_nat n)%nat).
  - rewrite !slice_lookup by lia. rewrite lookup_app_r by lia. f_equal. lia.
  - rewrite !slice_lookup_ge by lia. done.
Qed.

Lemma slice_app_mid l1 l2 l3 a n : len l1 = a -> len l2 = n -> slice (l1 ++ l2 ++ l3) a n = l2.
Proof.
  intros <- <-. rewrite slice_app_r, Z.sub_diag by (unfold len; lia).
  rewrite slice_app_l by (unfold len; lia). unfold slice, len. rewrite drop_0. apply take_ge. lia.
Qed.

Lemma slice_slice m a n b k :
  0 <= a -> 0 <= b -> 0 <= k -> b + k <= n ->
  slice (slice m a n) b k = slice m (a + b) k.
Proof.
  intros. apply list_eq. intros i. destruct (decide (i < Z.to_nat k)%nat).
  - rewrite !slice_lookup by lia. f_equal. lia.
  - rewrite !slice_lookup_ge by lia. done.
Qed.

Lemma slice_all m : slice m 0 (len m) = m.
Proof. unfold slice, len. rewrite drop_0. apply take_ge. lia. Qed.

Lemma slice_split m a n k :
  0 <= a -> 0 <= k <= n -> slice m a n = slice m a k ++ slice m (a + k) (n - k).
Proof.
  intros. unfold slice.
  replace (Z.to_nat (a + k)) with (Z.to_nat a + Z.to_nat k)%nat by lia.
  rewrite <- drop_drop.
  rewrite <- (take_drop (Z.to_nat k) (take (Z.to_nat n) (drop (Z.to_nat a) m))) at 1.
  rewrite take_take, Nat.min_l by lia. f_equal.
  rewrite skipn_firstn_comm. f_equal. lia.
Qed.

Lemma slice_nil m a : slice m a 0 = [].
Proof. done. Qed.

Lemma splice_splice_same m a d d' :
  0 <= a -> a + len d <= len m -> len d' = len d ->
  splice (splice m a d) a d' = splice m a d'.
Proof.
  unfold len. intros. apply list_eq. intros i.
  rewrite !splice_lookup by (unfold len; rewrite ?splice_length; lia).
  repeat case_decide; try done; lia.
Qed.

Lemma splice_splice_comm m a d b e :
  0 <= a -> a + len d <= len m -> 0 <= b -> b + len e <= len m ->
  a + len d <= b \/ b + len e <= a ->
  splice (splice m a d) b e = splice (splice m b e) a d.
Proof.
  unfold len. intros. apply list_eq. intros i.
  rewrite !splice_lookup by (unfold len; rewrite ?splice_length; lia).
  repeat case_decide; try done; lia.
Qed.

Lemma splice_app_join m a d e :
  0 <= a -> a + len d + len e <= len m ->
  splice (splice m a d) (a + len d) e = splice m a (d ++ e).
Proof.
  unfold len. intros. apply list_eq. intros i.
  rewrite !splice_lookup by (unfold len; rewrite ?splice_length, ?length_app; lia).
  rewrite length_app. repeat case_decide; try lia; try done.
  - rewrite lookup_app_r by lia. f_equal. lia.
  - rewrite lookup_app_l by lia. done.
Qed.

Lemma splice_sub m a n b d :
  0 <= a -> 0 <= b -> b + len d <= n -> a + n <= len m ->
  splice m a (splice (slice m a n) b d) = splice m (a + b) d.
Proof.
  intros Ha Hb Hd Hn. pose proof (len_nonneg d). pose proof (len_slice m a n Ha ltac:(lia) Hn).
  apply list_eq. intros i.
  rewrite !splice_lookup by (rewrite ?len_splice; lia).
  rewrite splice_length, slice_length by lia. unfold len in *.
  repeat case_decide; try lia; try done.
  - f_equal. lia.
  - rewrite slice_lookup by lia. f_equal. lia.
Qed.

Lemma splice_nil m a : 0 <= a <= len m -> splice m a [] = m.
Proof.
  unfold len. intros. apply list_eq. intros i. rewrite splice_lookup by (unfold len; simpl; lia).
  case_decide; simpl in *; [lia|done].
Qed.

Lemma slice_one m a x : slice m a 1 = [x] -> nth (Z.to_nat a) m 0 = x.
Proof.
  unfold slice. intros E. rewrite <- (take_drop (Z.to_nat a) m) at 1.
  destruct (drop (Z.to_nat a) m) as [|y l] eqn:Ed; [done|].
  injection E as ->. rewrite app_nth2; rewrite length_take; [|lia].
  assert (Z.to_nat a < length m)%nat.
  { destruct (decide (Z.to_nat a < length m)%nat); [done|]. by rewrite drop_ge in Ed by lia. }
  by replace (Z.to_nat a - Z.to_nat a `min` length m)%nat with 0%nat by lia.
Qed.

(** Storing what is already there. *)
Lemma splice_id m a d : 0 <= a -> a + len d <= len m -> slice m a (len d) = d -> splice m a d = m.
Proof.
  unfold len. intros Ha Hd Hs. apply list_eq. intros i.
  rewrite splice_lookup by (unfold len; lia). case_decide as Hi; [|done].
  rewrite <- Hs, slice_lookup by lia. f_equal. lia.
Qed.

(** A range filled with one byte. *)
Definition filled (m : list Z) (a n x : Z) : Prop := slice m a n = replicate (Z.to_nat n) x.

Lemma filled_sub m a n x b k :
  filled m a n x -> 0 <= a -> a <= b -> 0 <= k -> b + k <= a + n -> filled m b k x.
Proof.
  unfold filled. intros H Ha Hb Hk Hbk.
  replace b with (a + (b - a)) by lia. rewrite <- (slice_slice m a n) by lia. rewrite H.
  unfold slice. rewrite drop_replicate, take_replicate. f_equal. lia.
Qed.

Lemma filled_splice m a n x b d :
  filled m a n x -> 0 <= a -> 0 <= n -> 0 <= b -> b + len d <= len m ->
  b + len d <= a \/ a + n <= b -> filled (splice m b d) a n x.
Proof. unfold filled. intros H **. rewrite slice_splice_other by lia. done. Qed.

(** * Lemmas: bytes and integers *)

Lemma bytes_slice m a n : bytes m -> bytes (slice m a n).
Proof. intros. unfold slice. by apply Forall_take, Forall_drop. Qed.
Lemma bytes_splice m a d : bytes m -> bytes d -> bytes (splice m a d).
Proof.
  intros. unfold splice. apply Forall_app_2; [by apply Forall_take|].
  apply Forall_app_2; [by apply Forall_take|by apply Forall_drop].
Qed.
Lemma bytes_app a b : bytes a -> bytes b -> bytes (a ++ b).
Proof. apply Forall_app_2. Qed.

Lemma length_le_bytes n z : length (le_bytes n z) = n.
Proof. revert z. induction n; intros z; simpl; auto. Qed.
Lemma bytes_le_bytes n z : bytes (le_bytes n z).
Proof.
  revert z. induction n; intros z; simpl; constructor; [|apply IHn].
  apply Z.mod_pos_bound. lia.
Qed.

Lemma le_value_bytes n z :
  0 <= z < 256 ^ Z.of_nat n -> le_value (le_bytes n z) = z.
Proof.
  revert z. induction n as [|n IH]; intros z Hz; simpl; [simpl in Hz; lia|].
  rewrite IH.
  - pose proof (Z.div_mod z 256). lia.
  - rewrite Nat2Z.inj_succ, Z.pow_succ_r in Hz by lia.
    split; [apply Z.div_pos; lia|]. apply Z.div_lt_upper_bound; lia.
Qed.

Lemma le_value_range l : bytes l -> 0 <= le_value l < 256 ^ len l.
Proof.
  unfold len. induction 1 as [|b l Hb Hl IH]; cbn [length le_value]; [simpl; lia|].
  unfold is_byte in Hb. rewrite Nat2Z.inj_succ, Z.pow_succ_r by lia. lia.
Qed.

Lemma le_bytes_value l : bytes l -> le_bytes (length l) (le_value l) = l.
Proof.
  induction 1 as [|b l Hb Hl IH]; simpl; [done|].
  unfold is_byte in Hb.
  rewrite (Z.mul_comm 256), Z.mod_add, Z.mod_small by lia.
  rewrite Z.div_add, Z.div_small by lia. by rewrite Z.add_0_l, IH.
Qed.

Lemma le32_at_range m a : bytes m -> 0 <= le32_at m a < 4294967296.
Proof.
  intros H. unfold le32_at.
  pose proof (le_value_range (slice m a 4) (bytes_slice _ _ _ H)) as [H1 H2].
  split; [done|]. eapply Z.lt_le_trans; [done|].
  change 4294967296 with (256 ^ 4). apply Z.pow_le_mono_r; [lia|].
  unfold len, slice. rewrite length_take. lia.
Qed.

Create HintDb fdb.
#[local] Set Warnings "-implicit-create-rewrite-hint-db".
#[export] Hint Resolve bytes_slice bytes_splice bytes_app bytes_le_bytes len_nonneg
  le32_at_range : fdb.
#[export] Hint Rewrite len_app len_cons len_nil len_replicate len_splice splice_length
  length_le_bytes : fdb.
