(* ===== verification/FdbDef.v ===== *)
(** Data model: the structures, enumerations and constants of
    [inc/fdb_def.h], [inc/fdb_low_lvl.h] and [inc/flashdb.h], and the
    interface [Storage] of the functions that [fdb_utils.c] and [fdb.c] call
    to reach the storage medium ([fdb_file.c], the FAL, [fclose]).

    The fields of [struct fdb_db] are split in three groups: [geo], fixed once
    the database is initialised; [io], the file cache ([cur_file_sec],
    [cur_file], [cur_sec]) with the world outside the program; and the rest. *)
From S2P Require Import Prelude.

(** ** Constants *)

Definition FDB_KV_NAME_MAX : Z := 64.
Definition FDB_KV_CACHE_TABLE_SIZE : Z := 64.
Definition FDB_SECTOR_CACHE_TABLE_SIZE : Z := 8.
Definition FDB_FILE_CACHE_TABLE_SIZE : Z := 2.
Definition FDB_WRITE_GRAN : Z := 1.
Definition FDB_BYTE_ERASED : Z := 0xFF.
Definition FDB_BYTE_WRITTEN : Z := 0x00.
Definition FDB_DATA_UNUSED : Z := 0xFFFFFFFF.
Definition FDB_FAILED_ADDR : Z := 0xFFFFFFFF.
Definition FAILED_ADDR : Z := 0xFFFFFFFF.
Definition FDB_KV_STATUS_NUM : Z := 6.
Definition FDB_TSL_STATUS_NUM : Z := 6.
Definition FDB_SECTOR_STORE_STATUS_NUM : Z := 4.
Definition FDB_SECTOR_DIRTY_STATUS_NUM : Z := 4.

(** [FDB_ALIGN] and [FDB_ALIGN_DOWN] on [size_t] operands. *)
Definition FDB_ALIGN (size align : Z) : Z :=
  u64 (u64 (u64 (size + align) - 1) - u64 (u64 (size + align) - 1) mod align).
Definition FDB_ALIGN_DOWN (size align : Z) : Z := u64 (size / align * align).

(** ** Error codes and statuses *)

Inductive fdb_err_t :=
| FDB_NO_ERR | FDB_ERASE_ERR | FDB_READ_ERR | FDB_WRITE_ERR | FDB_PART_NOT_FOUND
| FDB_KV_NAME_ERR | FDB_KV_NAME_EXIST | FDB_SAVED_FULL | FDB_INIT_FAILED.

Inductive fdb_kv_status :=
| FDB_KV_UNUSED | FDB_KV_PRE_WRITE | FDB_KV_WRITE | FDB_KV_PRE_DELETE | FDB_KV_DELETED
| FDB_KV_ERR_HDR.

Inductive fdb_tsl_status :=
| FDB_TSL_UNUSED | FDB_TSL_PRE_WRITE | FDB_TSL_WRITE | FDB_TSL_USER_STATUS1
| FDB_TSL_DELETED | FDB_TSL_USER_STATUS2.

Inductive fdb_sector_store_status :=
| FDB_SECTOR_STORE_UNUSED | FDB_SECTOR_STORE_EMPTY | FDB_SECTOR_STORE_USING
| FDB_SECTOR_STORE_FULL.

Inductive fdb_sector_dirty_status :=
| FDB_SECTOR_DIRTY_UNUSED | FDB_SECTOR_DIRTY_FALSE | FDB_SECTOR_DIRTY_TRUE
| FDB_SECTOR_DIRTY_GC.

Inductive fdb_db_type := FDB_DB_TYPE_KV | FDB_DB_TYPE_TS.

#[export] Instance fdb_err_t_eq_dec : EqDecision fdb_err_t.
Proof. solve_decision. Defined.
#[export] Instance fdb_kv_status_eq_dec : EqDecision fdb_kv_status.
Proof. solve_decision. Defined.
#[export] Instance fdb_tsl_status_eq_dec : EqDecision fdb_tsl_status.
Proof. solve_decision. Defined.
#[export] Instance fdb_store_eq_dec : EqDecision fdb_sector_store_status.
Proof. solve_decision. Defined.
#[export] Instance fdb_dirty_eq_dec : EqDecision fdb_sector_dirty_status.
Proof. solve_decision. Defined.

(** Enumeration constants as integers, and the casts of [_fdb_get_status]'s
    result back to the enumerations. *)
Class Enum (E : Type) := { enum_val : E -> Z; enum_of : Z -> E }.

#[export] Instance kv_status_enum : Enum fdb_kv_status := {|
  enum_val s := match s with
    | FDB_KV_UNUSED => 0 | FDB_KV_PRE_WRITE => 1 | FDB_KV_WRITE => 2
    | FDB_KV_PRE_DELETE => 3 | FDB_KV_DELETED => 4 | FDB_KV_ERR_HDR => 5 end;
  enum_of z := match z with
    | 0 => FDB_KV_UNUSED | 1 => FDB_KV_PRE_WRITE | 2 => FDB_KV_WRITE
    | 3 => FDB_KV_PRE_DELETE | 4 => FDB_KV_DELETED | _ => FDB_KV_ERR_HDR end |}.

#[export] Instance tsl_status_enum : Enum fdb_tsl_status := {|
  enum_val s := match s with
    | FDB_TSL_UNUSED => 0 | FDB_TSL_PRE_WRITE => 1 | FDB_TSL_WRITE => 2
    | FDB_TSL_USER_STATUS1 => 3 | FDB_TSL_DELETED => 4 | FDB_TSL_USER_STATUS2 => 5 end;
  enum_of z := match z with
    | 0 => FDB_TSL_UNUSED | 1 => FDB_TSL_PRE_WRITE | 2 => FDB_TSL_WRITE
    | 3 => FDB_TSL_USER_STATUS1 | 4 => FDB_TSL_DELETED | _ => FDB_TSL_USER_STATUS2 end |}.

#[export] Instance store_status_enum : Enum fdb_sector_store_status := {|
  enum_val s := match s with
    | FDB_SECTOR_STORE_UNUSED => 0 | FDB_SECTOR_STORE_EMPTY => 1
    | FDB_SECTOR_STORE_USING => 2 | FDB_SECTOR_STORE_FULL => 3 end;
  enum_of z := match z with
    | 0 => FDB_SECTOR_STORE_UNUSED | 1 => FDB_SECTOR_STORE_EMPTY
    | 2 => FDB_SECTOR_STORE_USING | _ => FDB_SECTOR_STORE_FULL end |}.

#[export] Instance dirty_status_enum : Enum fdb_sector_dirty_status := {|
  enum_val s := match s with
    | FDB_SECTOR_DIRTY_UNUSED => 0 | FDB_SECTOR_DIRTY_FALSE => 1
    | FDB_SECTOR_DIRTY_TRUE => 2 | FDB_SECTOR_DIRTY_GC => 3 end;
  enum_of z := match z with
    | 0 => FDB_SECTOR_DIRTY_UNUSED | 1 => FDB_SECTOR_DIRTY_FALSE
    | 2 => FDB_SECTOR_DIRTY_TRUE | _ => FDB_SECTOR_DIRTY_GC end |}.

(** ** The common part of a database *)

(** [union storage]: the directory in file mode, the partition (its index in
    the FAL partition table) otherwise. *)
Inductive db_storage :=
| storage_none
| storage_dir (dir : string)
| storage_part (part : nat).

Record geom := Geom {
  name : string;
  storage : db_storage;
  sec_size : Z;
  max_size : Z;
  file_mode : bool;
}.

(** A [FILE *]; [None] is [NULL]. *)
Definition FILE := option positive.

Record io (W : Type) := Io {
  cur_file_sec : list Z;
  cur_file : list FILE;
  cur_sec : Z;
  world : W;
}.
Arguments Io {W}.
Arguments cur_file_sec {W}.
Arguments cur_file {W}.
Arguments cur_sec {W}.
Arguments world {W}.

(** The calls of the user's lock and unlock functions, in order. *)
Inductive lock_event := LockCall | UnlockCall.

Record fdb_db (W : Type) := FdbDb {
  geo : geom;
  dbio : io W;
  db_type : fdb_db_type;
  oldest_addr : Z;
  init_ok : bool;
  not_formatable : bool;
  lock : bool;              (** the lock function is set *)
  unlock : bool;            (** the unlock function is set *)
  lock_trace : list lock_event;
  db_user_data : Z;
}.
Arguments FdbDb {W}.
Arguments geo {W}.
Arguments dbio {W}.
Arguments db_type {W}.
Arguments oldest_addr {W}.
Arguments init_ok {W}.
Arguments not_formatable {W}.
Arguments lock {W}.
Arguments unlock {W}.
Arguments lock_trace {W}.
Arguments db_user_data {W}.

(** ** Blobs *)

(** [buf] is [None] for a [NULL] buffer; the buffer's bytes otherwise. *)
Record fdb_blob := FdbBlob {
  buf : option (list Z);
  size : Z;
  saved_meta_addr : Z;
  saved_addr : Z;
  saved_len : Z;
}.
