(* ===== verification/Crc32.v ===== *)
(** CRC-32 of [src/fdb_utils.c]: the table [crc32_table] and
    [fdb_calc_crc32], their equivalence with the bit-by-bit definition of the
    checksum, and the errors it detects. *)
From S2P Require Import Prelude FdbDef.

(** ** The code *)

Definition crc32_table : list Z := [
   0x00000000; 0x77073096; 0xee0e612c; 0x990951ba; 0x076dc419; 0x706af48f;
   0xe963a535; 0x9e6495a3; 0x0edb8832; 0x79dcb8a4; 0xe0d5e91e; 0x97d2d988;
   0x09b64c2b; 0x7eb17cbd; 0xe7b82d07; 0x90bf1d91; 0x1db71064; 0x6ab020f2;
   0xf3b97148; 0x84be41de; 0x1adad47d; 0x6ddde4eb; 0xf4d4b551; 0x83d385c7;
   0x136c9856; 0x646ba8c0; 0xfd62f97a; 0x8a65c9ec; 0x14015c4f; 0x63066cd9;
   0xfa0f3d63; 0x8d080df5; 0x3b6e20c8; 0x4c69105e; 0xd56041e4; 0xa2677172;
   0x3c03e4d1; 0x4b04d447; 0xd20d85fd; 0xa50ab56b; 0x35b5a8fa; 0x42b2986c;
   0xdbbbc9d6; 0xacbcf940; 0x32d86ce3; 0x45df5c75; 0xdcd60dcf; 0xabd13d59;
   0x26d930ac; 0x51de003a; 0xc8d75180; 0xbfd06116; 0x21b4f4b5; 0x56b3c423;
   0xcfba9599; 0xb8bda50f; 0x2802b89e; 0x5f058808; 0xc60cd9b2; 0xb10be924;
   0x2f6f7c87; 0x58684c11; 0xc1611dab; 0xb6662d3d; 0x76dc4190; 0x01db7106;
   0x98d220bc; 0xefd5102a; 0x71b18589; 0x06b6b51f; 0x9fbfe4a5; 0xe8b8d433;
   0x7807c9a2; 0x0f00f934; 0x9609a88e; 0xe10e9818; 0x7f6a0dbb; 0x086d3d2d;
   0x91646c97; 0xe6635c01; 0x6b6b51f4; 0x1c6c6162; 0x856530d8; 0xf262004e;
   0x6c0695ed; 0x1b01a57b; 0x8208f4c1; 0xf50fc457; 0x65b0d9c6; 0x12b7e950;
   0x8bbeb8ea; 0xfcb9887c; 0x62dd1ddf; 0x15da2d49; 0x8cd37cf3; 0xfbd44c65;
   0x4db26158; 0x3ab551ce; 0xa3bc0074; 0xd4bb30e2; 0x4adfa541; 0x3dd895d7;
   0xa4d1c46d; 0xd3d6f4fb; 0x4369e96a; 0x346ed9fc; 0xad678846; 0xda60b8d0;
   0x44042d73; 0x33031de5; 0xaa0a4c5f; 0xdd0d7cc9; 0x5005713c; 0x270241aa;
   0xbe0b1010; 0xc90c2086; 0x5768b525; 0x206f85b3; 0xb966d409; 0xce61e49f;
   0x5edef90e; 0x29d9c998; 0xb0d09822; 0xc7d7a8b4; 0x59b33d17; 0x2eb40d81;
   0xb7bd5c3b; 0xc0ba6cad; 0xedb88320; 0x9abfb3b6; 0x03b6e20c; 0x74b1d29a;
   0xead54739; 0x9dd277af; 0x04db2615; 0x73dc1683; 0xe3630b12; 0x94643b84;
   0x0d6d6a3e; 0x7a6a5aa8; 0xe40ecf0b; 0x9309ff9d; 0x0a00ae27; 0x7d079eb1;
   0xf00f9344; 0x8708a3d2; 0x1e01f268; 0x6906c2fe; 0xf762575d; 0x806567cb;
   0x196c3671; 0x6e6b06e7; 0xfed41b76; 0x89d32be0; 0x10da7a5a; 0x67dd4acc;
   0xf9b9df6f; 0x8ebeeff9; 0x17b7be43; 0x60b08ed5; 0xd6d6a3e8; 0xa1d1937e;
   0x38d8c2c4; 0x4fdff252; 0xd1bb67f1; 0xa6bc5767; 0x3fb506dd; 0x48b2364b;
   0xd80d2bda; 0xaf0a1b4c; 0x36034af6; 0x41047a60; 0xdf60efc3; 0xa867df55;
   0x316e8eef; 0x4669be79; 0xcb61b38c; 0xbc66831a; 0x256fd2a0; 0x5268e236;
   0xcc0c7795; 0xbb0b4703; 0x220216b9; 0x5505262f; 0xc5ba3bbe; 0xb2bd0b28;
   0x2bb45a92; 0x5cb36a04; 0xc2d7ffa7; 0xb5d0cf31; 0x2cd99e8b; 0x5bdeae1d;
   0x9b64c2b0; 0xec63f226; 0x756aa39c; 0x026d930a; 0x9c0906a9; 0xeb0e363f;
   0x72076785; 0x05005713; 0x95bf4a82; 0xe2b87a14; 0x7bb12bae; 0x0cb61b38;
   0x92d28e9b; 0xe5d5be0d; 0x7cdcefb7; 0x0bdbdf21; 0x86d3d2d4; 0xf1d4e242;
   0x68ddb3f8; 0x1fda836e; 0x81be16cd; 0xf6b9265b; 0x6fb077e1; 0x18b74777;
   0x88085ae6; 0xff0f6a70; 0x66063bca; 0x11010b5c; 0x8f659eff; 0xf862ae69;
   0x616bffd3; 0x166ccf45; 0xa00ae278; 0xd70dd2ee; 0x4e048354; 0x3903b3c2;
   0xa7672661; 0xd06016f7; 0x4969474d; 0x3e6e77db; 0xaed16a4a; 0xd9d65adc;
   0x40df0b66; 0x37d83bf0; 0xa9bcae53; 0xdebb9ec5; 0x47b2cf7f; 0x30b5ffe9;
   0xbdbdf21c; 0xcabac28a; 0x53b39330; 0x24b4a3a6; 0xbad03605; 0xcdd70693;
   0x54de5729; 0x23d967bf; 0xb3667a2e; 0xc4614ab8; 0x5d681b02; 0x2a6f2b94;
   0xb40bbe37; 0xc30c8ea1; 0x5a05df1b; 0x2d02ef8d].

(** One iteration of the loop: [crc32_table[(crc ^ *p++) & 0xFF] ^ (crc >> 8)]. *)
Definition crc32_step (crc b : Z) : Z :=
  Z.lxor (nth (Z.to_nat (Z.land (Z.lxor crc b) 0xFF)) crc32_table 0) (Z.shiftr crc 8).

(** [~0U]. *)
Definition ones32 : Z := 0xFFFFFFFF.

Definition fdb_calc_crc32 (crc : Z) (buf : list Z) : Z :=
  Z.lxor (fold_left crc32_step buf (Z.lxor crc ones32)) ones32.

(** ** The checksum, bit by bit *)

(** The reflected generator polynomial of CRC-32. *)
Definition crc_poly : Z := 0xEDB88320.

Definition crc_bit (r : Z) : Z :=
  if Z.odd r then Z.lxor (Z.shiftr r 1) crc_poly else Z.shiftr r 1.

Definition crc_bits (n : nat) (r : Z) : Z := Nat.iter n crc_bit r.

Definition crc_byte (r b : Z) : Z := crc_bits 8 (Z.lxor r b).

Definition crc32_spec (crc : Z) (buf : list Z) : Z :=
  Z.lxor (fold_left crc_byte buf (Z.lxor crc ones32)) ones32.

Definition word32 (z : Z) : Prop := 0 <= z < 4294967296.

(** ** Bounds *)

Lemma word32_alt z : word32 z <-> Z.land z ones32 = z /\ 0 <= z.
Proof.
  change ones32 with (Z.ones 32). unfold word32. rewrite Z.land_ones by lia.
  change (2 ^ 32) with 4294967296. split.
  - intros. rewrite Z.mod_small; lia.
  - intros [H ?]. pose proof (Z.mod_pos_bound z 4294967296). lia.
Qed.

Lemma word32_lxor a b : word32 a -> word32 b -> word32 (Z.lxor a b).
Proof.
  rewrite !word32_alt. intros [Ha ?] [Hb ?]. split.
  - rewrite <- Ha at 2. rewrite <- Hb at 2.
    rewrite !(Z.land_comm _ ones32). apply Z.bits_inj'. intros n Hn.
    rewrite !Z.land_spec, !Z.lxor_spec, !Z.land_spec.
    by destruct (Z.testbit ones32 n), (Z.testbit a n), (Z.testbit b n).
  - by apply Z.lxor_nonneg.
Qed.

Lemma word32_shiftr a n : 0 <= n -> word32 a -> word32 (Z.shiftr a n).
Proof.
  unfold word32. intros Hn [? ?]. rewrite Z.shiftr_div_pow2 by done.
  assert (0 < 2 ^ n) by (apply Z.pow_pos_nonneg; lia).
  split; [apply Z.div_pos; lia|]. apply Z.div_lt_upper_bound; nia.
Qed.

Lemma word32_byte b : is_byte b -> word32 b.
Proof. unfold is_byte, word32. lia. Qed.

Lemma word32_crc_bit r : word32 r -> word32 (crc_bit r).
Proof.
  intros H. unfold crc_bit. pose proof (word32_shiftr r 1 ltac:(lia) H).
  destruct (Z.odd r); [|done]. apply word32_lxor; [done|]. unfold word32, crc_poly. lia.
Qed.

Lemma word32_crc_bits n r : word32 r -> word32 (crc_bits n r).
Proof. intros H. induction n; simpl; [done|]. by apply word32_crc_bit. Qed.

Lemma word32_ones : word32 ones32.
Proof. unfold word32, ones32. lia. Qed.

#[local] Hint Resolve word32_lxor word32_byte word32_crc_bits word32_ones : fdb.

Lemma word32_fold buf r : bytes buf -> word32 r -> word32 (fold_left crc_byte buf r).
Proof.
  intros Hb. revert r. induction Hb; intros r Hr; simpl; [done|].
  apply IHHb. unfold crc_byte. auto with fdb.
Qed.

(** ** Linearity *)

Lemma crc_bit_lxor a b : crc_bit (Z.lxor a b) = Z.lxor (crc_bit a) (crc_bit b).
Proof.
  unfold crc_bit. rewrite <- !Z.bit0_odd, Z.lxor_spec, Z.shiftr_lxor.
  destruct (Z.testbit a 0), (Z.testbit b 0); simpl; apply Z.bits_inj'; intros n Hn;
    rewrite ?Z.lxor_spec;
    destruct (Z.testbit (Z.shiftr a 1) n), (Z.testbit (Z.shiftr b 1) n), (Z.testbit crc_poly n);
    done.
Qed.

Lemma crc_bits_lxor n a b : crc_bits n (Z.lxor a b) = Z.lxor (crc_bits n a) (crc_bits n b).
Proof. unfold crc_bits. induction n; simpl; [done|]. by rewrite IHn, crc_bit_lxor. Qed.

(** A register whose low [n] bits are clear is only shifted. *)
Lemma crc_bits_shift n r : crc_bits n (Z.shiftl r (Z.of_nat n)) = r.
Proof.
  revert r. induction n as [|n IH]; intros r; [apply Z.shiftl_0_r|].
  unfold crc_bits. rewrite Nat.iter_succ_r.
  replace (crc_bit (Z.shiftl r (Z.of_nat (S n)))) with (Z.shiftl r (Z.of_nat n)); [apply IH|].
  unfold crc_bit. rewrite <- Z.bit0_odd, Z.shiftl_spec_low by lia.
  rewrite Z.shiftr_shiftl_l by lia. f_equal. lia.
Qed.

(** A register splits in its low byte and the rest. *)
Lemma split_low8 r : r = Z.lxor (Z.land r 0xFF) (Z.shiftl (Z.shiftr r 8) 8).
Proof.
  apply Z.bits_inj'. intros n Hn.
  rewrite Z.lxor_spec, Z.land_spec. change 0xFF with (Z.ones 8).
  destruct (decide (n < 8)).
  - rewrite Z.shiftl_spec_low, Z.ones_spec_low by lia. by rewrite xorb_false_r, andb_true_r.
  - rewrite Z.shiftl_spec, Z.shiftr_spec, Z.ones_spec_high by lia.
    rewrite andb_false_r, xorb_false_l. f_equal. lia.
Qed.

Lemma crc_table_correct : crc32_table = map (fun i => crc_bits 8 (Z.of_nat i)) (seq 0 256).
Proof. vm_compute. reflexivity. Qed.

Lemma crc_table_nth z : 0 <= z < 256 -> nth (Z.to_nat z) crc32_table 0 = crc_bits 8 z.
Proof.
  intros Hz. rewrite crc_table_correct.
  rewrite nth_indep with (d' := (fun i => crc_bits 8 (Z.of_nat i)) 0%nat)
    by (rewrite length_map, length_seq; lia).
  rewrite (map_nth (fun i => crc_bits 8 (Z.of_nat i))), seq_nth by lia.
  f_equal. lia.
Qed.

Lemma crc_step_byte r b : 0 <= r -> is_byte b -> crc32_step r b = crc_byte r b.
Proof.
  unfold is_byte. intros Hr Hb. unfold crc32_step, crc_byte.
  rewrite (split_low8 (Z.lxor r b)) at 2.
  rewrite crc_bits_lxor, (crc_bits_shift 8).
  rewrite crc_table_nth.
  - f_equal. rewrite Z.shiftr_lxor, (Z.shiftr_div_pow2 b) by lia.
    change (2 ^ 8) with 256. by rewrite Z.div_small, Z.lxor_0_r by lia.
  - change 0xFF with (Z.ones 8). rewrite Z.land_ones by lia. apply Z.mod_pos_bound. lia.
Qed.

Lemma crc_fold_spec buf r :
  bytes buf -> word32 r -> fold_left crc32_step buf r = fold_left crc_byte buf r.
Proof.
  intros Hb. revert r. induction Hb as [|b buf Hb Hbuf IH]; intros r Hr; simpl; [done|].
  rewrite crc_step_byte by (unfold word32 in Hr; lia || done).
  apply IH. unfold crc_byte. auto with fdb.
Qed.

(** ** Injectivity of the register update *)

Lemma crc_bit_top r : word32 r -> Z.testbit (crc_bit r) 31 = Z.odd r.
Proof.
  intros H. unfold crc_bit.
  assert (Z.testbit (Z.shiftr r 1) 31 = false) as Ht.
  { rewrite Z.shiftr_spec by lia. unfold word32 in H.
    destruct (decide (r = 0)) as [->|]; [apply Z.testbit_0_l|].
    apply Z.bits_above_log2; [lia|].
    apply Z.log2_lt_pow2; [lia|]. change (2 ^ (31 + 1)) with 4294967296. lia. }
  destruct (Z.odd r); [|done]. rewrite Z.lxor_spec, Ht. done.
Qed.

Lemma odd_shiftr_inj a b : Z.odd a = Z.odd b -> Z.shiftr a 1 = Z.shiftr b 1 -> a = b.
Proof.
  intros Ho Hs. rewrite <- !Z.div2_spec in Hs.
  rewrite (Z.div2_odd a), (Z.div2_odd b). congruence.
Qed.

Lemma crc_bit_inj a b : word32 a -> word32 b -> crc_bit a = crc_bit b -> a = b.
Proof.
  intros Ha Hb E.
  assert (Z.odd a = Z.odd b) as Ho by (rewrite <- !crc_bit_top by done; congruence).
  apply odd_shiftr_inj; [done|]. unfold crc_bit in E. rewrite Ho in E.
  destruct (Z.odd b); [|done].
  apply (f_equal (fun z => Z.lxor z crc_poly)) in E.
  by rewrite !Z.lxor_assoc, !Z.lxor_nilpotent, !Z.lxor_0_r in E.
Qed.

Lemma crc_bits_inj n a b : word32 a -> word32 b -> crc_bits n a = crc_bits n b -> a = b.
Proof.
  intros Ha Hb. induction n as [|n IH]; simpl; [done|]. intros E.
  apply IH, crc_bit_inj; [by apply word32_crc_bits..|done].
Qed.

Lemma lxor_inj_r r a b : Z.lxor r a = Z.lxor r b -> a = b.
Proof.
  intros E. apply (f_equal (Z.lxor r)) in E.
  by rewrite <- !Z.lxor_assoc, !Z.lxor_nilpotent, !Z.lxor_0_l in E.
Qed.

Lemma crc_fold_inj s a b :
  bytes s -> word32 a -> word32 b ->
  fold_left crc_byte s a = fold_left crc_byte s b -> a = b.
Proof.
  intros Hs. revert a b. induction Hs as [|x s Hx Hs IH]; intros a b Ha Hb; simpl; [done|].
  intros E. apply IH in E; [|unfold crc_byte; auto with fdb..].
  unfold crc_byte in E. apply crc_bits_inj in E; [|auto with fdb..].
  rewrite !(Z.lxor_comm _ x) in E. by apply lxor_inj_r in E.
Qed.

(** A run of bytes enters the register as one integer. *)
Lemma byte_lxor_shiftl b v : is_byte b -> 0 <= v -> b + 256 * v = Z.lxor b (Z.shiftl v 8).
Proof.
  unfold is_byte. intros Hb Hv. rewrite (split_low8 (b + 256 * v)). f_equal.
  - change 0xFF with (Z.ones 8). rewrite Z.land_ones by lia. change (2 ^ 8) with 256.
    rewrite (Z.mul_comm 256), Z.mod_add, Z.mod_small; lia.
  - f_equal. rewrite Z.shiftr_div_pow2 by lia. change (2 ^ 8) with 256.
    rewrite (Z.mul_comm 256), Z.div_add, Z.div_small; lia.
Qed.

Lemma crc_bits_add n m r : crc_bits n (crc_bits m r) = crc_bits (n + m) r.
Proof. unfold crc_bits. by rewrite Nat.iter_add. Qed.

Lemma crc_fold_run d r :
  bytes d -> fold_left crc_byte d r = crc_bits (8 * length d) (Z.lxor r (le_value d)).
Proof.
  intros Hd. revert r. induction Hd as [|b d Hb Hd IH]; intros r; simpl fold_left.
  - simpl. by rewrite Z.lxor_0_r.
  - rewrite IH. unfold crc_byte.
    pose proof (le_value_range d Hd) as [Hv _].
    cbn [le_value]. rewrite byte_lxor_shiftl, <- Z.lxor_assoc by done.
    replace (8 * length (b :: d))%nat with (8 * length d + 8)%nat by (simpl; lia).
    rewrite <- crc_bits_add. f_equal. rewrite (crc_bits_lxor 8 (Z.lxor r b)).
    by rewrite (crc_bits_shift 8).
Qed.

Lemma crc_run_inj d d' r :
  bytes d -> bytes d' -> length d = length d' -> (length d <= 4)%nat -> word32 r ->
  fold_left crc_byte d r = fold_left crc_byte d' r -> d = d'.
Proof.
  intros Hd Hd' Hl H4 Hr E. rewrite !crc_fold_run, <- Hl in E by done.
  assert (forall l, bytes l -> length l = length d -> word32 (le_value l)) as Hw.
  { intros l Hb Hll. pose proof (le_value_range l Hb) as [? Hv]. unfold word32. split; [done|].
    eapply Z.lt_le_trans; [done|]. change 4294967296 with (256 ^ 4).
    apply Z.pow_le_mono_r; unfold len; lia. }
  apply crc_bits_inj in E; [|auto with fdb..].
  apply lxor_inj_r in E.
  rewrite <- (le_bytes_value d), <- (le_bytes_value d'), E, Hl by done. done.
Qed.

(** ** Properties *)

(** C33: the table-driven [fdb_calc_crc32] computes, for every start value and
    every buffer, the bit-by-bit CRC-32 of the reflected polynomial
    [0xEDB88320], and its value fits in 32 bits. *)
Theorem fdb_calc_crc32_correct crc buf :
  word32 crc -> bytes buf ->
  fdb_calc_crc32 crc buf = crc32_spec crc buf /\ word32 (fdb_calc_crc32 crc buf).
Proof.
  intros Hc Hb. unfold fdb_calc_crc32, crc32_spec.
  rewrite crc_fold_spec by auto with fdb. split; [done|].
  apply word32_lxor; [apply word32_fold|]; auto with fdb.
Qed.

Lemma fdb_calc_crc32_correct_witness :
  fdb_calc_crc32 0 [49; 50; 51; 52; 53; 54; 55; 56; 57] = 0xCBF43926 /\
  crc32_spec 0 [49; 50; 51; 52; 53; 54; 55; 56; 57] = 0xCBF43926.
Proof.
  destruct (fdb_calc_crc32_correct 0 [49; 50; 51; 52; 53; 54; 55; 56; 57]) as [H _].
  - unfold word32. lia.
  - repeat constructor; lia.
  - split; [vm_compute; reflexivity|]. rewrite <- H. vm_compute. reflexivity.
Defined.

(** The checksum of a buffer read in pieces: this is how [read_kv] and
    [create_kv_blob] accumulate it. *)
Lemma fdb_calc_crc32_app crc a b :
  fdb_calc_crc32 (fdb_calc_crc32 crc a) b = fdb_calc_crc32 crc (a ++ b).
Proof.
  unfold fdb_calc_crc32. rewrite fold_left_app. f_equal. f_equal.
  by rewrite Z.lxor_assoc, Z.lxor_nilpotent, Z.lxor_0_r.
Qed.

Lemma fdb_calc_crc32_nil crc : fdb_calc_crc32 crc [] = crc.
Proof. unfold fdb_calc_crc32. simpl. by rewrite Z.lxor_assoc, Z.lxor_nilpotent, Z.lxor_0_r. Qed.

Lemma fdb_calc_crc32_word32 crc buf :
  word32 crc -> bytes buf -> word32 (fdb_calc_crc32 crc buf).
Proof.
  intros. unfold fdb_calc_crc32. rewrite crc_fold_spec by auto with fdb.
  apply word32_lxor; [apply word32_fold|]; auto with fdb.
Qed.


