(* ===== verification/Status.v ===== *)
(** Status tables of [src/fdb_utils.c]: [_fdb_set_status], [_fdb_get_status],
    for every write granularity, and the alignment macros of
    [inc/fdb_low_lvl.h].

    A status is the number of leading cells of the table that were written, so
    a state machine advances by programming one more cell and never needs an
    erase.  With one-bit granularity a cell is a bit (most significant first),
    otherwise the first byte of a group of [gran / 8] bytes. *)
From S2P Require Import Prelude FdbDef.

(** [FDB_STATUS_TABLE_SIZE]. *)
Definition FDB_STATUS_TABLE_SIZE (gran status_number : Z) : Z :=
  if gran =? 1 then (status_number * gran + 7) / 8
  else ((status_number - 1) * gran + 7) / 8.

(** [FDB_WG_ALIGN] and [FDB_WG_ALIGN_DOWN]. *)
Definition FDB_WG_ALIGN (gran size : Z) : Z := FDB_ALIGN size ((gran + 7) / 8).
Definition FDB_WG_ALIGN_DOWN (gran size : Z) : Z := FDB_ALIGN_DOWN size ((gran + 7) / 8).

(** The table filled by [_fdb_set_status] and the byte index it returns;
    [None] is [SIZE_MAX]. *)
Definition _fdb_set_status (gran status_num status_index : Z) : list Z * option Z :=
  let status_table := replicate (Z.to_nat (FDB_STATUS_TABLE_SIZE gran status_num)) FDB_BYTE_ERASED in
  if 0 <? status_index then
    if gran =? 1 then
      let byte_index := (status_index - 1) / 8 in
      (alter (fun b => Z.land b (Z.shiftr 0x00ff (status_index mod 8)))
             (Z.to_nat byte_index) status_table, Some byte_index)
    else
      let byte_index := (status_index - 1) * (gran / 8) in
      (<[Z.to_nat byte_index := FDB_BYTE_WRITTEN]> status_table, Some byte_index)
  else (status_table, None).

(** The test of the loop of [_fdb_get_status]: cell [n] was written. *)
Definition status_cell_written (gran : Z) (status_table : list Z) (n : Z) : bool :=
  if gran =? 1 then
    Z.land (nth (Z.to_nat (n / 8)) status_table 0) (Z.shiftr 0x80 (n mod 8)) =? 0x00
  else
    nth (Z.to_nat (n * gran / 8)) status_table 0 =? FDB_BYTE_WRITTEN.

(** The loop [while (status_num --)]: [n] is [status_num], [i] the counter. *)
Fixpoint get_status_loop (gran : Z) (status_table : list Z) (n : nat) (i : Z) : Z :=
  match n with
  | O => i
  | S n => if status_cell_written gran status_table (Z.of_nat n) then i
           else get_status_loop gran status_table n (i + 1)
  end.

Definition _fdb_get_status (gran : Z) (status_table : list Z) (status_num : Z) : Z :=
  let status_num_bak := status_num - 1 in
  status_num_bak - get_status_loop gran status_table (Z.to_nat status_num_bak) 0.

(** ** Specification *)

(** The granularities the build accepts. *)
Definition valid_gran (gran : Z) : Prop := In gran [1; 8; 32; 64; 128; 256].

(** A status is the position of the last written cell, plus one. *)
Definition status_spec (gran : Z) (t : list Z) (num s : Z) : Prop :=
  0 <= s < num /\
  (s = 0 \/ status_cell_written gran t (s - 1) = true) /\
  (forall n, s <= n < num - 1 -> status_cell_written gran t n = false).

Lemma get_status_loop_spec gran t n i :
  let k := get_status_loop gran t n i - i in
  0 <= k <= Z.of_nat n /\
  (k = Z.of_nat n \/ status_cell_written gran t (Z.of_nat n - k - 1) = true) /\
  (forall j, Z.of_nat n - k <= j < Z.of_nat n -> status_cell_written gran t j = false).
Proof.
  revert i. induction n as [|n IH]; intros i; cbn [get_status_loop].
  - repeat split; try lia.
  - destruct (status_cell_written gran t (Z.of_nat n)) eqn:E.
    + replace (i - i) with 0 by lia. repeat split; try lia.
      right. rewrite <- E. f_equal; lia.
    + destruct (IH (i + 1)) as (Hk & Hw & Hu). cbv zeta in *.
      set (k := get_status_loop gran t n (i + 1) - (i + 1)) in *.
      replace (get_status_loop gran t n (i + 1) - i) with (k + 1) by lia.
      repeat split; try lia.
      * destruct Hw as [?|Hw]; [lia|]. right. rewrite <- Hw. f_equal; lia.
      * intros j Hj. destruct (decide (j = Z.of_nat n)) as [->|]; [done|]. apply Hu. lia.
Qed.

Lemma get_status_spec gran t num : 0 < num -> status_spec gran t num (_fdb_get_status gran t num).
Proof.
  intros Hn. unfold _fdb_get_status, status_spec.
  destruct (get_status_loop_spec gran t (Z.to_nat (num - 1)) 0) as (Hk & Hw & Hu).
  cbv zeta in *. rewrite Z.sub_0_r in *. rewrite Z2Nat.id in * by lia.
  set (k := get_status_loop _ _ _ _) in *.
  repeat split; [lia|lia| |].
  - destruct Hw as [?|Hw]; [left; lia|right]. rewrite <- Hw. f_equal; lia.
  - intros n Hnn. apply Hu. lia.
Qed.

Lemma status_spec_unique gran t num s s' :
  status_spec gran t num s -> status_spec gran t num s' -> s = s'.
Proof.
  intros (H1 & H2 & H3) (H1' & H2' & H3').
  destruct (Z.lt_trichotomy s s') as [Hlt|[|Hlt]]; [|done|].
  - destruct H2' as [?|H2']; [lia|]. rewrite H3 in H2' by lia. done.
  - destruct H2 as [?|H2]; [lia|]. rewrite H3' in H2 by lia. done.
Qed.

(** ** Reading back a status that was set *)

(** Case analysis on an integer known to lie in [0, 8). *)
Ltac cases8 k :=
  let H := fresh in
  assert (k = 0 \/ k = 1 \/ k = 2 \/ k = 3 \/ k = 4 \/ k = 5 \/ k = 6 \/ k = 7) as H by lia;
  destruct_or! H; subst k.

Lemma land_shiftr_ff s : 0 <= s < 8 -> Z.land 0xFF (Z.shiftr 0x00ff s) = Z.shiftr 0xff s.
Proof. intros. by cases8 s. Qed.

Lemma cell_bit_erased k : 0 <= k < 8 -> (Z.land 0xFF (Z.shiftr 0x80 k) =? 0) = false.
Proof. intros. by cases8 k. Qed.

(** Bit [k] (from the top) of a byte whose [s] leading bits were programmed. *)
Lemma cell_bit_written s k :
  0 <= s < 8 -> 0 <= k < 8 ->
  (Z.land (Z.shiftr 0xff s) (Z.shiftr 0x80 k) =? 0) = (k <? s).
Proof. intros. cases8 s; by cases8 k. Qed.

Lemma nth_replicate_Z n (i : nat) x : (i < n)%nat -> nth i (replicate n x) 0 = x.
Proof. intros H. apply nth_lookup_Some. by apply lookup_replicate_2. Qed.

(** The cells of a table set to [idx]: with one-bit granularity, bits up to
    [idx] of the last byte only; the get loop looks at the last cell. *)
Lemma set_status_cells gran num idx :
  valid_gran gran -> 0 < idx < num -> (gran = 1 -> idx mod 8 <> 0) ->
  status_spec gran (fst (_fdb_set_status gran num idx)) num idx.
Proof.
  intros Hg Hidx Hmod. unfold _fdb_set_status, status_spec, status_cell_written.
  rewrite (proj2 (Z.ltb_lt 0 idx)) by lia.
  destruct (gran =? 1) eqn:E1; cbn [fst].
  - apply Z.eqb_eq in E1 as ->. specialize (Hmod eq_refl).
    unfold FDB_STATUS_TABLE_SIZE. rewrite Z.eqb_refl.
    assert (idx mod 8 = (idx - 1) mod 8 + 1 /\ idx / 8 = (idx - 1) / 8) as [Em Ed].
    { pose proof (Z.div_mod idx 8). pose proof (Z.mod_pos_bound idx 8).
      destruct (div_mod_eq (idx - 1) 8 (idx / 8) (idx mod 8 - 1)); lia. }
    assert (forall n, 0 <= n < num -> (Z.to_nat (n / 8) < Z.to_nat ((num * 1 + 7) / 8))%nat) as Hsz.
    { intros n Hn. apply Z2Nat.inj_lt; [apply Z.div_pos; lia..|].
      pose proof (Z.div_le_mono (n + 8) (num * 1 + 7) 8 ltac:(lia) ltac:(lia)) as Hle.
      replace (n + 8) with (n + 1 * 8) in Hle by lia. rewrite Z.div_add in Hle by lia. lia. }
    assert (forall n, 0 <= n < num - 1 ->
      nth (Z.to_nat (n / 8)) (alter (fun b => Z.land b (Z.shiftr 255 (idx mod 8)))
        (Z.to_nat ((idx - 1) / 8))
        (replicate (Z.to_nat ((num * 1 + 7) / 8)) FDB_BYTE_ERASED)) 0 =
      if decide (n / 8 = (idx - 1) / 8) then Z.shiftr 0xff (idx mod 8) else 0xFF) as Hnth.
    { intros n Hn. apply nth_lookup_Some. rewrite list_lookup_alter.
      rewrite !lookup_replicate_2 by (apply Hsz; lia).
      pose proof (Z.div_pos n 8). pose proof (Z.div_pos (idx - 1) 8).
      repeat case_decide; try lia; [|done].
      cbn [fmap option_fmap option_map].
      unfold FDB_BYTE_ERASED. cbv beta. rewrite land_shiftr_ff; [done|]. apply Z.mod_pos_bound. lia. }
    repeat split; [lia|lia| |].
    + right. rewrite Hnth by lia. rewrite decide_True by done.
      rewrite cell_bit_written by (apply Z.mod_pos_bound; lia). apply Z.ltb_lt. lia.
    + intros n Hn. rewrite Hnth by lia. case_decide as Hd.
      * rewrite cell_bit_written by (apply Z.mod_pos_bound; lia). apply Z.ltb_ge.
        pose proof (Z.div_mod n 8). pose proof (Z.div_mod idx 8). lia.
      * apply cell_bit_erased. apply Z.mod_pos_bound. lia.
  - assert (exists k, 0 < k /\ gran = 8 * k) as (k & Hk & ->).
    { unfold valid_gran in Hg. simpl in Hg. destruct_or! Hg; subst; try done;
        [exists 1|exists 4|exists 8|exists 16|exists 32]; lia. }
    unfold FDB_STATUS_TABLE_SIZE. rewrite E1.
    replace (8 * k / 8) with k by (rewrite Z.mul_comm, Z.div_mul; lia).
    assert (forall n, n * (8 * k) / 8 = n * k) as Hc.
    { intros n. replace (n * (8 * k)) with (n * k * 8) by lia. by rewrite Z.div_mul by lia. }
    replace (((num - 1) * (8 * k) + 7) / 8) with ((num - 1) * k).
    2:{ replace ((num - 1) * (8 * k) + 7) with (7 + (num - 1) * k * 8) by lia.
        rewrite Z.div_add by lia. done. }
    assert (forall n, 0 <= n < num - 1 -> (Z.to_nat (n * k) < Z.to_nat ((num - 1) * k))%nat) as Hlt.
    { intros n Hn. apply Z2Nat.inj_lt; nia. }
    repeat split; [lia|lia| |].
    + right. rewrite Hc. apply Z.eqb_eq, nth_lookup_Some.
      apply list_lookup_insert_eq. rewrite length_replicate. apply Hlt. lia.
    + intros n Hn. rewrite Hc. apply Z.eqb_neq.
      rewrite (nth_lookup_Some _ _ 0 FDB_BYTE_ERASED); [done|].
      rewrite list_lookup_insert_ne by nia. apply lookup_replicate_2, Hlt. lia.
Qed.

(** The table of a status that programs no cell. *)
Lemma erased_status gran num :
  valid_gran gran -> 0 < num ->
  status_spec gran (replicate (Z.to_nat (FDB_STATUS_TABLE_SIZE gran num)) FDB_BYTE_ERASED) num 0.
Proof.
  intros Hg Hn. unfold status_spec. repeat split; [lia..|by left|].
  intros n Hr. unfold status_cell_written, FDB_STATUS_TABLE_SIZE.
  destruct (gran =? 1) eqn:E1.
  - apply Z.eqb_eq in E1 as ->.
    rewrite nth_replicate_Z; [apply cell_bit_erased, Z.mod_pos_bound; lia|].
    apply Z2Nat.inj_lt; [apply Z.div_pos; lia..|].
    pose proof (Z.div_le_mono (n + 8) (num * 1 + 7) 8 ltac:(lia) ltac:(lia)) as Hle.
    replace (n + 8) with (n + 1 * 8) in Hle by lia. rewrite Z.div_add in Hle by lia. lia.
  - rewrite nth_replicate_Z; [done|].
    assert (8 <= gran) as Hg8 by
      (unfold valid_gran in Hg; simpl in Hg; destruct_or! Hg; subst; try lia; done).
    apply Z2Nat.inj_lt; [apply Z.div_pos; nia..|].
    pose proof (Z.div_le_mono ((n + 1) * gran) ((num - 1) * gran + 7) 8 ltac:(lia) ltac:(nia)) as Hle.
    eapply Z.lt_le_trans; [|exact Hle].
    apply Z.div_lt_upper_bound; [lia|].
    pose proof (Z.div_mod ((n + 1) * gran) 8). pose proof (Z.mod_pos_bound ((n + 1) * gran) 8). nia.
Qed.

(** A one-bit table set to a multiple of eight programs no cell at all. *)
Lemma set_status_mult8 num idx :
  0 < idx < num -> idx mod 8 = 0 ->
  fst (_fdb_set_status 1 num idx) =
  replicate (Z.to_nat (FDB_STATUS_TABLE_SIZE 1 num)) FDB_BYTE_ERASED.
Proof.
  intros Hi Hm. unfold _fdb_set_status. rewrite (proj2 (Z.ltb_lt 0 idx)), Hm by lia.
  cbn [Z.eqb Pos.eqb fst]. apply list_eq. intros i. rewrite list_lookup_alter.
  case_decide; [|done]. subst.
  destruct (replicate _ _ !! _) eqn:E; [|done]. apply lookup_replicate in E as [-> _]. done.
Qed.

(** ** Programming a table twice *)

Definition program_cells (t t' : list Z) : list Z := zip_with Z.land t t'.

Lemma set_status_length gran num idx :
  length (fst (_fdb_set_status gran num idx)) = Z.to_nat (FDB_STATUS_TABLE_SIZE gran num).
Proof.
  unfold _fdb_set_status. destruct (0 <? idx); [destruct (gran =? 1)|]; cbn [fst];
    rewrite ?length_alter, ?length_insert; apply length_replicate.
Qed.

Lemma nth_program t t' i :
  length t = length t' -> nth i (program_cells t t') 0 = Z.land (nth i t 0) (nth i t' 0).
Proof.
  unfold program_cells. revert t' i. induction t as [|x t IH]; intros [|y t'] [|i] Hl; simpl in *;
    try done. apply IH. lia.
Qed.

(** With wider cells, every byte of a table is erased or written. *)
Lemma set_status_cell_values gran num idx i :
  gran <> 1 -> nth i (fst (_fdb_set_status gran num idx)) 0 ∈ [0; 0xFF].
Proof.
  intros Hg. unfold _fdb_set_status. rewrite (proj2 (Z.eqb_neq gran 1)) by done.
  assert (forall n, nth i (replicate n 0xFF) 0 ∈ [0; 0xFF]) as Hr.
  { intros n. destruct (decide (i < n)%nat).
    - rewrite nth_replicate_Z by done. set_solver.
    - rewrite nth_overflow by (rewrite length_replicate; lia). set_solver. }
  destruct (0 <? idx); cbn [fst]; [|apply Hr].
  set (k := Z.to_nat ((idx - 1) * (gran / 8))).
  set (t := replicate _ FDB_BYTE_ERASED).
  destruct (decide (i = k /\ (k < length t)%nat)) as [[-> Hlt]|Hne].
  - rewrite (nth_lookup_Some _ _ 0 0); [set_solver|]. by apply list_lookup_insert_eq.
  - assert (nth i (<[k:=FDB_BYTE_WRITTEN]> t) 0 = nth i t 0) as ->; [|apply Hr].
    rewrite !nth_lookup. f_equal. destruct (decide (i = k)) as [->|].
    + rewrite list_insert_ge by lia. done.
    + by rewrite list_lookup_insert_ne by done.
Qed.

Lemma program_cell_written gran t t' n :
  length t = length t' ->
  (gran <> 1 -> forall i, nth i t 0 ∈ [0; 0xFF]) ->
  (gran <> 1 -> forall i, nth i t' 0 ∈ [0; 0xFF]) ->
  0 <= n ->
  status_cell_written gran (program_cells t t') n =
    status_cell_written gran t n || status_cell_written gran t' n.
Proof.
  intros Hl Ht Ht' Hn. unfold status_cell_written. destruct (gran =? 1) eqn:E1.
  - rewrite nth_program by done. pose proof (Z.mod_pos_bound n 8 ltac:(lia)).
    set (k := n mod 8) in *.
    assert (forall x, (Z.land x (Z.shiftr 0x80 k) =? 0) = negb (Z.testbit x (7 - k))) as Hb.
    { clearbody k. intros x.
      assert (Z.shiftr 0x80 k = Z.shiftl 1 (7 - k)) as -> by (by cases8 k).
      rewrite Z.land_comm. destruct (Z.testbit x (7 - k)) eqn:Et; simpl.
      - apply Z.eqb_neq. intros E. apply (f_equal (fun z => Z.testbit z (7 - k))) in E.
        rewrite Z.land_spec, Z.shiftl_spec, Z.sub_diag, Et, Z.testbit_0_l in E by lia. done.
      - apply Z.eqb_eq, Z.bits_inj'. intros j Hj. rewrite Z.land_spec, Z.testbit_0_l.
        rewrite Z.shiftl_spec by done. destruct (decide (j = 7 - k)) as [->|].
        + rewrite Et. apply andb_false_r.
        + assert (Z.testbit 1 (j - (7 - k)) = false) as ->; [|done].
          destruct (decide (j < 7 - k)); [apply Z.testbit_neg_r; lia|].
          change 1 with (2 ^ 0). apply Z.pow2_bits_false. lia. }
    rewrite !Hb, Z.land_spec. apply negb_andb.
  - apply Z.eqb_neq in E1. rewrite nth_program by done.
    pose proof (Ht E1 (Z.to_nat (n * gran / 8))) as H1.
    pose proof (Ht' E1 (Z.to_nat (n * gran / 8))) as H2.
    set (x := nth _ t 0) in *. set (y := nth _ t' 0) in *.
    assert (x = 0 \/ x = 0xFF) as Hx by set_solver.
    assert (y = 0 \/ y = 0xFF) as Hy by set_solver.
    destruct Hx as [-> | ->], Hy as [-> | ->]; done.
Qed.

Lemma set_status_any gran num idx :
  valid_gran gran -> 0 <= idx < num -> (gran = 1 -> idx = 0 \/ idx mod 8 <> 0) ->
  status_spec gran (fst (_fdb_set_status gran num idx)) num idx.
Proof.
  intros Hg Hi Hm. destruct (decide (idx = 0)) as [->|].
  - apply erased_status; [done|lia].
  - apply set_status_cells; [done|lia|]. intros E. by destruct (Hm E).
Qed.

(** ** Properties *)

(** C32: a status that was set is the status read back, for every write
    granularity; the only exception is a one-bit table set to a positive
    multiple of eight, which reads back as status 0 (no table of the database
    has so many statuses). *)
Theorem status_roundtrip gran num idx :
  valid_gran gran -> 0 <= idx < num ->
  _fdb_get_status gran (fst (_fdb_set_status gran num idx)) num =
    if (gran =? 1) && (idx mod 8 =? 0) then 0 else idx.
Proof.
  intros Hg Hi.
  destruct ((gran =? 1) && (idx mod 8 =? 0)) eqn:E.
  - apply andb_prop in E as [E1 E2]. apply Z.eqb_eq in E1 as ->. apply Z.eqb_eq in E2.
    destruct (decide (idx = 0)) as [->|].
    + eapply status_spec_unique; [apply get_status_spec; lia|]. by apply erased_status; [|lia].
    + rewrite set_status_mult8 by (done || lia).
      eapply status_spec_unique; [apply get_status_spec; lia|]. by apply erased_status; [|lia].
  - eapply status_spec_unique; [apply get_status_spec; lia|].
    apply set_status_any; [done..|]. intros ->. apply andb_false_iff in E as [E|E]; [done|].
    right. by apply Z.eqb_neq.
Qed.

Lemma status_roundtrip_witness :
  _fdb_get_status 32 (fst (_fdb_set_status 32 6 4)) 6 = 4 /\
  _fdb_get_status 1 (fst (_fdb_set_status 1 6 5)) 6 = 5.
Proof.
  split.
  - apply (status_roundtrip 32 6 4); [vm_compute; tauto|lia].
  - apply (status_roundtrip 1 6 5); [vm_compute; tauto|lia].
Defined.

(** C31: statuses accumulate: programming the table of status [j] over the
    table of status [i] without an erase (cells only go from erased to
    written) reads back as the greater of the two, for every write
    granularity, so statuses can only advance and an interrupted or repeated
    write of an older status is harmless. *)
Theorem status_accumulates gran num i j :
  valid_gran gran -> (gran = 1 -> num <= 8) -> 0 <= i < num -> 0 <= j < num ->
  _fdb_get_status gran
    (program_cells (fst (_fdb_set_status gran num i)) (fst (_fdb_set_status gran num j))) num =
  Z.max i j.
Proof.
  intros Hg Hn Hi Hj.
  assert (forall k, 0 <= k < num -> status_spec gran (fst (_fdb_set_status gran num k)) num k) as Hs.
  { intros k Hk. apply set_status_any; [done..|]. intros E. specialize (Hn E).
    destruct (decide (k = 0)); [by left|right]. rewrite Z.mod_small; lia. }
  eapply status_spec_unique; [apply get_status_spec; lia|].
  destruct (Hs i Hi) as (_ & Hwi & Hui), (Hs j Hj) as (_ & Hwj & Huj).
  assert (forall n, 0 <= n -> status_cell_written gran
    (program_cells (fst (_fdb_set_status gran num i)) (fst (_fdb_set_status gran num j))) n =
    status_cell_written gran (fst (_fdb_set_status gran num i)) n ||
    status_cell_written gran (fst (_fdb_set_status gran num j)) n) as Hc.
  { intros n ?. apply program_cell_written; [by rewrite !set_status_length| | |done];
      intros ??; by apply set_status_cell_values. }
  repeat split; [lia..| |].
  - destruct (decide (Z.max i j = 0)); [by left|right]. rewrite Hc by lia.
    destruct (Z.max_spec i j) as [[? ->]|[? ->]].
    + destruct Hwj as [?|Hwj]; [lia|]. rewrite Hwj. apply orb_true_r.
    + destruct Hwi as [?|Hwi]; [lia|]. by rewrite Hwi.
  - intros n ?. rewrite Hc, Hui, Huj by lia. done.
Qed.

Lemma status_accumulates_witness :
  _fdb_get_status 1
    (program_cells (fst (_fdb_set_status 1 6 3)) (fst (_fdb_set_status 1 6 1))) 6 = 3.
Proof. apply (status_accumulates 1 6 3 1); [vm_compute; tauto|lia..]. Defined.
