(* ===== verification/FlashIO.v ===== *)
(** Access to the storage medium: the rest of [src/fdb_utils.c] and
    [src/fdb.c].

    [Storage] is the interface of the functions these files call in other
    files ([fdb_file.c], the FAL, [fclose]); [StorageLaws] is the contract of
    a medium that works: a flat array of bytes, programmed and erased sector by
    sector.  The databases are verified against the contract; the files that
    model a medium discharge it. *)
From S2P Require Import Prelude FdbDef Status.

(** ** Interface *)

Class Storage (W : Type) := {
  (** build configuration *)
  FDB_USING_FILE_MODE : bool;
  FDB_USING_FAL_MODE : bool;
  (** [fdb_file.c] *)
  _fdb_file_read : geom -> Z -> list Z -> M (io W) (fdb_err_t * list Z);
  _fdb_file_write : geom -> Z -> list Z -> bool -> M (io W) fdb_err_t;
  _fdb_file_erase : geom -> Z -> Z -> M (io W) fdb_err_t;
  fclose : positive -> M W unit;
  (** the FAL; a partition is its index in the partition table *)
  fal_partition_read : nat -> Z -> list Z -> M W (Z * list Z);
  fal_partition_write : nat -> Z -> list Z -> M W Z;
  fal_partition_erase : nat -> Z -> Z -> M W Z;
  fal_init : M W Z;
  fal_partition_find : string -> M W (option nat);
  fal_part_name : nat -> M W string;
  fal_part_len : nat -> M W Z;
  fal_part_blk_size : nat -> M W (option Z);  (** of the partition's device, if found *)
}.

(** The bytes an uninitialised local buffer happens to contain. *)
Class Indeterminate := indet : Z -> Z.

Definition indet_buf `{Indeterminate} (n : Z) : list Z :=
  map (fun i => indet (Z.of_nat i)) (seq 0 (Z.to_nat n)).

(** ** Parts of the database structure *)

Section fields.
Context {W : Type}.

Definition set_world (w : W) (i : io W) : io W :=
  Io (cur_file_sec i) (cur_file i) (cur_sec i) w.
Definition set_geo (g : geom) (db : fdb_db W) : fdb_db W :=
  FdbDb g (dbio db) (db_type db) (oldest_addr db) (init_ok db) (not_formatable db) (lock db)
        (unlock db) (lock_trace db) (db_user_data db).
Definition set_dbio (i : io W) (db : fdb_db W) : fdb_db W :=
  FdbDb (geo db) i (db_type db) (oldest_addr db) (init_ok db) (not_formatable db) (lock db)
        (unlock db) (lock_trace db) (db_user_data db).
Definition set_type (t : fdb_db_type) (db : fdb_db W) : fdb_db W :=
  FdbDb (geo db) (dbio db) t (oldest_addr db) (init_ok db) (not_formatable db) (lock db)
        (unlock db) (lock_trace db) (db_user_data db).
Definition set_oldest_addr (a : Z) (db : fdb_db W) : fdb_db W :=
  FdbDb (geo db) (dbio db) (db_type db) a (init_ok db) (not_formatable db) (lock db)
        (unlock db) (lock_trace db) (db_user_data db).
Definition set_init_ok (b : bool) (db : fdb_db W) : fdb_db W :=
  FdbDb (geo db) (dbio db) (db_type db) (oldest_addr db) b (not_formatable db) (lock db)
        (unlock db) (lock_trace db) (db_user_data db).
Definition set_not_formatable (b : bool) (db : fdb_db W) : fdb_db W :=
  FdbDb (geo db) (dbio db) (db_type db) (oldest_addr db) (init_ok db) b (lock db)
        (unlock db) (lock_trace db) (db_user_data db).
Definition set_lock (b : bool) (db : fdb_db W) : fdb_db W :=
  FdbDb (geo db) (dbio db) (db_type db) (oldest_addr db) (init_ok db) (not_formatable db) b
        (unlock db) (lock_trace db) (db_user_data db).
Definition set_unlock (b : bool) (db : fdb_db W) : fdb_db W :=
  FdbDb (geo db) (dbio db) (db_type db) (oldest_addr db) (init_ok db) (not_formatable db)
        (lock db) b (lock_trace db) (db_user_data db).
Definition set_lock_trace (l : list lock_event) (db : fdb_db W) : fdb_db W :=
  FdbDb (geo db) (dbio db) (db_type db) (oldest_addr db) (init_ok db) (not_formatable db)
        (lock db) (unlock db) l (db_user_data db).
Definition set_db_user_data (u : Z) (db : fdb_db W) : fdb_db W :=
  FdbDb (geo db) (dbio db) (db_type db) (oldest_addr db) (init_ok db) (not_formatable db)
        (lock db) (unlock db) (lock_trace db) u.

Definition set_sec_size (n : Z) (db : fdb_db W) : fdb_db W :=
  let g := geo db in set_geo (Geom (name g) (storage g) n (max_size g) (file_mode g)) db.
Definition set_max_size (n : Z) (db : fdb_db W) : fdb_db W :=
  let g := geo db in set_geo (Geom (name g) (storage g) (sec_size g) n (file_mode g)) db.
Definition set_file_mode (b : bool) (db : fdb_db W) : fdb_db W :=
  let g := geo db in set_geo (Geom (name g) (storage g) (sec_size g) (max_size g) b) db.
Definition set_name (s : string) (db : fdb_db W) : fdb_db W :=
  let g := geo db in set_geo (Geom s (storage g) (sec_size g) (max_size g) (file_mode g)) db.
Definition set_storage (s : db_storage) (db : fdb_db W) : fdb_db W :=
  let g := geo db in set_geo (Geom (name g) s (sec_size g) (max_size g) (file_mode g)) db.

Definition db_sec_size (db : fdb_db W) : Z := sec_size (geo db).
Definition db_max_size (db : fdb_db W) : Z := max_size (geo db).

(** [db_lock] and [db_unlock]: the user's function is called when it is set. *)
Definition db_lock : M (fdb_db W) unit :=
  modify (fun db => if lock db then set_lock_trace (lock_trace db ++ [LockCall]) db else db).
Definition db_unlock : M (fdb_db W) unit :=
  modify (fun db => if unlock db then set_lock_trace (lock_trace db ++ [UnlockCall]) db else db).

Definition with_io {A} (m : M (io W) A) : M (fdb_db W) A := zoom dbio set_dbio m.
Definition with_world {A} (m : M W A) : M (fdb_db W) A := with_io (zoom world set_world m).
End fields.

(** ** [fdb_utils.c] *)

Section utils.
Context {W} {ST : Storage W} {IN : Indeterminate}.

(** [db->storage.part]. *)
Definition storage_part_of (g : geom) : M (fdb_db W) nat :=
  match storage g with
  | storage_part p => mret p
  | _ => stuck_at Undefined
  end.

Definition _fdb_flash_read (addr : Z) (buf : list Z) : M (fdb_db W) (fdb_err_t * list Z) :=
  g ← gets geo;
  if file_mode g then
    if FDB_USING_FILE_MODE then with_io (_fdb_file_read g addr buf)
    else mret (FDB_READ_ERR, buf)
  else if FDB_USING_FAL_MODE then
    p ← storage_part_of g;
    r ← with_world (fal_partition_read p addr buf);
    mret (if fst r <? 0 then FDB_READ_ERR else FDB_NO_ERR, snd r)
  else mret (FDB_NO_ERR, buf).

Definition _fdb_flash_erase (addr size : Z) : M (fdb_db W) fdb_err_t :=
  g ← gets geo;
  if file_mode g then
    if FDB_USING_FILE_MODE then with_io (_fdb_file_erase g addr size)
    else mret FDB_ERASE_ERR
  else if FDB_USING_FAL_MODE then
    p ← storage_part_of g;
    r ← with_world (fal_partition_erase p addr size);
    mret (if r <? 0 then FDB_ERASE_ERR else FDB_NO_ERR)
  else mret FDB_NO_ERR.

Definition _fdb_flash_write (addr : Z) (buf : list Z) (sync : bool) : M (fdb_db W) fdb_err_t :=
  g ← gets geo;
  if file_mode g then
    if FDB_USING_FILE_MODE then with_io (_fdb_file_write g addr buf sync)
    else mret FDB_WRITE_ERR
  else if FDB_USING_FAL_MODE then
    p ← storage_part_of g;
    r ← with_world (fal_partition_write p addr buf);
    mret (if r <? 0 then FDB_WRITE_ERR else FDB_NO_ERR)
  else mret FDB_NO_ERR.

Definition _fdb_write_status (gran addr status_num status_index : Z) (sync : bool)
    : M (fdb_db W) fdb_err_t :=
  fdb_assert (status_index <? status_num);;
  let (status_table, byte_index) := _fdb_set_status gran status_num status_index in
  match byte_index with
  | None => mret FDB_NO_ERR
  | Some byte_index =>
      if gran =? 1 then
        _fdb_flash_write (u32 (addr + byte_index)) (slice status_table byte_index 1) sync
      else
        _fdb_flash_write (u32 (addr + byte_index)) (slice status_table byte_index (gran / 8)) sync
  end.

(** [status_table] holds the caller's buffer. *)
Definition _fdb_read_status (gran addr : Z) (status_table : list Z) (total_num : Z)
    : M (fdb_db W) Z :=
  r ← _fdb_flash_read addr status_table;
  mret (_fdb_get_status gran (snd r) total_num).

(** The inner loop of [_fdb_continue_ff_addr] over the bytes of [buf]. *)
Fixpoint ff_scan (start : Z) (buf : list Z) (i : Z) (addr last_data : Z) : Z * Z :=
  match buf with
  | [] => (addr, last_data)
  | b :: buf =>
      let addr := if negb (last_data =? FDB_BYTE_ERASED) && (b =? FDB_BYTE_ERASED)
                  then u64 (start + i) else addr in
      ff_scan start buf (i + 1) addr b
  end.

Definition _fdb_continue_ff_addr (gran start end_ : Z) : M (fdb_db W) Z :=
  loop (Z.to_nat (end_ - start) + 1)
    (fun '(start, addr, last_data, buf) =>
       if start <? end_ then
         let read_size := if start + 32 <? end_ then 32 else end_ - start in
         r ← _fdb_flash_read start (slice buf 0 read_size);
         let buf := splice buf 0 (snd r) in
         let '(addr, last_data) := ff_scan start (slice buf 0 read_size) 0 addr last_data in
         mret (inl (u32 (start + 32), addr, last_data, buf))
       else if last_data =? FDB_BYTE_ERASED then mret (inr (u32 (FDB_WG_ALIGN gran addr)))
       else mret (inr end_))
    (start, start, FDB_BYTE_WRITTEN, indet_buf 32).

Definition fdb_blob_make (blob : fdb_blob) (value_buf : option (list Z)) (buf_len : Z) : fdb_blob :=
  FdbBlob value_buf buf_len (saved_meta_addr blob) (saved_addr blob) (saved_len blob).

(** The blob with its buffer filled, and the length read. *)
Definition fdb_blob_read (blob : fdb_blob) : M (fdb_db W) (Z * fdb_blob) :=
  let read_len := if saved_len blob <? size blob then saved_len blob else size blob in
  match buf blob with
  | None => stuck_at Undefined
  | Some b =>
      r ← _fdb_flash_read (saved_addr blob) (slice b 0 read_len);
      let b := splice b 0 (snd r) in
      let blob := FdbBlob (Some b) (size blob) (saved_meta_addr blob) (saved_addr blob)
                          (saved_len blob) in
      mret (if decide (fst r = FDB_NO_ERR) then read_len else 0, blob)
  end.

Definition _fdb_flash_write_align (gran addr : Z) (buf : list Z) : M (fdb_db W) fdb_err_t :=
  let size := len buf in
  let align_data_size := if 0 <? gran / 8 then gran / 8 else 1 in
  let align_data := replicate (Z.to_nat align_data_size) FDB_BYTE_ERASED in
  let down := FDB_WG_ALIGN_DOWN gran size in
  result ← (if 0 <? down then _fdb_flash_write addr (slice buf 0 down) false
            else mret FDB_NO_ERR);
  let align_remain := u64 (size - down) in
  if decide (result = FDB_NO_ERR) then
    if align_remain =? 0 then mret result
    else
      let align_data := splice align_data 0 (slice buf down align_remain) in
      _fdb_flash_write (u32 (addr + down)) align_data false
  else mret result.
End utils.

(** ** [fdb.c] *)

Section core.
Context {W} {ST : Storage W}.

Definition reset_file_cache : M (fdb_db W) unit :=
  modify (fun db => set_dbio
    (Io (replicate (Z.to_nat FDB_FILE_CACHE_TABLE_SIZE) FDB_FAILED_ADDR)
        (replicate (Z.to_nat FDB_FILE_CACHE_TABLE_SIZE) None)
        (cur_sec (dbio db)) (world (dbio db))) db).

(** The checks on the sizes at the end of [_fdb_init_ex]. *)
Definition check_sizes : M (fdb_db W) fdb_err_t :=
  sec ← gets db_sec_size;
  max ← gets db_max_size;
  fdb_assert (Z.land sec (u32 (sec - 1)) =? 0);;
  if sec =? 0 then stuck_at Undefined          (* division by zero *)
  else if negb (max mod sec =? 0) then mret FDB_INIT_FAILED
  else if max / sec <? 2 then mret FDB_INIT_FAILED
  else mret FDB_NO_ERR.

Definition _fdb_init_ex (nm path : string) (type : fdb_db_type) (user_data : Z)
    : M (fdb_db W) fdb_err_t :=
  ok ← gets init_ok;
  if (ok : bool) then mret FDB_NO_ERR
  else
    modify (fun db => set_db_user_data user_data (set_type type (set_name nm db)));;
    g ← gets geo;
    if file_mode g then
      (if FDB_USING_FILE_MODE then
         reset_file_cache;;
         fdb_assert (negb (sec_size g =? 0));;
         fdb_assert (negb (max_size g =? 0));;
         modify (set_storage (storage_dir path));;
         fdb_assert (negb (String.length path =? 0)%nat)
       else mret tt);;
      check_sizes
    else if FDB_USING_FAL_MODE then
      with_world fal_init;;
      part ← with_world (fal_partition_find path);
      match part with
      | None => modify (set_storage storage_none);; mret FDB_PART_NOT_FOUND
      | Some p =>
          modify (set_storage (storage_part p));;
          blk ← with_world (fal_part_blk_size p);
          match blk with
          | None => stuck_at Undefined           (* NULL flash device *)
          | Some block_size =>
              if sec_size g =? 0 then
                modify (set_sec_size (u32 block_size));;
                l ← with_world (fal_part_len p);
                modify (set_max_size (u32 l));;
                check_sizes
              else if block_size =? 0 then stuck_at Undefined
              else if negb (sec_size g mod block_size =? 0) then mret FDB_INIT_FAILED
              else
                l ← with_world (fal_part_len p);
                modify (set_max_size (u32 l));;
                check_sizes
          end
      end
    else check_sizes.

(** The log messages, shown once per process, are not modelled. *)
Definition _fdb_init_finish (result : fdb_err_t) : M (fdb_db W) unit :=
  if decide (result = FDB_NO_ERR) then modify (set_init_ok true) else mret tt.

(** [fclose] on the open files of the cache, in order. *)
Fixpoint close_files (fs : list FILE) : M W unit :=
  match fs with
  | [] => mret tt
  | Some f :: fs => fclose f;; close_files fs
  | None :: fs => close_files fs
  end.

Definition _fdb_deinit : M (fdb_db W) unit :=
  ok ← gets init_ok;
  (if (ok : bool) then
     if FDB_USING_FILE_MODE then
       i ← gets dbio;
       with_world (close_files (cur_file i))
     else mret tt
   else mret tt);;
  modify (set_init_ok false).

Definition _fdb_db_path : M (fdb_db W) (option string) :=
  g ← gets geo;
  if file_mode g then
    if FDB_USING_FILE_MODE then
      match storage g with
      | storage_dir d => mret (Some d)
      | _ => mret None
      end
    else mret None
  else if FDB_USING_FAL_MODE then
    p ← storage_part_of g;
    s ← with_world (fal_part_name p);
    mret (Some s)
  else mret None.
End core.
