(* ===== verification/FlashSpec.v ===== *)
(** The contract of a working medium, and what the functions of
    [src/fdb_utils.c] do on one.

    [holds g i m]: the medium described by the geometry [g] and the state [i]
    is a flat array [m] of [max_size] bytes.  Reads return its bytes, an erase
    sets a sector to [0xFF], and a write stores bytes that only clear bits
    (the discipline of NOR flash, under which programming and overwriting are
    the same); an access never crosses a sector. *)
From S2P Require Import Prelude FdbDef Status FlashIO.

Lemma length_indet_buf `{Indeterminate} n : length (indet_buf n) = Z.to_nat n.
Proof. unfold indet_buf. by rewrite length_map, length_seq. Qed.
Lemma len_indet_buf `{Indeterminate} n : 0 <= n -> len (indet_buf n) = n.
Proof. intros. unfold len. rewrite length_indet_buf. lia. Qed.

(** ** Geometry *)

Record geom_ok (g : geom) : Prop := {
  sec_pos : 64 <= sec_size g;
  sec_div : max_size g mod sec_size g = 0;
  sec_two : 2 * sec_size g <= max_size g;
  max_u32 : max_size g + sec_size g < 4294967296;
}.

(** [n] bytes at [a] inside one sector. *)
Definition in_sector (g : geom) (a n : Z) : Prop :=
  0 <= a /\ 0 <= n /\ a mod sec_size g + n <= sec_size g /\ a < max_size g.

(** Storing [d] at [a] only clears bits. *)
Definition clears (m : list Z) (a : Z) (d : list Z) : Prop :=
  zip_with Z.land (slice m a (len d)) d = d.

(** Bytes can be stored in an erased range. *)
Lemma clears_erased m a d :
  filled m a (len d) FDB_BYTE_ERASED -> bytes d -> clears m a d.
Proof.
  unfold filled, clears. intros -> Hd. unfold len. rewrite Nat2Z.id.
  induction Hd as [|b d Hb Hd IH]; simpl; [done|]. rewrite IH. f_equal.
  unfold is_byte, FDB_BYTE_ERASED in *. rewrite Z.land_comm. change 0xFF with (Z.ones 8).
  rewrite Z.land_ones by lia. by apply Z.mod_small.
Qed.

Definition erased_sector (g : geom) : list Z := replicate (Z.to_nat (sec_size g)) FDB_BYTE_ERASED.

Class StorageLaws (W : Type) `{Storage W} := {
  holds : geom -> io W -> list Z -> Prop;
  holds_geom : forall g i m, holds g i m -> geom_ok g;
  holds_len : forall g i m, holds g i m -> len m = max_size g;
  holds_bytes : forall g i m, holds g i m -> bytes m;
  read_law : forall (db : fdb_db W) m a b,
    holds (geo db) (dbio db) m -> in_sector (geo db) a (len b) ->
    wp (_fdb_flash_read a b) (fun r db' => exists i,
      db' = set_dbio i db /\ holds (geo db) i m /\
      snd r = slice m a (len b) /\ (0 < len b -> fst r = FDB_NO_ERR)) db;
  write_law : forall (db : fdb_db W) m a d sync,
    holds (geo db) (dbio db) m -> in_sector (geo db) a (len d) -> 0 < len d ->
    bytes d -> clears m a d ->
    wp (_fdb_flash_write a d sync) (fun r db' => exists i,
      db' = set_dbio i db /\ holds (geo db) i (splice m a d) /\ r = FDB_NO_ERR) db;
  erase_law : forall (db : fdb_db W) m a,
    holds (geo db) (dbio db) m -> 0 <= a < max_size (geo db) -> a mod sec_size (geo db) = 0 ->
    wp (_fdb_flash_erase a (sec_size (geo db))) (fun r db' => exists i,
      db' = set_dbio i db /\ holds (geo db) i (splice m a (erased_sector (geo db))) /\
      r = FDB_NO_ERR) db;
}.

(** The medium of a database. *)
Definition db_holds `{StorageLaws W} (db : fdb_db W) (m : list Z) : Prop :=
  holds (geo db) (dbio db) m.

Lemma in_sector_end g a n :
  geom_ok g -> in_sector g a n -> a + n <= max_size g.
Proof.
  intros [Hs Hd H2 Hm] (Ha & Hn & Hmod & Hlt).
  pose proof (Z.div_mod a (sec_size g) ltac:(lia)).
  pose proof (Z.div_mod (max_size g) (sec_size g) ltac:(lia)) as Hx. rewrite Hd in Hx.
  assert (a / sec_size g < max_size g / sec_size g) by (apply Z.div_lt_upper_bound; lia).
  nia.
Qed.

(** ** [_fdb_continue_ff_addr] *)

(** Where the run of erased bytes at the end of [l] starts. *)
Fixpoint trailing_ff (l : list Z) : Z :=
  match l with
  | [] => 0
  | b :: l => if decide (Forall (fun x => x = FDB_BYTE_ERASED) (b :: l)) then 0
              else 1 + trailing_ff l
  end.

Lemma trailing_ff_spec l :
  let k := trailing_ff l in
  0 <= k <= len l /\
  Forall (fun x => x = FDB_BYTE_ERASED) (slice l k (len l - k)) /\
  (0 < k -> exists x, l !! Z.to_nat (k - 1) = Some x /\ x <> FDB_BYTE_ERASED).
Proof.
  induction l as [|b l IH]; cbn [trailing_ff]; cbv zeta in *; [|case_decide as Hd].
  - split; [done|]. split; [constructor|lia].
  - rewrite len_cons. pose proof (len_nonneg l). split; [lia|]. split; [|lia].
    replace (1 + len l - 0) with (len (b :: l)) by (rewrite len_cons; lia).
    by rewrite slice_all.
  - destruct IH as (Hk & Hf & Hl). rewrite len_cons. set (k := trailing_ff l) in *.
    split; [lia|]. split.
    + replace (1 + len l - (1 + k)) with (len l - k) by lia.
      assert (slice (b :: l) (1 + k) (len l - k) = slice l k (len l - k)) as ->; [|done].
      unfold slice. by replace (Z.to_nat (1 + k)) with (S (Z.to_nat k)) by lia.
    + intros _. destruct (decide (k = 0)) as [E|].
      * rewrite E. exists b. split; [done|]. intros ->. apply Hd. constructor; [done|].
        rewrite E, Z.sub_0_r, slice_all in Hf. done.
      * destruct Hl as (x & Hx & Hne); [lia|]. exists x. split; [|done].
        replace (Z.to_nat (1 + k - 1)) with (S (Z.to_nat (k - 1))) by lia. done.
Qed.

Lemma trailing_ff_snoc l b :
  trailing_ff (l ++ [b]) =
    if decide (b = FDB_BYTE_ERASED) then trailing_ff l else len l + 1.
Proof.
  induction l as [|x l IH]; cbn [app trailing_ff].
  - destruct (decide (b = FDB_BYTE_ERASED)) as [->|Hb].
    + by rewrite decide_True by (by repeat constructor).
    + rewrite decide_False; [done|]. intros HF. by inversion HF.
  - rewrite IH, len_cons.
    pose proof (Forall_app (fun y => y = FDB_BYTE_ERASED) (x :: l) [b]) as Happ.
    rewrite Forall_singleton in Happ. cbn [app] in Happ.
    repeat case_decide; try lia; exfalso; tauto.
Qed.

Lemma in_sector_sub g a n b k :
  geom_ok g -> in_sector g a n -> a <= b -> 0 < k -> b + k <= a + n -> in_sector g b k.
Proof.
  intros Hg Hs Hab Hk Hbk. pose proof (in_sector_end g a n Hg Hs).
  destruct Hg as [Hsec Hd H2 Hm]. destruct Hs as (Ha & Hn & Hmod & Hlt).
  destruct (div_mod_eq b (sec_size g) (a / sec_size g) (a mod sec_size g + (b - a))) as [_ Hb].
  - pose proof (Z.div_mod a (sec_size g)). lia.
  - pose proof (Z.mod_pos_bound a (sec_size g)). lia.
  - split; [lia|]. split; [lia|]. split; lia.
Qed.

Lemma in_sector_here g a n k :
  geom_ok g -> in_sector g a n -> 0 <= k <= n -> in_sector g a k.
Proof.
  intros Hg Hin Hk. destruct Hin as (? & ? & ? & ?). unfold in_sector. lia.
Qed.

(** A part of a range, possibly empty, that starts inside its sector. *)
Lemma in_sector_part g a n b k :
  geom_ok g -> in_sector g a n -> a <= b -> 0 <= k -> b + k <= a + n -> b < a + n ->
  in_sector g b k.
Proof.
  intros Hg Hin Hab Hk Hbk Hb.
  destruct (decide (k = 0)) as [->|]; [|by eapply (in_sector_sub g a n); try done; lia].
  pose proof (in_sector_sub g a n b 1 Hg Hin Hab ltac:(lia) ltac:(lia)) as Hs.
  eapply (in_sector_here g b 1); [done|done|lia].
Qed.

Section ff_addr.
Context {W} {ST : Storage W} {SL : StorageLaws W} {IN : Indeterminate}.

(** The loop variables describe the bytes [l] read so far. *)
Definition ff_state (start : Z) (l : list Z) (addr last : Z) : Prop :=
  (last = FDB_BYTE_ERASED /\ addr = start + trailing_ff l) \/
  (last <> FDB_BYTE_ERASED /\ trailing_ff l = len l).

Lemma ff_scan_state s0 l start buf i addr last :
  start + i = s0 + len l -> 0 <= s0 -> s0 + len l + len buf < 4294967296 ->
  ff_state s0 l addr last ->
  ff_state s0 (l ++ buf) (fst (ff_scan start buf i addr last)) (snd (ff_scan start buf i addr last)).
Proof.
  revert l i addr last. induction buf as [|b buf IH]; intros l i addr last Hi Hs Hlt Hst; cbn [ff_scan].
  - by rewrite app_nil_r.
  - rewrite len_cons in Hlt. pose proof (len_nonneg l). pose proof (len_nonneg buf).
    replace (l ++ b :: buf) with ((l ++ [b]) ++ buf) by (by rewrite <- app_assoc).
    apply IH; rewrite ?len_app, ?len_cons, ?len_nil; [lia..|].
    unfold ff_state in *. rewrite trailing_ff_snoc, len_app.
    destruct (decide (b = FDB_BYTE_ERASED)) as [->|Hb].
    + left. split; [done|]. destruct Hst as [[-> ->]|[Hl Ht]].
      * rewrite Z.eqb_refl. done.
      * rewrite (proj2 (Z.eqb_neq _ _) Hl), Z.eqb_refl. simpl. wrap_small. lia.
    + right. split; [done|]. rewrite len_cons, len_nil. lia.
Qed.

(** One chunk of the loop: [n] bytes from [cur] on. *)
Lemma ff_state_chunk m start cur n addr last :
  0 <= start <= cur -> 0 <= n -> cur + n <= len m -> len m < 4294967296 ->
  ff_state start (slice m start (cur - start)) addr last ->
  ff_state start (slice m start (cur + n - start)) (fst (ff_scan cur (slice m cur n) 0 addr last))
    (snd (ff_scan cur (slice m cur n) 0 addr last)).
Proof.
  intros Hs Hn Hm Hl Hst. rewrite (slice_split m start (cur + n - start) (cur - start)) by lia.
  replace (start + (cur - start)) with cur by lia. replace (cur + n - start - (cur - start)) with n by lia.
  apply ff_scan_state; rewrite ?len_slice by lia; [lia..|done].
Qed.

(** The result at the end of the loop. *)
Lemma ff_state_end start l addr last :
  0 <= start -> start + len l < 4294967296 -> ff_state start l addr last ->
  (if last =? FDB_BYTE_ERASED then u32 (FDB_WG_ALIGN 1 addr) else start + len l) = start + trailing_ff l.
Proof.
  intros Hs Hl Hst. pose proof (trailing_ff_spec l) as [Htr _].
  destruct Hst as [[-> ->]|[Hne Ht]]; [rewrite Z.eqb_refl|rewrite (proj2 (Z.eqb_neq _ _) Hne); lia].
  unfold FDB_WG_ALIGN, FDB_ALIGN. change ((1 + 7) / 8) with 1. rewrite Z.mod_1_r. wrap_small. lia.
Qed.

Lemma continue_ff_spec (db : fdb_db W) m start end_ :
  db_holds db m -> start <= end_ -> in_sector (geo db) start (end_ - start) ->
  wp (_fdb_continue_ff_addr 1 start end_) (fun r db' => exists i,
    db' = set_dbio i db /\ holds (geo db) i m /\
    r = start + trailing_ff (slice m start (end_ - start))) db.
Proof.
  intros Hh Hse Hin. pose proof (holds_geom _ _ _ Hh) as Hg.
  pose proof (holds_len _ _ _ Hh) as Hlen. pose proof (in_sector_end _ _ _ Hg Hin) as Hend.
  destruct Hg as [Hsec Hdiv H2 Hm32]. pose proof (proj1 Hin) as Hs0.
  unfold _fdb_continue_ff_addr.
  eapply (wp_loop
    (fun '(cur, addr, last, b) s => exists i, s = set_dbio i db /\ holds (geo db) i m /\
       start <= cur /\ length b = 32%nat /\
       (cur < end_ + 32) /\
       ff_state start (slice m start (Z.min cur end_ - start)) addr last)
    (fun '(cur, addr, last, b) _ => Z.to_nat (end_ - cur))).
  2:{ exists (dbio db). split; [by destruct db|]. split; [done|]. split; [lia|]. split.
      - by rewrite length_indet_buf.
      - split; [lia|]. rewrite Z.min_l, Z.sub_diag, slice_nil by lia. right. done. }
  2:{ lia. }
  intros [[[cur addr] last] b] s (i & -> & Hi & Hcur & Hb & Hce & Hst).
  destruct (Z.ltb_spec cur end_) as [Hlt|Hge].
  - rewrite Z.min_l in Hst by lia.
    assert ((if cur + 32 <? end_ then 32 else end_ - cur) = Z.min 32 (end_ - cur)) as ->
      by (destruct (Z.ltb_spec (cur + 32) end_); lia).
    set (n := Z.min 32 (end_ - cur)).
    assert (len (slice b 0 n) = n) as Hn by (apply len_slice; unfold len; lia).
    apply wp_bind. eapply wp_mono.
    { apply (read_law (set_dbio i db) m); [done|]. rewrite Hn.
      eapply in_sector_sub; [by eapply holds_geom|exact Hin|lia..]. }
    rewrite Hn. cbn beta. intros [e b'] s' (j & -> & Hj & Hb' & _). cbn [snd] in *. subst b'.
    assert (slice (splice b 0 (slice m cur n)) 0 n = slice m cur n) as ->.
    { rewrite <- (len_slice m cur n) at 2 by lia. apply slice_splice_same; [lia|].
      rewrite len_slice by lia. unfold len. lia. }
    pose proof (ff_state_chunk m start cur n addr last ltac:(lia) ltac:(lia) ltac:(lia) ltac:(lia) Hst) as Hscan.
    destruct (ff_scan cur (slice m cur n) 0 addr last) as [addr' last']. apply wp_ret. wrap_small. split; [|lia].
    exists j. split_and!; [done..|lia|by rewrite splice_length|lia|].
    by replace (Z.min (cur + 32) end_) with (cur + n) by lia.
  - rewrite Z.min_r in Hst by lia. apply ff_state_end in Hst; rewrite ?len_slice in * by lia; [|lia..].
    replace (start + (end_ - start)) with end_ in Hst by lia.
    destruct (last =? FDB_BYTE_ERASED); apply wp_ret; eauto.
Qed.
End ff_addr.

(** ** Status tables on the medium (one-bit granularity) *)

(** The byte of a status table set to [s] (tables of at most eight statuses). *)
Definition status_byte (s : Z) : Z := Z.shiftr 0xff s.

Lemma set_status_byte num s :
  0 < s < num -> num <= 8 -> _fdb_set_status 1 num s = ([status_byte s], Some 0).
Proof.
  intros Hs Hn. unfold _fdb_set_status, FDB_STATUS_TABLE_SIZE, status_byte.
  rewrite (proj2 (Z.ltb_lt 0 s)) by lia. cbn [Z.eqb Pos.eqb].
  replace ((num * 1 + 7) / 8) with 1.
  2:{ symmetry. apply (div_mod_eq _ 8 1 (num - 1)); lia. }
  replace ((s - 1) / 8) with 0 by (symmetry; apply Z.div_small; lia).
  rewrite Z.mod_small by lia.
  change (([Z.land 255 (Z.shiftr 255 s)], Some 0) = ([Z.shiftr 255 s], Some 0)).
  by rewrite land_shiftr_ff by lia.
Qed.

Lemma status_byte_range s : 0 <= s < 8 -> is_byte (status_byte s).
Proof. intros. unfold is_byte, status_byte. cases8 s; vm_compute; intuition discriminate. Qed.

(** A status byte read back. *)
Lemma get_status_byte num s :
  0 <= s < num -> num <= 8 -> _fdb_get_status 1 [status_byte s] num = s.
Proof.
  intros Hs Hn. eapply status_spec_unique; [apply get_status_spec; lia|].
  unfold status_spec, status_cell_written, status_byte. cbn [Z.eqb Pos.eqb].
  assert (forall k, 0 <= k < 7 -> (Z.land (nth (Z.to_nat (k / 8)) [Z.shiftr 255 s] 0)
                     (Z.shiftr 128 (k mod 8)) =? 0) = (k <? s)) as Hk.
  { intros k Hk. rewrite Z.div_small, Z.mod_small by lia. cbn [Z.to_nat nth].
    apply cell_bit_written; lia. }
  repeat split; [lia..| |].
  - destruct (decide (s = 0)); [by left|right]. rewrite Hk by lia. apply Z.ltb_lt. lia.
  - intros k Hr. rewrite Hk by lia. apply Z.ltb_ge. lia.
Qed.

(** A later status only clears bits of an earlier one. *)
Lemma status_byte_clears i j :
  0 <= i <= j -> j < 8 -> Z.land (status_byte i) (status_byte j) = status_byte j.
Proof. intros. unfold status_byte. cases8 j; by (cases8 i; try lia). Qed.

Section status_io.
Context {W} {ST : Storage W} {SL : StorageLaws W} {IN : Indeterminate}.

(** Programs the status byte at [addr]. *)
Lemma write_status_spec (db : fdb_db W) m addr num s old sync :
  db_holds db m -> in_sector (geo db) addr 1 -> 0 < s < num -> num <= 8 ->
  slice m addr 1 = [old] -> Z.land old (status_byte s) = status_byte s ->
  wp (_fdb_write_status 1 addr num s sync) (fun r db' => exists i,
    db' = set_dbio i db /\ holds (geo db) i (splice m addr [status_byte s]) /\
    r = FDB_NO_ERR) db.
Proof.
  intros Hh Hin Hs Hn Hold Hc. unfold _fdb_write_status.
  apply wp_bind, wp_assert; [by apply Z.ltb_lt; lia|].
  rewrite set_status_byte by lia. cbn [Z.eqb Pos.eqb].
  pose proof (in_sector_end _ _ _ (holds_geom _ _ _ Hh) Hin) as He.
  destruct (holds_geom _ _ _ Hh). destruct Hin as (? & ? & ? & ?).
  rewrite Z.add_0_r. wrap_small. change (slice [status_byte s] 0 1) with [status_byte s].
  apply write_law; [done|by repeat split|done| |].
  - constructor; [|constructor]. apply status_byte_range. lia.
  - unfold clears. change (len [status_byte s]) with 1. rewrite Hold. cbn. by rewrite Hc.
Qed.

Lemma read_status_spec (db : fdb_db W) m addr num b0 :
  db_holds db m -> in_sector (geo db) addr 1 ->
  wp (_fdb_read_status 1 addr [b0] num) (fun r db' => exists i,
    db' = set_dbio i db /\ holds (geo db) i m /\
    r = _fdb_get_status 1 (slice m addr 1) num) db.
Proof.
  intros Hh Hin. unfold _fdb_read_status. apply wp_bind.
  eapply wp_mono; [apply read_law; done|].
  intros [e b] db' (i & -> & Hi & Hb & _). apply wp_ret. exists i. cbn in *. by subst.
Qed.

(** [_fdb_flash_write_align] with one-bit granularity stores its buffer, also
    an empty one. *)
Lemma write_align_spec (db : fdb_db W) m addr d :
  db_holds db m -> (0 < len d -> in_sector (geo db) addr (len d)) ->
  0 <= addr <= max_size (geo db) -> bytes d -> clears m addr d ->
  wp (_fdb_flash_write_align 1 addr d) (fun r db' => exists i,
    db' = set_dbio i db /\ holds (geo db) i (splice m addr d) /\ r = FDB_NO_ERR) db.
Proof.
  intros Hh Hin Ha Hd Hc. pose proof (holds_geom _ _ _ Hh) as Hg.
  pose proof (holds_len _ _ _ Hh) as Hl. pose proof (len_nonneg d).
  unfold _fdb_flash_write_align, FDB_WG_ALIGN_DOWN, FDB_ALIGN_DOWN.
  change ((1 + 7) / 8) with 1. rewrite Z.div_1_r, Z.mul_1_r.
  apply wp_bind. destruct (Z.ltb_spec 0 (len d)) as [Hpos|].
  - pose proof (in_sector_end _ _ _ Hg (Hin Hpos)) as He. destruct Hg. wrap_small.
    rewrite slice_all, (proj2 (Z.ltb_lt _ _)) by done.
    eapply wp_mono; [apply (write_law db m); auto|].
    intros r db' (i & -> & Hi & ->). rewrite decide_True by done.
    rewrite Z.sub_diag. apply wp_ret. eauto.
  - assert (d = []) as -> by (destruct d; [done|rewrite len_cons in *; pose proof (len_nonneg d); lia]).
    apply wp_ret. rewrite decide_True by done. apply wp_ret.
    exists (dbio db). split; [by destruct db|]. split; [|done]. by rewrite splice_nil by lia.
Qed.
End status_io.
