(* ===== verification/Mount.v ===== *)
(** Opening and closing a database: what [_fdb_init_ex] and [_fdb_deinit] of
    [src/fdb.c] leave in the common part of a database; in file mode, opening
    succeeds.  [StorageCloses] is what closing needs of the storage. *)
From S2P Require Import Prelude FdbDef Status FlashIO FlashSpec.

Section mount.
Context {W} {ST : Storage W} {SL : StorageLaws W}.
Implicit Type db : fdb_db W.

(** What [_fdb_init_ex] does not touch. *)
Definition user_part db : bool * bool * (bool * list lock_event) :=
  (not_formatable db, init_ok db, (lock db, lock_trace db)).

(** The storage opens: [_fdb_init_ex] leaves the database [db'], whose medium
    is [m]. *)
Record opens (nm path : string) (type : fdb_db_type) (u : Z) db db' (m : list Z) : Prop := {
  os_run : _fdb_init_ex nm path type u db = Done (FDB_NO_ERR, db');
  os_holds : db_holds db' m;
  os_user : user_part db' = user_part db;
  os_closed : init_ok db = false;
}.

Lemma os_format nm path type u db db' m : opens nm path type u db db' m -> not_formatable db' = not_formatable db.
Proof. intros []. by injection os_user0. Qed.

Lemma wp_opens nm path type u db db' m Q :
  opens nm path type u db db' m -> Q FDB_NO_ERR db' -> wp (_fdb_init_ex nm path type u) Q db.
Proof. intros [Hr _ _ _] HQ. apply wp_run. by exists FDB_NO_ERR, db'. Qed.

Lemma opens_of_wp nm path type u db m R :
  init_ok db = false ->
  wp (_fdb_init_ex nm path type u) (fun r db' =>
    r = FDB_NO_ERR /\ user_part db' = user_part db /\ db_holds db' m /\ R db') db ->
  exists db', opens nm path type u db db' m /\ R db'.
Proof. intros Hi Hwp. apply wp_run in Hwp as (r & db' & E & -> & Hn & Hm & HR). exists db'. split; [by split|done]. Qed.

(** The database after [_fdb_init_ex] in file mode: named, its file cache empty, its files
    in the directory [path]. *)
Definition mounted (nm path : string) (type : fdb_db_type) (u : Z) db : fdb_db W :=
  let db := set_db_user_data u (set_type type (set_name nm db)) in
  set_storage (storage_dir path)
    (set_dbio (Io (replicate (Z.to_nat FDB_FILE_CACHE_TABLE_SIZE) FDB_FAILED_ADDR)
                  (replicate (Z.to_nat FDB_FILE_CACHE_TABLE_SIZE) None)
                  (cur_sec (dbio db)) (world (dbio db))) db).

(** A database that is not initialised, configured for files, with sizes that
    are accepted, whose files hold the medium [m]. *)
Record mountable (nm path : string) (type : fdb_db_type) (u : Z) db (m : list Z) : Prop := {
  mt_build : FDB_USING_FILE_MODE = true;
  mt_closed : init_ok db = false;
  mt_mode : file_mode (geo db) = true;
  mt_path : path <> EmptyString;
  mt_pow2 : Z.land (sec_size (geo db)) (sec_size (geo db) - 1) = 0;
  mt_holds : db_holds (mounted nm path type u db) m;
}.

Lemma wp_check_sizes db Q :
  geom_ok (geo db) -> Z.land (sec_size (geo db)) (sec_size (geo db) - 1) = 0 -> Q FDB_NO_ERR db -> wp check_sizes Q db.
Proof.
  intros [G1 G2 G3 G4] H2 HQ. unfold check_sizes. apply wp_bind, wp_gets, wp_bind, wp_gets. unfold db_sec_size, db_max_size.
  rewrite (u32_small (_ - 1)) by lia. apply wp_bind, wp_assert; [by rewrite H2|].
  rewrite (proj2 (Z.eqb_neq _ 0)) by lia. rewrite G2, Z.eqb_refl. cbn [negb].
  assert (2 <= max_size (geo db) / sec_size (geo db)) by (apply Z.div_le_lower_bound; lia).
  rewrite (proj2 (Z.ltb_ge _ _)) by lia. by apply wp_ret.
Qed.

Lemma wp_fdb_init_ex nm path type u db m Q :
  mountable nm path type u db m ->
  Q FDB_NO_ERR (mounted nm path type u db) -> wp (_fdb_init_ex nm path type u) Q db.
Proof.
  intros [Hb Hc Hf Hp H2 Hm] HQ. pose proof (holds_geom _ _ _ Hm) as HG. pose proof HG as [G1 G2 G3 G4].
  cbn in G1, G2, G3, G4.
  unfold _fdb_init_ex. apply wp_bind, wp_gets. rewrite Hc. apply wp_bind, wp_modify, wp_bind, wp_gets.
  cbn [geo set_db_user_data set_type set_name set_geo file_mode sec_size max_size]. rewrite Hf, Hb.
  unfold reset_file_cache. apply wp_bind, wp_bind, wp_modify.
  apply wp_bind, wp_assert; [by rewrite (proj2 (Z.eqb_neq _ _)) by lia|].
  apply wp_bind, wp_assert; [by rewrite (proj2 (Z.eqb_neq _ _)) by lia|].
  apply wp_bind, wp_modify, wp_assert; [by destruct path|].
  by apply wp_check_sizes.
Qed.

Lemma mountable_opens nm path type u db m :
  mountable nm path type u db m -> opens nm path type u db (mounted nm path type u db) m.
Proof.
  intros Hm. destruct (opens_of_wp nm path type u db m (fun db' => db' = mounted nm path type u db)) as (db' & Ho & ->); [apply Hm| |done].
  eapply wp_fdb_init_ex; [exact Hm|]. by split_and!; [| |apply Hm|].
Qed.
End mount.

(** ** Closing *)

(** Nothing is open, and the medium is still there. *)
Definition world_holds {W} {ST : Storage W} {SL : StorageLaws W} (g : geom) (w : W) (m : list Z) : Prop :=
  forall n, holds g (Io (replicate (Z.to_nat FDB_FILE_CACHE_TABLE_SIZE) FDB_FAILED_ADDR)
                        (replicate (Z.to_nat FDB_FILE_CACHE_TABLE_SIZE) None) n w) m.

Class StorageCloses (W : Type) {ST : Storage W} {SL : StorageLaws W} : Prop :=
  close_law : forall g i m, holds g i m -> wp (close_files (cur_file i)) (fun _ w => world_holds g w m) (world i).

Section close.
Context {W} {ST : Storage W} {SL : StorageLaws W} {SC : StorageCloses W} (Hmode : FDB_USING_FILE_MODE = true).
Implicit Type db : fdb_db W.

Definition closed_db (w : W) db : fdb_db W := set_init_ok false (set_dbio (set_world w (dbio db)) db).

Lemma wp_deinit db m Q :
  db_holds db m -> init_ok db = true -> (forall w, world_holds (geo db) w m -> Q tt (closed_db w db)) -> wp _fdb_deinit Q db.
Proof.
  intros Hm Hi HQ. unfold _fdb_deinit. apply wp_bind, wp_gets. rewrite Hi, Hmode. apply wp_bind, wp_bind, wp_gets, wp_zoom, wp_zoom.
  eapply wp_mono; [exact (close_law _ _ _ Hm)|]. cbn beta. intros _ w Hw. by apply wp_modify, HQ.
Qed.

(** The closed database opens again, in the same directory. *)
Lemma closed_opens path type u db w m :
  world_holds (geo db) w m -> file_mode (geo db) = true -> storage (geo db) = storage_dir path -> path <> EmptyString ->
  Z.land (sec_size (geo db)) (sec_size (geo db) - 1) = 0 ->
  exists db', opens (name (geo db)) path type u (closed_db w db) db' m /\ geo db' = geo db.
Proof.
  intros Hw Hf Hdir Hpath H2. exists (mounted (name (geo db)) path type u (closed_db w db)).
  assert (geo (mounted (name (geo db)) path type u (closed_db w db)) = geo db) as Hgeo
    by (unfold mounted; cbn; rewrite <- Hdir; by destruct (geo db)).
  split; [|exact Hgeo]. apply mountable_opens. split; try done. unfold db_holds. rewrite Hgeo. apply Hw.
Qed.
End close.
