(* ===== verification/FileIO.v ===== *)
(** File storage: [src/fdb_file.c], built with [FDB_USING_FILE_LIBC_MODE].

    [libc] models the part of the C library the file uses: the contents of
    the files, the open streams with their positions, and the failures the
    environment has in store for the next calls.  Using a closed stream is
    undefined behaviour.  Each sector of a database is one file,
    [<dir>/<name>.fdb.<n>]; the last two files used stay open
    ([FDB_FILE_CACHE_TABLE_SIZE]). *)
From S2P Require Import Prelude FdbDef FlashIO.

(** ** Streams *)

Record libc := Libc {
  files : gmap string (list Z);
  streams : gmap positive (string * Z);    (** path and position of an open stream *)
  next_stream : positive;
  faults : list bool;                      (** [true]: the next call fails *)
}.

Definition set_files (f : gmap string (list Z)) (w : libc) : libc :=
  Libc f (streams w) (next_stream w) (faults w).
Definition set_streams (s : gmap positive (string * Z)) (w : libc) : libc :=
  Libc (files w) s (next_stream w) (faults w).

(** Whether the environment makes this call fail. *)
Definition call_fails : M libc bool := fun w =>
  Done (hd false (faults w),
        Libc (files w) (streams w) (next_stream w) (tl (faults w))).

Inductive open_mode := rb_plus | wb_plus.

Definition new_stream (path : string) : M libc FILE := fun w =>
  Done (Some (next_stream w),
        Libc (files w) (<[next_stream w := (path, 0)]> (streams w))
             (Pos.succ (next_stream w)) (faults w)).

Definition fopen (path : string) (mode : open_mode) : M libc FILE :=
  bad ← call_fails;
  if (bad : bool) then mret None
  else match mode with
       | rb_plus =>
           f ← gets files;
           match f !! path with
           | None => mret None
           | Some _ => new_stream path
           end
       | wb_plus =>
           modify (fun w => set_files (<[path := []]> (files w)) w);;
           new_stream path
       end.

Definition stream_of (h : positive) : M libc (string * Z) :=
  s ← gets streams;
  match s !! h with
  | Some p => mret p
  | None => stuck_at Undefined
  end.

Definition libc_fclose (h : positive) : M libc unit :=
  stream_of h;;
  modify (fun w => set_streams (delete h (streams w)) w).

(** Returns 0 on success. *)
Definition fseek (h : positive) (off : Z) : M libc Z :=
  p ← stream_of h;
  bad ← call_fails;
  if (bad : bool) then mret (-1)
  else modify (fun w => set_streams (<[h := (p.1, off)]> (streams w)) w);; mret 0.

(** One item of [length buf] bytes; the number of items read. *)
Definition fread (h : positive) (buf : list Z) : M libc (Z * list Z) :=
  p ← stream_of h;
  if len buf =? 0 then mret (0, buf)
  else
    bad ← call_fails;
    if (bad : bool) then mret (0, buf)
    else
      f ← gets files;
      let data := slice (default [] (f !! p.1)) p.2 (len buf) in
      modify (fun w => set_streams (<[h := (p.1, p.2 + len data)]> (streams w)) w);;
      mret (if len data =? len buf then 1 else 0, splice buf 0 data).

(** The content of a file after [data] was written at [pos]: the gap left by a
    seek past the end reads as zeros, and the file grows as needed. *)
Definition file_write (content : list Z) (pos : Z) (data : list Z) : list Z :=
  let k := Z.to_nat pos in
  let padded := content ++ replicate (k - length content)%nat 0 in
  take k padded ++ data ++ drop (k + length data)%nat padded.

(** One item; the number of items written. *)
Definition fwrite (h : positive) (data : list Z) : M libc Z :=
  p ← stream_of h;
  if len data =? 0 then mret 0
  else
    bad ← call_fails;
    if (bad : bool) then mret 0
    else
      modify (fun w => Libc
        (<[p.1 := file_write (default [] (files w !! p.1)) p.2 data]> (files w))
        (<[h := (p.1, p.2 + len data)]> (streams w)) (next_stream w) (faults w));;
      mret 1.

Definition fflush (h : positive) : M libc unit := stream_of h;; mret tt.

(** ** [fdb_file.c] *)

Definition DB_PATH_MAX : Z := 256.
Definition DB_NAME_MAX : nat := 8.

Definition io_world {A} (m : M libc A) : M (io libc) A := zoom world set_world m.

(** [snprintf(file_name, sizeof(file_name), "%.*s.fdb.%d", ...)]: the buffer
    has [DB_NAME_MAX + 4 + 10] bytes, the last one for the terminator. *)
Definition file_name (g : geom) (index : Z) : string :=
  String.substring 0 (DB_NAME_MAX + 4 + 10 - 1)
    (String.substring 0 DB_NAME_MAX (name g) +:+ ".fdb." +:+ pretty index).

Definition get_db_file_path {S} (g : geom) (addr size : Z) : M S string :=
  let sec_addr := FDB_ALIGN_DOWN addr (sec_size g) in
  let index := i32 (sec_addr / sec_size g) in
  match storage g with
  | storage_dir dir =>
      fdb_assert (Z.of_nat (String.length dir) + 1 + Z.of_nat (String.length (file_name g index))
                  <? size);;
      mret (dir +:+ "/" +:+ file_name g index)
  | _ => stuck_at Undefined
  end.

Fixpoint cache_lookup (secs : list Z) (fs : list FILE) (sec_addr : Z) : FILE :=
  match secs, fs with
  | s :: secs, f :: fs => if s =? sec_addr then f else cache_lookup secs fs sec_addr
  | _, _ => None
  end.

Definition get_file_from_cache (sec_addr : Z) : M (io libc) FILE :=
  gets (fun i => cache_lookup (cur_file_sec i) (cur_file i) sec_addr).

Definition set_cache (secs : list Z) (fs : list FILE) (i : io libc) : io libc :=
  Io secs fs (cur_sec i) (world i).

(** The search of [update_file_cache]: the slot of the sector, or the last
    free slot. *)
Fixpoint cache_slot (secs : list Z) (fs : list FILE) (sec_addr : Z) (i : nat) (free : option nat)
    : nat + option nat :=
  match secs, fs with
  | s :: secs, f :: fs =>
      if s =? sec_addr then inl i
      else cache_slot secs fs sec_addr (S i) (if f is None then Some i else free)
  | _, _ => inr free
  end.

(** The shift of a full cache: slots [i], [i - 1], ..., 1. *)
Fixpoint shift_cache (i : nat) : M (io libc) unit :=
  match i with
  | O => mret tt
  | S j =>
      fs ← gets cur_file;
      match fs !! i with
      | Some (Some h) => io_world (libc_fclose h)
      | _ => stuck_at Undefined             (* fclose(NULL) *)
      end;;
      modify (fun s => set_cache (<[i := nth j (cur_file_sec s) 0]> (cur_file_sec s))
                                 (<[i := nth j (cur_file s) None]> (cur_file s)) s);;
      shift_cache j
  end.

Definition update_file_cache (sec_addr : Z) (fd : FILE) : M (io libc) unit :=
  i ← gets id;
  match cache_slot (cur_file_sec i) (cur_file i) sec_addr 0 None with
  | inl k => modify (fun s => set_cache (cur_file_sec s) (<[k := fd]> (cur_file s)) s)
  | inr free =>
      if fd is None then mret tt
      else match free with
           | Some k => modify (fun s => set_cache (<[k := sec_addr]> (cur_file_sec s))
                                                  (<[k := fd]> (cur_file s)) s)
           | None =>
               shift_cache (Z.to_nat FDB_FILE_CACHE_TABLE_SIZE - 1);;
               modify (fun s => set_cache (<[0%nat := sec_addr]> (cur_file_sec s))
                                          (<[0%nat := fd]> (cur_file s)) s)
           end
  end.

Definition open_db_file (g : geom) (addr : Z) (clean : bool) : M (io libc) FILE :=
  let sec_addr := u32 (FDB_ALIGN_DOWN addr (sec_size g)) in
  fd ← get_file_from_cache sec_addr;
  if (if fd is None then true else clean) then
    path ← get_db_file_path g addr DB_PATH_MAX;
    fd ← match fd with
         | Some h => io_world (libc_fclose h);; update_file_cache sec_addr None;; mret None
         | None => mret None
         end;
    (if clean then
       clean_fd ← io_world (fopen path wb_plus);
       match clean_fd with
       | None => mret tt
       | Some h => io_world (libc_fclose h)
       end
     else mret tt);;
    cached ← get_file_from_cache sec_addr;
    fd ← match cached with
         | None =>
             fd ← io_world (fopen path rb_plus);
             update_file_cache sec_addr fd;;
             mret fd
         | Some _ => mret fd
         end;
    modify (fun s => Io (cur_file_sec s) (cur_file s) sec_addr (world s));;
    mret fd
  else mret fd.

Definition libc_file_read (g : geom) (addr : Z) (buf : list Z)
    : M (io libc) (fdb_err_t * list Z) :=
  fp ← open_db_file g addr false;
  match fp with
  | None => mret (FDB_READ_ERR, buf)
  | Some h =>
      let addr := addr mod sec_size g in
      sk ← io_world (fseek h addr);
      if negb (sk =? 0) then mret (FDB_READ_ERR, buf)
      else
        r ← io_world (fread h buf);
        mret (if negb (r.1 =? 1) then FDB_READ_ERR else FDB_NO_ERR, r.2)
  end.

Definition libc_file_write (g : geom) (addr : Z) (buf : list Z) (sync : bool)
    : M (io libc) fdb_err_t :=
  fp ← open_db_file g addr false;
  match fp with
  | None => mret FDB_READ_ERR
  | Some h =>
      let addr := addr mod sec_size g in
      sk ← io_world (fseek h addr);
      result ← (if negb (sk =? 0) then mret FDB_READ_ERR
                else n ← io_world (fwrite h buf);
                     mret (if negb (n =? 1) then FDB_READ_ERR else FDB_NO_ERR));
      (if sync then io_world (fflush h) else mret tt);;
      mret result
  end.

Definition BUF_SIZE : Z := 32.

(** The loop [for (i = 0; i * BUF_SIZE < size; i++)]; the results of [fwrite]
    are not looked at. *)
Definition erase_loop (h : positive) (size : Z) : M libc Z :=
  loop (Z.to_nat size + 1)
    (fun i => if i * BUF_SIZE <? size
              then fwrite h (replicate (Z.to_nat BUF_SIZE) 0xFF);; mret (inl (i + 1))
              else mret (inr i)) 0.

Definition libc_file_erase (g : geom) (addr size : Z) : M (io libc) fdb_err_t :=
  fp ← open_db_file g addr true;
  match fp with
  | None => mret FDB_ERASE_ERR
  | Some h =>
      io_world (fseek h 0);;
      i ← io_world (erase_loop h size);
      let rest := u64 (size - i * BUF_SIZE) in
      (if BUF_SIZE <? rest then stuck_at Undefined      (* reads past [buf] *)
       else io_world (fwrite h (replicate (Z.to_nat rest) 0xFF)));;
      io_world (fflush h);;
      mret FDB_NO_ERR
  end.

(** The build of this repository: file mode, no FAL.  Without the FAL its
    functions are never called. *)
#[export] Instance libc_storage : Storage libc := {|
  FDB_USING_FILE_MODE := true;
  FDB_USING_FAL_MODE := false;
  _fdb_file_read := libc_file_read;
  _fdb_file_write := libc_file_write;
  _fdb_file_erase := libc_file_erase;
  fclose := libc_fclose;
  fal_partition_read := fun _ _ _ => stuck_at Undefined;
  fal_partition_write := fun _ _ _ => stuck_at Undefined;
  fal_partition_erase := fun _ _ _ => stuck_at Undefined;
  fal_init := stuck_at Undefined;
  fal_partition_find := fun _ => stuck_at Undefined;
  fal_part_name := fun _ => stuck_at Undefined;
  fal_part_len := fun _ => stuck_at Undefined;
  fal_part_blk_size := fun _ => stuck_at Undefined;
|}.
