(* ===== verification/FileSpec.v ===== *)
(** File storage refines the medium contract: the files of a database, seen
    through the cache of open streams, are a flat array of bytes. *)
From S2P Require Import Prelude FdbDef Status FlashIO FlashSpec FileIO.

(** ** File names *)

Lemma substring_all s n : (String.length s <= n)%nat -> String.substring 0 n s = s.
Proof.
  revert n. induction s as [|c s IH]; intros [|n] H; simpl in *; try done; [lia|].
  f_equal. apply IH. lia.
Qed.

Lemma length_string_app s t : String.length (s +:+ t) = (String.length s + String.length t)%nat.
Proof. induction s as [|c s IH]; simpl; [done|]. by rewrite IH. Qed.

Lemma substring_length s n : (String.length (String.substring 0 n s) <= n)%nat.
Proof.
  revert n. induction s as [|c s IH]; intros [|n]; simpl; try lia. specialize (IH n). lia.
Qed.

(** The decimal form of a small number is short. *)
Lemma pretty_N_go_length (n : nat) x s :
  (x < 10 ^ N.of_nat n)%N -> (String.length (pretty_N_go x s) <= n + String.length s)%nat.
Proof.
  revert x s. induction n as [|n IH]; intros x s Hx.
  - assert (x = 0%N) as -> by (simpl in Hx; lia). by rewrite pretty_N_go_0.
  - destruct (decide (x = 0%N)) as [->|]; [rewrite pretty_N_go_0; lia|].
    rewrite pretty_N_go_step by lia. etrans; [apply IH|simpl; lia].
    apply N.Div0.div_lt_upper_bound.
    rewrite Nat2N.inj_succ, N.pow_succ_r in Hx by lia. lia.
Qed.

Lemma pretty_small k : 0 <= k < 100000000 -> (String.length (pretty k) <= 8)%nat.
Proof.
  intros Hk. destruct k as [|p|p]; [simpl; vm_compute; lia| |lia].
  change (pretty (Z.pos p)) with (pretty (N.pos p)).
  unfold pretty, pretty_N. rewrite decide_False by done.
  etrans; [apply (pretty_N_go_length 8)|simpl; lia].
  change (10 ^ N.of_nat 8)%N with 100000000%N. lia.
Qed.

(** The last character is never cut off: names of distinct sectors differ. *)
Lemma file_name_eq g k :
  0 <= k < 100000000 ->
  file_name g k = String.substring 0 DB_NAME_MAX (name g) +:+ ".fdb." +:+ pretty k.
Proof.
  intros Hk. unfold file_name. apply substring_all.
  pose proof (substring_length (name g) DB_NAME_MAX). pose proof (pretty_small k Hk).
  rewrite !length_string_app. cbn [String.length]. unfold DB_NAME_MAX in *. lia.
Qed.

Lemma file_name_length g k : (String.length (file_name g k) <= 21)%nat.
Proof. apply substring_length. Qed.

Lemma file_name_inj g k k' :
  0 <= k < 100000000 -> 0 <= k' < 100000000 -> file_name g k = file_name g k' -> k = k'.
Proof.
  intros Hk Hk' E. rewrite !file_name_eq in E by done.
  by repeat apply (inj (String.app _)) in E; apply (inj pretty) in E.
Qed.

(** ** Invariant *)

Section inv.
Context (g : geom) (dir : string).

Definition sec_path (k : Z) : string := dir +:+ "/" +:+ file_name g k.
Definition sectors : Z := max_size g / sec_size g.

Record geom_file : Prop := {
  gf_geom : geom_ok g;
  gf_mode : file_mode g = true;
  gf_dir : storage g = storage_dir dir;
  gf_blk : sec_size g mod 32 = 0;
  gf_short : Z.of_nat (String.length dir) + 1 + 21 < DB_PATH_MAX;
}.

(** A cached stream is open on the file of its sector. *)
Definition slot_ok (P : Z -> Prop) (w : libc) (s : Z) (f : FILE) : Prop :=
  forall h, f = Some h -> exists k pos,
    0 <= k < sectors /\ P k /\ s = k * sec_size g /\ streams w !! h = Some (sec_path k, pos).

(** The cache of open streams is consistent; no call is going to fail. *)
Record cache_inv (P : Z -> Prop) (i : io libc) : Prop := {
  ci_slots : exists s0 s1 f0 f1,
    cur_file_sec i = [s0; s1] /\ cur_file i = [f0; f1] /\
    slot_ok P (world i) s0 f0 /\ slot_ok P (world i) s1 f1 /\
    (forall h, f0 = Some h -> f1 <> Some h);
  ci_fresh : forall h, (next_stream (world i) <= h)%positive -> streams (world i) !! h = None;
  ci_faults : faults (world i) = [];
}.

(** The files of the sectors [P] hold the bytes [m]; other sectors have no
    file yet. *)
Record sector_files (P : Z -> Prop) (F : gmap string (list Z)) (m : list Z) : Prop := {
  sf_len : len m = max_size g;
  sf_bytes : bytes m;
  sf_files : forall k, 0 <= k < sectors -> P k ->
    F !! sec_path k = Some (slice m (k * sec_size g) (sec_size g));
  sf_absent : forall k, 0 <= k < sectors -> ~ P k -> F !! sec_path k = None;
}.

Record libc_inv (P : Z -> Prop) (i : io libc) (m : list Z) : Prop := {
  li_cache : cache_inv P i;
  li_sectors : sector_files P (files (world i)) m;
}.
End inv.

Lemma sector_files_iff g dir (P P' : Z -> Prop) F m :
  (forall k, P k <-> P' k) -> sector_files g dir P F m -> sector_files g dir P' F m.
Proof.
  intros HP [Hl Hb Hf Ha]. split; try done.
  - intros k Hk HPk. apply Hf; [done|]. by apply HP.
  - intros k Hk HPk. apply Ha; [done|]. by rewrite HP.
Qed.

Section open.
Context (g : geom) (dir : string) (Hg : geom_file g dir).

Lemma sector_facts addr :
  0 <= addr < max_size g ->
  let k := addr / sec_size g in
  0 <= k < sectors g /\ FDB_ALIGN_DOWN addr (sec_size g) = k * sec_size g /\
  u32 (k * sec_size g) = k * sec_size g /\ i32 (k * sec_size g / sec_size g) = k /\
  0 <= k < 100000000 /\ addr = k * sec_size g + addr mod sec_size g /\
  0 <= addr mod sec_size g < sec_size g /\ k * sec_size g + sec_size g <= max_size g.
Proof.
  intros Ha k. destruct Hg as [[Hs Hd H2 Hm] _ _ _ _]. unfold sectors.
  pose proof (Z.div_mod addr (sec_size g) ltac:(lia)) as Hdm.
  pose proof (Z.mod_pos_bound addr (sec_size g) ltac:(lia)) as Hmb.
  pose proof (Z.div_mod (max_size g) (sec_size g) ltac:(lia)) as Hx. rewrite Hd in Hx.
  assert (0 <= k) by (apply Z.div_pos; lia).
  assert (k < max_size g / sec_size g) by (apply Z.div_lt_upper_bound; lia).
  assert (k < 100000000) by (unfold k; apply Z.div_lt_upper_bound; nia).
  assert (0 <= k * sec_size g <= addr) by (fold k in Hdm; nia).
  unfold FDB_ALIGN_DOWN. fold k. rewrite Z.div_mul by lia. wrap_small.
  repeat split; try lia; fold k in Hdm; try lia; nia.
Qed.

Lemma sec_path_inj k k' :
  0 <= k < 100000000 -> 0 <= k' < 100000000 -> sec_path g dir k = sec_path g dir k' -> k = k'.
Proof.
  intros Hk Hk' E. unfold sec_path in E. do 2 apply (inj (String.app _)) in E.
  by eapply file_name_inj.
Qed.

(** A new content for the file of sector [k]. *)
Lemma sector_files_update (P P' : Z -> Prop) F m k d :
  sector_files g dir P F m -> 0 <= k < sectors g ->
  P' k -> (forall k', k' <> k -> (P' k' <-> P k')) ->
  len d = sec_size g -> bytes d ->
  sector_files g dir P' (<[sec_path g dir k := d]> F) (splice m (k * sec_size g) d).
Proof.
  intros [Hlen Hb Hf Ha] Hk HPk HP Hd Hbd.
  destruct Hg as [[Hs Hdv H2 Hm] _ _ _ _]. unfold sectors in *.
  pose proof (Z.div_mod (max_size g) (sec_size g) ltac:(lia)) as Hx. rewrite Hdv in Hx.
  assert (max_size g / sec_size g < 100000000) by (apply Z.div_lt_upper_bound; nia).
  assert (forall j, 0 <= j < max_size g / sec_size g ->
                    0 <= j * sec_size g /\ j * sec_size g + sec_size g <= max_size g) as Hin by nia.
  pose proof (Hin k Hk).
  split; [by rewrite len_splice|by apply bytes_splice|..].
  - intros j Hj HPj. pose proof (Hin j Hj). destruct (decide (j = k)) as [->|].
    + rewrite lookup_insert_eq. pose proof (slice_splice_same m (k * sec_size g) d) as Hx'.
      rewrite Hd in Hx'. by rewrite Hx' by lia.
    + rewrite lookup_insert_ne by (intros E; apply sec_path_inj in E; lia).
      rewrite Hf by (rewrite <- ?HP; done). rewrite slice_splice_other; [done|lia..|].
      rewrite Hd. nia.
  - intros j Hj HPj. assert (j <> k) by congruence.
    rewrite lookup_insert_ne by (intros E; apply sec_path_inj in E; unfold sectors in *; lia).
    apply Ha; [done|]. by rewrite <- HP.
Qed.

(** Slots depend on the world only through their own stream. *)
Lemma slot_ok_ext (P P' : Z -> Prop) w w' s f :
  slot_ok g dir P w s f -> (forall k, P k -> P' k) ->
  (forall h, f = Some h -> streams w' !! h = streams w !! h) ->
  slot_ok g dir P' w' s f.
Proof.
  intros Hs HP Hw h Ef. destruct (Hs h Ef) as (k & pos & ? & ? & ? & ?).
  exists k, pos. rewrite (Hw h Ef). auto.
Qed.

Lemma cache_inv_world (P P' : Z -> Prop) i w' :
  cache_inv g dir P i -> (forall k, P k -> P' k) ->
  (forall h, Some h ∈ cur_file i -> streams w' !! h = streams (world i) !! h) ->
  (forall h, (next_stream w' <= h)%positive -> streams w' !! h = None) -> faults w' = [] ->
  cache_inv g dir P' (set_world w' i).
Proof.
  intros [(s0 & s1 & f0 & f1 & Es & Ef & H0 & H1 & Hd) _ _] HP Hw Hfr Hflt.
  split; [|done|done]. exists s0, s1, f0, f1. simpl. rewrite Ef in Hw.
  repeat split; try done.
  - eapply slot_ok_ext; [done..|]. intros h ->. apply Hw. set_solver.
  - eapply slot_ok_ext; [done..|]. intros h ->. apply Hw. set_solver.
Qed.

Lemma cached_stream P i h :
  cache_inv g dir P i -> Some h ∈ cur_file i ->
  exists k pos, P k /\ streams (world i) !! h = Some (sec_path g dir k, pos).
Proof.
  intros [(s0 & s1 & f0 & f1 & Es & Ef & H0 & H1 & Hd) _ _] Hin. rewrite Ef in Hin.
  rewrite !elem_of_cons in Hin. destruct Hin as [E|[E|E]]; [..|set_solver].
  - destruct (H0 h (eq_sym E)) as (k & pos & ? & ? & ? & ?). eauto.
  - destruct (H1 h (eq_sym E)) as (k & pos & ? & ? & ? & ?). eauto.
Qed.

Lemma cached_not_fresh P i h :
  cache_inv g dir P i -> Some h ∈ cur_file i -> h <> next_stream (world i).
Proof.
  intros Hc Hin ->. destruct (cached_stream _ _ _ Hc Hin) as (? & ? & _ & Hs).
  rewrite (ci_fresh _ _ _ _ Hc) in Hs by lia. done.
Qed.

Lemma slot_ok_here P (w : libc) k h pos :
  0 <= k < sectors g -> P k -> streams w !! h = Some (sec_path g dir k, pos) ->
  slot_ok g dir P w (k * sec_size g) (Some h).
Proof. intros ??? h' [= <-]. exists k, pos. done. Qed.

Lemma wp_fclose (w : libc) h p Q :
  streams w !! h = Some p ->
  Q tt (set_streams (delete h (streams w)) w) -> wp (libc_fclose h) Q w.
Proof.
  intros Hs HQ. unfold libc_fclose, stream_of. do 2 apply wp_bind. apply wp_gets. rewrite Hs.
  apply wp_ret. by apply wp_modify.
Qed.

(** A successful [fopen] of an existing file. *)
Lemma wp_fopen_rb (w : libc) path c Q :
  faults w = [] -> files w !! path = Some c ->
  Q (Some (next_stream w))
    (Libc (files w) (<[next_stream w := (path, 0)]> (streams w)) (Pos.succ (next_stream w)) []) ->
  wp (fopen path rb_plus) Q w.
Proof.
  intros Hf Hc HQ. unfold wp, fopen, mbind, M_bind, call_fails, gets, new_stream.
  rewrite Hf. simpl. by rewrite Hc.
Qed.

Lemma wp_fopen_absent (w : libc) path Q :
  faults w = [] -> files w !! path = None -> Q None w -> wp (fopen path rb_plus) Q w.
Proof.
  destruct w as [fs ss ns ft]. simpl. intros -> Hc HQ.
  unfold wp, fopen, mbind, M_bind, call_fails, gets. simpl. by rewrite Hc.
Qed.

Lemma wp_fopen_wb (w : libc) path Q :
  faults w = [] ->
  Q (Some (next_stream w))
    (Libc (<[path := []]> (files w)) (<[next_stream w := (path, 0)]> (streams w))
          (Pos.succ (next_stream w)) []) ->
  wp (fopen path wb_plus) Q w.
Proof.
  intros Hf HQ. unfold wp, fopen, mbind, M_bind, call_fails, gets, new_stream.
  rewrite Hf. done.
Qed.

(** Entering a stream of a sector that has none in the cache. *)
Lemma wp_update_cache P (i : io libc) k h Q :
  cache_inv g dir P i -> 0 <= k < sectors g -> P k ->
  cache_lookup (cur_file_sec i) (cur_file i) (k * sec_size g) = None ->
  streams (world i) !! h = Some (sec_path g dir k, 0) ->
  Some h ∉ cur_file i ->
  (forall i', cache_inv g dir P i' -> files (world i') = files (world i) ->
     streams (world i') !! h = Some (sec_path g dir k, 0) -> Q tt i') ->
  wp (update_file_cache (k * sec_size g) (Some h)) Q i.
Proof.
  intros [(s0 & s1 & f0 & f1 & Es & Ef & H0 & H1 & Hd) Hfr Hflt] Hk HP Hl Hh Hn HQ.
  destruct i as [secs fs cs w]. simpl in *. subst secs fs. simpl in Hl.
  assert (f0 <> Some h) as Hn0 by set_solver.
  assert (f1 <> Some h) as Hn1 by set_solver.
  pose proof (slot_ok_here P w k h 0 Hk HP Hh) as Hok.
  unfold update_file_cache. do 2 wp_step. simpl.
  destruct (Z.eqb_spec s0 (k * sec_size g)) as [->|E0]; [subst f0|].
  { apply wp_modify, HQ; [|done|done]. split; [|done|done].
    exists (k * sec_size g), s1, (Some h), f1. simpl. repeat split; try done. congruence. }
  destruct (Z.eqb_spec s1 (k * sec_size g)) as [->|E1]; [subst f1|].
  { apply wp_modify, HQ; [|done|done]. split; [|done|done].
    exists s0, (k * sec_size g), f0, (Some h). simpl. repeat split; try done. congruence. }
  destruct f1 as [h1|].
  2:{ apply wp_modify, HQ; [|by destruct f0|by destruct f0]. split; [|done|done].
      exists s0, (k * sec_size g), f0, (Some h). simpl.
      repeat split; try done; try (by destruct f0); congruence. }
  destruct f0 as [h0|].
  2:{ apply wp_modify, HQ; [|done|done]. split; [|done|done].
      exists (k * sec_size g), s1, (Some h), (Some h1). simpl. repeat split; try done. congruence. }
  destruct (H1 h1 eq_refl) as (k1 & pos1 & _ & _ & _ & Hst1).
  apply wp_bind. cbn [Z.to_nat FDB_FILE_CACHE_TABLE_SIZE Pos.to_nat Pos.iter_op Nat.add Nat.sub shift_cache].
  do 3 wp_step. simpl.
  unfold io_world. apply wp_zoom. eapply wp_fclose; [exact Hst1|].
  do 4 wp_step. simpl.
  assert (h1 <> h) by congruence.
  apply HQ; [|done|simpl; by rewrite lookup_delete_ne].
  split; [|simpl; intros h' Hh'|done].
  - exists (k * sec_size g), s0, (Some h), (Some h0). simpl.
    repeat split; try done; [| |congruence].
    + eapply slot_ok_ext; [done..|]. intros h' [= <-]. simpl. by rewrite lookup_delete_ne.
    + eapply slot_ok_ext; [done..|]. intros h' [= <-]. simpl. rewrite lookup_delete_ne; [done|].
      intros ->. by apply (Hd h0).
  - rewrite lookup_delete_None. right. by apply Hfr.
Qed.

(** Dropping the stream of a sector, before it is opened anew. *)
Lemma wp_drop_stream P (i : io libc) k h Q :
  cache_inv g dir P i -> 0 <= k < sectors g ->
  cache_lookup (cur_file_sec i) (cur_file i) (k * sec_size g) = Some h ->
  (forall i', cache_inv g dir P i' -> files (world i') = files (world i) ->
     cache_lookup (cur_file_sec i') (cur_file i') (k * sec_size g) = None -> Q None i') ->
  wp (io_world (libc_fclose h);; update_file_cache (k * sec_size g) None;;
      mret (None : FILE)) Q i.
Proof.
  intros [(s0 & s1 & f0 & f1 & Es & Ef & H0 & H1 & Hd) Hfr Hflt] Hk Hl HQ.
  destruct i as [secs fs cs w]. simpl in *. subst secs fs. simpl in Hl.
  assert (exists p, streams w !! h = Some p) as [p Hp].
  { destruct (Z.eqb_spec s0 (k * sec_size g)).
    - destruct (H0 h Hl) as (? & ? & ? & ? & ? & ?). eauto.
    - destruct (Z.eqb_spec s1 (k * sec_size g)); [|done].
      destruct (H1 h Hl) as (? & ? & ? & ? & ? & ?). eauto. }
  wp_step. unfold io_world. wp_step. eapply wp_fclose; [exact Hp|].
  unfold update_file_cache. do 3 wp_step. simpl.
  destruct (Z.eqb_spec s0 (k * sec_size g)) as [->|E0].
  - subst f0. wp_step. apply wp_ret, HQ; [|done|simpl; by rewrite Z.eqb_refl].
    split; [|simpl; intros; rewrite lookup_delete_None; auto|done].
    exists (k * sec_size g), s1, None, f1. simpl. repeat split; try done.
    eapply slot_ok_ext; [done..|]. intros h' ->. simpl. rewrite lookup_delete_ne; [done|].
    intros ->. by apply (Hd h').
  - destruct (Z.eqb_spec s1 (k * sec_size g)) as [->|E1]; [|done]. subst f1. wp_step.
    apply wp_ret, HQ; [|done|simpl].
    2:{ rewrite Z.eqb_refl. by rewrite (proj2 (Z.eqb_neq _ _) E0). }
    split; [|simpl; intros; rewrite lookup_delete_None; auto|done].
    exists s0, (k * sec_size g), f0, None. simpl. repeat split; try done.
    eapply slot_ok_ext; [done..|]. intros h' ->. simpl. rewrite lookup_delete_ne; [done|].
    intros ->. by apply (Hd h').
Qed.

(** The path of a sector's file. *)
Lemma wp_path {S} (i : S) addr Q :
  0 <= addr < max_size g -> Q (sec_path g dir (addr / sec_size g)) i ->
  wp (get_db_file_path g addr DB_PATH_MAX) Q i.
Proof.
  intros Ha HQ. unfold get_db_file_path.
  destruct (sector_facts addr Ha) as (Hk & -> & _ & -> & _).
  rewrite (gf_dir _ _ Hg). apply wp_bind, wp_assert.
  - apply Z.ltb_lt. pose proof (gf_short _ _ Hg).
    pose proof (file_name_length g (addr / sec_size g)). lia.
  - by apply wp_ret.
Qed.

(** Opening the file of a sector that has no stream. *)
Lemma wp_open_new P (i : io libc) k c Q :
  cache_inv g dir P i -> 0 <= k < sectors g -> P k ->
  cache_lookup (cur_file_sec i) (cur_file i) (k * sec_size g) = None ->
  files (world i) !! sec_path g dir k = Some c ->
  (forall i' h, cache_inv g dir P i' -> files (world i') = files (world i) ->
     streams (world i') !! h = Some (sec_path g dir k, 0) -> Q (Some h) i') ->
  wp (fd ← io_world (fopen (sec_path g dir k) rb_plus);
      update_file_cache (k * sec_size g) fd;; mret fd) Q i.
Proof.
  intros Hc Hk HP Hl Hf HQ. wp_step. unfold io_world. wp_step.
  eapply wp_fopen_rb; [apply (ci_faults _ _ _ _ Hc)|done|].
  set (w' := Libc _ _ _ _). apply wp_bind.
  assert (forall h, Some h ∈ cur_file i -> h <> next_stream (world i)) as Hnf
    by (intros h; apply (cached_not_fresh _ _ _ Hc)).
  eapply (wp_update_cache P (set_world w' i)); [|done|done|done| | |].
  - eapply cache_inv_world; [done|done|..]; simpl; [|intros h Hh|done].
    + intros h Hin. by rewrite lookup_insert_ne by (intros E; by apply (Hnf h)).
    + rewrite lookup_insert_ne by lia. apply (ci_fresh _ _ _ _ Hc). lia.
  - simpl. by rewrite lookup_insert_eq.
  - simpl. intros Hin. by apply (Hnf _ Hin).
  - intros i' Hi' Hfi Hst. apply wp_ret. by apply HQ.
Qed.

Lemma cache_inv_cur_sec P i a :
  cache_inv g dir P i -> cache_inv g dir P (Io (cur_file_sec i) (cur_file i) a (world i)).
Proof. by intros []. Qed.

Lemma open_read P (i : io libc) addr c Q :
  cache_inv g dir P i -> 0 <= addr < max_size g -> P (addr / sec_size g) ->
  files (world i) !! sec_path g dir (addr / sec_size g) = Some c ->
  (forall i' h pos, cache_inv g dir P i' -> files (world i') = files (world i) ->
     streams (world i') !! h = Some (sec_path g dir (addr / sec_size g), pos) ->
     Q (Some h) i') ->
  wp (open_db_file g addr false) Q i.
Proof.
  intros Hc Ha HP Hf HQ. unfold open_db_file.
  destruct (sector_facts addr Ha) as (Hk & -> & -> & _). set (k := addr / sec_size g) in *.
  unfold get_file_from_cache. do 2 wp_step.
  destruct (cache_lookup (cur_file_sec i) (cur_file i) (k * sec_size g)) as [h|] eqn:El.
  - apply wp_ret.
    destruct (ci_slots _ _ _ _ Hc) as (s0 & s1 & f0 & f1 & Es & Ef & H0 & H1 & Hd).
    assert (exists pos, streams (world i) !! h = Some (sec_path g dir k, pos)) as [pos Hpos];
      [|eapply HQ; [exact Hc|done|exact Hpos]].
    assert (forall s f, slot_ok g dir P (world i) s f -> f = Some h -> s = k * sec_size g ->
      exists pos, streams (world i) !! h = Some (sec_path g dir k, pos)) as Hslot.
    { intros s f Hs Eh Esec. destruct (Hs h Eh) as (k' & pos & ? & ? & ? & ?).
      assert (k' = k) as ->; [|eauto].
      pose proof (sec_pos _ (gf_geom _ _ Hg)).
      apply (Z.mul_reg_r _ _ (sec_size g)); [lia|congruence]. }
    rewrite Es, Ef in El. simpl in El.
    destruct (Z.eqb_spec s0 (k * sec_size g)); [by apply (Hslot s0 f0)|].
    destruct (Z.eqb_spec s1 (k * sec_size g)); [by apply (Hslot s1 f1)|done].
  - apply wp_bind, (wp_path i addr); [done|]. fold k.
    do 2 wp_step. do 2 wp_step. do 2 wp_step. rewrite El. apply wp_bind.
    eapply wp_open_new; [done..|].
    intros i' h Hi' Hfi Hst. do 2 wp_step. apply wp_ret.
    eapply HQ; [by apply cache_inv_cur_sec|done|exact Hst].
Qed.

(** [fopen(path, "wb+")] and [fclose]: the file is created or emptied. *)
Lemma wp_truncate P (i : io libc) k Q :
  cache_inv g dir P i ->
  (forall i', cache_inv g dir P i' -> cur_file_sec i' = cur_file_sec i ->
     cur_file i' = cur_file i ->
     files (world i') = <[sec_path g dir k := []]> (files (world i)) -> Q tt i') ->
  wp (clean_fd ← io_world (fopen (sec_path g dir k) wb_plus);
      match clean_fd with
      | None => mret tt
      | Some h => io_world (libc_fclose h)
      end) Q i.
Proof.
  intros Hc HQ. wp_step. unfold io_world. wp_step.
  apply wp_fopen_wb; [apply (ci_faults _ _ _ _ Hc)|]. wp_step.
  eapply wp_fclose; [simpl; apply lookup_insert_eq|]. apply HQ; [|done..].
  apply (cache_inv_world P P i _ Hc); simpl; [done| |intros h Hh|done].
  - intros h Hin. pose proof (cached_not_fresh _ _ _ Hc Hin).
    by rewrite lookup_delete_ne, lookup_insert_ne by done.
  - rewrite lookup_delete_ne, lookup_insert_ne by lia. apply (ci_fresh _ _ _ _ Hc). lia.
Qed.

Lemma cache_inv_mono (P P' : Z -> Prop) i :
  cache_inv g dir P i -> (forall k, P k -> P' k) -> cache_inv g dir P' i.
Proof.
  intros Hc HP. replace i with (set_world (world i) i) by (by destruct i).
  by apply (cache_inv_world P); [..|apply (ci_fresh _ _ _ _ Hc)|apply (ci_faults _ _ _ _ Hc)].
Qed.

(** [open_db_file] with [clean]: an empty file for the sector. *)
Lemma open_clean P (i : io libc) addr Q :
  cache_inv g dir P i -> 0 <= addr < max_size g ->
  (forall i' h, cache_inv g dir (fun k => P k \/ k = addr / sec_size g) i' ->
     files (world i') = <[sec_path g dir (addr / sec_size g) := []]> (files (world i)) ->
     streams (world i') !! h = Some (sec_path g dir (addr / sec_size g), 0) ->
     Q (Some h) i') ->
  wp (open_db_file g addr true) Q i.
Proof.
  intros Hc Ha HQ. unfold open_db_file.
  destruct (sector_facts addr Ha) as (Hk & -> & -> & _). set (k := addr / sec_size g) in *.
  unfold get_file_from_cache. do 2 wp_step.
  replace (if cache_lookup (cur_file_sec i) (cur_file i) (k * sec_size g) is None then true
           else true) with true by (by destruct (cache_lookup _ _ _)).
  apply wp_bind, (wp_path i addr); [done|]. fold k. apply wp_bind.
  assert (forall i1 : io libc, cache_inv g dir P i1 -> files (world i1) = files (world i) ->
    cache_lookup (cur_file_sec i1) (cur_file i1) (k * sec_size g) = None ->
    forall fd : FILE, wp ((clean_fd ← io_world (fopen (sec_path g dir k) wb_plus);
      match clean_fd with
      | None => mret tt
      | Some h => io_world (libc_fclose h)
      end);;
      cached ← gets (fun i => cache_lookup (cur_file_sec i) (cur_file i) (k * sec_size g));
      fd ← match cached with
           | None => fd ← io_world (fopen (sec_path g dir k) rb_plus);
                     update_file_cache (k * sec_size g) fd;; mret fd
           | Some _ => mret fd
           end;
      modify (fun s => Io (cur_file_sec s) (cur_file s) (k * sec_size g) (world s));;
      mret fd) Q i1) as Hrest.
  { intros i1 Hc1 Hf1 Hl1 fd. apply wp_bind, (wp_truncate P); [done|].
    intros i2 Hc2 Es Ef Hf2. do 2 wp_step. rewrite Es, Ef, Hl1. apply wp_bind.
    eapply (wp_open_new (fun k' => P k' \/ k' = k));
      [eapply cache_inv_mono; [done|auto]|done|by right|by rewrite Es, Ef| |].
    { rewrite Hf2. apply lookup_insert_eq. }
    intros i3 h Hc3 Hf3 Hst. do 3 wp_step.
    apply HQ; [by apply cache_inv_cur_sec|simpl; by rewrite Hf3, Hf2, Hf1|exact Hst]. }
  destruct (cache_lookup (cur_file_sec i) (cur_file i) (k * sec_size g)) as [h|] eqn:El.
  - eapply wp_drop_stream; [done..|]. intros i' Hc' Hf' Hl'. by apply Hrest.
  - apply wp_ret. by apply Hrest.
Qed.
End open.

(** ** Stream operations that succeed *)

(** The world after an operation on the stream [h] of [path]. *)
Definition moved (w : libc) (h : positive) (path : string) (pos : Z)
    (f : gmap string (list Z)) : libc :=
  Libc f (<[h := (path, pos)]> (streams w)) (next_stream w) [].

Section stream_ops.
Context (w : libc) (h : positive) (path : string) (pos : Z) (Hf : faults w = []).
Context (Hs : streams w !! h = Some (path, pos)).

Lemma wp_fseek off (Q : Z -> libc -> Prop) :
  Q 0 (moved w h path off (files w)) -> wp (fseek h off) Q w.
Proof.
  intros HQ. unfold wp, fseek, stream_of, call_fails, mbind, M_bind, gets, modify. rewrite Hs.
  simpl. rewrite Hf. exact HQ.
Qed.

Lemma wp_fread b c (Q : Z * list Z -> libc -> Prop) :
  files w !! path = Some c -> 0 <= pos -> 0 < len b -> pos + len b <= len c ->
  Q (1, slice c pos (len b)) (moved w h path (pos + len b) (files w)) -> wp (fread h b) Q w.
Proof.
  intros Hc Hp Hb Hle HQ. unfold wp, fread, stream_of, call_fails, mbind, M_bind, gets, modify.
  rewrite Hs. rewrite (proj2 (Z.eqb_neq _ _)) by lia. simpl. rewrite Hf. simpl.
  rewrite Hc. simpl.
  rewrite len_slice, Z.eqb_refl by lia.
  replace (splice b 0 (slice c pos (len b))) with (slice c pos (len b)); [exact HQ|].
  rewrite <- (slice_all (splice _ _ _)), len_splice.
  rewrite <- (len_slice c pos (len b)) at 3 by lia. symmetry. apply slice_splice_same; [lia|].
  rewrite len_slice; lia.
Qed.

Lemma wp_fwrite d c (Q : Z -> libc -> Prop) :
  files w !! path = Some c -> 0 < len d ->
  Q 1 (moved w h path (pos + len d) (<[path := file_write c pos d]> (files w))) ->
  wp (fwrite h d) Q w.
Proof.
  intros Hc Hd HQ. unfold wp, fwrite, stream_of, call_fails, mbind, M_bind, gets, modify.
  rewrite Hs. rewrite (proj2 (Z.eqb_neq _ _)) by lia. simpl. rewrite Hf. simpl.
  rewrite Hc. exact HQ.
Qed.

Lemma wp_fread_nil (Q : Z * list Z -> libc -> Prop) : Q (0, []) w -> wp (fread h []) Q w.
Proof.
  intros HQ. unfold wp, fread, stream_of, mbind, M_bind, gets. by rewrite Hs.
Qed.

Lemma wp_fwrite_nil (Q : Z -> libc -> Prop) : Q 0 w -> wp (fwrite h []) Q w.
Proof.
  intros HQ. unfold wp, fwrite, stream_of, mbind, M_bind, gets. by rewrite Hs.
Qed.

Lemma wp_fflush (Q : unit -> libc -> Prop) : Q tt w -> wp (fflush h) Q w.
Proof.
  intros HQ. unfold wp, fflush, stream_of, mbind, M_bind, gets. by rewrite Hs.
Qed.
End stream_ops.

Lemma moved_moved w h path pos f pos' f' :
  moved (moved w h path pos f) h path pos' f' = moved w h path pos' f'.
Proof. unfold moved. simpl. by rewrite insert_insert_eq. Qed.

Lemma file_write_inside c pos d :
  0 <= pos -> pos + len d <= len c -> file_write c pos d = splice c pos d.
Proof.
  unfold len, file_write, splice. intros.
  replace (Z.to_nat pos - length c)%nat with 0%nat by lia. simpl. rewrite app_nil_r.
  by rewrite (take_ge d) by lia.
Qed.

Lemma file_write_end c d : file_write c (len c) d = c ++ d.
Proof.
  unfold len, file_write. rewrite Nat2Z.id, Nat.sub_diag. simpl. rewrite app_nil_r.
  rewrite take_ge by lia. rewrite drop_ge by lia. by rewrite app_nil_r.
Qed.

(** The loop of [_fdb_file_erase] on a stream at the start of an empty file. *)
Lemma wp_erase_loop w h path size (Q : Z -> libc -> Prop) :
  faults w = [] -> streams w !! h = Some (path, 0) -> files w !! path = Some [] ->
  0 <= size -> size mod 32 = 0 ->
  Q (size / 32) (moved w h path size (<[path := replicate (Z.to_nat size) 0xFF]> (files w))) ->
  wp (erase_loop h size) Q w.
Proof.
  intros Hf Hs Hc Hsz Hmod HQ.
  pose proof (Z.div_mod size 32 ltac:(lia)) as Hdm. rewrite Hmod in Hdm.
  unfold erase_loop. eapply (wp_loop
    (fun i s => 0 <= i <= size / 32 /\
       s = moved w h path (32 * i) (<[path := replicate (Z.to_nat (32 * i)) 0xFF]> (files w)))
    (fun i _ => Z.to_nat (size - i))).
  2:{ split; [lia|]. unfold moved. destruct w as [fs ss ns ft]; simpl in *. subst ft.
      change (replicate _ 255) with (@nil Z). by rewrite !insert_id. }
  2:{ lia. }
  intros i s [Hi ->]. unfold BUF_SIZE.
  destruct (Z.ltb_spec (i * 32) size).
  - apply wp_bind. eapply (wp_fwrite _ h path (32 * i)); [done|apply lookup_insert_eq|
      apply lookup_insert_eq|done|].
    apply wp_ret. rewrite moved_moved. split; [split|]; [lia| |lia]. simpl.
    rewrite insert_insert_eq. f_equal; [change (len _) with 32; lia|].
    replace (32 * i) with (len (replicate (Z.to_nat (32 * i)) 255)) at 2
      by (rewrite len_replicate; lia).
    rewrite file_write_end.
    replace (Z.to_nat (32 * (i + 1))) with (Z.to_nat (32 * i) + 32)%nat by lia.
    f_equal. symmetry. exact (replicate_add _ 32 255).
  - apply wp_ret. assert (i = size / 32) as -> by lia.
    by replace (32 * (size / 32)) with size by lia.
Qed.

(** ** [_fdb_file_read], [_fdb_file_write], [_fdb_file_erase] *)

Section file_ops.
Context (g : geom) (dir : string) (Hg : geom_file g dir).

(** A stream of the cache was used. *)
Lemma cache_inv_moved P (i : io libc) h path pos pos' f :
  cache_inv g dir P i -> streams (world i) !! h = Some (path, pos) ->
  cache_inv g dir P (set_world (moved (world i) h path pos' f) i).
Proof.
  intros [(s0 & s1 & f0 & f1 & Es & Ef & H0 & H1 & Hd) Hfr Hflt] Hs.
  assert (forall s fd, slot_ok g dir P (world i) s fd ->
    slot_ok g dir P (moved (world i) h path pos' f) s fd) as Hslot.
  { intros s fd Hok h' E. destruct (Hok h' E) as (k & p & ? & ? & ? & Hst).
    destruct (decide (h' = h)) as [->|].
    - exists k, pos'. simpl. rewrite lookup_insert_eq. split; [done|]. split; [done|].
      split; [done|]. congruence.
    - exists k, p. simpl. by rewrite lookup_insert_ne. }
  split; [|simpl; intros h' Hh'|done].
  - exists s0, s1, f0, f1. simpl. auto 6.
  - rewrite lookup_insert_ne; [by apply Hfr|]. intros ->. rewrite Hfr in Hs by done. done.
Qed.

Lemma libc_inv_update (P P' : Z -> Prop) i i' m k d :
  libc_inv g dir P i m -> cache_inv g dir P' i' -> 0 <= k < sectors g ->
  P' k -> (forall k', k' <> k -> (P' k' <-> P k')) ->
  files (world i') = <[sec_path g dir k := d]> (files (world i)) ->
  len d = sec_size g -> bytes d ->
  libc_inv g dir P' i' (splice m (k * sec_size g) d).
Proof.
  intros [Hc Hsf] Hc' Hk HPk HP Hfi Hd Hbd. split; [done|]. rewrite Hfi.
  by apply (sector_files_update g dir Hg P).
Qed.

Lemma file_read_spec P i m a b :
  libc_inv g dir P i m -> in_sector g a (len b) -> P (a / sec_size g) ->
  wp (libc_file_read g a b) (fun r i' => libc_inv g dir P i' m /\
    r.2 = slice m a (len b) /\ (0 < len b -> r.1 = FDB_NO_ERR)) i.
Proof.
  intros Hi Hin HP. pose proof (in_sector_end _ _ _ (gf_geom _ _ Hg) Hin) as He.
  destruct Hin as (Ha & Hn & Hmod & Hlt).
  destruct (sector_facts g dir Hg a) as (Hk & _ & _ & _ & _ & Hdm & Hmb & Hend); [lia|].
  pose proof (sf_files _ _ _ _ _ (li_sectors _ _ _ _ _ Hi) _ Hk HP) as Hfile. pose proof (sf_len _ _ _ _ _ (li_sectors _ _ _ _ _ Hi)) as Hlen.
  assert (0 <= a / sec_size g * sec_size g) by nia.
  unfold libc_file_read. apply wp_bind.
  eapply (open_read g dir Hg P); [by destruct Hi|lia|done|done|].
  intros i1 h pos Hc1 Hf1 Hst1. apply wp_bind. unfold io_world. apply wp_zoom.
  eapply wp_fseek; [apply (ci_faults _ _ _ _ Hc1)|done|]. cbn [Z.eqb negb].
  pose proof (cache_inv_moved _ _ _ _ _ (a mod sec_size g) (files (world i1)) Hc1 Hst1) as Hc2.
  destruct (Z.eq_dec (len b) 0) as [Hz|Hnz].
  - assert (b = []) as -> by (destruct b; [done|rewrite len_cons in Hz; pose proof (len_nonneg b); lia]).
    apply wp_bind, wp_zoom. eapply wp_fread_nil; [apply lookup_insert_eq|].
    apply wp_ret. split; [|by rewrite len_nil].
    destruct Hi. split; try done; simpl; by rewrite Hf1.
  - apply wp_bind, wp_zoom. eapply wp_fread;
      [done|apply lookup_insert_eq|simpl; rewrite Hf1; exact Hfile|lia|lia|rewrite len_slice; lia|].
    apply wp_ret. simpl. rewrite moved_moved. split; [|split; [|done]].
    + pose proof (cache_inv_moved _ _ _ _ _ (a mod sec_size g + len b) (files (world i1)) Hc1 Hst1).
      destruct Hi. split; try done; simpl; by rewrite Hf1.
    + rewrite slice_slice by lia. by rewrite <- Hdm.
Qed.

Lemma file_write_spec P i m a d sync :
  libc_inv g dir P i m -> in_sector g a (len d) -> 0 < len d -> bytes d ->
  P (a / sec_size g) ->
  wp (libc_file_write g a d sync) (fun r i' => libc_inv g dir P i' (splice m a d) /\
    r = FDB_NO_ERR) i.
Proof.
  intros Hi Hin Hd Hb HP. pose proof (in_sector_end _ _ _ (gf_geom _ _ Hg) Hin) as He.
  destruct Hin as (Ha & Hn & Hmod & Hlt).
  destruct (sector_facts g dir Hg a) as (Hk & _ & _ & _ & _ & Hdm & Hmb & Hend); [lia|].
  set (k := a / sec_size g) in *.
  pose proof (sf_files _ _ _ _ _ (li_sectors _ _ _ _ _ Hi) _ Hk HP) as Hfile. pose proof (sf_len _ _ _ _ _ (li_sectors _ _ _ _ _ Hi)) as Hlen.
  assert (0 <= k * sec_size g) by nia.
  unfold libc_file_write. apply wp_bind.
  eapply (open_read g dir Hg P); [by destruct Hi|lia|done|done|]. fold k.
  intros i1 h pos Hc1 Hf1 Hst1. apply wp_bind. unfold io_world. apply wp_zoom.
  eapply wp_fseek; [apply (ci_faults _ _ _ _ Hc1)|done|]. cbn [Z.eqb negb].
  apply wp_bind, wp_bind, wp_zoom.
  eapply wp_fwrite; [done|apply lookup_insert_eq|simpl; rewrite Hf1; exact Hfile|done|].
  apply wp_ret.
  cbn [Z.eqb Pos.eqb negb world set_world]. rewrite moved_moved. cbn [files moved].
  rewrite file_write_inside by (rewrite ?len_slice; lia).
  set (i2 := set_world _ _).
  assert (libc_inv g dir P i2 (splice m a d)) as Hi2.
  { rewrite Hdm at 1. rewrite <- (splice_sub m _ (sec_size g)) by lia.
    eapply libc_inv_update; [exact Hi| |exact Hk|exact HP|done|by simpl; rewrite Hf1| |].
    - by eapply (cache_inv_moved _ i1).
    - rewrite len_splice, len_slice; lia.
    - apply bytes_splice; [|done]. apply bytes_slice, Hi. }
  apply wp_bind. destruct sync; [|by do 2 apply wp_ret].
  apply wp_zoom. eapply wp_fflush; [apply lookup_insert_eq|]. by apply wp_ret.
Qed.

Lemma file_erase_spec P i m a :
  libc_inv g dir P i m -> 0 <= a < max_size g -> a mod sec_size g = 0 ->
  wp (libc_file_erase g a (sec_size g)) (fun r i' =>
    libc_inv g dir (fun k => P k \/ k = a / sec_size g) i' (splice m a (erased_sector g)) /\
    r = FDB_NO_ERR) i.
Proof.
  intros Hi Ha Hmod.
  destruct (sector_facts g dir Hg a) as (Hk & _ & _ & _ & _ & Hdm & Hmb & Hend); [lia|].
  set (k := a / sec_size g) in *. pose proof (sf_len _ _ _ _ _ (li_sectors _ _ _ _ _ Hi)) as Hlen.
  pose proof (sec_pos _ (gf_geom _ _ Hg)) as Hs.
  unfold libc_file_erase. apply wp_bind.
  eapply (open_clean g dir Hg P); [by destruct Hi|lia|]. fold k.
  intros i1 h Hc1 Hf1 Hst1. apply wp_bind. unfold io_world. apply wp_zoom.
  eapply wp_fseek; [apply (ci_faults _ _ _ _ Hc1)|done|].
  apply wp_bind, wp_zoom. simpl (world (set_world _ _)).
  eapply wp_erase_loop; [done|apply lookup_insert_eq| |lia|apply (gf_blk _ _ Hg)|].
  { simpl. rewrite Hf1. apply lookup_insert_eq. }
  cbn [world set_world]. rewrite moved_moved. cbn [files moved]. fold (erased_sector g).
  replace (sec_size g - sec_size g / 32 * BUF_SIZE) with 0.
  2:{ pose proof (Z.div_mod (sec_size g) 32 ltac:(lia)) as Hx.
      rewrite (gf_blk _ _ Hg) in Hx. unfold BUF_SIZE. lia. }
  change (u64 0) with 0. cbn [BUF_SIZE Z.ltb Z.compare Z.to_nat replicate].
  apply wp_bind, wp_zoom. eapply wp_fwrite_nil; [apply lookup_insert_eq|].
  apply wp_bind, wp_zoom. eapply wp_fflush; [apply lookup_insert_eq|].
  apply wp_ret. split; [|done].
  replace a with (k * sec_size g) at 1 by lia.
  eapply libc_inv_update; [exact Hi| |exact Hk|by right|naive_solver| | |].
  - eapply (cache_inv_moved _ i1); [done|exact Hst1].
  - simpl. by rewrite Hf1, insert_insert_eq.
  - unfold erased_sector. rewrite len_replicate. lia.
  - apply Forall_replicate. unfold is_byte, FDB_BYTE_ERASED. lia.
Qed.

Lemma absent_not_cached (P : Z -> Prop) i k :
  cache_inv g dir P i -> ~ P k ->
  cache_lookup (cur_file_sec i) (cur_file i) (k * sec_size g) = None.
Proof.
  intros [(s0 & s1 & f0 & f1 & -> & -> & H0 & H1 & Hd) _ _] HP.
  pose proof (sec_pos _ (gf_geom _ _ Hg)) as Hs.
  assert (forall s f, slot_ok g dir P (world i) s f -> s = k * sec_size g -> f = None) as Hslot.
  { intros s [h|] Hok Esec; [|done]. destruct (Hok h eq_refl) as (k' & pos & ? & HP' & E & _).
    assert (k' = k) as -> by (apply (Z.mul_reg_r _ _ (sec_size g)); [lia|congruence]). done. }
  cbn [cache_lookup]. destruct (Z.eqb_spec s0 (k * sec_size g)); [by apply (Hslot s0)|].
  destruct (Z.eqb_spec s1 (k * sec_size g)); [by apply (Hslot s1)|done].
Qed.

(** Recording that a sector has no stream changes nothing when it has none. *)
Lemma wp_update_none P (i : io libc) a Q :
  cache_inv g dir P i -> cache_lookup (cur_file_sec i) (cur_file i) a = None ->
  Q tt i -> wp (update_file_cache a None) Q i.
Proof.
  intros [(s0 & s1 & f0 & f1 & Es & Ef & _) _ _] Hl HQ.
  destruct i as [secs fs cs w]. simpl in *. subst secs fs. simpl in Hl.
  unfold update_file_cache. apply wp_bind, wp_gets. cbn.
  destruct (Z.eqb_spec s0 a); [subst|destruct (Z.eqb_spec s1 a); [subst|]]; by try apply wp_modify.
Qed.

Lemma open_absent P (i : io libc) m a Q :
  libc_inv g dir P i m -> 0 <= a < max_size g -> ~ P (a / sec_size g) ->
  (forall i', libc_inv g dir P i' m -> Q None i') -> wp (open_db_file g a false) Q i.
Proof.
  intros Hi Ha HP HQ. unfold open_db_file.
  destruct (sector_facts g dir Hg a Ha) as (Hk & -> & -> & _). set (k := a / sec_size g) in *.
  pose proof (li_cache _ _ _ _ _ Hi) as Hc.
  pose proof (sf_absent _ _ _ _ _ (li_sectors _ _ _ _ _ Hi) k Hk HP) as Hf.
  pose proof (absent_not_cached _ _ _ Hc HP) as Hl.
  unfold get_file_from_cache. apply wp_bind, wp_gets. rewrite Hl.
  apply wp_bind, (wp_path g dir Hg i a _ Ha). fold k.
  do 2 apply wp_bind, wp_ret. apply wp_bind, wp_gets. rewrite Hl.
  do 2 apply wp_bind. unfold io_world. apply wp_zoom.
  apply wp_fopen_absent; [apply (ci_faults _ _ _ _ Hc)|done|].
  replace (set_world (world i) i) with i by (by destruct i).
  apply wp_bind. eapply wp_update_none; [exact Hc|done|]. apply wp_ret.
  apply wp_bind, wp_modify, wp_ret, HQ.
  destruct Hi. split; try done. by apply cache_inv_cur_sec.
Qed.

(** A sector that was never erased has no file: reads fail and leave the
    buffer as it was, and writes fail. *)
Lemma file_read_absent_spec P i m a b :
  libc_inv g dir P i m -> 0 <= a < max_size g -> ~ P (a / sec_size g) ->
  wp (libc_file_read g a b) (fun r i' => libc_inv g dir P i' m /\
    r = (FDB_READ_ERR, b)) i.
Proof.
  intros Hi Ha HP. apply wp_bind. eapply open_absent; [done..|]. intros i' Hi'. by apply wp_ret.
Qed.

Lemma file_write_absent_spec P i m a d sync :
  libc_inv g dir P i m -> 0 <= a < max_size g -> ~ P (a / sec_size g) ->
  wp (libc_file_write g a d sync) (fun r i' => libc_inv g dir P i' m /\
    r = FDB_READ_ERR) i.
Proof.
  intros Hi Ha HP. apply wp_bind. eapply open_absent; [done..|]. intros i' Hi'. by apply wp_ret.
Qed.
End file_ops.

(** ** The medium contract *)

Definition libc_holds (g : geom) (i : io libc) (m : list Z) : Prop :=
  exists dir, geom_file g dir /\ libc_inv g dir (fun _ => True) i m.

#[export] Program Instance libc_laws : StorageLaws libc := {| holds := libc_holds |}.
Next Obligation. intros g i m (dir & Hg & _). apply Hg. Qed.
Next Obligation. intros g i m (dir & _ & Hi). apply Hi. Qed.
Next Obligation. intros g i m (dir & _ & Hi). apply Hi. Qed.
Next Obligation.
  intros db m a b (dir & Hg & Hi) Hin. unfold _fdb_flash_read. apply wp_bind, wp_gets.
  rewrite (gf_mode _ _ Hg). apply wp_zoom. eapply wp_mono; [by eapply file_read_spec|].
  intros r i (Hi' & Hr & He). exists i. unfold libc_holds. naive_solver.
Qed.
Next Obligation.
  intros db m a d sync (dir & Hg & Hi) Hin Hd Hb _. unfold _fdb_flash_write. apply wp_bind, wp_gets.
  rewrite (gf_mode _ _ Hg). apply wp_zoom. eapply wp_mono; [by eapply file_write_spec|].
  intros r i (Hi' & Hr). exists i. unfold libc_holds. naive_solver.
Qed.
Next Obligation.
  intros db m a (dir & Hg & Hi) Ha Hmod. unfold _fdb_flash_erase. apply wp_bind, wp_gets.
  rewrite (gf_mode _ _ Hg). apply wp_zoom. eapply wp_mono; [by eapply file_erase_spec|].
  intros r i (Hi' & Hr). exists i. split; [done|]. split; [|done]. exists dir. split; [done|].
  destruct Hi' as [Hc [Hl Hb Hf _]]. split; [by eapply cache_inv_mono|]. split; try done.
  intros k Hk _. apply Hf; [done|by left].
Qed.
