(* ===== verification/Term.v ===== *)
(** Termination of the functions that access the storage medium.

    [StorageTerm] says that the functions of other files return, whatever they
    find; the functions of [fdb_utils.c] then return for every argument, and
    change nothing of the database but its connection to the storage. *)
From S2P Require Import Prelude FdbDef Status FlashIO FlashSpec FileIO.

(** A computation that returns, fails an assertion or has undefined behaviour,
    but does not run out of fuel. *)
Definition term {S A} (p : M S A) : Prop := forall s, may p (fun _ _ => True) s.

Class StorageTerm (W : Type) `{Storage W} := {
  file_read_term : forall g a b, term (_fdb_file_read g a b);
  file_write_term : forall g a b sync, term (_fdb_file_write g a b sync);
  file_erase_term : forall g a n, term (_fdb_file_erase g a n);
  part_read_term : forall p a b, term (fal_partition_read p a b);
  part_write_term : forall p a b, term (fal_partition_write p a b);
  part_erase_term : forall p a n, term (fal_partition_erase p a n);
}.

Section term_rules.
Context {S : Type}.

Lemma term_ret {A} (a : A) : term (S:=S) (mret a).
Proof. done. Qed.
Lemma term_bind {A B} (p : M S A) (k : A -> M S B) :
  term p -> (forall a, term (k a)) -> term (p ≫= k).
Proof.
  intros Hp Hk s. apply may_bind. eapply may_mono; [apply Hp|]. intros a s' _. apply Hk.
Qed.
Lemma term_gets {A} (f : S -> A) : term (gets f).
Proof. done. Qed.
Lemma term_modify (f : S -> S) : term (modify f).
Proof. done. Qed.
Lemma term_stuck {A} w : w <> OutOfFuel -> term (S:=S) (A:=A) (stuck_at w).
Proof. intros Hw s. exact Hw. Qed.
Lemma term_assert b : term (S:=S) (fdb_assert b).
Proof. by destruct b. Qed.
Lemma term_zoom {T A} (get : S -> T) set (m : M T A) : term m -> term (zoom get set m).
Proof. intros Hm s. apply may_zoom. eapply may_mono; [apply Hm|done]. Qed.
Lemma term_loop {X R} (measure : X -> nat) fuel (body : X -> M S (X + R)) x :
  (forall x s, may (body x) (fun r _ =>
     match r with inl x' => (measure x' < measure x)%nat | inr _ => True end) s) ->
  (measure x < fuel)%nat -> term (loop fuel body x).
Proof.
  intros Hb Hm s. apply (may_loop (fun _ _ => True) measure); [|done|done].
  intros y s' _. eapply may_mono; [apply Hb|]. by intros [z|r] s'' Hr.
Qed.
End term_rules.

Ltac term_step :=
  lazymatch goal with
  | |- forall _, _ => intros ?
  | |- term (mbind _ _) => apply term_bind
  | |- term (mret _) => apply term_ret
  | |- term (gets _) => apply term_gets
  | |- term (modify _) => apply term_modify
  | |- term (stuck_at _) => apply term_stuck; done
  | |- term (fdb_assert _) => apply term_assert
  | |- term (zoom _ _ _) => apply term_zoom
  | |- term (with_io _) => apply term_zoom
  | |- term (with_world _) => apply term_zoom, term_zoom
  | |- term (io_world _) => apply term_zoom
  | |- term (match ?x with _ => _ end) => destruct x
  | |- term (let _ := _ in _) => cbv zeta
  | |- _ => solve [auto 3 with term]
  end.
Create HintDb term.
Ltac terminates := repeat term_step.

(** ** The storage of the build *)

Section libc_term.
Lemma term_fclose h : term (libc_fclose h).
Proof. unfold libc_fclose, stream_of. terminates. Qed.
Lemma term_call_fails : term call_fails.
Proof. done. Qed.
Lemma term_new_stream p : term (new_stream p).
Proof. done. Qed.
#[local] Hint Resolve term_fclose term_call_fails term_new_stream : term.
Lemma term_fopen p m : term (fopen p m).
Proof. unfold fopen. terminates. Qed.
Lemma term_fseek h n : term (fseek h n).
Proof. unfold fseek, stream_of. terminates. Qed.
Lemma term_fread h b : term (fread h b).
Proof. unfold fread, stream_of. terminates. Qed.
Lemma term_fwrite h b : term (fwrite h b).
Proof. unfold fwrite, stream_of. terminates. Qed.
Lemma term_fflush h : term (fflush h).
Proof. unfold fflush, stream_of. terminates. Qed.
#[local] Hint Resolve term_fopen term_fseek term_fread term_fwrite term_fflush : term.

Lemma term_shift_cache n : term (shift_cache n).
Proof. induction n as [|n IH]; cbn [shift_cache]; terminates. Qed.
#[local] Hint Resolve term_shift_cache : term.
Lemma term_open_db_file g a clean : term (open_db_file g a clean).
Proof.
  unfold open_db_file, get_db_file_path, get_file_from_cache, update_file_cache. terminates.
Qed.
#[local] Hint Resolve term_open_db_file : term.

Lemma term_erase_loop h n : term (erase_loop h n).
Proof.
  unfold erase_loop. apply term_loop with (fun i => Z.to_nat (n - i * BUF_SIZE)).
  - intros i s. destruct (Z.ltb_spec (i * BUF_SIZE) n); [|done].
    apply may_bind. eapply may_mono; [apply term_fwrite|]. intros r s' _. apply may_ret.
    unfold BUF_SIZE in *. lia.
  - lia.
Qed.
#[local] Hint Resolve term_erase_loop : term.
End libc_term.

#[export] Instance libc_term : StorageTerm libc.
Proof.
  split; intros; cbn [_fdb_file_read _fdb_file_write _fdb_file_erase fal_partition_read
    fal_partition_write fal_partition_erase libc_storage];
    unfold libc_file_read, libc_file_write, libc_file_erase; terminates;
    auto using term_open_db_file, term_fseek, term_fread, term_fwrite, term_fflush, term_erase_loop.
Qed.

(** ** [fdb_utils.c] *)

Section utils_term.
Context {W} {ST : Storage W} {TM : StorageTerm W} {IN : Indeterminate}.

(** Returns, and changes at most the files and the medium. *)
Definition io_only {A} (p : M (fdb_db W) A) (R : A -> Prop) : Prop :=
  forall db, may p (fun r db' => (exists i, db' = set_dbio i db) /\ R r) db.
Definition anything {A} (_ : A) : Prop := True.

Lemma io_only_ret {A} (a : A) (R : A -> Prop) : R a -> io_only (mret a) R.
Proof. intros HR db. split; [|done]. exists (dbio db). by destruct db. Qed.
Lemma io_only_bind {A B} (p : M (fdb_db W) A) (k : A -> M (fdb_db W) B) R R' :
  io_only p R' -> (forall a, R' a -> io_only (k a) R) -> io_only (p ≫= k) R.
Proof.
  intros Hp Hk db. apply may_bind. eapply may_mono; [apply Hp|].
  intros a db1 [[i ->] Ha]. eapply may_mono; [by apply Hk|].
  intros b db2 [[j ->] Hb]. split; [by exists j|done].
Qed.
Lemma io_only_gets {A} (f : fdb_db W -> A) : io_only (gets f) anything.
Proof. intros db. split; [|done]. exists (dbio db). by destruct db. Qed.
Lemma io_only_stuck {A} w (R : A -> Prop) : w <> OutOfFuel -> io_only (stuck_at w) R.
Proof. by intros Hw db. Qed.
Lemma io_only_assert b : io_only (fdb_assert b) anything.
Proof. destruct b; [by apply io_only_ret|done]. Qed.
Lemma io_only_with_io {A} (p : M (io W) A) : term p -> io_only (with_io p) anything.
Proof.
  intros Hp db. apply may_zoom. eapply may_mono; [apply Hp|]. intros a i _. split; [by exists i|done].
Qed.
Lemma io_only_with_world {A} (p : M W A) : term p -> io_only (with_world p) anything.
Proof. intros Hp. by apply io_only_with_io, term_zoom. Qed.

Lemma io_only_loop {X R} (Inv : X -> Prop) (measure : X -> nat) fuel
    (body : X -> M (fdb_db W) (X + R)) x (Q : R -> Prop) :
  (forall x, Inv x -> io_only (body x) (fun r =>
     match r with inl x' => Inv x' /\ (measure x' < measure x)%nat | inr r => Q r end)) ->
  Inv x -> (measure x < fuel)%nat -> io_only (loop fuel body x) Q.
Proof.
  intros Hb. revert x. induction fuel as [|fuel IH]; intros x Hx Hm; [lia|]. cbn [loop].
  eapply io_only_bind; [by apply Hb|]. intros [y|r] Hr; [|by apply io_only_ret].
  destruct Hr. apply IH; [done|lia].
Qed.

Lemma io_only_read a b : io_only (_fdb_flash_read a b) anything.
Proof.
  unfold _fdb_flash_read, storage_part_of.
  eapply io_only_bind; [apply io_only_gets|]. intros g _.
  repeat case_match; try by apply io_only_ret.
  all: try (apply io_only_with_io, file_read_term).
  all: eapply io_only_bind; [first [by apply (io_only_ret _ anything)|by apply (io_only_stuck _ anything)]|].
  all: intros; eapply io_only_bind; [apply io_only_with_world, part_read_term|].
  all: intros; by apply io_only_ret.
Qed.
Lemma io_only_write a b sync : io_only (_fdb_flash_write a b sync) anything.
Proof.
  unfold _fdb_flash_write, storage_part_of.
  eapply io_only_bind; [apply io_only_gets|]. intros g _.
  repeat case_match; try by apply io_only_ret.
  all: try (apply io_only_with_io, file_write_term).
  all: eapply io_only_bind; [first [by apply (io_only_ret _ anything)|by apply (io_only_stuck _ anything)]|].
  all: intros; eapply io_only_bind; [apply io_only_with_world, part_write_term|].
  all: intros; by apply io_only_ret.
Qed.
Lemma io_only_erase a n : io_only (_fdb_flash_erase a n) anything.
Proof.
  unfold _fdb_flash_erase, storage_part_of.
  eapply io_only_bind; [apply io_only_gets|]. intros g _.
  repeat case_match; try by apply io_only_ret.
  all: try (apply io_only_with_io, file_erase_term).
  all: eapply io_only_bind; [first [by apply (io_only_ret _ anything)|by apply (io_only_stuck _ anything)]|].
  all: intros; eapply io_only_bind; [apply io_only_with_world, part_erase_term|].
  all: intros; by apply io_only_ret.
Qed.

Lemma io_only_write_status g a n i sync : io_only (_fdb_write_status g a n i sync) anything.
Proof.
  unfold _fdb_write_status. eapply io_only_bind; [apply io_only_assert|]. intros _ _.
  destruct (_fdb_set_status g n i) as [t [j|]]; [|by apply io_only_ret].
  case_match; apply io_only_write.
Qed.
Lemma io_only_read_status g a t n : io_only (_fdb_read_status g a t n) anything.
Proof.
  unfold _fdb_read_status. eapply io_only_bind; [apply io_only_read|]. intros. by apply io_only_ret.
Qed.
Lemma io_only_write_align g a b : io_only (_fdb_flash_write_align g a b) anything.
Proof.
  unfold _fdb_flash_write_align. eapply io_only_bind with (R' := anything).
  - case_match; [apply io_only_write|by apply io_only_ret].
  - intros. cbv zeta. repeat case_match; first [by apply io_only_ret|apply io_only_write].
Qed.
Lemma io_only_continue g a b : b + 32 < 4294967296 -> io_only (_fdb_continue_ff_addr g a b) anything.
Proof.
  intros Hb. unfold _fdb_continue_ff_addr.
  apply io_only_loop with (Inv := anything) (measure := fun x => Z.to_nat (b - x.1.1.1));
    [|done|cbn; lia].
  intros [[[s ad] l] buf] _. cbn [fst]. destruct (Z.ltb_spec s b).
  - eapply io_only_bind; [apply io_only_read|]. intros [e r] _. cbv zeta.
    destruct (ff_scan _ _ _ _ _) as [ad' l']. apply io_only_ret. split; [done|]. cbn [fst].
    destruct (Z.ltb_spec s 0).
    + pose proof (Z.mod_pos_bound (s + 32) 4294967296 ltac:(lia)). unfold u32. lia.
    + unfold u32. rewrite Z.mod_small by lia. lia.
  - case_match; by apply io_only_ret.
Qed.
End utils_term.
