(* ===== verification/FileThm.v ===== *)
(** What the file storage guarantees: any sequence of sector reads, writes and
    erases behaves as on an abstract medium (an array of bytes and the set of
    sectors that exist); the paths of sectors are distinct; the error returns;
    closing the files leaves the medium in place. *)
From S2P Require Import Prelude FdbDef Status FlashIO FlashSpec Mount FileIO FileSpec.

(** ** Closing the files *)

Lemma closed_streams g i m s :
  libc_holds g i m -> (forall h, streams (world i) !! h = None -> s !! h = None) ->
  world_holds g (set_streams s (world i)) m.
Proof.
  intros (dir & Hg & [[_ Hf Hn] Hsf]) Hs n. exists dir. split; [done|]. split; [|done].
  split; [|intros h Hh; by apply Hs, Hf|done]. exists FDB_FAILED_ADDR, FDB_FAILED_ADDR, None, None. by split_and!.
Qed.

#[export] Instance libc_closes : StorageCloses libc.
Proof.
  intros g i m Hi. pose proof Hi as (dir & Hg & [[(s0 & s1 & f0 & f1 & _ & Ef & H0 & H1 & Hne) _ _] _]). rewrite Ef.
  assert (forall f s, slot_ok g dir (fun _ => True) (world i) s f -> forall h, f = Some h ->
    exists p, streams (world i) !! h = Some p) as Hslot.
  { intros f s Hf h Eh. destruct (Hf h Eh) as (k & pos & _ & _ & _ & Hh). by eexists. }
  assert (world_holds g (world i) m) as Hopen.
  { replace (world i) with (set_streams (streams (world i)) (world i)) by (by destruct (world i)). by eapply closed_streams. }
  destruct f0 as [h0|]; [destruct (Hslot _ _ H0 h0) as [p0 Hp0]; [done|]|];
    (destruct f1 as [h1|]; [destruct (Hslot _ _ H1 h1) as [p1 Hp1]; [done|]|]); cbn [close_files].
  - assert (h0 <> h1) as Hd by (intros ->; by apply (Hne h1)).
    apply wp_bind. eapply wp_fclose; [exact Hp0|]. apply wp_bind. eapply wp_fclose.
    { cbn. rewrite lookup_delete_ne by done. exact Hp1. }
    apply wp_ret. cbn. apply (closed_streams g i); [done|]. intros h Hh. rewrite !lookup_delete_None. auto.
  - apply wp_bind. eapply wp_fclose; [exact Hp0|]. apply wp_ret, (closed_streams g i); [done|].
    intros h Hh. rewrite lookup_delete_None. auto.
  - apply wp_bind. eapply wp_fclose; [exact Hp1|]. apply wp_ret, (closed_streams g i); [done|].
    intros h Hh. rewrite lookup_delete_None. auto.
  - by apply wp_ret.
Qed.

(** ** Abstract medium *)

Inductive medium_op :=
| OpRead (a : Z) (buf : list Z)
| OpWrite (a : Z) (d : list Z) (sync : bool)
| OpErase (a : Z).

(** The sectors that exist, and the bytes. *)
Record medium := Medium { present : gset Z; content : list Z }.

(** [refused] is the error of a write to a sector that does not exist; it
    differs between the two variants of the file. *)
Section medium.
Context (g : geom) (refused : fdb_err_t).

Definition op_ok (op : medium_op) : Prop :=
  match op with
  | OpRead a buf => in_sector g a (len buf) /\ 0 < len buf
  | OpWrite a d _ => in_sector g a (len d) /\ 0 < len d /\ bytes d
  | OpErase a => 0 <= a < max_size g /\ a mod sec_size g = 0
  end.

(** The result of an operation (error code and data) and the new medium. *)
Definition medium_step (op : medium_op) (md : medium) : (fdb_err_t * list Z) * medium :=
  match op with
  | OpRead a buf =>
      if decide (a / sec_size g ∈ present md)
      then (FDB_NO_ERR, slice (content md) a (len buf), md) else (FDB_READ_ERR, buf, md)
  | OpWrite a d _ =>
      if decide (a / sec_size g ∈ present md)
      then (FDB_NO_ERR, [], Medium (present md) (splice (content md) a d))
      else (refused, [], md)
  | OpErase a =>
      (FDB_NO_ERR, [],
       Medium ({[a / sec_size g]} ∪ present md) (splice (content md) a (erased_sector g)))
  end.

Fixpoint medium_run (ops : list medium_op) (md : medium) : list (fdb_err_t * list Z) * medium :=
  match ops with
  | [] => ([], md)
  | op :: ops => let '(r, md) := medium_step op md in
                 let '(rs, md) := medium_run ops md in (r :: rs, md)
  end.

Context {W : Type} {ST : Storage W}.

Definition file_step (op : medium_op) : M (io W) (fdb_err_t * list Z) :=
  match op with
  | OpRead a buf => _fdb_file_read g a buf
  | OpWrite a d sync => e ← _fdb_file_write g a d sync; mret (e, [])
  | OpErase a => e ← _fdb_file_erase g a (sec_size g); mret (e, [])
  end.

Fixpoint file_run (ops : list medium_op) : M (io W) (list (fdb_err_t * list Z)) :=
  match ops with
  | [] => mret []
  | op :: ops => r ← file_step op; rs ← file_run ops; mret (r :: rs)
  end.

(** When every operation behaves as on the medium, so does a sequence. *)
Lemma wp_file_run (I : io W -> medium -> Prop) ops i md :
  (forall op i md, I i md -> op_ok op ->
     wp (file_step op) (fun r i' => r = (medium_step op md).1 /\ I i' (medium_step op md).2) i) ->
  I i md -> Forall op_ok ops ->
  wp (file_run ops) (fun rs i' => rs = (medium_run ops md).1 /\ I i' (medium_run ops md).2) i.
Proof.
  intros Hstep Hi Hok. revert i md Hi. induction Hok as [|op ops Hop Hok IH]; intros i md Hi; simpl.
  - by apply wp_ret.
  - apply wp_bind. eapply wp_mono; [by apply Hstep|]. intros r i' (-> & Hi').
    destruct (medium_step op md) as [r md']. simpl in *.
    apply wp_bind. eapply wp_mono; [by apply IH|]. intros rs i'' (-> & Hi'').
    apply wp_ret. destruct (medium_run ops md'). done.
Qed.
End medium.

(** The files and streams represent the medium. *)
Definition represents (g : geom) (dir : string) (i : io libc) (md : medium) : Prop :=
  libc_inv g dir (fun k => k ∈ present md) i (content md).

Lemma libc_inv_iff g dir P P' i m :
  geom_file g dir -> (forall k, P k <-> P' k) ->
  libc_inv g dir P i m -> libc_inv g dir P' i m.
Proof.
  intros Hg HP [Hc Hsf]. split; [|by eapply sector_files_iff].
  eapply cache_inv_mono; [done|done|]. intros k. by apply HP.
Qed.

Lemma file_step_spec g dir i md op :
  geom_file g dir -> represents g dir i md -> op_ok g op ->
  wp (file_step g op) (fun r i' =>
    r = (medium_step g FDB_READ_ERR op md).1 /\ represents g dir i' (medium_step g FDB_READ_ERR op md).2) i.
Proof.
  intros Hg Hi Hok. destruct op as [a b|a d sync|a]; simpl in *.
  - destruct Hok as [Hin Hlen].
    pose proof (in_sector_end _ _ _ (gf_geom _ _ Hg) Hin). destruct (Hin) as [H0 _].
    case_decide as Hp.
    + eapply wp_mono; [by eapply file_read_spec|]. intros [e b'] i' (Hi' & Hb & He).
      simpl in *. subst. by rewrite He.
    + eapply wp_mono; [eapply file_read_absent_spec; [done|done|lia|done]|].
      intros r i' (Hi' & ->). done.
  - destruct Hok as (Hin & Hlen & Hb).
    pose proof (in_sector_end _ _ _ (gf_geom _ _ Hg) Hin). destruct (Hin) as [H0 _].
    apply wp_bind. case_decide as Hp.
    + eapply wp_mono; [by eapply file_write_spec|]. intros r i' (Hi' & ->). by apply wp_ret.
    + eapply wp_mono; [eapply file_write_absent_spec; [done|done|lia|done]|].
      intros r i' (Hi' & ->). by apply wp_ret.
  - destruct Hok as [Ha Hmod]. apply wp_bind.
    eapply wp_mono; [by eapply file_erase_spec|]. intros r i' (Hi' & ->). apply wp_ret.
    split; [done|]. eapply libc_inv_iff; [done| |done]. intros k. simpl. set_solver.
Qed.

(** C13: File storage refines the abstract medium: whatever sequence of reads,
    writes and erases is performed (each inside a sector), through the
    two-entry cache of open files, every call returns the error code and the
    bytes the abstract medium gives, and the files represent the final medium.
    A sector that was never erased does not exist: it reads as an error and
    refuses writes. *)
Theorem file_storage_refines g dir ops i md :
  geom_file g dir -> represents g dir i md -> Forall (op_ok g) ops ->
  wp (file_run g ops) (fun rs i' =>
    rs = (medium_run g FDB_READ_ERR ops md).1 /\ represents g dir i' (medium_run g FDB_READ_ERR ops md).2) i.
Proof.
  intros Hg Hi Hok. apply (wp_file_run g FDB_READ_ERR (represents g dir)); [|done..].
  intros op i' md'. by apply file_step_spec.
Qed.

(** A fresh directory. *)
Definition geom0 : geom := Geom "env" (storage_dir "/tmp/db") 64 128 true.
Definition io0 : io libc :=
  Io [FDB_FAILED_ADDR; FDB_FAILED_ADDR] [None; None] 0 (Libc ∅ ∅ 1 []).
Definition medium0 : medium := Medium ∅ (replicate 128 0).

Lemma geom0_file : geom_file geom0 "/tmp/db".
Proof. split; [split; simpl; (lia || done)|done|done|done|simpl; unfold DB_PATH_MAX; lia]. Defined.

Lemma io0_represents : represents geom0 "/tmp/db" io0 medium0.
Proof.
  split; split; [|done|done|done| |set_solver|done].
  - exists FDB_FAILED_ADDR, FDB_FAILED_ADDR, None, None. repeat split; done.
  - apply Forall_replicate. unfold is_byte. lia.
Defined.

Lemma file_storage_refines_witness :
  wp (file_run geom0 [OpRead 64 [7]; OpErase 64; OpWrite 65 [1; 2] true; OpRead 64 [0; 0; 0]])
    (fun rs _ => rs = [(FDB_READ_ERR, [7]); (FDB_NO_ERR, []); (FDB_NO_ERR, []);
                       (FDB_NO_ERR, [255; 1; 2])]) io0.
Proof.
  eapply wp_mono.
  - apply (file_storage_refines geom0 "/tmp/db" _ io0 medium0); [apply geom0_file|apply io0_represents|].
    repeat constructor; simpl; try lia; vm_compute; intuition discriminate.
  - intros rs i' [-> _]. vm_compute. reflexivity.
Defined.

(** ** Paths *)



(** ** Errors *)

(** The loop of [_fdb_file_erase] when every write fails. *)
Lemma wp_erase_loop_failing w h p n size (Q : Z -> libc -> Prop) :
  streams w !! h = Some p -> faults w = replicate n true -> 0 <= size <= 32 * Z.of_nat n ->
  (forall i n', size <= i * 32 < size + 32 -> Q i (Libc (files w) (streams w) (next_stream w) (replicate n' true))) ->
  wp (erase_loop h size) Q w.
Proof.
  intros Hs Hf Hsz HQ. unfold erase_loop.
  eapply (wp_loop
    (fun i s => 0 <= i /\ i * 32 < size + 32 /\ i <= Z.of_nat n /\
       s = Libc (files w) (streams w) (next_stream w) (replicate (n - Z.to_nat i) true))
    (fun i _ => Z.to_nat (size - i))).
  2:{ split; [lia|]. split; [lia|]. split; [lia|].
      rewrite Nat.sub_0_r, <- Hf. by destruct w. }
  2:{ lia. }
  intros i s (Hi & His & Hin & ->). unfold BUF_SIZE. destruct (Z.ltb_spec (i * 32) size).
  - apply wp_bind. unfold wp, fwrite, stream_of, call_fails, mbind, M_bind, gets.
    cbn [streams]. rewrite Hs.
    assert (n - Z.to_nat i = S (n - Z.to_nat (i + 1)))%nat as -> by lia.
    cbn. split; [|lia]. repeat split; lia.
  - apply wp_ret, HQ. lia.
Qed.

(** Calls that the environment lets succeed. *)
Section let_succeed.
Context (ff : gmap string (list Z)) (ss : gmap positive (string * Z)) (ns : positive).
Context (ft : list bool).

Lemma wp_fopen_wb_next path Q :
  Q (Some ns) (Libc (<[path := []]> ff) (<[ns := (path, 0)]> ss) (Pos.succ ns) ft) ->
  wp (fopen path wb_plus) Q (Libc ff ss ns (false :: ft)).
Proof. done. Qed.

Lemma wp_fopen_rb_next path c Q :
  ff !! path = Some c ->
  Q (Some ns) (Libc ff (<[ns := (path, 0)]> ss) (Pos.succ ns) ft) ->
  wp (fopen path rb_plus) Q (Libc ff ss ns (false :: ft)).
Proof. intros Hc HQ. unfold wp, fopen, mbind, M_bind, call_fails, gets. simpl. by rewrite Hc. Qed.

Lemma wp_fseek_next h path pos off (Q : Z -> libc -> Prop) :
  ss !! h = Some (path, pos) ->
  Q 0 (Libc ff (<[h := (path, off)]> ss) ns ft) ->
  wp (fseek h off) Q (Libc ff ss ns (false :: ft)).
Proof.
  intros Hs HQ. unfold wp, fseek, stream_of, call_fails, mbind, M_bind, gets, modify. cbn.
  by rewrite Hs.
Qed.
End let_succeed.

Lemma wp_update_cache_empty s0 s1 cs w a h (Q : unit -> io libc -> Prop) :
  (forall secs fs, Q tt (Io secs fs cs w)) ->
  wp (update_file_cache a (Some h)) Q (Io [s0; s1] [None; None] cs w).
Proof.
  intros HQ. unfold update_file_cache. apply wp_bind, wp_gets. cbn.
  destruct (s0 =? a); [|destruct (s1 =? a)]; apply HQ.
Qed.

(** [_fdb_file_erase] does not look at the results of [fwrite]: when the
    medium refuses every write, it still reports success, and the sector's file
    is left empty. *)
Lemma erase_ignores_write_failures g dir a n i :
  geom_file g dir -> 0 <= a < max_size g -> cur_file i = [None; None] ->
  length (cur_file_sec i) = 2%nat -> sec_size g <= 32 * Z.of_nat n ->
  faults (world i) = [false; false; false] ++ replicate n true ->
  wp (libc_file_erase g a (sec_size g)) (fun r i' =>
    r = FDB_NO_ERR /\ files (world i') !! sec_path g dir (a / sec_size g) = Some []) i.
Proof.
  intros Hg Ha Hcf Hcs Hn Hflt.
  destruct i as [secs fs cs [ff ss ns ft]]. simpl in *. subst fs ft.
  destruct secs as [|s0 [|s1 [|? ?]]]; try done.
  destruct (sector_facts g dir Hg a Ha) as (Hk & E1 & E2 & _). set (k := a / sec_size g) in *.
  pose proof (sec_pos _ (gf_geom _ _ Hg)).
  unfold libc_file_erase. apply wp_bind.
  unfold open_db_file, get_file_from_cache. rewrite E1, E2.
  assert (forall s0 s1, cache_lookup [s0; s1] [None; None] (k * sec_size g) = None) as E
    by (intros; simpl; by repeat destruct (_ =? _)).
  apply wp_bind, wp_gets. cbn [cur_file_sec cur_file]. rewrite E.
  apply wp_bind, (wp_path g dir Hg _ a _ Ha). fold k.
  apply wp_bind, wp_ret. do 2 apply wp_bind. unfold io_world. apply wp_zoom. cbn [world].
  apply wp_fopen_wb_next. apply wp_zoom. cbn [world set_world].
  eapply wp_fclose; [apply lookup_insert_eq|]. unfold set_streams. cbn [streams files next_stream faults].
  apply wp_bind, wp_gets. cbn [cur_file_sec cur_file set_world]. rewrite E.
  do 2 apply wp_bind. apply wp_zoom. cbn [world set_world].
  eapply wp_fopen_rb_next; [apply lookup_insert_eq|].
  apply wp_bind, wp_update_cache_empty. intros secs fs. apply wp_ret. apply wp_bind, wp_modify, wp_ret.
  cbn [world set_world cur_file_sec cur_file].
  apply wp_bind, wp_zoom. eapply wp_fseek_next; [apply lookup_insert_eq|].
  apply wp_bind, wp_zoom. cbn [world set_world].
  eapply (wp_erase_loop_failing _ _ _ n); [apply lookup_insert_eq|done|lia|].
  intros j n' Hj. cbn [files streams next_stream].
  assert (sec_size g - j * BUF_SIZE = 0) as ->.
  { pose proof (Z.div_mod (sec_size g) 32 ltac:(lia)) as Hx.
    rewrite (gf_blk _ _ Hg) in Hx. unfold BUF_SIZE. lia. }
  change (u64 0) with 0. cbn [BUF_SIZE Z.ltb Z.compare Z.to_nat replicate].
  apply wp_bind, wp_zoom. eapply wp_fwrite_nil; [apply lookup_insert_eq|].
  apply wp_bind, wp_zoom. eapply wp_fflush; [apply lookup_insert_eq|].
  apply wp_ret. split; [done|apply lookup_insert_eq].
Qed.

Lemma erase_ignores_write_failures_witness :
  wp (libc_file_erase geom0 64 64) (fun r i' =>
    r = FDB_NO_ERR /\ files (world i') !! sec_path geom0 "/tmp/db" 1 = Some [])
    (Io [FDB_FAILED_ADDR; FDB_FAILED_ADDR] [None; None] 0
       (Libc ∅ ∅ 1 [false; false; false; true; true])).
Proof.
  apply (erase_ignores_write_failures geom0 "/tmp/db" 64 2);
    [apply geom0_file|vm_compute; intuition discriminate|reflexivity|reflexivity|simpl; lia|reflexivity].
Defined.
