(* ===== verification/PosixIO.v ===== *)
(** File storage: the other variant of [src/fdb_file.c], built with
    [FDB_USING_FILE_POSIX_MODE].  It keeps file descriptors where the variant
    of [FileIO] keeps streams.

    [posix] models what the file uses of the operating system: the contents of
    the files, the open descriptors with their offsets, the descriptors that
    belong to the rest of the process, and what is going to happen to the next
    calls.  [open] returns the lowest descriptor that is not in use. *)
From S2P Require Import Prelude FdbDef FlashIO FileIO.

(** ** Descriptors *)

(** What happens to a call: it works, it fails, or it transfers fewer bytes. *)
Inductive fault := Works | Fails | Partial (n : nat).

Record posix := Posix {
  pfiles : gmap string (list Z);
  descriptors : gmap Z (string * Z);     (** path and offset *)
  inherited : gset Z;                    (** descriptors of the rest of the process *)
  pfaults : list fault;
}.

Definition set_descriptors (d : gmap Z (string * Z)) (w : posix) : posix :=
  Posix (pfiles w) d (inherited w) (pfaults w).
Definition set_pfiles (f : gmap string (list Z)) (w : posix) : posix :=
  Posix f (descriptors w) (inherited w) (pfaults w).

Definition next_fault : M posix fault := fun w =>
  Done (hd Works (pfaults w),
        Posix (pfiles w) (descriptors w) (inherited w) (tl (pfaults w))).

Definition in_use (w : posix) : gset Z := dom (descriptors w) ∪ inherited w.

(** One of the numbers up to the number of descriptors in use is free. *)
Definition lowest_unused (w : posix) : Z :=
  default 0 (snd <$> list_find (fun d => d ∉ in_use w)
                       (map Z.of_nat (seq 0 (S (base.size (in_use w)))))).

Definition new_descriptor (path : string) : M posix Z := fun w =>
  let fd := lowest_unused w in
  Done (fd, set_descriptors (<[fd := (path, 0)]> (descriptors w)) w).

Inductive open_flags := O_RDWR | O_RDWR_CREAT_TRUNC.

(** -1 on failure. *)
Definition posix_open (path : string) (flags : open_flags) : M posix Z :=
  f ← next_fault;
  match f with
  | Fails => mret (-1)
  | _ =>
      match flags with
      | O_RDWR =>
          fs ← gets pfiles;
          match fs !! path with
          | None => mret (-1)
          | Some _ => new_descriptor path
          end
      | O_RDWR_CREAT_TRUNC =>
          modify (fun w => set_pfiles (<[path := []]> (pfiles w)) w);;
          new_descriptor path
      end
  end.

(** A call on a descriptor; one that is not open makes it return [ebadf].  The
    model says nothing of calls on descriptors of the rest of the process. *)
Definition on_descriptor {A} (fd : Z) (ebadf : A) (k : string * Z -> M posix A) : M posix A :=
  w ← gets id;
  if decide (fd ∈ inherited w) then stuck_at Undefined
  else match descriptors w !! fd with
       | None => mret ebadf
       | Some p => k p
       end.

Definition posix_close (fd : Z) : M posix unit :=
  on_descriptor fd tt (fun _ => modify (fun w => set_descriptors (delete fd (descriptors w)) w)).

Definition set_offset (fd : Z) (p : string * Z) : M posix unit :=
  modify (fun w => set_descriptors (<[fd := p]> (descriptors w)) w).

(** [lseek] with [SEEK_SET]: the new offset, or -1. *)
Definition lseek (fd off : Z) : M posix Z :=
  on_descriptor fd (-1) (fun p =>
    f ← next_fault;
    match f with
    | Fails => mret (-1)
    | _ => set_offset fd (p.1, off);; mret off
    end).

(** The part of [d] that a call transfers. *)
Definition transferred (f : fault) (d : list Z) : list Z :=
  match f with Partial n => take n d | _ => d end.

(** The number of bytes read, or -1, and the buffer. *)
Definition posix_read (fd : Z) (buf : list Z) : M posix (Z * list Z) :=
  on_descriptor fd (-1, buf) (fun p =>
    f ← next_fault;
    match f with
    | Fails => mret (-1, buf)
    | _ =>
        fs ← gets pfiles;
        let data := transferred f (slice (default [] (fs !! p.1)) p.2 (len buf)) in
        set_offset fd (p.1, p.2 + len data);;
        mret (len data, splice buf 0 data)
    end).

(** The number of bytes written, or -1. *)
Definition posix_write (fd : Z) (data : list Z) : M posix Z :=
  on_descriptor fd (-1) (fun p =>
    f ← next_fault;
    match f with
    | Fails => mret (-1)
    | _ =>
        match transferred f data with
        | [] => mret 0
        | data =>
            modify (fun w => set_pfiles
              (<[p.1 := file_write (default [] (pfiles w !! p.1)) p.2 data]> (pfiles w)) w);;
            set_offset fd (p.1, p.2 + len data);;
            mret (len data)
        end
    end).

(** The model does not distinguish what is on the disk from what is in the
    memory of the system. *)
Definition fsync (fd : Z) : M posix unit := on_descriptor fd tt (fun _ => mret tt).

(** ** [fdb_file.c] *)

(** The members [cur_file_sec], [cur_file] and [cur_sec] of [struct fdb_db] in
    this mode, and the system. *)
Record pio := Pio {
  pfile_sec : list Z;
  pfile : list Z;
  pcur_sec : Z;
  pworld : posix;
}.

Definition set_pcache (secs fs : list Z) (s : pio) : pio := Pio secs fs (pcur_sec s) (pworld s).
Definition system {A} (m : M posix A) : M pio A :=
  zoom pworld (fun w s => Pio (pfile_sec s) (pfile s) (pcur_sec s) w) m.

Fixpoint pcache_lookup (secs fs : list Z) (sec_addr : Z) : Z :=
  match secs, fs with
  | s :: secs, f :: fs => if s =? sec_addr then f else pcache_lookup secs fs sec_addr
  | _, _ => -1
  end.

Definition posix_get_file_from_cache (sec_addr : Z) : M pio Z :=
  gets (fun s => pcache_lookup (pfile_sec s) (pfile s) sec_addr).

(** The search of [update_file_cache]: the slot of the sector, or the last
    free slot. *)
Fixpoint pcache_slot (secs fs : list Z) (sec_addr : Z) (i : nat) (free : option nat)
    : nat + option nat :=
  match secs, fs with
  | s :: secs, f :: fs =>
      if s =? sec_addr then inl i
      else pcache_slot secs fs sec_addr (S i) (if f =? -1 then Some i else free)
  | _, _ => inr free
  end.

(** The shift of a full cache: slots [i], [i - 1], ..., 1. *)
Fixpoint posix_shift_cache (i : nat) : M pio unit :=
  match i with
  | O => mret tt
  | S j =>
      fs ← gets pfile;
      system (posix_close (nth i fs (-1)));;
      modify (fun s => set_pcache (<[i := nth j (pfile_sec s) 0]> (pfile_sec s))
                                  (<[i := nth j (pfile s) (-1)]> (pfile s)) s);;
      posix_shift_cache j
  end.

Definition posix_update_file_cache (sec_addr fd : Z) : M pio unit :=
  s ← gets id;
  match pcache_slot (pfile_sec s) (pfile s) sec_addr 0 None with
  | inl k => modify (fun s => set_pcache (pfile_sec s) (<[k := fd]> (pfile s)) s)
  | inr free =>
      if 0 <? fd then
        match free with
        | Some k => modify (fun s => set_pcache (<[k := sec_addr]> (pfile_sec s))
                                                (<[k := fd]> (pfile s)) s)
        | None =>
            posix_shift_cache (Z.to_nat FDB_FILE_CACHE_TABLE_SIZE - 1);;
            modify (fun s => set_pcache (<[0%nat := sec_addr]> (pfile_sec s))
                                        (<[0%nat := fd]> (pfile s)) s)
        end
      else mret tt
  end.

(** [clean]: the old file is created or emptied first. *)
Definition clean_old_file (path : string) : M pio unit :=
  clean_fd ← system (posix_open path O_RDWR_CREAT_TRUNC);
  if clean_fd <=? 0 then mret tt else system (posix_close clean_fd).

Definition posix_open_db_file (g : geom) (addr : Z) (clean : bool) : M pio Z :=
  let sec_addr := u32 (FDB_ALIGN_DOWN addr (sec_size g)) in
  fd ← posix_get_file_from_cache sec_addr;
  if (fd <=? 0) || clean then
    path ← get_db_file_path g addr DB_PATH_MAX;
    fd ← (if 0 <? fd then
            system (posix_close fd);; posix_update_file_cache sec_addr (-1);; mret (-1)
          else mret fd);
    (if clean then clean_old_file path else mret tt);;
    cached ← posix_get_file_from_cache sec_addr;
    fd ← (if cached <? 0 then
            fd ← system (posix_open path O_RDWR);
            posix_update_file_cache sec_addr fd;;
            mret fd
          else mret fd);
    modify (fun s => Pio (pfile_sec s) (pfile s) sec_addr (pworld s));;
    mret fd
  else mret fd.

Definition posix_file_read (g : geom) (addr : Z) (buf : list Z) : M pio (fdb_err_t * list Z) :=
  fd ← posix_open_db_file g addr false;
  if 0 <? fd then
    let addr := addr mod sec_size g in
    off ← system (lseek fd addr);
    if negb (off =? i32 addr) then mret (FDB_READ_ERR, buf)
    else
      r ← system (posix_read fd buf);
      mret (if negb (r.1 =? len buf) then FDB_READ_ERR else FDB_NO_ERR, r.2)
  else mret (FDB_READ_ERR, buf).

Definition posix_file_write (g : geom) (addr : Z) (buf : list Z) (sync : bool)
    : M pio fdb_err_t :=
  fd ← posix_open_db_file g addr false;
  if 0 <? fd then
    let addr := addr mod sec_size g in
    off ← system (lseek fd addr);
    result ← (if negb (off =? i32 addr) then mret FDB_WRITE_ERR
              else n ← system (posix_write fd buf);
                   mret (if negb (n =? len buf) then FDB_WRITE_ERR else FDB_NO_ERR));
    (if sync then system (fsync fd) else mret tt);;
    mret result
  else mret FDB_WRITE_ERR.

(** The loop [for (i = 0; i * BUF_SIZE < size; i++)]; the results of [write]
    are not looked at. *)
Definition posix_erase_loop (fd size : Z) : M posix Z :=
  loop (Z.to_nat size + 1)
    (fun i => if i * BUF_SIZE <? size
              then posix_write fd (replicate (Z.to_nat BUF_SIZE) 0xFF);; mret (inl (i + 1))
              else mret (inr i)) 0.

Definition posix_file_erase (g : geom) (addr size : Z) : M pio fdb_err_t :=
  fd ← posix_open_db_file g addr true;
  if 0 <? fd then
    system (lseek fd 0);;
    i ← system (posix_erase_loop fd size);
    let rest := u64 (size - i * BUF_SIZE) in
    (if BUF_SIZE <? rest then stuck_at Undefined      (* reads past [buf] *)
     else system (posix_write fd (replicate (Z.to_nat rest) 0xFF)));;
    system (fsync fd);;
    mret FDB_NO_ERR
  else mret FDB_ERASE_ERR.

(** ** The storage of a database in this mode *)

(** The structure of [FdbDef] has handles in the place of descriptors: a
    positive descriptor is one, any other is none.  The functions above never
    give a cached file the descriptor 0 as long as 0 belongs to the rest of the
    process. *)
Definition file_of (fd : Z) : FILE := if 0 <? fd then Some (Z.to_pos fd) else None.
Definition fd_of (f : FILE) : Z := match f with Some p => Z.pos p | None => -1 end.

Definition of_io (i : io posix) : pio :=
  Pio (cur_file_sec i) (map fd_of (cur_file i)) (cur_sec i) (world i).
Definition to_io (s : pio) : io posix :=
  Io (pfile_sec s) (map file_of (pfile s)) (pcur_sec s) (pworld s).

Definition with_descriptors {A} (m : M pio A) : M (io posix) A := zoom of_io (fun s _ => to_io s) m.

#[export] Instance posix_storage : Storage posix := {|
  FDB_USING_FILE_MODE := true;
  FDB_USING_FAL_MODE := false;
  _fdb_file_read g a b := with_descriptors (posix_file_read g a b);
  _fdb_file_write g a b sync := with_descriptors (posix_file_write g a b sync);
  _fdb_file_erase g a n := with_descriptors (posix_file_erase g a n);
  fclose h := posix_close (Z.pos h);
  fal_partition_read := fun _ _ _ => stuck_at Undefined;
  fal_partition_write := fun _ _ _ => stuck_at Undefined;
  fal_partition_erase := fun _ _ _ => stuck_at Undefined;
  fal_init := stuck_at Undefined;
  fal_partition_find := fun _ => stuck_at Undefined;
  fal_part_name := fun _ => stuck_at Undefined;
  fal_part_len := fun _ => stuck_at Undefined;
  fal_part_blk_size := fun _ => stuck_at Undefined;
|}.
