(* ===== verification/PosixSpec.v ===== *)
(** File storage over descriptors refines the medium contract as well: the
    counterpart of [FileSpec] for [PosixIO]. *)
From S2P Require Import Prelude FdbDef Status FlashIO FlashSpec FileIO FileSpec PosixIO.

(** ** System calls that work *)

(** No call is going to fail; descriptor 0, the standard input, and some others
    belong to the rest of the process. *)
Record system_ok (w : posix) : Prop := {
  so_stdin : 0 ∈ inherited w;
  so_own : forall fd p, descriptors w !! fd = Some p -> 0 < fd /\ fd ∉ inherited w;
  so_faults : pfaults w = [];
}.

Lemma lowest_unused_free w : 0 <= lowest_unused w /\ lowest_unused w ∉ in_use w.
Proof.
  unfold lowest_unused. set (l := map Z.of_nat _).
  destruct (list_find _ l) as [[i d]|] eqn:E; cbn.
  - apply list_find_Some in E as (Hd & Hin & _). split; [|done].
    apply list_elem_of_lookup_2, list_elem_of_In, in_map_iff in Hd as (n & <- & _). lia.
  - exfalso. apply list_find_None in E. assert (base.size (list_to_set l : gset Z) <= base.size (in_use w))%nat as Hle.
    { apply subseteq_size. intros d Hd%elem_of_list_to_set. apply dec_stable.
      rewrite Forall_forall in E. by apply E. }
    rewrite size_list_to_set in Hle.
    + unfold l in Hle. rewrite length_map, length_seq in Hle. lia.
    + apply NoDup_fmap_2; [intros ?? ?; lia|apply NoDup_seq].
Qed.

Section calls.
Context (w : posix) (Hw : system_ok w).

Lemma wp_next_fault Q : Q Works w -> wp next_fault Q w.
Proof. intros HQ. destruct Hw as [_ _ Hf], w as [a b c f]. cbn in Hf. by subst f. Qed.

Lemma unused_facts : 0 < lowest_unused w /\ descriptors w !! lowest_unused w = None /\ lowest_unused w ∉ inherited w.
Proof.
  destruct (lowest_unused_free w) as [H0 Hn]. unfold in_use in Hn. apply not_elem_of_union in Hn as [Hd Hi].
  split_and!; [|by apply not_elem_of_dom|done]. destruct Hw as [H _ _].
  destruct (decide (lowest_unused w = 0)) as [E|]; [rewrite E in Hi; done|lia].
Qed.

Lemma new_descriptor_ok fd p f :
  0 < fd -> fd ∉ inherited w -> system_ok (set_pfiles f (set_descriptors (<[fd := p]> (descriptors w)) w)).
Proof.
  intros H0 Hi. destruct Hw as [Hs Ho Hf]. split; [done| |done]. intros fd' p'. cbn.
  rewrite lookup_insert_Some. intros [[<- _]|[_ H]]; [done|by eapply Ho].
Qed.

Lemma delete_ok fd : system_ok (set_descriptors (delete fd (descriptors w)) w).
Proof.
  destruct Hw as [Hs Ho Hf]. split; [done| |done]. intros fd' p'. cbn. rewrite lookup_delete_Some. intros [_ H]. by eapply Ho.
Qed.

Lemma wp_open_rdwr path c Q :
  pfiles w !! path = Some c ->
  (forall fd, 0 < fd -> descriptors w !! fd = None -> fd ∉ inherited w ->
     Q fd (set_descriptors (<[fd := (path, 0)]> (descriptors w)) w)) ->
  wp (posix_open path O_RDWR) Q w.
Proof.
  intros Hc HQ. unfold posix_open. apply wp_bind, wp_next_fault, wp_bind, wp_gets. rewrite Hc.
  destruct unused_facts as (? & ? & ?). by apply HQ.
Qed.

Lemma wp_open_none path Q :
  pfiles w !! path = None -> Q (-1) w -> wp (posix_open path O_RDWR) Q w.
Proof. intros Hc HQ. unfold posix_open. apply wp_bind, wp_next_fault, wp_bind, wp_gets. by rewrite Hc. Qed.

Lemma wp_open_trunc path Q :
  (forall fd, 0 < fd -> descriptors w !! fd = None -> fd ∉ inherited w ->
     Q fd (set_pfiles (<[path := []]> (pfiles w)) (set_descriptors (<[fd := (path, 0)]> (descriptors w)) w))) ->
  wp (posix_open path O_RDWR_CREAT_TRUNC) Q w.
Proof.
  intros HQ. unfold posix_open. apply wp_bind, wp_next_fault, wp_bind, wp_modify.
  destruct unused_facts as (? & ? & ?). by apply HQ.
Qed.

Section descriptor.
Context (fd : Z) (path : string) (pos : Z) (Hfd : descriptors w !! fd = Some (path, pos)).

Lemma wp_on_descriptor {A} (e : A) k Q : wp (k (path, pos)) Q w -> wp (on_descriptor fd e k) Q w.
Proof.
  intros HQ. unfold on_descriptor. apply wp_bind, wp_gets. cbn.
  rewrite decide_False by (by eapply (so_own _ Hw)). by rewrite Hfd.
Qed.

Lemma wp_posix_close Q : Q tt (set_descriptors (delete fd (descriptors w)) w) -> wp (posix_close fd) Q w.
Proof. intros HQ. by apply wp_on_descriptor, wp_modify. Qed.

Lemma wp_fsync Q : Q tt w -> wp (fsync fd) Q w.
Proof. intros HQ. by apply wp_on_descriptor, wp_ret. Qed.

(** The descriptor moved to the offset [off]; the files are [f]. *)
Definition at_offset (off : Z) (f : gmap string (list Z)) : posix :=
  set_pfiles f (set_descriptors (<[fd := (path, off)]> (descriptors w)) w).

Lemma at_offset_ok off f : system_ok (at_offset off f).
Proof. destruct (so_own _ Hw fd _ Hfd). by apply new_descriptor_ok. Qed.

Lemma wp_lseek off Q : Q off (at_offset off (pfiles w)) -> wp (lseek fd off) Q w.
Proof. intros HQ. apply wp_on_descriptor, wp_bind, wp_next_fault, wp_bind, wp_modify, wp_ret, HQ. Qed.

Lemma wp_posix_read b c Q :
  pfiles w !! path = Some c -> 0 <= pos -> pos + len b <= len c ->
  Q (len b, slice c pos (len b)) (at_offset (pos + len b) (pfiles w)) -> wp (posix_read fd b) Q w.
Proof.
  intros Hc Hp Hle HQ. apply wp_on_descriptor, wp_bind, wp_next_fault, wp_bind, wp_gets. cbn [fst snd]. rewrite Hc. cbn [default transferred]. change (id c) with c.
  pose proof (len_nonneg b). cbn [fst snd]. rewrite len_slice by lia. apply wp_bind, wp_modify, wp_ret.
  replace (splice b 0 (slice c pos (len b))) with (slice c pos (len b)); [exact HQ|].
  rewrite <- (slice_all (splice _ _ _)), len_splice. rewrite <- (len_slice c pos (len b)) at 3 by lia.
  symmetry. apply slice_splice_same; [lia|]. rewrite len_slice; lia.
Qed.

Lemma wp_posix_write d c Q :
  pfiles w !! path = Some c -> 0 < len d ->
  Q (len d) (at_offset (pos + len d) (<[path := file_write c pos d]> (pfiles w))) -> wp (posix_write fd d) Q w.
Proof.
  intros Hc Hd HQ. apply wp_on_descriptor, wp_bind, wp_next_fault. destruct d as [|x d]; [by rewrite len_nil in Hd|].
  apply wp_bind, wp_modify. cbn [fst snd]. rewrite Hc. apply wp_bind, wp_modify, wp_ret, HQ.
Qed.

Lemma wp_posix_write_nil Q : Q 0 w -> wp (posix_write fd []) Q w.
Proof. intros HQ. by apply wp_on_descriptor, wp_bind, wp_next_fault, wp_ret. Qed.
End descriptor.
End calls.

Lemma at_offset_twice w fd path o f o' f' :
  at_offset (at_offset w fd path o f) fd path o' f' = at_offset w fd path o' f'.
Proof. unfold at_offset, set_pfiles, set_descriptors. cbn. by rewrite insert_insert_eq. Qed.

(** ** Invariant *)

Section inv.
Context (g : geom) (dir : string).

(** A cached descriptor is open on the file of its sector. *)
Definition pslot_ok (P : Z -> Prop) (w : posix) (s f : Z) : Prop :=
  f = -1 \/ 0 < f /\ exists k pos,
    0 <= k < sectors g /\ P k /\ s = k * sec_size g /\ descriptors w !! f = Some (sec_path g dir k, pos).

Record pcache_inv (P : Z -> Prop) (s : pio) : Prop := {
  pc_slots : exists s0 s1 f0 f1,
    pfile_sec s = [s0; s1] /\ pfile s = [f0; f1] /\
    pslot_ok P (pworld s) s0 f0 /\ pslot_ok P (pworld s) s1 f1 /\ (0 < f0 -> f0 <> f1);
  pc_system : system_ok (pworld s);
}.

Record posix_inv (P : Z -> Prop) (s : pio) (m : list Z) : Prop := {
  pi_cache : pcache_inv P s;
  pi_sectors : sector_files g dir P (pfiles (pworld s)) m;
}.
End inv.

Section open.
Context (g : geom) (dir : string) (Hg : geom_file g dir).

(** The same structure over another system. *)
Definition on_system (w : posix) (s : pio) : pio := Pio (pfile_sec s) (pfile s) (pcur_sec s) w.

Lemma pslot_ok_ext (P P' : Z -> Prop) w w' s f :
  pslot_ok g dir P w s f -> (forall k, P k -> P' k) ->
  (0 < f -> forall p, descriptors w !! f = Some p -> exists off, descriptors w' !! f = Some (p.1, off)) ->
  pslot_ok g dir P' w' s f.
Proof.
  intros [->|(H0 & k & pos & Hk & HP & Es & Hd)] HP' Hw; [by left|right]. split; [done|].
  destruct (Hw H0 _ Hd) as [off Hoff]. exists k, off. auto.
Qed.

Lemma pcache_inv_system (P P' : Z -> Prop) s w' :
  pcache_inv g dir P s -> system_ok w' -> (forall k, P k -> P' k) ->
  (forall f p, f ∈ pfile s -> descriptors (pworld s) !! f = Some p ->
     exists off, descriptors w' !! f = Some (p.1, off)) ->
  pcache_inv g dir P' (on_system w' s).
Proof.
  intros [(s0 & s1 & f0 & f1 & Es & Ef & H0 & H1 & Hd) _] Hok HP Hw. split; [|done].
  rewrite Ef in Hw. exists s0, s1, f0, f1. split_and!; try done.
  - eapply pslot_ok_ext; [done..|]. intros _ p. apply Hw. set_solver.
  - eapply pslot_ok_ext; [done..|]. intros _ p. apply Hw. set_solver.
Qed.

Lemma pcache_inv_mono (P P' : Z -> Prop) s :
  pcache_inv g dir P s -> (forall k, P k -> P' k) -> pcache_inv g dir P' s.
Proof.
  intros Hc HP. replace s with (on_system (pworld s) s) by (by destruct s).
  eapply pcache_inv_system; [done|apply Hc|done|]. intros f [path off] _ ->. eauto.
Qed.

Lemma pslot_ok_here P w k fd pos :
  0 <= k < sectors g -> P k -> 0 < fd -> descriptors w !! fd = Some (sec_path g dir k, pos) ->
  pslot_ok g dir P w (k * sec_size g) fd.
Proof. intros. right. split; [done|]. by exists k, pos. Qed.

(** A slot that is found is the slot of the sector. *)
Lemma pslot_sector P w s fd k :
  pslot_ok g dir P w s fd -> 0 < fd -> s = k * sec_size g ->
  P k /\ exists pos, descriptors w !! fd = Some (sec_path g dir k, pos).
Proof.
  intros [->|(_ & k' & pos & Hk & HP & Es & Hd)] H0 E; [lia|]. pose proof (sec_pos _ (gf_geom _ _ Hg)).
  assert (k' = k) as -> by (apply (Z.mul_reg_r _ _ (sec_size g)); [lia|congruence]). eauto.
Qed.

Lemma pcached P s k :
  pcache_inv g dir P s ->
  let fd := pcache_lookup (pfile_sec s) (pfile s) (k * sec_size g) in
  fd = -1 \/ 0 < fd /\ P k /\ exists pos, descriptors (pworld s) !! fd = Some (sec_path g dir k, pos).
Proof.
  intros [(s0 & s1 & f0 & f1 & Es & Ef & H0 & H1 & Hd) _]. rewrite Es, Ef. cbn [pcache_lookup].
  assert (forall s' f, pslot_ok g dir P (pworld s) s' f -> s' = k * sec_size g ->
    f = -1 \/ 0 < f /\ P k /\ exists pos, descriptors (pworld s) !! f = Some (sec_path g dir k, pos)) as Hslot.
  { intros s' f Hs E. destruct (Hs) as [->|[Hf _]]; [by left|right]. split; [done|]. by eapply pslot_sector. }
  destruct (Z.eqb_spec s0 (k * sec_size g)); [by eapply (Hslot s0)|].
  destruct (Z.eqb_spec s1 (k * sec_size g)); [by eapply (Hslot s1)|by left].
Qed.

(** A descriptor that is not open is not in the cache. *)
Lemma pcached_open P s fd :
  pcache_inv g dir P s -> 0 < fd -> descriptors (pworld s) !! fd = None -> fd ∉ pfile s.
Proof.
  intros [(s0 & s1 & f0 & f1 & Es & Ef & H0 & H1 & Hd) _] Hfd Hn. rewrite Ef. intros Hin.
  apply elem_of_cons in Hin as [E|Hin]; [|apply elem_of_cons in Hin as [E|Hin]; [|set_solver]]; subst fd.
  - destruct H0 as [->|(_ & k & pos & _ & _ & _ & H)]; [lia|congruence].
  - destruct H1 as [->|(_ & k & pos & _ & _ & _ & H)]; [lia|congruence].
Qed.

(** Entering the descriptor of a sector that has none in the cache. *)
Lemma wp_posix_update_cache P s k fd Q :
  pcache_inv g dir P s -> 0 <= k < sectors g -> P k -> 0 < fd ->
  pcache_lookup (pfile_sec s) (pfile s) (k * sec_size g) = -1 ->
  descriptors (pworld s) !! fd = Some (sec_path g dir k, 0) -> fd ∉ pfile s ->
  (forall s', pcache_inv g dir P s' -> pfiles (pworld s') = pfiles (pworld s) ->
     descriptors (pworld s') !! fd = Some (sec_path g dir k, 0) -> Q tt s') ->
  wp (posix_update_file_cache (k * sec_size g) fd) Q s.
Proof.
  intros [(s0 & s1 & f0 & f1 & Es & Ef & H0 & H1 & Hd) Hw] Hk HP Hfd Hl Hh Hn HQ.
  destruct s as [secs fs cs w]. cbn in *. subst secs fs. cbn in Hl.
  assert (f0 <> fd) as Hn0 by set_solver. assert (f1 <> fd) as Hn1 by set_solver.
  pose proof (pslot_ok_here P w k fd 0 Hk HP Hfd Hh) as Hok.
  assert (forall a b c d, pslot_ok g dir P w a c -> pslot_ok g dir P w b d -> (0 < c -> c <> d) ->
    Q tt (Pio [a; b] [c; d] cs w)) as Hput.
  { intros a b c d Ha Hb Hcd. apply HQ; [|done..]. split; [|done]. by exists a, b, c, d. }
  unfold posix_update_file_cache. apply wp_bind, wp_gets. cbn.
  rewrite (proj2 (Z.ltb_lt 0 fd) Hfd).
  destruct (Z.eqb_spec s0 (k * sec_size g)) as [->|E0]; [apply wp_modify, Hput; [done..|congruence]|].
  destruct (Z.eqb_spec s1 (k * sec_size g)) as [->|E1]; [apply wp_modify, Hput; [done..|congruence]|].
  destruct (Z.eqb_spec f1 (-1)) as [->|N1]; [apply wp_modify, Hput; [done..|congruence]|].
  destruct (Z.eqb_spec f0 (-1)) as [->|N0]; [apply wp_modify, Hput; [done..|congruence]|].
  destruct H1 as [?|(Hf1 & k1 & pos1 & _ & _ & _ & Hst1)]; [done|].
  apply wp_bind. cbn [Z.to_nat FDB_FILE_CACHE_TABLE_SIZE Pos.to_nat Pos.iter_op Nat.add Nat.sub posix_shift_cache].
  apply wp_bind, wp_gets, wp_bind, wp_zoom. cbn [nth pfile].
  eapply wp_posix_close; [exact Hw|exact Hst1|]. apply wp_bind, wp_modify, wp_ret, wp_modify. cbn.
  assert (f0 <> -1 -> f0 <> f1) as Hd' by (intros _; destruct H0 as [?|[? _]]; [done|auto]).
  apply HQ; [|done|cbn; by rewrite lookup_delete_ne]. split; [|by apply delete_ok].
  exists (k * sec_size g), s0, fd, f0. split_and!; try done.
  - eapply pslot_ok_ext; [exact Hok|done|]. intros _ [p off] Hp. cbn. rewrite lookup_delete_ne; [eauto|done].
  - eapply pslot_ok_ext; [exact H0|done|]. intros _ [p off] Hp. cbn. rewrite lookup_delete_ne; [eauto|]. intros ->. by apply Hd'.
Qed.

(** Dropping the descriptor of a sector, before it is opened anew. *)
Lemma wp_drop_descriptor P s k fd Q :
  pcache_inv g dir P s -> 0 < fd ->
  pcache_lookup (pfile_sec s) (pfile s) (k * sec_size g) = fd ->
  (forall s', pcache_inv g dir P s' -> pfiles (pworld s') = pfiles (pworld s) ->
     pcache_lookup (pfile_sec s') (pfile s') (k * sec_size g) = -1 -> Q (-1) s') ->
  wp (system (posix_close fd);; posix_update_file_cache (k * sec_size g) (-1);; mret (-1)) Q s.
Proof.
  intros Hc Hfd Hl HQ. destruct (pcached P s k Hc) as [E|(_ & HP & pos & Hst)]; [lia|]. rewrite Hl in Hst.
  destruct Hc as [(s0 & s1 & f0 & f1 & Es & Ef & H0 & H1 & Hd) Hw].
  destruct s as [secs fs cs w]. cbn in *. subst secs fs. cbn in Hl.
  apply wp_bind, wp_zoom. eapply wp_posix_close; [exact Hw|exact Hst|].
  assert (forall a f, pslot_ok g dir P w a f -> f <> fd ->
    pslot_ok g dir P (set_descriptors (delete fd (descriptors w)) w) a f) as Hother.
  { intros a f Ha Hne. eapply pslot_ok_ext; [exact Ha|done|]. intros _ [p off] Hp. cbn. rewrite lookup_delete_ne; eauto. }
  unfold posix_update_file_cache. apply wp_bind, wp_bind, wp_gets. cbn.
  pose proof (delete_ok w Hw fd) as Hw'. pose proof (sec_pos _ (gf_geom _ _ Hg)).
  destruct (Z.eqb_spec s0 (k * sec_size g)) as [->|E0].
  - subst f0. apply wp_modify, wp_ret, HQ; [|done|cbn; by rewrite Z.eqb_refl]. split; [|done].
    exists (k * sec_size g), s1, (-1), f1. split_and!; try done; [by left|apply Hother; [done|]]. by intros ->; apply Hd.
  - destruct (Z.eqb_spec s1 (k * sec_size g)) as [->|E1]; [|lia]. subst f1.
    apply wp_modify, wp_ret, HQ; [|done|cbn; by rewrite (proj2 (Z.eqb_neq _ _) E0), Z.eqb_refl]. split; [|done].
    exists s0, (k * sec_size g), f0, (-1). split_and!; try done; [|by left|lia].
    destruct H0 as [->|[Hf0 H0]]; [by left|]. apply Hother; [by right|auto].
Qed.

(** Opening the file of a sector that has no descriptor. *)
Lemma wp_posix_open_new P s k c Q :
  pcache_inv g dir P s -> 0 <= k < sectors g -> P k ->
  pcache_lookup (pfile_sec s) (pfile s) (k * sec_size g) = -1 ->
  pfiles (pworld s) !! sec_path g dir k = Some c ->
  (forall s' fd, 0 < fd -> pcache_inv g dir P s' -> pfiles (pworld s') = pfiles (pworld s) ->
     descriptors (pworld s') !! fd = Some (sec_path g dir k, 0) -> Q fd s') ->
  wp (fd ← system (posix_open (sec_path g dir k) O_RDWR);
      posix_update_file_cache (k * sec_size g) fd;; mret fd) Q s.
Proof.
  intros Hc Hk HP Hl Hf HQ. apply wp_bind, wp_zoom.
  eapply wp_open_rdwr; [apply Hc|done|]. intros fd H0 Hn Hi. set (w' := set_descriptors _ _). apply wp_bind.
  assert (fd ∉ pfile s) as Hnew by by eapply pcached_open.
  eapply (wp_posix_update_cache P (on_system w' s)); [|done..|apply lookup_insert_eq|done|].
  - eapply pcache_inv_system; [done| |done|].
    + destruct (pc_system _ _ _ _ Hc) as [? Ho ?]. split; [done| |done]. intros fd' p. cbn.
      rewrite lookup_insert_Some. intros [[<- _]|[_ E]]; [done|by eapply Ho].
    + intros f [p off] Hin Hp. cbn. rewrite lookup_insert_ne by (intros ->; done). eauto.
  - intros s' Hs' Hfi Hst. apply wp_ret. by apply HQ.
Qed.

Lemma pcache_inv_cur_sec P s a : pcache_inv g dir P s -> pcache_inv g dir P (Pio (pfile_sec s) (pfile s) a (pworld s)).
Proof. by intros []. Qed.

(** [open_db_file] without [clean], when the sector has a file. *)
Lemma posix_open_present P s addr c Q :
  pcache_inv g dir P s -> 0 <= addr < max_size g -> P (addr / sec_size g) ->
  pfiles (pworld s) !! sec_path g dir (addr / sec_size g) = Some c ->
  (forall s' fd pos, 0 < fd -> pcache_inv g dir P s' -> pfiles (pworld s') = pfiles (pworld s) ->
     descriptors (pworld s') !! fd = Some (sec_path g dir (addr / sec_size g), pos) -> Q fd s') ->
  wp (posix_open_db_file g addr false) Q s.
Proof.
  intros Hc Ha HP Hf HQ. unfold posix_open_db_file.
  destruct (sector_facts g dir Hg addr Ha) as (Hk & -> & -> & _). set (k := addr / sec_size g) in *.
  apply wp_bind, wp_gets. destruct (pcached P s k Hc) as [El|(H0 & _ & pos & Hpos)].
  - rewrite El. apply wp_bind, (wp_path g dir Hg s addr); [done|]. fold k. apply wp_bind, wp_ret, wp_bind, wp_ret, wp_bind, wp_gets.
    rewrite El. apply wp_bind. eapply wp_posix_open_new; [done..|]. intros s' fd H0 Hs' Hfi Hst.
    apply wp_bind, wp_modify, wp_ret. eapply HQ; [done|by apply pcache_inv_cur_sec|done|exact Hst].
  - rewrite (proj2 (Z.leb_gt _ 0)) by lia. cbn [orb]. by eapply wp_ret, HQ.
Qed.

(** [open] with [O_CREAT | O_TRUNC], and [close]: the file is created or
    emptied. *)
Lemma wp_clean_old_file P s k Q :
  pcache_inv g dir P s ->
  (forall s', pcache_inv g dir P s' -> pfile_sec s' = pfile_sec s -> pfile s' = pfile s ->
     pfiles (pworld s') = <[sec_path g dir k := []]> (pfiles (pworld s)) -> Q tt s') ->
  wp (clean_old_file (sec_path g dir k)) Q s.
Proof.
  intros Hc HQ. unfold clean_old_file. apply wp_bind, wp_zoom. pose proof (pc_system _ _ _ _ Hc) as Hw.
  apply wp_open_trunc; [done|]. intros fd H0 Hn Hi. rewrite (proj2 (Z.leb_gt _ 0)) by lia.
  assert (fd ∉ pfile s) as Hnew by by eapply pcached_open.
  apply wp_zoom. eapply wp_posix_close; [by apply new_descriptor_ok|apply lookup_insert_eq|].
  apply (HQ (on_system _ s)); [|done..]. eapply pcache_inv_system; [done| |done|].
  - destruct Hw as [? Ho ?]. split; [done| |done]. intros fd' p. cbn.
    rewrite lookup_delete_Some, lookup_insert_Some. intros [Hne [[E _]|[_ E]]]; [done|by eapply Ho].
  - intros f [p off] Hin Hp. cbn. assert (fd <> f) by (intros ->; done).
    rewrite lookup_delete_ne, lookup_insert_ne by done. eauto.
Qed.

(** [open_db_file] with [clean]: an empty file for the sector. *)
Lemma posix_open_clean P s addr Q :
  pcache_inv g dir P s -> 0 <= addr < max_size g ->
  (forall s' fd, 0 < fd -> pcache_inv g dir (fun k => P k \/ k = addr / sec_size g) s' ->
     pfiles (pworld s') = <[sec_path g dir (addr / sec_size g) := []]> (pfiles (pworld s)) ->
     descriptors (pworld s') !! fd = Some (sec_path g dir (addr / sec_size g), 0) -> Q fd s') ->
  wp (posix_open_db_file g addr true) Q s.
Proof.
  intros Hc Ha HQ. unfold posix_open_db_file.
  destruct (sector_facts g dir Hg addr Ha) as (Hk & -> & -> & _). set (k := addr / sec_size g) in *.
  apply wp_bind, wp_gets. rewrite orb_true_r.
  apply wp_bind, (wp_path g dir Hg s addr); [done|]. fold k. apply wp_bind.
  match goal with |- wp _ ?K _ => assert (forall s1, pcache_inv g dir P s1 -> pfiles (pworld s1) = pfiles (pworld s) ->
    pcache_lookup (pfile_sec s1) (pfile s1) (k * sec_size g) = -1 -> forall fd, K fd s1) as Hrest end.
  { intros s1 Hc1 Hf1 Hl1 fd. apply wp_bind, (wp_clean_old_file P); [done|].
    intros s2 Hc2 Es Ef Hf2. apply wp_bind, wp_gets. rewrite Es, Ef, Hl1. apply wp_bind.
    eapply (wp_posix_open_new (fun k' => P k' \/ k' = k));
      [eapply pcache_inv_mono; [done|auto]|done|by right|by rewrite Es, Ef|rewrite Hf2; apply lookup_insert_eq|].
    intros s3 fd' H0 Hc3 Hf3 Hst. apply wp_bind, wp_modify, wp_ret.
    apply HQ; [done|by apply pcache_inv_cur_sec|cbn; by rewrite Hf3, Hf2, Hf1|exact Hst]. }
  destruct (pcached P s k Hc) as [El|(H0 & _)].
  - rewrite El. apply wp_ret. by apply Hrest.
  - rewrite (proj2 (Z.ltb_lt _ _) H0). eapply (wp_drop_descriptor P); [done..|]. intros s' Hc' Hf' Hl'. by apply Hrest.
Qed.

(** [open_db_file] without [clean], when the sector has no file. *)
Lemma posix_open_absent P s m addr Q :
  posix_inv g dir P s m -> 0 <= addr < max_size g -> ~ P (addr / sec_size g) ->
  (forall s', posix_inv g dir P s' m -> Q (-1) s') -> wp (posix_open_db_file g addr false) Q s.
Proof.
  intros [Hc Hsf] Ha HP HQ. unfold posix_open_db_file.
  destruct (sector_facts g dir Hg addr Ha) as (Hk & -> & -> & _). set (k := addr / sec_size g) in *.
  apply wp_bind, wp_gets. destruct (pcached P s k Hc) as [El|(_ & HP' & _)]; [|done]. rewrite El.
  apply wp_bind, (wp_path g dir Hg s addr); [done|]. fold k. apply wp_bind, wp_ret, wp_bind, wp_ret, wp_bind, wp_gets.
  rewrite El. apply wp_bind, wp_bind, wp_zoom.
  apply wp_open_none; [apply Hc|by apply (sf_absent _ _ _ _ _ Hsf)|].
  assert (forall s', pcache_inv g dir P s' -> pworld s' = pworld s -> Q (-1) s') as Hend.
  { intros s' Hs' Ew. apply HQ. split; [done|by rewrite Ew]. }
  apply wp_bind. destruct Hc as [(s0 & s1 & f0 & f1 & Es & Ef & H0 & H1 & Hd) Hw].
  destruct s as [secs fs cs w]. cbn in *. subst secs fs. cbn in El.
  unfold posix_update_file_cache. apply wp_bind, wp_gets. cbn.
  destruct (Z.eqb_spec s0 (k * sec_size g)); [subst f0|destruct (Z.eqb_spec s1 (k * sec_size g)); [subst f1|]];
    repeat first [apply wp_modify|apply wp_ret|apply wp_bind]; apply Hend; try done; split; try done;
    by (exists s0, s1; eauto 10).
Qed.
End open.
