(* ===== verification/PosixThm.v ===== *)
(** What file storage over descriptors guarantees: the same abstract medium as
    [FileThm], the contract of [FlashSpec], and what happens when descriptor 0
    is free. *)
From S2P Require Import Prelude FdbDef Status FlashIO FlashSpec Mount FileIO FileSpec FileThm PosixIO PosixSpec.

(** ** The loop of [_fdb_file_erase] *)

Lemma wp_posix_erase_loop w fd path size Q :
  system_ok w -> descriptors w !! fd = Some (path, 0) -> pfiles w !! path = Some [] ->
  0 <= size -> size mod 32 = 0 ->
  Q (size / 32) (at_offset w fd path size (<[path := replicate (Z.to_nat size) 0xFF]> (pfiles w))) ->
  wp (posix_erase_loop fd size) Q w.
Proof.
  intros Hw Hfd Hc Hsz Hmod HQ. pose proof (Z.div_mod size 32 ltac:(lia)) as Hdm. rewrite Hmod in Hdm.
  unfold posix_erase_loop. eapply (wp_loop
    (fun i s => 0 <= i <= size / 32 /\
       s = at_offset w fd path (32 * i) (<[path := replicate (Z.to_nat (32 * i)) 0xFF]> (pfiles w)))
    (fun i _ => Z.to_nat (size - i))).
  2:{ split; [lia|]. unfold at_offset, set_pfiles, set_descriptors. destruct w as [fs ds ih ft]; cbn in *.
      change (replicate _ 255) with (@nil Z). by rewrite !insert_id. }
  2:{ lia. }
  intros i s [Hi ->]. unfold BUF_SIZE. destruct (Z.ltb_spec (i * 32) size).
  - apply wp_bind. eapply (wp_posix_write _ _ fd path (32 * i)); [apply lookup_insert_eq|apply lookup_insert_eq|done|].
    apply wp_ret. rewrite at_offset_twice. cbn [pfiles at_offset set_pfiles]. rewrite insert_insert_eq.
    split; [split|]; [lia| |lia]. change (len (replicate (Z.to_nat 32) 255)) with 32.
    replace (32 * i + 32) with (32 * (i + 1)) by lia. do 2 f_equal.
    replace (32 * i) with (len (replicate (Z.to_nat (32 * i)) 255)) at 2 by (rewrite len_replicate; lia).
    rewrite file_write_end. replace (Z.to_nat (32 * (i + 1))) with (Z.to_nat (32 * i) + 32)%nat by lia.
    symmetry. exact (replicate_add _ 32 255).
  - apply wp_ret. assert (i = size / 32) as -> by lia. by replace (32 * (size / 32)) with size by lia.
  Unshelve. by eapply at_offset_ok.
Qed.

(** ** [_fdb_file_read], [_fdb_file_write], [_fdb_file_erase] *)

Section file_ops.
Context (g : geom) (dir : string) (Hg : geom_file g dir).

(** A cached descriptor was used. *)
Lemma pcache_inv_moved P s fd path pos off f :
  pcache_inv g dir P s -> descriptors (pworld s) !! fd = Some (path, pos) ->
  pcache_inv g dir P (on_system (at_offset (pworld s) fd path off f) s).
Proof.
  intros Hc Hfd. eapply pcache_inv_system; [done|done|eapply at_offset_ok; [apply Hc|done]|done|].
  intros f' [p o] _ Hp. cbn. destruct (decide (f' = fd)) as [->|].
  - rewrite lookup_insert_eq. rewrite Hfd in Hp. injection Hp as <- _. eauto.
  - rewrite lookup_insert_ne by done. eauto.
Qed.

Lemma i32_offset a : i32 (a mod sec_size g) = a mod sec_size g.
Proof.
  destruct (gf_geom _ _ Hg) as [Hs Hd H2 Hm]. pose proof (Z.mod_pos_bound a (sec_size g) ltac:(lia)).
  apply i32_small. lia.
Qed.

(** [_fdb_file_read] and [_fdb_file_write] go to the offset in the sector. *)
Lemma wp_seek s fd path pos off Q :
  system_ok (pworld s) -> descriptors (pworld s) !! fd = Some (path, pos) ->
  Q off (on_system (at_offset (pworld s) fd path off (pfiles (pworld s))) s) -> wp (system (lseek fd off)) Q s.
Proof. intros Hw Hfd HQ. apply wp_zoom. by eapply wp_lseek. Qed.

Lemma posix_read_spec P s m a b :
  posix_inv g dir P s m -> in_sector g a (len b) -> P (a / sec_size g) ->
  wp (posix_file_read g a b) (fun r s' => posix_inv g dir P s' m /\ r = (FDB_NO_ERR, slice m a (len b))) s.
Proof.
  intros [Hc Hsf] Hin HP. pose proof (in_sector_end _ _ _ (gf_geom _ _ Hg) Hin) as He. destruct Hin as (Ha & Hn & Hmod & Hlt).
  destruct (sector_facts g dir Hg a) as (Hk & _ & _ & _ & _ & Hdm & Hmb & Hend); [lia|]. set (k := a / sec_size g) in *.
  pose proof (sf_files _ _ _ _ _ Hsf _ Hk HP) as Hfile. pose proof (sf_len _ _ _ _ _ Hsf) as Hlen. assert (0 <= k * sec_size g) by nia.
  unfold posix_file_read. apply wp_bind. eapply (posix_open_present g dir Hg P); [done|lia|done|done|]. fold k.
  intros s1 fd pos H0 Hc1 Hf1 Hst1. rewrite (proj2 (Z.ltb_lt _ _) H0). pose proof (pc_system _ _ _ _ Hc1) as Hw1.
  apply wp_bind. eapply wp_seek; [done..|]. rewrite i32_offset, Z.eqb_refl. cbn [negb].
  apply wp_bind, wp_zoom. eapply wp_posix_read; [by eapply at_offset_ok|apply lookup_insert_eq|cbn; rewrite Hf1; exact Hfile|lia|rewrite len_slice; lia|].
  apply wp_ret. cbn [fst snd pworld on_system]. rewrite Z.eqb_refl. cbn [negb]. rewrite at_offset_twice, slice_slice, <- Hdm by lia.
  split; [|done]. split; [by eapply (pcache_inv_moved _ s1)|]. cbn. by rewrite Hf1.
Qed.

Lemma posix_inv_update (P P' : Z -> Prop) s s' m k d :
  posix_inv g dir P s m -> pcache_inv g dir P' s' -> 0 <= k < sectors g ->
  P' k -> (forall k', k' <> k -> (P' k' <-> P k')) ->
  pfiles (pworld s') = <[sec_path g dir k := d]> (pfiles (pworld s)) ->
  len d = sec_size g -> bytes d -> posix_inv g dir P' s' (splice m (k * sec_size g) d).
Proof.
  intros [_ Hsf] Hc' Hk HPk HP Hfi Hd Hbd. split; [done|]. rewrite Hfi. by apply (sector_files_update g dir Hg P).
Qed.

Lemma posix_write_spec P s m a d sync :
  posix_inv g dir P s m -> in_sector g a (len d) -> 0 < len d -> bytes d -> P (a / sec_size g) ->
  wp (posix_file_write g a d sync) (fun r s' => posix_inv g dir P s' (splice m a d) /\ r = FDB_NO_ERR) s.
Proof.
  intros Hi Hin Hd Hb HP. pose proof (in_sector_end _ _ _ (gf_geom _ _ Hg) Hin) as He. destruct Hin as (Ha & Hn & Hmod & Hlt).
  destruct (sector_facts g dir Hg a) as (Hk & _ & _ & _ & _ & Hdm & Hmb & Hend); [lia|]. set (k := a / sec_size g) in *.
  destruct (Hi) as [Hc Hsf]. pose proof (sf_files _ _ _ _ _ Hsf _ Hk HP) as Hfile. pose proof (sf_len _ _ _ _ _ Hsf) as Hlen.
  assert (0 <= k * sec_size g) by nia.
  unfold posix_file_write. apply wp_bind. eapply (posix_open_present g dir Hg P); [done|lia|done|done|]. fold k.
  intros s1 fd pos H0 Hc1 Hf1 Hst1. rewrite (proj2 (Z.ltb_lt _ _) H0). pose proof (pc_system _ _ _ _ Hc1) as Hw1.
  apply wp_bind. eapply wp_seek; [done..|]. rewrite i32_offset, Z.eqb_refl. cbn [negb].
  apply wp_bind, wp_bind, wp_zoom. eapply wp_posix_write; [by eapply at_offset_ok|apply lookup_insert_eq|cbn; rewrite Hf1; exact Hfile|done|].
  apply wp_ret. cbn [pworld on_system]. rewrite Z.eqb_refl, at_offset_twice. cbn [negb pfiles at_offset set_pfiles pfile_sec pfile pcur_sec on_system].
  rewrite file_write_inside by (rewrite ?len_slice; lia). set (w2 := at_offset _ _ _ _ _).
  assert (posix_inv g dir P (on_system w2 s1) (splice m a d)) as Hi2.
  { rewrite Hdm at 1. rewrite <- (splice_sub m _ (sec_size g)) by lia.
    eapply posix_inv_update; [exact Hi|by eapply (pcache_inv_moved _ s1)|exact Hk|exact HP|done|cbn; by rewrite Hf1| |].
    - rewrite len_splice, len_slice; lia.
    - apply bytes_splice; [|done]. apply bytes_slice, Hsf. }
  apply wp_bind. destruct sync; [|by do 2 apply wp_ret].
  apply wp_zoom. eapply wp_fsync; [by eapply at_offset_ok|apply lookup_insert_eq|]. by apply wp_ret.
Qed.

Lemma posix_erase_spec P s m a :
  posix_inv g dir P s m -> 0 <= a < max_size g -> a mod sec_size g = 0 ->
  wp (posix_file_erase g a (sec_size g)) (fun r s' =>
    posix_inv g dir (fun k => P k \/ k = a / sec_size g) s' (splice m a (erased_sector g)) /\ r = FDB_NO_ERR) s.
Proof.
  intros Hi Ha Hmod. destruct (sector_facts g dir Hg a) as (Hk & _ & _ & _ & _ & Hdm & Hmb & Hend); [lia|].
  set (k := a / sec_size g) in *. pose proof (sec_pos _ (gf_geom _ _ Hg)) as Hs.
  unfold posix_file_erase. apply wp_bind. eapply (posix_open_clean g dir Hg P); [apply Hi|lia|]. fold k.
  intros s1 fd H0 Hc1 Hf1 Hst1. rewrite (proj2 (Z.ltb_lt _ _) H0). pose proof (pc_system _ _ _ _ Hc1) as Hw1.
  apply wp_bind. eapply wp_seek; [done..|]. apply wp_bind, wp_zoom.
  pose proof (at_offset_ok _ Hw1 _ _ _ Hst1 0 (pfiles (pworld s1))) as Hw2.
  eapply wp_posix_erase_loop; [exact Hw2|apply lookup_insert_eq|cbn; rewrite Hf1; apply lookup_insert_eq|lia|apply (gf_blk _ _ Hg)|].
  cbn [pworld on_system]. rewrite at_offset_twice. cbn [pfiles pworld on_system at_offset set_pfiles pfile_sec pfile pcur_sec]. fold (erased_sector g).
  replace (sec_size g - sec_size g / 32 * BUF_SIZE) with 0.
  2:{ pose proof (Z.div_mod (sec_size g) 32 ltac:(lia)) as Hx. rewrite (gf_blk _ _ Hg) in Hx. unfold BUF_SIZE. lia. }
  change (u64 0) with 0. cbn [BUF_SIZE Z.ltb Z.compare Z.to_nat replicate].
  pose proof (at_offset_ok _ Hw1 _ _ _ Hst1 (sec_size g) (<[sec_path g dir k := erased_sector g]> (pfiles (pworld s1)))) as Hw3.
  apply wp_bind, wp_zoom. eapply wp_posix_write_nil; [exact Hw3|apply lookup_insert_eq|].
  apply wp_bind, wp_zoom. eapply wp_fsync; [exact Hw3|apply lookup_insert_eq|]. apply wp_ret. split; [|done].
  replace a with (k * sec_size g) at 1 by lia.
  eapply posix_inv_update; [exact Hi|by eapply (pcache_inv_moved _ s1)|exact Hk|by right|naive_solver|cbn; by rewrite Hf1, insert_insert_eq| |].
  - unfold erased_sector. rewrite len_replicate. lia.
  - apply Forall_replicate. unfold is_byte, FDB_BYTE_ERASED. lia.
Qed.

(** A sector that was never erased has no file. *)
Lemma posix_read_absent P s m a b :
  posix_inv g dir P s m -> 0 <= a < max_size g -> ~ P (a / sec_size g) ->
  wp (posix_file_read g a b) (fun r s' => posix_inv g dir P s' m /\ r = (FDB_READ_ERR, b)) s.
Proof. intros Hi Ha HP. apply wp_bind. eapply posix_open_absent; [done..|]. intros s' Hi'. by apply wp_ret. Qed.

Lemma posix_write_absent P s m a d sync :
  posix_inv g dir P s m -> 0 <= a < max_size g -> ~ P (a / sec_size g) ->
  wp (posix_file_write g a d sync) (fun r s' => posix_inv g dir P s' m /\ r = FDB_WRITE_ERR) s.
Proof. intros Hi Ha HP. apply wp_bind. eapply posix_open_absent; [done..|]. intros s' Hi'. by apply wp_ret. Qed.
End file_ops.

(** ** The medium contract *)

(** Every cached descriptor of the invariant is a handle of [FdbDef]. *)
Lemma of_io_to_io s : (forall f, f ∈ pfile s -> f = -1 \/ 0 < f) -> of_io (to_io s) = s.
Proof.
  intros Hf. destruct s as [secs fs cs w]. unfold of_io, to_io. cbn in *. f_equal.
  induction fs as [|f fs IH]; [done|]. cbn. rewrite IH by (intros; apply Hf; by right). f_equal.
  destruct (Hf f) as [->|H0]; [by left|done|]. unfold file_of. rewrite (proj2 (Z.ltb_lt _ _) H0).
  cbn. by rewrite Z2Pos.id.
Qed.

Lemma posix_inv_handles g dir P s m :
  posix_inv g dir P s m -> of_io (to_io s) = s.
Proof.
  intros [[(s0 & s1 & f0 & f1 & _ & Ef & H0 & H1 & _) _] _]. apply of_io_to_io. rewrite Ef. intros f Hin.
  apply elem_of_cons in Hin as [->|Hin]; [|apply elem_of_cons in Hin as [->|Hin]; [|set_solver]].
  - destruct H0 as [->|[? _]]; auto.
  - destruct H1 as [->|[? _]]; auto.
Qed.

Definition posix_holds (g : geom) (i : io posix) (m : list Z) : Prop :=
  exists dir, geom_file g dir /\ posix_inv g dir (fun _ => True) (of_io i) m.

#[export] Program Instance posix_laws : StorageLaws posix := {| holds := posix_holds |}.
Next Obligation. intros g i m (dir & Hg & _). apply Hg. Qed.
Next Obligation. intros g i m (dir & _ & Hi). apply Hi. Qed.
Next Obligation. intros g i m (dir & _ & Hi). apply Hi. Qed.
Next Obligation.
  intros db m a b (dir & Hg & Hi) Hin. unfold _fdb_flash_read. apply wp_bind, wp_gets.
  rewrite (gf_mode _ _ Hg). apply wp_zoom. cbn [_fdb_file_read posix_storage]. apply wp_zoom.
  eapply wp_mono; [by eapply posix_read_spec|]. intros r s' [Hs' ->]. exists (to_io s').
  split; [done|]. split; [|done]. exists dir. by rewrite (posix_inv_handles _ _ _ _ _ Hs').
Qed.
Next Obligation.
  intros db m a d sync (dir & Hg & Hi) Hin Hd Hb _. unfold _fdb_flash_write. apply wp_bind, wp_gets.
  rewrite (gf_mode _ _ Hg). apply wp_zoom. cbn [_fdb_file_write posix_storage]. apply wp_zoom.
  eapply wp_mono; [by eapply posix_write_spec|]. intros r s' [Hs' ->]. exists (to_io s').
  split; [done|]. split; [|done]. exists dir. by rewrite (posix_inv_handles _ _ _ _ _ Hs').
Qed.
Next Obligation.
  intros db m a (dir & Hg & Hi) Ha Hmod. unfold _fdb_flash_erase. apply wp_bind, wp_gets.
  rewrite (gf_mode _ _ Hg). apply wp_zoom. cbn [_fdb_file_erase posix_storage]. apply wp_zoom.
  eapply wp_mono; [by eapply posix_erase_spec|]. intros r s' [Hs' ->]. exists (to_io s').
  split; [done|]. split; [|done]. exists dir. split; [done|].
  rewrite (posix_inv_handles _ _ _ _ _ Hs'). destruct Hs' as [Hc Hsf].
  split; [by eapply pcache_inv_mono|]. destruct Hsf as [Hl Hb Hf _]. split; try done.
  intros k Hk _. apply Hf; [done|by left].
Qed.

(** ** Closing *)

Lemma closed_descriptors g i m ds :
  posix_holds g i m -> system_ok (set_descriptors ds (world i)) -> world_holds g (set_descriptors ds (world i)) m.
Proof.
  intros (dir & Hg & Hc & Hf) Hok n. exists dir. split; [done|]. split; [|done].
  split; [|exact Hok]. exists FDB_FAILED_ADDR, FDB_FAILED_ADDR, (-1), (-1). split_and!; try done; by left.
Qed.

#[export] Instance posix_closes : StorageCloses posix.
Proof.
  intros g i m Hi. pose proof Hi as (dir & Hg & [(s0 & s1 & f0 & f1 & _ & Ef & H0 & H1 & Hne) Hok] & _).
  cbn in Ef, H0, H1, Hok. destruct (cur_file i) as [|a [|b [|]]]; try done. injection Ef as <- <-.
  assert (forall f s, pslot_ok g dir (fun _ => True) (world i) s (fd_of f) -> forall h, f = Some h ->
    exists path pos, descriptors (world i) !! Z.pos h = Some (path, pos)) as Hslot.
  { intros f s [Hf|(_ & k & pos & _ & _ & _ & Hf)] h ->; [done|by eexists _, _]. }
  assert (world_holds g (world i) m) as Hopen.
  { replace (world i) with (set_descriptors (descriptors (world i)) (world i)) by (by destruct (world i)).
    apply closed_descriptors; [done|by destruct (world i)]. }
  destruct a as [ha|]; [destruct (Hslot _ _ H0 ha eq_refl) as (pa & oa & Ha)|];
    (destruct b as [hb|]; [destruct (Hslot _ _ H1 hb eq_refl) as (pb & ob & Hb)|]); cbn [close_files].
  - assert (Z.pos ha <> Z.pos hb) as Hd by (by apply Hne).
    apply wp_bind. eapply (wp_posix_close _ Hok); [exact Ha|]. pose proof (delete_ok _ Hok (Z.pos ha)) as Hok'.
    apply wp_bind. eapply (wp_posix_close _ Hok'); [cbn; rewrite lookup_delete_ne by done; exact Hb|].
    apply wp_ret, closed_descriptors; [done|]. exact (delete_ok _ Hok' (Z.pos hb)).
  - apply wp_bind. eapply (wp_posix_close _ Hok); [exact Ha|]. apply wp_ret, closed_descriptors; [done|by apply delete_ok].
  - apply wp_bind. eapply (wp_posix_close _ Hok); [exact Hb|]. apply wp_ret, closed_descriptors; [done|by apply delete_ok].
  - by apply wp_ret.
Qed.

(** ** The abstract medium *)

Definition posix_represents (g : geom) (dir : string) (i : io posix) (md : medium) : Prop :=
  posix_inv g dir (fun k => k ∈ present md) (of_io i) (content md).

Lemma posix_step_spec g dir i md op :
  geom_file g dir -> posix_represents g dir i md -> op_ok g op ->
  wp (file_step g op) (fun r i' =>
    r = (medium_step g FDB_WRITE_ERR op md).1 /\ posix_represents g dir i' (medium_step g FDB_WRITE_ERR op md).2) i.
Proof.
  unfold posix_represents. intros Hg Hi Hok.
  destruct op as [a b|a d sync|a]; cbn [file_step medium_step _fdb_file_read _fdb_file_write _fdb_file_erase posix_storage] in *.
  - destruct Hok as [Hin Hlen]. pose proof (in_sector_end _ _ _ (gf_geom _ _ Hg) Hin). destruct (Hin) as [H0 _]. apply wp_zoom.
    case_decide as Hp; (eapply wp_mono; [first [by eapply posix_read_spec|eapply posix_read_absent; [done|done|lia|done]]|]);
      intros r s' [Hs' ->]; by rewrite (posix_inv_handles _ _ _ _ _ Hs').
  - destruct Hok as (Hin & Hlen & Hb). pose proof (in_sector_end _ _ _ (gf_geom _ _ Hg) Hin). destruct (Hin) as [H0 _]. apply wp_bind, wp_zoom.
    case_decide as Hp; (eapply wp_mono; [first [by eapply posix_write_spec|eapply posix_write_absent; [done|done|lia|done]]|]);
      intros r s' [Hs' ->]; apply wp_ret; by rewrite (posix_inv_handles _ _ _ _ _ Hs').
  - destruct Hok as [Ha Hmod]. apply wp_bind, wp_zoom.
    eapply wp_mono; [by eapply posix_erase_spec|]. intros r s' [Hs' ->]. apply wp_ret.
    rewrite (posix_inv_handles _ _ _ _ _ Hs'). split; [done|]. destruct Hs' as [Hc Hsf].
    assert (forall k, k ∈ present md \/ k = a / sec_size g <-> k ∈ {[a / sec_size g]} ∪ present md) as HP by set_solver.
    cbn [present content fst snd]. split; [|exact (sector_files_iff _ _ _ _ _ _ HP Hsf)].
    eapply pcache_inv_mono; [done|done|]. intros k. apply HP.
Qed.

(** C14: The variant over file descriptors refines the same abstract medium as
    the one over streams, through its own two-entry cache of descriptors; a
    write to a sector that does not exist reports its own error,
    [FDB_WRITE_ERR]. *)
Theorem posix_storage_refines g dir ops i md :
  geom_file g dir -> posix_represents g dir i md -> Forall (op_ok g) ops ->
  wp (file_run g ops) (fun rs i' => rs = (medium_run g FDB_WRITE_ERR ops md).1 /\
    posix_represents g dir i' (medium_run g FDB_WRITE_ERR ops md).2) i.
Proof.
  intros Hg Hi Hok. apply (wp_file_run g FDB_WRITE_ERR (posix_represents g dir)); [|done..].
  intros op i' md'. by apply posix_step_spec.
Qed.

(** A fresh directory, in a process with the three standard descriptors. *)
Definition posix0 : posix := Posix ∅ ∅ {[0; 1; 2]} [].
Definition pio0 : io posix := Io [FDB_FAILED_ADDR; FDB_FAILED_ADDR] [None; None] 0 posix0.

Lemma pio0_represents : posix_represents geom0 "/tmp/db" pio0 medium0.
Proof.
  split; split; [|split| | | |].
  - exists FDB_FAILED_ADDR, FDB_FAILED_ADDR, (-1), (-1). split_and!; [done|done|by left|by left|done].
  - cbn. set_solver.
  - done.
  - done.
  - done.
  - apply Forall_replicate. unfold is_byte. lia.
  - set_solver.
  - done.
Defined.

Lemma posix_storage_refines_witness :
  wp (file_run geom0 [OpRead 64 [7]; OpWrite 64 [1] true; OpErase 64; OpWrite 65 [1; 2] true; OpErase 0; OpRead 64 [0; 0; 0]])
    (fun rs _ => rs = [(FDB_READ_ERR, [7]); (FDB_WRITE_ERR, []); (FDB_NO_ERR, []); (FDB_NO_ERR, []);
                       (FDB_NO_ERR, []); (FDB_NO_ERR, [255; 1; 2])]) pio0.
Proof.
  eapply wp_mono.
  - apply (posix_storage_refines geom0 "/tmp/db" _ pio0 medium0); [apply geom0_file|apply pio0_represents|].
    repeat constructor; simpl; try lia; vm_compute; intuition discriminate.
  - intros rs i' [-> _]. vm_compute. reflexivity.
Defined.

(** ** Errors *)

(** A transfer that the system cuts short is reported, and the first part of the
    data is in the file. *)
Lemma short_write_reported :
  let w := Posix {["/tmp/db/env.fdb.0" := [255; 255; 255; 255]]} ∅ {[0; 1; 2]} [Works; Works; Partial 2] in
  wp (posix_file_write geom0 1 [1; 2; 3] false) (fun r s => r = FDB_WRITE_ERR /\
    pfiles (pworld s) !! "/tmp/db/env.fdb.0" = Some [255; 1; 2; 255])
    (Pio [FDB_FAILED_ADDR; FDB_FAILED_ADDR] [-1; -1] 0 w).
Proof. vm_compute. done. Qed.

(** In a process whose standard input is closed, [open] returns 0, which the
    code takes for a failure: the sector cannot be read although its file is
    there, and the descriptor stays open. *)
Lemma descriptor_zero_refused :
  let w := Posix {["/tmp/db/env.fdb.0" := replicate 64 255]} ∅ {[1; 2]} [] in
  wp (posix_file_read geom0 0 [0]) (fun r s => r = (FDB_READ_ERR, [0]) /\
    descriptors (pworld s) !! 0 = Some ("/tmp/db/env.fdb.0", 0))
    (Pio [FDB_FAILED_ADDR; FDB_FAILED_ADDR] [-1; -1] 0 w).
Proof. vm_compute. done. Qed.
