(* ===== verification/Disk.v ===== *)
(** Concrete media: the files that hold a given array of bytes.  Used to show
    that the hypotheses of the theorems can hold. *)
From S2P Require Import Prelude FdbDef Status FlashIO FlashSpec FileIO FileSpec PosixIO PosixSpec PosixThm.

Definition disk_files (g : geom) (dir : string) (m : list Z) : gmap string (list Z) :=
  list_to_map (map (fun k => (sec_path g dir (Z.of_nat k),
                              slice m (Z.of_nat k * sec_size g) (sec_size g)))
                   (seq 0 (Z.to_nat (sectors g)))).

Lemma disk_files_ok g dir m :
  geom_file g dir -> len m = max_size g -> bytes m -> sector_files g dir (fun _ => True) (disk_files g dir m) m.
Proof.
  intros Hg Hl Hb. pose proof (gf_geom _ _ Hg) as [Hs Hd H2 H32].
  assert (sectors g < 100000000) as Hsec.
  { unfold sectors. apply Z.div_lt_upper_bound; nia. }
  split; [done|done| |].
  - intros k Hk _. unfold disk_files. apply elem_of_list_to_map.
    + rewrite map_map. cbn [fst]. apply NoDup_fmap_2_strong; [|apply NoDup_seq].
      intros x y Hx Hy E. apply elem_of_seq in Hx, Hy. apply sec_path_inj in E; lia.
    + apply list_elem_of_In, in_map_iff. exists (Z.to_nat k). split.
      * by rewrite Z2Nat.id by lia.
      * apply in_seq. lia.
  - intros k Hk Hn. by destruct Hn.
Qed.

Definition disk (g : geom) (dir : string) (m : list Z) : libc := Libc (disk_files g dir m) ∅ 1 [].

(** The file cache of a database just initialised. *)
Definition disk_io (g : geom) (dir : string) (m : list Z) : io libc :=
  Io [FDB_FAILED_ADDR; FDB_FAILED_ADDR] [None; None] 0 (disk g dir m).

Lemma disk_holds g dir m :
  geom_file g dir -> len m = max_size g -> bytes m -> libc_holds g (disk_io g dir m) m.
Proof.
  intros Hg Hl Hb. exists dir. split; [done|]. split; [|by apply disk_files_ok]. split; [|done|done].
  exists FDB_FAILED_ADDR, FDB_FAILED_ADDR, None, None. by split_and!.
Qed.

(** The same files in the other variant of the storage. *)
Definition posix_disk (g : geom) (dir : string) (m : list Z) : posix :=
  Posix (disk_files g dir m) ∅ {[0; 1; 2]} [].

Definition posix_disk_io (g : geom) (dir : string) (m : list Z) : io posix :=
  Io [FDB_FAILED_ADDR; FDB_FAILED_ADDR] [None; None] 0 (posix_disk g dir m).

Lemma posix_disk_holds g dir m :
  geom_file g dir -> len m = max_size g -> bytes m -> posix_holds g (posix_disk_io g dir m) m.
Proof.
  intros Hg Hl Hb. exists dir. split; [done|]. split; [|by apply disk_files_ok]. split; [|split; [cbn; set_solver|done|done]].
  exists FDB_FAILED_ADDR, FDB_FAILED_ADDR, (-1), (-1). split_and!; [done|done|by left|by left|done].
Qed.

Lemma bytes_check m : forallb (fun b => (0 <=? b) && (b <? 256)) m = true -> bytes m.
Proof.
  intros H. apply Forall_forall. intros b Hb. unfold is_byte.
  rewrite forallb_forall in H. specialize (H b ltac:(by apply list_elem_of_In)).
  apply andb_prop in H as [H1 H2]. lia.
Qed.
