(* ===== verification/KvDef.v ===== *)
(** Key-value database: data model.

    The structures of [inc/fdb_def.h] and [src/fdb_kvdb.c] used by the
    key-value database, the on-flash layout of its headers ([FDB_WRITE_GRAN] is
    1, so a status table of at most eight statuses is one byte), and the lifting
    of the storage functions to the [fdb_kvdb] structure. *)
From S2P Require Import Prelude FdbDef Status FlashIO.

(** ** Constants *)

Definition SECTOR_MAGIC_WORD : Z := 0x30424446.
Definition KV_MAGIC_WORD : Z := 0x3030564B.
Definition FDB_GC_EMPTY_SEC_THRESHOLD : Z := 1.
Definition FDB_STR_KV_VALUE_MAX_SIZE : Z := 128.
Definition SECTOR_NOT_COMBINED : Z := 0xFFFFFFFF.
Definition SECTOR_COMBINED : Z := 0.
Definition UINT32_MAX : Z := 0xFFFFFFFF.

(** [sizeof] and [offsetof] of the two headers (natural alignment). *)
Definition SECTOR_HDR_DATA_SIZE : Z := 16.
Definition SECTOR_STORE_OFFSET : Z := 0.
Definition SECTOR_DIRTY_OFFSET : Z := 1.
Definition SECTOR_MAGIC_OFFSET : Z := 4.
Definition KV_HDR_DATA_SIZE : Z := 24.
Definition KV_MAGIC_OFFSET : Z := 4.
Definition FDB_SEC_REMAIN_THRESHOLD : Z := KV_HDR_DATA_SIZE + FDB_KV_NAME_MAX.

(** [FDB_WG_ALIGN] at the configured granularity. *)
Definition WG_ALIGN (n : Z) : Z := FDB_WG_ALIGN FDB_WRITE_GRAN n.

(** The name of the version KV of [kv_auto_update]: "__ver_num__". *)
Definition VER_NUM_KV_NAME : list Z := [95; 95; 118; 101; 114; 95; 110; 117; 109; 95; 95].

(** ** Structures *)

(** [struct sector_hdr_data]: a store byte, a dirty byte, two bytes of
    padding, and three words. *)
Record sector_hdr_data := SectorHdr {
  sh_store : Z;
  sh_dirty : Z;
  sh_pad : list Z;
  sh_magic : Z;
  sh_combined : Z;
  sh_reserved : Z;
}.

Definition enc_sector_hdr (h : sector_hdr_data) : list Z :=
  [sh_store h; sh_dirty h] ++ sh_pad h ++ le_bytes 4 (sh_magic h) ++
  le_bytes 4 (sh_combined h) ++ le_bytes 4 (sh_reserved h).

Definition dec_sector_hdr (b : list Z) : sector_hdr_data :=
  SectorHdr (nth 0 b 0) (nth 1 b 0) (slice b 2 2) (le32_at b 4) (le32_at b 8) (le32_at b 12).

(** [struct kv_hdr_data]: the status byte and three bytes of padding, the
    magic word, the lengths and the CRC; [name_len] is one byte followed by
    three bytes of padding, which the CRC covers. *)
Record kv_hdr_data := KvHdr {
  kh_status : Z;
  kh_pad : list Z;
  kh_magic : Z;
  kh_len : Z;
  kh_crc32 : Z;
  kh_name_len : Z;
  kh_name_pad : list Z;
  kh_value_len : Z;
}.

Definition enc_kv_hdr (h : kv_hdr_data) : list Z :=
  [kh_status h] ++ kh_pad h ++ le_bytes 4 (kh_magic h) ++ le_bytes 4 (kh_len h) ++
  le_bytes 4 (kh_crc32 h) ++ [kh_name_len h] ++ kh_name_pad h ++ le_bytes 4 (kh_value_len h).

Definition dec_kv_hdr (b : list Z) : kv_hdr_data :=
  KvHdr (nth 0 b 0) (slice b 1 3) (le32_at b 4) (le32_at b 8) (le32_at b 12) (nth 16 b 0)
        (slice b 17 3) (le32_at b 20).

(** [struct fdb_kv]; [kv_name] is the 64-byte array, [start] and [value] the
    members of [addr]. *)
Record fdb_kv := FdbKv {
  kv_status : fdb_kv_status;
  kv_crc_is_ok : bool;
  kv_name_len : Z;
  kv_magic : Z;
  kv_len : Z;
  kv_value_len : Z;
  kv_name : list Z;
  kv_start : Z;
  kv_value : Z;
}.

Record fdb_kv_iterator := FdbKvIterator {
  curr_kv : fdb_kv;
  iterated_cnt : Z;
  iterated_obj_bytes : Z;
  iterated_value_bytes : Z;
  sector_addr : Z;
  traversed_len : Z;
}.

Record kvdb_sec_info := KvSec {
  check_ok : bool;
  store : fdb_sector_store_status;
  dirty : fdb_sector_dirty_status;
  addr : Z;
  magic : Z;
  combined : Z;
  remain : Z;
  empty_kv : Z;
}.

Record kv_cache_node := KvCacheNode {
  kc_name_crc : Z;
  kc_active : Z;
  kc_addr : Z;
}.

Record fdb_default_kv_node := DefaultKv {
  dk_key : list Z;
  dk_value : list Z;        (** the memory the pointer leads to *)
  dk_value_len : Z;
}.

(** [struct fdb_kvdb]; [default_kvs] is the array with its length. *)
Record fdb_kvdb (W : Type) := FdbKvdb {
  parent : fdb_db W;
  default_kvs : list fdb_default_kv_node;
  gc_request : bool;
  in_recovery_check : bool;
  cur_kv : fdb_kv;
  cur_sector : kvdb_sec_info;
  last_is_complete_del : bool;
  kv_cache_table : list kv_cache_node;
  sector_cache_table : list kvdb_sec_info;
  ver_num : Z;
}.
Arguments FdbKvdb {W}.
Arguments parent {W}.
Arguments default_kvs {W}.
Arguments gc_request {W}.
Arguments in_recovery_check {W}.
Arguments cur_kv {W}.
Arguments cur_sector {W}.
Arguments last_is_complete_del {W}.
Arguments kv_cache_table {W}.
Arguments sector_cache_table {W}.
Arguments ver_num {W}.

(** ** Field updates *)

Definition sec_set_store (s : fdb_sector_store_status) (x : kvdb_sec_info) : kvdb_sec_info :=
  KvSec (check_ok x) s (dirty x) (addr x) (magic x) (combined x) (remain x) (empty_kv x).
Definition sec_set_dirty (d : fdb_sector_dirty_status) (x : kvdb_sec_info) : kvdb_sec_info :=
  KvSec (check_ok x) (store x) d (addr x) (magic x) (combined x) (remain x) (empty_kv x).
Definition sec_set_addr (a : Z) (x : kvdb_sec_info) : kvdb_sec_info :=
  KvSec (check_ok x) (store x) (dirty x) a (magic x) (combined x) (remain x) (empty_kv x).
Definition sec_set_space (rem empty : Z) (x : kvdb_sec_info) : kvdb_sec_info :=
  KvSec (check_ok x) (store x) (dirty x) (addr x) (magic x) (combined x) rem empty.

Definition kv_set_start (a : Z) (k : fdb_kv) : fdb_kv :=
  FdbKv (kv_status k) (kv_crc_is_ok k) (kv_name_len k) (kv_magic k) (kv_len k) (kv_value_len k)
        (kv_name k) a (kv_value k).
Definition kv_set_status (s : fdb_kv_status) (k : fdb_kv) : fdb_kv :=
  FdbKv s (kv_crc_is_ok k) (kv_name_len k) (kv_magic k) (kv_len k) (kv_value_len k)
        (kv_name k) (kv_start k) (kv_value k).
Definition kv_set_len (n : Z) (k : fdb_kv) : fdb_kv :=
  FdbKv (kv_status k) (kv_crc_is_ok k) (kv_name_len k) (kv_magic k) n (kv_value_len k)
        (kv_name k) (kv_start k) (kv_value k).
Definition kv_set_crc_is_ok (b : bool) (k : fdb_kv) : fdb_kv :=
  FdbKv (kv_status k) b (kv_name_len k) (kv_magic k) (kv_len k) (kv_value_len k)
        (kv_name k) (kv_start k) (kv_value k).
Definition kv_set_name (l : list Z) (k : fdb_kv) : fdb_kv :=
  FdbKv (kv_status k) (kv_crc_is_ok k) (kv_name_len k) (kv_magic k) (kv_len k) (kv_value_len k)
        l (kv_start k) (kv_value k).
Definition kv_set_data (nlen vlen value : Z) (k : fdb_kv) : fdb_kv :=
  FdbKv (kv_status k) (kv_crc_is_ok k) nlen (kv_magic k) (kv_len k) vlen
        (kv_name k) (kv_start k) value.

Section fields.
Context {W : Type}.

Definition set_parent (p : fdb_db W) (d : fdb_kvdb W) : fdb_kvdb W :=
  FdbKvdb p (default_kvs d) (gc_request d) (in_recovery_check d) (cur_kv d) (cur_sector d)
          (last_is_complete_del d) (kv_cache_table d) (sector_cache_table d) (ver_num d).
Definition set_default_kvs (l : list fdb_default_kv_node) (d : fdb_kvdb W) : fdb_kvdb W :=
  FdbKvdb (parent d) l (gc_request d) (in_recovery_check d) (cur_kv d) (cur_sector d)
          (last_is_complete_del d) (kv_cache_table d) (sector_cache_table d) (ver_num d).
Definition set_gc_request (b : bool) (d : fdb_kvdb W) : fdb_kvdb W :=
  FdbKvdb (parent d) (default_kvs d) b (in_recovery_check d) (cur_kv d) (cur_sector d)
          (last_is_complete_del d) (kv_cache_table d) (sector_cache_table d) (ver_num d).
Definition set_in_recovery_check (b : bool) (d : fdb_kvdb W) : fdb_kvdb W :=
  FdbKvdb (parent d) (default_kvs d) (gc_request d) b (cur_kv d) (cur_sector d)
          (last_is_complete_del d) (kv_cache_table d) (sector_cache_table d) (ver_num d).
Definition set_cur_kv (k : fdb_kv) (d : fdb_kvdb W) : fdb_kvdb W :=
  FdbKvdb (parent d) (default_kvs d) (gc_request d) (in_recovery_check d) k (cur_sector d)
          (last_is_complete_del d) (kv_cache_table d) (sector_cache_table d) (ver_num d).
Definition set_cur_sector (s : kvdb_sec_info) (d : fdb_kvdb W) : fdb_kvdb W :=
  FdbKvdb (parent d) (default_kvs d) (gc_request d) (in_recovery_check d) (cur_kv d) s
          (last_is_complete_del d) (kv_cache_table d) (sector_cache_table d) (ver_num d).
Definition set_last_is_complete_del (b : bool) (d : fdb_kvdb W) : fdb_kvdb W :=
  FdbKvdb (parent d) (default_kvs d) (gc_request d) (in_recovery_check d) (cur_kv d)
          (cur_sector d) b (kv_cache_table d) (sector_cache_table d) (ver_num d).
Definition set_kv_cache_table (t : list kv_cache_node) (d : fdb_kvdb W) : fdb_kvdb W :=
  FdbKvdb (parent d) (default_kvs d) (gc_request d) (in_recovery_check d) (cur_kv d)
          (cur_sector d) (last_is_complete_del d) t (sector_cache_table d) (ver_num d).
Definition set_sector_cache_table (t : list kvdb_sec_info) (d : fdb_kvdb W) : fdb_kvdb W :=
  FdbKvdb (parent d) (default_kvs d) (gc_request d) (in_recovery_check d) (cur_kv d)
          (cur_sector d) (last_is_complete_del d) (kv_cache_table d) t (ver_num d).

(** A function of [fdb_utils.c] or [fdb.c] called on [(fdb_db_t) db]. *)
Definition up {A} (m : M (fdb_db W) A) : M (fdb_kvdb W) A := zoom parent set_parent m.

Definition kv_sec_size (d : fdb_kvdb W) : Z := sec_size (geo (parent d)).
Definition kv_max_size (d : fdb_kvdb W) : Z := max_size (geo (parent d)).
Definition db_oldest_addr (d : fdb_kvdb W) : Z := oldest_addr (parent d).
Definition db_init_ok (d : fdb_kvdb W) : bool := init_ok (parent d).
End fields.

(** ** Uninitialised locals *)

Definition indet_sec `{Indeterminate} : kvdb_sec_info :=
  KvSec (negb (indet 0 =? 0)) (enum_of (indet 1)) (enum_of (indet 2)) (u32 (indet 3))
        (u32 (indet 4)) (u32 (indet 5)) (u64 (indet 6)) (u32 (indet 7)).
Definition indet_kv `{Indeterminate} : fdb_kv :=
  FdbKv (enum_of (indet 0)) (negb (indet 1 =? 0)) (u8 (indet 2)) (u32 (indet 3)) (u32 (indet 4))
        (u32 (indet 5)) (indet_buf FDB_KV_NAME_MAX) (u32 (indet 6)) (u32 (indet 7)).
