(* ===== verification/KvRead.v ===== *)
(** Key-value database: caches, reading records and sectors, searching.

    Models the first half of [src/fdb_kvdb.c] (up to [fdb_kv_get]).  Structures
    passed by pointer and filled by the callee are passed by value and returned
    with the result. *)
From S2P Require Import Prelude FdbDef Crc32 Status FlashIO KvDef.

Section caches.
Context {W} {ST : Storage W} {IN : Indeterminate}.

(** ** Sector cache *)

(** The search of [update_sector_cache]: the slot of the address, or the
    last empty slot. *)
Fixpoint sector_slot (t : list kvdb_sec_info) (a : Z) (i : nat) (empty : option nat)
    : nat + option nat :=
  match t with
  | [] => inr empty
  | s :: t =>
      if addr s =? a then inl i
      else sector_slot t a (S i) (if addr s =? FDB_DATA_UNUSED then Some i else empty)
  end.

Definition update_sector_table (sector : kvdb_sec_info) (t : list kvdb_sec_info)
    : list kvdb_sec_info :=
  match sector_slot t (addr sector) 0 None with
  | inl i => if check_ok sector then <[i := sector]> t
             else alter (sec_set_addr FDB_DATA_UNUSED) i t
  | inr (Some i) => if check_ok sector then <[i := sector]> t else t
  | inr None => t
  end.

Definition update_sector_cache (sector : kvdb_sec_info) : M (fdb_kvdb W) unit :=
  modify (fun d => set_sector_cache_table
                     (update_sector_table sector (sector_cache_table d)) d).

(** The pointer to the entry is its index. *)
Definition get_sector_from_cache (sec_addr : Z) : M (fdb_kvdb W) (option (nat * kvdb_sec_info)) :=
  gets (fun d => list_find (fun s => addr s = sec_addr) (sector_cache_table d)).

Definition store_sector_cache (i : nat) (s : kvdb_sec_info) : M (fdb_kvdb W) unit :=
  modify (fun d => set_sector_cache_table (<[i := s]> (sector_cache_table d)) d).

Definition update_sector_empty_addr_cache (sec_addr empty_addr : Z) : M (fdb_kvdb W) unit :=
  sector ← get_sector_from_cache sec_addr;
  match sector with
  | Some (i, s) =>
      sec_size ← gets kv_sec_size;
      store_sector_cache i
        (sec_set_space (u32 (sec_size - u32 (empty_addr - addr s))) empty_addr s)
  | None => mret tt
  end.

Definition update_sector_status_store_cache (sec_addr : Z) (status : fdb_sector_store_status)
    : M (fdb_kvdb W) unit :=
  sector ← get_sector_from_cache sec_addr;
  match sector with
  | Some (i, s) => store_sector_cache i (sec_set_store status s)
  | None => mret tt
  end.

(** ** KV cache *)

Definition kv_name_crc (name : list Z) : Z := u16 (Z.shiftr (fdb_calc_crc32 0 name) 16).

(** The loop of [update_kv_cache]: the new table, and the empty and least
    active slots unless the function returned inside the loop. *)
Fixpoint kv_cache_scan (name_crc addr : Z) (t : list kv_cache_node) (i : nat)
    (empty min_idx : option nat) (min_activity : Z)
    : list kv_cache_node * option (option nat * option nat) :=
  match t with
  | [] => ([], Some (empty, min_idx))
  | n :: t =>
      if negb (addr =? FDB_DATA_UNUSED) then
        if kc_name_crc n =? name_crc then
          (KvCacheNode (kc_name_crc n) (kc_active n) addr :: t, None)
        else if (kc_addr n =? FDB_DATA_UNUSED) && (if empty is None then true else false) then
          let r := kv_cache_scan name_crc addr t (S i) (Some i) min_idx min_activity in
          (n :: fst r, snd r)
        else if negb (kc_addr n =? FDB_DATA_UNUSED) then
          let active := if 0 <? kc_active n then kc_active n - 1 else kc_active n in
          let n := KvCacheNode (kc_name_crc n) active (kc_addr n) in
          let r := if active <? min_activity
                   then kv_cache_scan name_crc addr t (S i) empty (Some i) active
                   else kv_cache_scan name_crc addr t (S i) empty min_idx min_activity in
          (n :: fst r, snd r)
        else
          let r := kv_cache_scan name_crc addr t (S i) empty min_idx min_activity in
          (n :: fst r, snd r)
      else if kc_name_crc n =? name_crc then
        (KvCacheNode (kc_name_crc n) 0 FDB_DATA_UNUSED :: t, None)
      else
        let r := kv_cache_scan name_crc addr t (S i) empty min_idx min_activity in
        (n :: fst r, snd r)
  end.

Definition update_kv_table (name_crc addr : Z) (t : list kv_cache_node) : list kv_cache_node :=
  match kv_cache_scan name_crc addr t 0 None None 0xFFFF with
  | (t, None) => t
  | (t, Some (Some i, _)) | (t, Some (None, Some i)) =>
      <[i := KvCacheNode name_crc FDB_KV_CACHE_TABLE_SIZE addr]> t
  | (t, Some (None, None)) => t
  end.

(** The first [n] bytes of a buffer that the code reads without a check. *)
Definition read_bytes (buf : list Z) (n : Z) : M (fdb_kvdb W) (list Z) :=
  if n <=? len buf then mret (slice buf 0 n) else stuck_at Undefined.

Definition update_kv_cache (name : list Z) (name_len addr : Z) : M (fdb_kvdb W) unit :=
  b ← read_bytes name name_len;
  modify (fun d => set_kv_cache_table (update_kv_table (kv_name_crc b) addr (kv_cache_table d)) d).

(** The loop of [get_kv_from_cache] over the [n] nodes from the [i]-th on. *)
Fixpoint kv_cache_search (key : list Z) (name_crc : Z) (n i : nat)
    : M (fdb_kvdb W) (option Z) :=
  match n with
  | O => mret None
  | S n =>
      t ← gets kv_cache_table;
      match t !! i with
      | None => stuck_at Undefined
      | Some node =>
          if negb (kc_addr node =? FDB_DATA_UNUSED) && (kc_name_crc node =? name_crc) then
            saved_name ← up (_fdb_flash_read (u32 (kc_addr node + KV_HDR_DATA_SIZE))
                               (replicate (Z.to_nat FDB_KV_NAME_MAX) 0));
            match strncmp_eq (length key) (key ++ [0]) (snd saved_name) with
            | None => stuck_at Undefined
            | Some true =>
                let active := if 0xFFFF - FDB_KV_CACHE_TABLE_SIZE <=? kc_active node then 0xFFFF
                              else kc_active node + FDB_KV_CACHE_TABLE_SIZE in
                modify (fun d => set_kv_cache_table
                  (<[i := KvCacheNode (kc_name_crc node) active (kc_addr node)]>
                     (kv_cache_table d)) d);;
                mret (Some (kc_addr node))
            | Some false => kv_cache_search key name_crc n (S i)
            end
          else kv_cache_search key name_crc n (S i)
      end
  end.

Definition get_kv_from_cache (key : list Z) : M (fdb_kvdb W) (option Z) :=
  kv_cache_search key (kv_name_crc key) (Z.to_nat FDB_KV_CACHE_TABLE_SIZE) 0.
End caches.

Section reading.
Context {W} {ST : Storage W} {IN : Indeterminate}.

(** ** The next record of a sector *)

(** The [uint32_t] at [buf[i]], as the code assembles it. *)
Definition word_at (buf : list Z) (i : nat) : Z :=
  u32 (nth i buf 0 + u32 (Z.shiftl (nth (i + 1) buf 0) 8) +
       u32 (Z.shiftl (nth (i + 2) buf 0) 16) + u32 (Z.shiftl (nth (i + 3) buf 0) 24)).

(** The inner loop of [find_next_kv_addr]: [n] more positions from [i] on. *)
Fixpoint find_magic (buf : list Z) (start start_bak end_ : Z) (n i : nat) : option Z :=
  match n with
  | O => None
  | S n =>
      if u32 (start + Z.of_nat i) <? end_ then
        let a := u64 (u32 (start + Z.of_nat i) - KV_MAGIC_OFFSET) in
        if (word_at buf i =? KV_MAGIC_WORD) && (start_bak <=? a) then Some (u32 a)
        else find_magic buf start start_bak end_ n (S i)
      else None
  end.

Definition find_next_kv_addr (start end_ : Z) : M (fdb_kvdb W) Z :=
  sec_size ← gets kv_sec_size;
  sector ← get_sector_from_cache (FDB_ALIGN_DOWN start sec_size);
  if match sector with Some (_, s) => start =? empty_kv s | None => false end
  then mret FAILED_ADDR
  else
    loop (Z.to_nat ((end_ - start) / 28) + 2)
      (fun '(cur, buf) =>
         if (cur <? end_) && (cur + 32 <? end_) then
           r ← up (_fdb_flash_read cur buf);
           if decide (fst r = FDB_NO_ERR) then
             match find_magic (snd r) cur start end_ 28 0 with
             | Some a => mret (inr a)
             | None => mret (inl (u32 (cur + 28), snd r))
             end
           else mret (inr FAILED_ADDR)
         else mret (inr FAILED_ADDR))
      (start, indet_buf 32).

Definition get_next_kv_addr (sector : kvdb_sec_info) (pre_kv : fdb_kv) : M (fdb_kvdb W) Z :=
  sec_size ← gets kv_sec_size;
  if decide (store sector = FDB_SECTOR_STORE_EMPTY) then mret FAILED_ADDR
  else if kv_start pre_kv =? FAILED_ADDR then mret (u32 (addr sector + SECTOR_HDR_DATA_SIZE))
  else if kv_start pre_kv <=? u32 (addr sector + sec_size) then
    let next := if kv_crc_is_ok pre_kv then u32 (kv_start pre_kv + kv_len pre_kv)
                else u32 (kv_start pre_kv + WG_ALIGN 1) in
    next ← find_next_kv_addr next
             (u32 (u64 (u32 (addr sector + sec_size) - SECTOR_HDR_DATA_SIZE)));
    if (next =? FAILED_ADDR) || (u32 (addr sector + sec_size) <? next) || (kv_len pre_kv =? 0)
    then mret FAILED_ADDR
    else mret next
  else mret FAILED_ADDR.

(** ** A record *)

(** The CRC of the [crc_data_len] bytes at [a], read 32 at a time. *)
Definition read_crc (a crc_data_len crc : Z) : M (fdb_kvdb W) Z :=
  loop (Z.to_nat (crc_data_len / 32) + 2)
    (fun '(n, crc, buf) =>
       if n <? crc_data_len then
         let size := if n + 32 <? crc_data_len then 32 else crc_data_len - n in
         r ← up (_fdb_flash_read (u32 (a + n)) (slice buf 0 (WG_ALIGN size)));
         let buf := splice buf 0 (snd r) in
         mret (inl (n + size, fdb_calc_crc32 crc (slice buf 0 size), buf))
       else mret (inr crc))
    (0, crc, indet_buf 32).

Definition read_kv (kv : fdb_kv) : M (fdb_kvdb W) (fdb_err_t * fdb_kv) :=
  hdr ← up (_fdb_flash_read (kv_start kv) (indet_buf KV_HDR_DATA_SIZE));
  let kv_hdr := dec_kv_hdr (snd hdr) in
  let status := enum_of (_fdb_get_status FDB_WRITE_GRAN [kh_status kv_hdr] FDB_KV_STATUS_NUM) in
  let kv := kv_set_len (kh_len kv_hdr) (kv_set_status status kv) in
  max_size ← gets kv_max_size;
  if (kv_len kv =? UINT32_MAX) || (max_size <? kv_len kv) || (kv_len kv <? KV_HDR_DATA_SIZE) then
    let kv := kv_set_len KV_HDR_DATA_SIZE kv in
    kv ← (if decide (kv_status kv = FDB_KV_ERR_HDR) then mret kv
          else
            up (_fdb_write_status FDB_WRITE_GRAN (kv_start kv) FDB_KV_STATUS_NUM
                  (enum_val FDB_KV_ERR_HDR) true);;
            mret (kv_set_status FDB_KV_ERR_HDR kv));
    mret (FDB_READ_ERR, kv_set_crc_is_ok false kv)
  else
    let crc := fdb_calc_crc32 0 (slice (snd hdr) 16 4) in
    let crc := fdb_calc_crc32 crc (slice (snd hdr) 20 4) in
    let kv_name_addr := u32 (kv_start kv + KV_HDR_DATA_SIZE) in
    calc_crc32 ← read_crc (kv_start kv + KV_HDR_DATA_SIZE) (kv_len kv - KV_HDR_DATA_SIZE) crc;
    if negb (calc_crc32 =? kh_crc32 kv_hdr) then
      let name_len := if FDB_KV_NAME_MAX <? kh_name_len kv_hdr then FDB_KV_NAME_MAX
                      else kh_name_len kv_hdr in
      r ← up (_fdb_flash_read kv_name_addr (slice (kv_name kv) 0 (WG_ALIGN name_len)));
      mret (FDB_READ_ERR,
            kv_set_name (splice (kv_name kv) 0 (snd r)) (kv_set_crc_is_ok false kv))
    else if FDB_KV_NAME_MAX <? WG_ALIGN (kh_name_len kv_hdr) then
      stuck_at Undefined                   (* writes past [kv->name] *)
    else
      r ← up (_fdb_flash_read kv_name_addr
                (slice (kv_name kv) 0 (WG_ALIGN (kh_name_len kv_hdr))));
      let name := splice (kv_name kv) 0 (snd r) in
      let nul := if FDB_KV_NAME_MAX <=? kh_name_len kv_hdr then FDB_KV_NAME_MAX - 1
                 else kh_name_len kv_hdr in
      mret (FDB_NO_ERR,
            kv_set_name (<[Z.to_nat nul := 0]> name)
              (kv_set_data (kh_name_len kv_hdr) (kh_value_len kv_hdr)
                 (u32 (kv_name_addr + WG_ALIGN (kh_name_len kv_hdr)))
                 (kv_set_crc_is_ok true kv))).

(** ** A sector *)

(** The [do ... while] loop of [read_sector_info] over the records of a
    sector: the sector and the error code. *)
Definition read_sector_kvs (sector : kvdb_sec_info) : M (fdb_kvdb W) (fdb_err_t * kvdb_sec_info) :=
  sec_size ← gets kv_sec_size;
  loop (Z.to_nat sec_size + 2)
    (fun '(sector, kv_obj) =>
       r ← read_kv kv_obj;
       let kv_obj := snd r in
       if negb (kv_crc_is_ok kv_obj) && negb (bool_decide (kv_status kv_obj = FDB_KV_PRE_WRITE))
          && negb (bool_decide (kv_status kv_obj = FDB_KV_ERR_HDR))
       then mret (inr (FDB_READ_ERR, sec_set_space 0 (empty_kv sector) sector))
       else
         let sector := sec_set_space (u64 (remain sector - kv_len kv_obj))
                                     (u32 (empty_kv sector + kv_len kv_obj)) sector in
         next ← get_next_kv_addr sector kv_obj;
         if next =? FAILED_ADDR then mret (inr (FDB_NO_ERR, sector))
         else mret (inl (sector, kv_set_start next kv_obj)))
    (sector, kv_set_start (u32 (addr sector + SECTOR_HDR_DATA_SIZE)) indet_kv).

(** The traversal branch. *)
Definition traverse_sector (sector : kvdb_sec_info) : M (fdb_kvdb W) (fdb_err_t * kvdb_sec_info) :=
  sec_size ← gets kv_sec_size;
  let sector := sec_set_space 0 (u32 (addr sector + SECTOR_HDR_DATA_SIZE)) sector in
  r ← (match store sector with
       | FDB_SECTOR_STORE_EMPTY =>
           mret (FDB_NO_ERR,
                 sec_set_space (u64 (sec_size - SECTOR_HDR_DATA_SIZE)) (empty_kv sector) sector)
       | FDB_SECTOR_STORE_USING =>
           r ← read_sector_kvs
                 (sec_set_space (u64 (sec_size - SECTOR_HDR_DATA_SIZE)) (empty_kv sector) sector);
           let sector := snd r in
           ff_addr ← up (_fdb_continue_ff_addr FDB_WRITE_GRAN (empty_kv sector)
                           (u32 (addr sector + sec_size)));
           let sector := if empty_kv sector =? ff_addr then sector
                         else sec_set_space (u32 (sec_size - u32 (ff_addr - addr sector)))
                                            ff_addr sector in
           mret (fst r, sector)
       | _ => mret (FDB_NO_ERR, sector)
       end);
  update_sector_cache (snd r);;
  mret r.

Definition read_sector_info (a : Z) (sector : kvdb_sec_info) (traversal : bool)
    : M (fdb_kvdb W) (fdb_err_t * kvdb_sec_info) :=
  sec_size ← gets kv_sec_size;
  (if sec_size =? 0 then stuck_at Undefined else fdb_assert (a mod sec_size =? 0));;
  cached ← get_sector_from_cache a;
  match (match cached with
         | Some (_, s) => if negb traversal || negb (empty_kv s =? FAILED_ADDR)
                          then Some s else None
         | None => None
         end) with
  | Some s => mret (FDB_NO_ERR, s)
  | None =>
      r ← up (_fdb_flash_read a (replicate (Z.to_nat SECTOR_HDR_DATA_SIZE) 0));
      let sec_hdr := dec_sector_hdr (snd r) in
      if negb (sh_magic sec_hdr =? SECTOR_MAGIC_WORD) ||
         (negb (sh_combined sec_hdr =? SECTOR_NOT_COMBINED) &&
          negb (sh_combined sec_hdr =? SECTOR_COMBINED))
      then mret (FDB_INIT_FAILED,
                 KvSec false FDB_SECTOR_STORE_UNUSED FDB_SECTOR_DIRTY_UNUSED a (sh_magic sec_hdr)
                       SECTOR_NOT_COMBINED (remain sector) (empty_kv sector))
      else
        let sector :=
          KvSec true
            (enum_of (_fdb_get_status FDB_WRITE_GRAN [sh_store sec_hdr] FDB_SECTOR_STORE_STATUS_NUM))
            (enum_of (_fdb_get_status FDB_WRITE_GRAN [sh_dirty sec_hdr] FDB_SECTOR_DIRTY_STATUS_NUM))
            a (sh_magic sec_hdr) (sh_combined sec_hdr) (remain sector) (empty_kv sector) in
        if traversal then traverse_sector sector
        else
          sec_cache ← get_sector_from_cache (addr sector);
          match sec_cache with
          | Some _ => mret (FDB_NO_ERR, sector)
          | None =>
              let sector := sec_set_space 0 FAILED_ADDR sector in
              update_sector_cache sector;;
              mret (FDB_NO_ERR, sector)
          end
  end.

Definition get_next_sector_addr (d : fdb_kvdb W) (pre_sec : kvdb_sec_info) (traversed_len : Z) : Z :=
  let cur_block_size := if combined pre_sec =? SECTOR_NOT_COMBINED then kv_sec_size d
                        else u32 (combined pre_sec * kv_sec_size d) in
  if u32 (traversed_len + cur_block_size) <=? kv_max_size d then
    if u32 (addr pre_sec + cur_block_size) <? kv_max_size d
    then u32 (addr pre_sec + cur_block_size)
    else 0
  else FAILED_ADDR.

(** Sectors of the database; bounds the loops over them. *)
Definition sector_fuel (d : fdb_kvdb W) : nat := Z.to_nat (kv_max_size d / kv_sec_size d) + 2.
End reading.

Section searching.
Context {W} {ST : Storage W} {IN : Indeterminate}.

(** The inner loop of [kv_iterator]: the records of [sector].  The boolean
    tells that the callback stopped the iteration.  The [void *] arguments of
    the callback are a value of type [A]. *)
Definition iterate_sector {A} (callback : fdb_kv -> A -> M (fdb_kvdb W) (bool * A))
    (sector : kvdb_sec_info) (kv : fdb_kv) (arg : A) : M (fdb_kvdb W) (bool * fdb_kv * A) :=
  sec_size ← gets kv_sec_size;
  loop (Z.to_nat sec_size + 2)
    (fun '(kv, arg) =>
       r ← read_kv kv;
       let kv := snd r in
       c ← callback kv arg;
       if (fst c : bool) then mret (inr (true, kv, snd c))
       else
         next ← get_next_kv_addr sector kv;
         if next =? FAILED_ADDR then mret (inr (false, kv_set_start next kv, snd c))
         else mret (inl (kv_set_start next kv, snd c)))
    (kv_set_start (u32 (addr sector + SECTOR_HDR_DATA_SIZE)) kv, arg).

Definition kv_iterator {A} (kv : fdb_kv) (arg : A)
    (callback : option (fdb_kv -> A -> M (fdb_kvdb W) (bool * A))) : M (fdb_kvdb W) (fdb_kv * A) :=
  oldest ← gets db_oldest_addr;
  fuel ← gets sector_fuel;
  loop fuel
    (fun '(sec_addr, traversed_len, sector, kv, arg) =>
       sec_size ← gets kv_sec_size;
       let traversed_len := u32 (traversed_len + sec_size) in
       r ← read_sector_info sec_addr sector false;
       let sector := snd r in
       it ← (match callback with
             | Some callback =>
                 if bool_decide (fst r = FDB_NO_ERR) &&
                    (bool_decide (store sector = FDB_SECTOR_STORE_USING) ||
                     bool_decide (store sector = FDB_SECTOR_STORE_FULL))
                 then iterate_sector callback sector kv arg
                 else mret (false, kv, arg)
             | None => mret (false, kv, arg)
             end);
       let '(stop, kv, arg) := it in
       if (stop : bool) then mret (inr (kv, arg))
       else
         d ← gets id;
         let sec_addr := get_next_sector_addr d sector traversed_len in
         if sec_addr =? FAILED_ADDR then mret (inr (kv, arg))
         else mret (inl (sec_addr, traversed_len, sector, kv, arg)))
    (oldest, 0, indet_sec, kv, arg).

Definition find_kv_cb (key : list Z) (kv : fdb_kv) (find_ok : bool) : M (fdb_kvdb W) (bool * bool) :=
  if negb (len key =? kv_name_len kv) then mret (false, find_ok)
  else if kv_crc_is_ok kv && bool_decide (kv_status kv = FDB_KV_WRITE) then
    match strncmp_eq (length key) (kv_name kv) (key ++ [0]) with
    | None => stuck_at Undefined
    | Some true => mret (true, true)
    | Some false => mret (false, find_ok)
    end
  else mret (false, find_ok).

Definition find_kv_no_cache (key : list Z) (kv : fdb_kv) : M (fdb_kvdb W) (bool * fdb_kv) :=
  r ← kv_iterator kv false (Some (find_kv_cb key));
  mret (snd r, fst r).

(** The result of [read_kv] on a cache hit is not looked at. *)
Definition find_kv (key : list Z) (kv : fdb_kv) : M (fdb_kvdb W) (bool * fdb_kv) :=
  hit ← get_kv_from_cache key;
  match hit with
  | Some a =>
      r ← read_kv (kv_set_start a kv);
      mret (true, snd r)
  | None =>
      r ← find_kv_no_cache key kv;
      let kv := snd r in
      (if (fst r : bool) then update_kv_cache key (len key) (kv_start kv) else mret tt);;
      mret (fst r, kv)
  end.

(** [__is_print] on an unsigned byte. *)
Definition is_print (ch : Z) : bool := u32 (ch - 32) <? 127 - 32.

Definition fdb_is_str (value : list Z) : bool := forallb is_print value.

(** The read length, the buffer and [*value_len]. *)
Definition get_kv (key : list Z) (value_buf : option (list Z)) (buf_len : Z)
    : M (fdb_kvdb W) (Z * option (list Z) * Z) :=
  found ← find_kv key indet_kv;
  let kv := snd found in
  if (fst found : bool) then
    let read_len := if kv_value_len kv <? buf_len then kv_value_len kv else buf_len in
    match value_buf with
    | Some b =>
        r ← up (_fdb_flash_read (kv_value kv) (slice b 0 read_len));
        mret (read_len, Some (splice b 0 (snd r)), kv_value_len kv)
    | None => mret (read_len, None, kv_value_len kv)
    end
  else mret (0, value_buf, 0).
End searching.
