(* ===== verification/KvWrite.v ===== *)
(** Key-value database: formatting, allocation, deletion, moving, garbage
    collection and creation of records.

    Models [src/fdb_kvdb.c] from [write_kv_hdr] to [create_kv_blob], and
    [set_kv]. *)
From S2P Require Import Prelude FdbDef Crc32 Status FlashIO KvDef KvRead.

Section writing.
Context {W} {ST : Storage W} {IN : Indeterminate}.

(** The byte of a one-byte status table with the status set. *)
Definition status_table_of (num idx : Z) : Z :=
  nth 0 (fst (_fdb_set_status FDB_WRITE_GRAN num idx)) 0.

Definition write_kv_status (a : Z) (s : fdb_kv_status) (sync : bool) : M (fdb_kvdb W) fdb_err_t :=
  up (_fdb_write_status FDB_WRITE_GRAN a FDB_KV_STATUS_NUM (enum_val s) sync).

Definition write_kv_hdr (a : Z) (kv_hdr : kv_hdr_data) : M (fdb_kvdb W) fdb_err_t :=
  result ← write_kv_status a FDB_KV_PRE_WRITE false;
  if decide (result = FDB_NO_ERR) then
    up (_fdb_flash_write (u32 (a + KV_MAGIC_OFFSET))
          (slice (enc_kv_hdr kv_hdr) KV_MAGIC_OFFSET (KV_HDR_DATA_SIZE - KV_MAGIC_OFFSET)) false)
  else mret result.

Definition format_sector (a combined_value : Z) : M (fdb_kvdb W) fdb_err_t :=
  sec_size ← gets kv_sec_size;
  (if sec_size =? 0 then stuck_at Undefined else fdb_assert (a mod sec_size =? 0));;
  result ← up (_fdb_flash_erase a sec_size);
  if decide (result = FDB_NO_ERR) then
    let sec_hdr := SectorHdr
      (status_table_of FDB_SECTOR_STORE_STATUS_NUM (enum_val FDB_SECTOR_STORE_EMPTY))
      (status_table_of FDB_SECTOR_DIRTY_STATUS_NUM (enum_val FDB_SECTOR_DIRTY_FALSE))
      [FDB_BYTE_ERASED; FDB_BYTE_ERASED] SECTOR_MAGIC_WORD combined_value FDB_DATA_UNUSED in
    result ← up (_fdb_flash_write a (enc_sector_hdr sec_hdr) true);
    update_sector_cache
      (KvSec false FDB_SECTOR_STORE_UNUSED FDB_SECTOR_DIRTY_UNUSED a 0 0 0 FAILED_ADDR);;
    mret result
  else mret result.

Definition write_store_status (a : Z) (s : fdb_sector_store_status) : M (fdb_kvdb W) fdb_err_t :=
  up (_fdb_write_status FDB_WRITE_GRAN a FDB_SECTOR_STORE_STATUS_NUM (enum_val s) true).

(** The result and [*is_full]. *)
Definition update_sec_status (sector : kvdb_sec_info) (new_kv_len : Z) (is_full : bool)
    : M (fdb_kvdb W) (fdb_err_t * bool) :=
  match store sector with
  | FDB_SECTOR_STORE_EMPTY =>
      result ← write_store_status (addr sector) FDB_SECTOR_STORE_USING;
      update_sector_status_store_cache (addr sector) FDB_SECTOR_STORE_USING;;
      mret (result, is_full)
  | FDB_SECTOR_STORE_USING =>
      if (remain sector <? FDB_SEC_REMAIN_THRESHOLD)
         || (u64 (remain sector - new_kv_len) <? FDB_SEC_REMAIN_THRESHOLD)
      then
        result ← write_store_status (addr sector) FDB_SECTOR_STORE_FULL;
        update_sector_status_store_cache (addr sector) FDB_SECTOR_STORE_FULL;;
        mret (result, true)
      else mret (FDB_NO_ERR, false)
  | _ => mret (FDB_NO_ERR, is_full)
  end.

(** The sector left in [*sector], and the arguments of the callback. *)
Definition sector_iterator {A} (sector : kvdb_sec_info) (status : fdb_sector_store_status) (arg : A)
    (callback : option (kvdb_sec_info -> A -> M (fdb_kvdb W) (bool * A))) (traversal_kv : bool)
    : M (fdb_kvdb W) (kvdb_sec_info * A) :=
  oldest ← gets db_oldest_addr;
  fuel ← gets sector_fuel;
  loop fuel
    (fun '(sec_addr, traversed_len, sector, arg) =>
       sec_size ← gets kv_sec_size;
       let traversed_len := u32 (traversed_len + sec_size) in
       r ← read_sector_info sec_addr sector false;
       let sector := snd r in
       it ← (if bool_decide (status = FDB_SECTOR_STORE_UNUSED) || bool_decide (status = store sector)
             then
               sector ← (if traversal_kv
                         then r ← read_sector_info sec_addr sector true; mret (snd r)
                         else mret sector);
               match callback with
               | Some callback => c ← callback sector arg; mret (fst c, sector, snd c)
               | None => mret (false, sector, arg)
               end
             else mret (false, sector, arg));
       let '(stop, sector, arg) := it in
       if (stop : bool) then mret (inr (sector, arg))
       else
         d ← gets id;
         let sec_addr := get_next_sector_addr d sector traversed_len in
         if sec_addr =? FAILED_ADDR then mret (inr (sector, arg))
         else mret (inl (sec_addr, traversed_len, sector, arg)))
    (oldest, 0, sector, arg).

Definition sector_statistics_cb (sector : kvdb_sec_info) (arg : Z * Z)
    : M (fdb_kvdb W) (bool * (Z * Z)) :=
  let '(empty_sector, using_sector) := arg in
  if check_ok sector && bool_decide (store sector = FDB_SECTOR_STORE_EMPTY)
  then mret (false, (u64 (empty_sector + 1), using_sector))
  else if check_ok sector && bool_decide (store sector = FDB_SECTOR_STORE_USING)
  then mret (false, (empty_sector, u64 (using_sector + 1)))
  else mret (false, arg).

(** [arg]: [*empty_kv]. *)
Definition alloc_kv_cb (kv_size : Z) (sector : kvdb_sec_info) (arg : Z)
    : M (fdb_kvdb W) (bool * Z) :=
  gc ← gets gc_request;
  if check_ok sector && (u64 (kv_size + FDB_SEC_REMAIN_THRESHOLD) <? remain sector)
     && (bool_decide (dirty sector = FDB_SECTOR_DIRTY_FALSE)
         || (bool_decide (dirty sector = FDB_SECTOR_DIRTY_TRUE) && negb gc))
  then mret (true, empty_kv sector)
  else mret (false, arg).

Definition alloc_kv (sector : kvdb_sec_info) (kv_size : Z) : M (fdb_kvdb W) (Z * kvdb_sec_info) :=
  r ← sector_iterator sector FDB_SECTOR_STORE_UNUSED (0, 0) (Some sector_statistics_cb) false;
  let '(sector, (empty_sector, using_sector)) := r in
  r ← (if 0 <? using_sector
       then sector_iterator sector FDB_SECTOR_STORE_USING FAILED_ADDR
              (Some (alloc_kv_cb kv_size)) true
       else mret (sector, FAILED_ADDR));
  let '(sector, empty_kv) := r in
  if (0 <? empty_sector) && (empty_kv =? FAILED_ADDR) then
    gc ← gets gc_request;
    if (FDB_GC_EMPTY_SEC_THRESHOLD <? empty_sector) || gc then
      r ← sector_iterator sector FDB_SECTOR_STORE_EMPTY empty_kv (Some (alloc_kv_cb kv_size)) true;
      mret (snd r, fst r)
    else modify (set_gc_request true);; mret (empty_kv, sector)
  else mret (empty_kv, sector).

(** [key] and [old_kv] are [None] for [NULL]. *)
Definition del_kv (key : option (list Z)) (old_kv : option fdb_kv) (complete_del : bool)
    : M (fdb_kvdb W) fdb_err_t :=
  found ← (match old_kv with
           | Some kv => mret (Some kv)
           | None =>
               match key with
               | None => stuck_at Undefined
               | Some key =>
                   r ← find_kv key (FdbKv FDB_KV_UNUSED false 0 0 0 0
                                          (replicate (Z.to_nat FDB_KV_NAME_MAX) 0) 0 0);
                   mret (if (fst r : bool) then Some (snd r) else None)
               end
           end);
  match found with
  | None => mret FDB_KV_NAME_ERR
  | Some old_kv =>
      let new_status := if complete_del then FDB_KV_DELETED else FDB_KV_PRE_DELETE in
      result ← write_kv_status (kv_start old_kv) new_status complete_del;
      (if complete_del then
         last ← gets last_is_complete_del;
         (if negb last && bool_decide (result = FDB_NO_ERR) then
            match key with
            | Some key => update_kv_cache key (len key) FDB_DATA_UNUSED
            | None => update_kv_cache (kv_name old_kv) (kv_name_len old_kv) FDB_DATA_UNUSED
            end
          else mret tt);;
         modify (set_last_is_complete_del false)
       else modify (set_last_is_complete_del true));;
      sec_size ← gets kv_sec_size;
      (if sec_size =? 0 then stuck_at Undefined else mret tt);;
      let sec_addr := u32 (FDB_ALIGN_DOWN (kv_start old_kv) sec_size) in
      let dirty_status_addr := u32 (sec_addr + SECTOR_DIRTY_OFFSET) in
      if decide (result = FDB_NO_ERR) then
        cur ← up (_fdb_read_status FDB_WRITE_GRAN dirty_status_addr
                    [status_table_of FDB_KV_STATUS_NUM (enum_val new_status)]
                    FDB_SECTOR_DIRTY_STATUS_NUM);
        if cur =? enum_val FDB_SECTOR_DIRTY_FALSE then
          result ← up (_fdb_write_status FDB_WRITE_GRAN dirty_status_addr FDB_SECTOR_DIRTY_STATUS_NUM
                         (enum_val FDB_SECTOR_DIRTY_TRUE) true);
          sector_cache ← get_sector_from_cache sec_addr;
          (match sector_cache with
           | Some (i, s) => store_sector_cache i (sec_set_dirty FDB_SECTOR_DIRTY_TRUE s)
           | None => mret tt
           end);;
          mret result
        else mret result
      else mret result
  end.

(** The copy loop of [move_kv]: [kv_len] bytes from [src] to [dst]; the
    result of the last write. *)
Definition copy_kv (src dst kv_len : Z) : M (fdb_kvdb W) fdb_err_t :=
  loop (Z.to_nat (kv_len / 32) + 2)
    (fun '(n, result, buf) =>
       if n <? kv_len then
         let size := if n + 32 <? kv_len then 32 else kv_len - n in
         r ← up (_fdb_flash_read (u32 (src + n)) (slice buf 0 (WG_ALIGN size)));
         let buf := splice buf 0 (snd r) in
         result ← up (_fdb_flash_write (u32 (dst + n)) (slice buf 0 size) true);
         mret (inl (n + size, result, buf))
       else mret (inr result))
    (0, FDB_NO_ERR, indet_buf 32).

Definition move_kv (kv : fdb_kv) : M (fdb_kvdb W) fdb_err_t :=
  (if decide (kv_status kv = FDB_KV_WRITE) then del_kv None (Some kv) false;; mret tt
   else mret tt);;
  r ← alloc_kv indet_sec (kv_len kv);
  let '(kv_addr, sector) := r in
  if kv_addr =? FAILED_ADDR then mret FDB_SAVED_FULL
  else
    recovery ← gets in_recovery_check;
    moved ← (if recovery && bool_decide (kv_status kv = FDB_KV_PRE_DELETE) then
               name ← read_bytes (kv_name kv) (kv_name_len kv);
               r ← find_kv_no_cache (until_nul name) indet_kv;
               mret (fst r)
             else mret false);
    result ← (if (moved : bool) then mret FDB_NO_ERR
              else
                update_sec_status sector (kv_len kv) false;;
                write_kv_status kv_addr FDB_KV_PRE_WRITE false;;
                result ← copy_kv (kv_start kv + KV_MAGIC_OFFSET) (kv_addr + KV_MAGIC_OFFSET)
                                 (u64 (kv_len kv - KV_MAGIC_OFFSET));
                write_kv_status kv_addr FDB_KV_WRITE true;;
                sec_size ← gets kv_sec_size;
                update_sector_empty_addr_cache (u32 (FDB_ALIGN_DOWN kv_addr sec_size))
                  (u32 (kv_addr + KV_HDR_DATA_SIZE + WG_ALIGN (kv_name_len kv)
                        + WG_ALIGN (kv_value_len kv)));;
                update_kv_cache (kv_name kv) (kv_name_len kv) kv_addr;;
                mret result);
    del_kv None (Some kv) true;;
    mret result.

(** [arg]: the number of empty sectors and the address of one. *)
Definition gc_check_cb (sector : kvdb_sec_info) (arg : Z * Z) : M (fdb_kvdb W) (bool * (Z * Z)) :=
  if check_ok sector then mret (false, (u64 (fst arg + 1), addr sector)) else mret (false, arg).

(** The records of a sector under collection. *)
Definition gc_sector_kvs (sector : kvdb_sec_info) : M (fdb_kvdb W) unit :=
  sec_size ← gets kv_sec_size;
  loop (Z.to_nat sec_size + 2)
    (fun kv =>
       r ← read_kv kv;
       let kv := snd r in
       (if kv_crc_is_ok kv && (bool_decide (kv_status kv = FDB_KV_WRITE) ||
                               bool_decide (kv_status kv = FDB_KV_PRE_DELETE))
        then move_kv kv;; mret tt
        else mret tt);;
       next ← get_next_kv_addr sector kv;
       if next =? FAILED_ADDR then mret (inr tt) else mret (inl (kv_set_start next kv)))
    (kv_set_start (u32 (addr sector + SECTOR_HDR_DATA_SIZE)) indet_kv).

(** [arg]: [last_gc_sec_addr]. *)
Definition do_gc (setting_free_size : Z) (sector : kvdb_sec_info) (arg : Z)
    : M (fdb_kvdb W) (bool * Z) :=
  if check_ok sector && (bool_decide (dirty sector = FDB_SECTOR_DIRTY_TRUE) ||
                         bool_decide (dirty sector = FDB_SECTOR_DIRTY_GC))
  then
    up (_fdb_write_status FDB_WRITE_GRAN (u32 (addr sector + SECTOR_DIRTY_OFFSET))
          FDB_SECTOR_DIRTY_STATUS_NUM (enum_val FDB_SECTOR_DIRTY_GC) true);;
    gc_sector_kvs sector;;
    format_sector (addr sector) SECTOR_NOT_COMBINED;;
    let last_gc_sec_addr := u32 arg in
    d ← gets id;
    modify (fun d => set_parent (set_oldest_addr (get_next_sector_addr d sector 0) (parent d)) d);;
    r ← read_sector_info last_gc_sec_addr indet_sec true;
    mret (bool_decide (fst r = FDB_NO_ERR) && (setting_free_size <? remain (snd r)), addr sector)
  else mret (false, arg).

Definition gc_collect_by_free_size (free_size : Z) : M (fdb_kvdb W) unit :=
  r ← sector_iterator indet_sec FDB_SECTOR_STORE_EMPTY (0, 0) (Some gc_check_cb) false;
  let '(sector, (empty_sec_num, empty_sec_addr)) := r in
  (if empty_sec_num <=? FDB_GC_EMPTY_SEC_THRESHOLD then
     sector_iterator sector FDB_SECTOR_STORE_UNUSED empty_sec_addr (Some (do_gc free_size)) false;;
     mret tt
   else mret tt);;
  modify (set_gc_request false).

Definition gc_collect : M (fdb_kvdb W) unit :=
  max ← gets kv_max_size;
  gc_collect_by_free_size max.

(** [goto __retry] at most once: the second pass has [already_gc] set. *)
Definition new_kv (sector : kvdb_sec_info) (kv_size : Z) : M (fdb_kvdb W) (Z * kvdb_sec_info) :=
  loop 2
    (fun '(already_gc, sector) =>
       r ← alloc_kv sector kv_size;
       let '(empty_kv, sector) := r in
       if empty_kv =? FAILED_ADDR then
         gc ← gets gc_request;
         if gc && negb already_gc then
           gc_collect_by_free_size kv_size;;
           mret (inl (true, sector))
         else if (already_gc : bool) then
           modify (set_gc_request false);; mret (inr (empty_kv, sector))
         else mret (inr (empty_kv, sector))
       else mret (inr (empty_kv, sector)))
    (false, sector).

Definition new_kv_ex (sector : kvdb_sec_info) (key_len buf_len : Z)
    : M (fdb_kvdb W) (Z * kvdb_sec_info) :=
  new_kv sector (u64 (KV_HDR_DATA_SIZE + WG_ALIGN key_len + WG_ALIGN buf_len)).

(** The header [create_kv_blob] prepares for a record. *)
Definition new_kv_hdr (key value : list Z) (value_len : Z) : kv_hdr_data :=
  let ff := [FDB_BYTE_ERASED; FDB_BYTE_ERASED; FDB_BYTE_ERASED] in
  let name_len := u8 (len key) in
  let value_len := u32 value_len in
  let pad n := replicate (Z.to_nat (WG_ALIGN n - n)) FDB_BYTE_ERASED in
  let crc := fdb_calc_crc32 0 (name_len :: ff) in
  let crc := fdb_calc_crc32 crc (le_bytes 4 value_len) in
  let crc := fdb_calc_crc32 crc (slice key 0 name_len) in
  let crc := fdb_calc_crc32 crc (pad name_len) in
  let crc := fdb_calc_crc32 crc (slice value 0 value_len) in
  let crc := fdb_calc_crc32 crc (pad value_len) in
  KvHdr FDB_BYTE_ERASED ff KV_MAGIC_WORD
        (u32 (KV_HDR_DATA_SIZE + WG_ALIGN name_len + WG_ALIGN value_len)) crc name_len ff value_len.

(** [value] is the memory of at least [value_len] bytes the caller passes. *)
Definition create_kv_blob (sector : kvdb_sec_info) (key value : list Z) (value_len : Z)
    : M (fdb_kvdb W) (fdb_err_t * kvdb_sec_info) :=
  let kv_hdr := new_kv_hdr key value value_len in
  sec_size ← gets kv_sec_size;
  if FDB_KV_NAME_MAX <? len key then mret (FDB_KV_NAME_ERR, sector)
  else if u64 (sec_size - SECTOR_HDR_DATA_SIZE) <? kh_len kv_hdr then mret (FDB_SAVED_FULL, sector)
  else
    alloc ← (if negb (empty_kv sector =? FAILED_ADDR) then mret (empty_kv sector, sector)
             else new_kv sector (kh_len kv_hdr));
    let '(kv_addr, sector) := alloc in
    if kv_addr =? FAILED_ADDR then mret (FDB_SAVED_FULL, sector)
    else
      st ← update_sec_status sector (kh_len kv_hdr) false;
      let '(result, is_full) := st in
      result ← (if decide (result = FDB_NO_ERR) then
                  (if len value <? kh_value_len kv_hdr then stuck_at Undefined
                   else write_kv_hdr kv_addr kv_hdr)
                else mret result);
      let name_end := KV_HDR_DATA_SIZE + WG_ALIGN (kh_name_len kv_hdr) in
      result ← (if decide (result = FDB_NO_ERR) then
                  result ← up (_fdb_flash_write_align FDB_WRITE_GRAN
                                 (u32 (kv_addr + KV_HDR_DATA_SIZE))
                                 (slice key 0 (kh_name_len kv_hdr)));
                  (if (is_full : bool) then mret tt
                   else update_sector_empty_addr_cache (addr sector)
                          (u32 (kv_addr + name_end + WG_ALIGN (kh_value_len kv_hdr))));;
                  update_kv_cache key (kh_name_len kv_hdr) kv_addr;;
                  mret result
                else mret result);
      result ← (if decide (result = FDB_NO_ERR) then
                  up (_fdb_flash_write_align FDB_WRITE_GRAN (u32 (kv_addr + name_end))
                        (slice value 0 (kh_value_len kv_hdr)))
                else mret result);
      result ← (if decide (result = FDB_NO_ERR) then write_kv_status kv_addr FDB_KV_WRITE true
                else mret result);
      (if bool_decide (result = FDB_NO_ERR) && is_full then modify (set_gc_request true)
       else mret tt);;
      mret (result, sector).

(** [db->cur_sector] and [db->cur_kv] are passed by pointer to the
    functions called. *)
Definition set_kv (key : list Z) (value_buf : option (list Z)) (buf_len : Z)
    : M (fdb_kvdb W) fdb_err_t :=
  match value_buf with
  | None => del_kv (Some key) None true
  | Some value =>
      sector ← gets cur_sector;
      r ← new_kv_ex sector (len key) buf_len;
      modify (set_cur_sector (snd r));;
      if fst r =? FAILED_ADDR then mret FDB_SAVED_FULL
      else
        kv ← gets cur_kv;
        found ← find_kv key kv;
        modify (set_cur_kv (snd found));;
        result ← (if (fst found : bool) then del_kv (Some key) (Some (snd found)) false
                  else mret FDB_NO_ERR);
        result ← (if decide (result = FDB_NO_ERR) then
                    sector ← gets cur_sector;
                    c ← create_kv_blob sector key value buf_len;
                    modify (set_cur_sector (snd c));;
                    mret (fst c)
                  else mret result);
        result ← (if (fst found : bool) && bool_decide (result = FDB_NO_ERR)
                  then del_kv (Some key) (Some (snd found)) true
                  else mret result);
        gc ← gets gc_request;
        (if (gc : bool) then
           gc_collect_by_free_size (u64 (KV_HDR_DATA_SIZE + WG_ALIGN (len key) + WG_ALIGN buf_len))
         else mret tt);;
        mret result
  end.
End writing.
