(* ===== verification/KvApi.v ===== *)
(** Key-value database: the public functions and the initialisation.

    Models the rest of [src/fdb_kvdb.c]: [fdb_kv_get_obj] to [fdb_kv_get], the
    functions that set and delete, the defaults, printing, recovery at load
    time, [fdb_kvdb_control], [fdb_kvdb_init], the iterator and the check. *)
From S2P Require Import Prelude FdbDef Crc32 Status FlashIO KvDef KvRead KvWrite.

(** Whether the build defines [FDB_KV_AUTO_UPDATE]. *)
Class KvBuild := FDB_KV_AUTO_UPDATE : bool.

Section api.
Context {W} {ST : Storage W} {IN : Indeterminate} {KB : KvBuild}.

(** Between [db_lock] and [db_unlock]. *)
Definition locked {A} (m : M (fdb_kvdb W) A) : M (fdb_kvdb W) A :=
  up db_lock;; r ← m; up db_unlock;; mret r.

(** ** Reading *)

(** The object is [None] for a [NULL] result; the second component is what
    [*kv] holds afterwards. *)
Definition fdb_kv_get_obj (key : list Z) (kv : fdb_kv) : M (fdb_kvdb W) (option fdb_kv * fdb_kv) :=
  ok ← gets db_init_ok;
  if negb ok then mret (None, kv)
  else
    r ← locked (find_kv key kv);
    mret (if (fst r : bool) then Some (snd r) else None, snd r).

Definition fdb_kv_to_blob (kv : fdb_kv) (blob : fdb_blob) : fdb_blob :=
  FdbBlob (buf blob) (size blob) (kv_start kv) (kv_value kv) (kv_value_len kv).

Definition fdb_kv_get_blob (key : list Z) (blob : fdb_blob) : M (fdb_kvdb W) (Z * fdb_blob) :=
  ok ← gets db_init_ok;
  if negb ok then mret (0, blob)
  else
    r ← locked (get_kv key (buf blob) (size blob));
    let '(read_len, b, value_len) := r in
    mret (read_len, FdbBlob b (size blob) (saved_meta_addr blob) (saved_addr blob) value_len).

(** [value] is the function's static buffer; its new content is returned
    with the result. *)
Definition fdb_kv_get (key : list Z) (value : list Z)
    : M (fdb_kvdb W) (option (list Z) * list Z) :=
  let blob := fdb_blob_make (FdbBlob None (u64 (indet 0)) (u32 (indet 1)) (u32 (indet 2))
                                     (u64 (indet 3)))
                            (Some value) FDB_STR_KV_VALUE_MAX_SIZE in
  r ← fdb_kv_get_blob key blob;
  let '(get_size, blob) := r in
  let value := default [] (buf blob) in
  if (0 <? get_size) && fdb_is_str (slice value 0 get_size) then
    let value := <[Z.to_nat get_size := 0]> value in
    mret (Some (until_nul value), value)
  else mret (None, value).

(** ** Setting and deleting *)

Definition fdb_kv_del (key : list Z) : M (fdb_kvdb W) fdb_err_t :=
  ok ← gets db_init_ok;
  if negb ok then mret FDB_INIT_FAILED else locked (del_kv (Some key) None true).

Definition fdb_kv_set_blob (key : list Z) (blob : fdb_blob) : M (fdb_kvdb W) fdb_err_t :=
  ok ← gets db_init_ok;
  if negb ok then mret FDB_INIT_FAILED else locked (set_kv key (buf blob) (size blob)).

Definition fdb_kv_set (key : list Z) (value : option (list Z)) : M (fdb_kvdb W) fdb_err_t :=
  match value with
  | Some v =>
      fdb_kv_set_blob key
        (fdb_blob_make (FdbBlob None (u64 (indet 0)) (u32 (indet 1)) (u32 (indet 2)) (u64 (indet 3)))
                       (Some v) (len v))
  | None => fdb_kv_del key
  end.

(** The value of a default KV: a NUL-terminated string when the length is 0. *)
Definition default_value_len (n : fdb_default_kv_node) : M (fdb_kvdb W) Z :=
  if dk_value_len n =? 0 then
    (if existsb (Z.eqb 0) (dk_value n) then mret (len (until_nul (dk_value n)))
     else stuck_at Undefined)
  else mret (dk_value_len n).

(** The loop that formats the sectors. *)
Definition format_all : M (fdb_kvdb W) fdb_err_t :=
  fuel ← gets sector_fuel;
  loop fuel
    (fun '(a, result) =>
       max ← gets kv_max_size;
       sec_size ← gets kv_sec_size;
       if a <? max then
         result ← format_sector a SECTOR_NOT_COMBINED;
         if decide (result = FDB_NO_ERR) then mret (inl (u32 (a + sec_size), result))
         else mret (inr result)
       else mret (inr result))
    (0, FDB_NO_ERR).

(** The results of [create_kv_blob] are not looked at. *)
Fixpoint create_defaults (l : list fdb_default_kv_node) (sector : kvdb_sec_info)
    : M (fdb_kvdb W) unit :=
  match l with
  | [] => mret tt
  | n :: l =>
      value_len ← default_value_len n;
      r ← create_kv_blob (sec_set_space (remain sector) FAILED_ADDR sector) (dk_key n) (dk_value n)
            (u32 value_len);
      create_defaults l (snd r)
  end.

Definition fdb_kv_set_default : M (fdb_kvdb W) fdb_err_t :=
  up db_lock;;
  modify (fun d => set_kv_cache_table
    (map (fun n => KvCacheNode (kc_name_crc n) (kc_active n) FDB_DATA_UNUSED)
         (kv_cache_table d)) d);;
  result ← format_all;
  (if decide (result = FDB_NO_ERR) then
     kvs ← gets default_kvs;
     create_defaults kvs indet_sec
   else mret tt);;
  modify (fun d => set_parent (set_oldest_addr 0 (parent d)) d);;
  up db_unlock;;
  mret result.

(** ** Printing *)

(** What is printed for a record, piece by piece. *)
Inductive print_item :=
| PrintName (name : list Z)
| PrintChunk (value : list Z)
| PrintBlob (a len : Z)
| PrintNewline.

(** One pass over the value (label [__reload]): the pieces printed and
    whether the value is still a string. *)
Definition print_value_pass (kv : fdb_kv) (print_value : bool) (buf : list Z)
    : M (fdb_kvdb W) (list print_item * bool * list Z) :=
  loop (Z.to_nat (kv_value_len kv / 32) + 2)
    (fun '(n, out, buf) =>
       if n <? kv_value_len kv then
         let size := if n + 32 <? kv_value_len kv then 32 else kv_value_len kv - n in
         r ← up (_fdb_flash_read (u32 (kv_value kv + n)) (slice buf 0 (WG_ALIGN size)));
         let buf := splice buf 0 (snd r) in
         if (print_value : bool)
         then mret (inl (n + size, out ++ [PrintChunk (slice buf 0 size)], buf))
         else if negb (fdb_is_str (slice buf 0 size)) then mret (inr (out, false, buf))
         else mret (inl (n + size, out, buf))
       else mret (inr (out, true, buf)))
    (0, [], buf).

(** [arg]: [*using_size] and the output. *)
Definition print_kv_cb (kv : fdb_kv) (arg : Z * list print_item)
    : M (fdb_kvdb W) (bool * (Z * list print_item)) :=
  let '(using_size, out) := arg in
  if kv_crc_is_ok kv then
    let using_size := u64 (using_size + kv_len kv) in
    if decide (kv_status kv = FDB_KV_WRITE) then
      name ← read_bytes (kv_name kv) (kv_name_len kv);
      let out := out ++ [PrintName (until_nul name)] in
      is_str ← (if kv_value_len kv <? FDB_STR_KV_VALUE_MAX_SIZE
                then print_value_pass kv false (indet_buf 32)
                else mret ([], false, []));
      let '(_, value_is_str, buf) := is_str in
      out ← (if (value_is_str : bool)
             then r ← print_value_pass kv true buf; mret (out ++ fst (fst r))
             else mret (out ++ [PrintBlob (kv_value kv) (kv_value_len kv)]));
      mret (false, (using_size, out ++ [PrintNewline]))
    else mret (false, (using_size, out))
  else mret (false, (using_size, out)).

(** The output of the records and the total size printed after them. *)
Definition fdb_kv_print : M (fdb_kvdb W) (list print_item * Z) :=
  ok ← gets db_init_ok;
  if negb ok then mret ([], 0)
  else
    locked (
      r ← kv_iterator indet_kv (0, []) (Some print_kv_cb);
      let '(using_size, out) := snd r in
      sec_size ← gets kv_sec_size;
      max_size ← gets kv_max_size;
      mret (out, u64 (u32 using_size +
                      u64 (u32 (max_size / sec_size - FDB_GC_EMPTY_SEC_THRESHOLD)
                           * SECTOR_HDR_DATA_SIZE)))).

(** ** Updating the defaults (when [FDB_KV_AUTO_UPDATE] is defined) *)

Fixpoint update_defaults (l : list fdb_default_kv_node) : M (fdb_kvdb W) unit :=
  match l with
  | [] => mret tt
  | n :: l =>
      kv ← gets cur_kv;
      found ← find_kv (dk_key n) kv;
      modify (set_cur_kv (snd found));;
      (if negb (fst found) then
         value_len ← default_value_len n;
         modify (fun d => set_cur_sector
           (sec_set_space (remain (cur_sector d)) FAILED_ADDR (cur_sector d)) d);;
         sector ← gets cur_sector;
         c ← create_kv_blob sector (dk_key n) (dk_value n) value_len;
         modify (set_cur_sector (snd c))
       else mret tt);;
      update_defaults l
  end.

Definition kv_auto_update : M (fdb_kvdb W) unit :=
  setting_ver_num ← gets ver_num;
  r ← get_kv VER_NUM_KV_NAME (Some (indet_buf 8)) 8;
  let '(read_len, saved, _) := r in
  let saved_ver_num := le_value (default [] saved) in
  if (0 <? read_len) && (saved_ver_num =? setting_ver_num) then mret tt
  else
    (if 0 <? read_len then kvs ← gets default_kvs; update_defaults kvs else mret tt);;
    set_kv VER_NUM_KV_NAME (Some (le_bytes 8 setting_ver_num)) 8;;
    mret tt.

(** ** Loading *)

(** [arg]: [*sector_oldest_addr] and [*last_sector_status]. *)
Definition check_oldest_addr_cb (sector : kvdb_sec_info) (arg : Z * fdb_sector_store_status)
    : M (fdb_kvdb W) (bool * (Z * fdb_sector_store_status)) :=
  let '(sector_oldest_addr, last_sector_status) := arg in
  let sector_oldest_addr :=
    if bool_decide (last_sector_status = FDB_SECTOR_STORE_EMPTY) &&
       (bool_decide (store sector = FDB_SECTOR_STORE_FULL) ||
        bool_decide (store sector = FDB_SECTOR_STORE_USING))
    then addr sector else sector_oldest_addr in
  mret (false, (sector_oldest_addr, store sector)).

(** [arg]: [*failed_count]. *)
Definition check_sec_hdr_cb (sector : kvdb_sec_info) (arg : Z) : M (fdb_kvdb W) (bool * Z) :=
  if negb (check_ok sector) then
    let failed_count := u64 (arg + 1) in
    not_fmt ← gets (fun d => not_formatable (parent d));
    if (not_fmt : bool) then mret (true, failed_count)
    else format_sector (addr sector) SECTOR_NOT_COMBINED;; mret (false, failed_count)
  else mret (false, arg).

Definition check_and_recovery_gc_cb (sector : kvdb_sec_info) (arg : unit)
    : M (fdb_kvdb W) (bool * unit) :=
  (if check_ok sector && bool_decide (dirty sector = FDB_SECTOR_DIRTY_GC)
   then modify (set_gc_request true);; gc_collect
   else mret tt);;
  mret (false, arg).

Definition check_and_recovery_kv_cb (kv : fdb_kv) (arg : unit) : M (fdb_kvdb W) (bool * unit) :=
  if kv_crc_is_ok kv && bool_decide (kv_status kv = FDB_KV_PRE_DELETE) then
    result ← move_kv kv;
    mret (negb (bool_decide (result = FDB_NO_ERR)), arg)
  else if decide (kv_status kv = FDB_KV_PRE_WRITE) then
    write_kv_status (kv_start kv) FDB_KV_ERR_HDR true;;
    mret (true, arg)
  else if kv_crc_is_ok kv && bool_decide (kv_status kv = FDB_KV_WRITE) then
    update_kv_cache (kv_name kv) (kv_name_len kv) (kv_start kv);;
    mret (false, arg)
  else mret (false, arg).

(** The code repeats from [__retry] as long as a garbage collection is
    requested; [retries] bounds the repetitions. *)
Definition _fdb_kv_load (retries : nat) : M (fdb_kvdb W) fdb_err_t :=
  modify (set_in_recovery_check true);;
  r ← sector_iterator indet_sec FDB_SECTOR_STORE_UNUSED 0 (Some check_sec_hdr_cb) false;
  let '(sector, check_failed_count) := r in
  not_fmt ← gets (fun d => not_formatable (parent d));
  if not_fmt && (0 <? check_failed_count) then mret FDB_READ_ERR
  else
    sec_num ← gets (fun d => kv_max_size d / kv_sec_size d);
    (if check_failed_count =? sec_num then fdb_kv_set_default;; mret tt else mret tt);;
    sector_iterator sector FDB_SECTOR_STORE_UNUSED tt (Some check_and_recovery_gc_cb) false;;
    loop retries
      (fun kv =>
         r ← kv_iterator kv tt (Some check_and_recovery_kv_cb);
         gc ← gets gc_request;
         if (gc : bool) then gc_collect;; mret (inl (fst r)) else mret (inr tt))
      indet_kv;;
    modify (set_in_recovery_check false);;
    mret FDB_NO_ERR.

(** ** Control *)

(** The commands, with what [arg] points to. *)
Inductive kvdb_ctrl :=
| FDB_KVDB_CTRL_SET_SEC_SIZE (n : Z)
| FDB_KVDB_CTRL_GET_SEC_SIZE
| FDB_KVDB_CTRL_SET_LOCK (set : bool)
| FDB_KVDB_CTRL_SET_UNLOCK (set : bool)
| FDB_KVDB_CTRL_SET_FILE_MODE (b : bool)
| FDB_KVDB_CTRL_SET_MAX_SIZE (n : Z)
| FDB_KVDB_CTRL_SET_NOT_FORMAT (b : bool).

Definition assert_not_init : M (fdb_kvdb W) unit :=
  ok ← gets db_init_ok;
  fdb_assert (negb ok).

(** The value written through [arg], if any. *)
Definition fdb_kvdb_control (cmd : kvdb_ctrl) : M (fdb_kvdb W) (option Z) :=
  match cmd with
  | FDB_KVDB_CTRL_SET_SEC_SIZE n =>
      assert_not_init;; up (modify (set_sec_size n));; mret None
  | FDB_KVDB_CTRL_GET_SEC_SIZE => n ← gets kv_sec_size; mret (Some n)
  | FDB_KVDB_CTRL_SET_LOCK b => up (modify (set_lock b));; mret None
  | FDB_KVDB_CTRL_SET_UNLOCK b => up (modify (set_unlock b));; mret None
  | FDB_KVDB_CTRL_SET_FILE_MODE b =>
      (if FDB_USING_FILE_MODE then assert_not_init;; up (modify (set_file_mode b))
       else mret tt);;
      mret None
  | FDB_KVDB_CTRL_SET_MAX_SIZE n =>
      (if FDB_USING_FILE_MODE then assert_not_init;; up (modify (set_max_size n))
       else mret tt);;
      mret None
  | FDB_KVDB_CTRL_SET_NOT_FORMAT b =>
      assert_not_init;; up (modify (set_not_formatable b));; mret None
  end.

(** ** Initialisation *)

(** The sector cache keeps the other members of its entries. *)
Definition reset_caches : M (fdb_kvdb W) unit :=
  modify (fun d => set_kv_cache_table
    (map (fun n => KvCacheNode (kc_name_crc n) (kc_active n) FDB_DATA_UNUSED) (kv_cache_table d))
    (set_sector_cache_table
      (map (fun s => KvSec false (store s) (dirty s) FDB_DATA_UNUSED (magic s) (combined s)
                           (remain s) FAILED_ADDR) (sector_cache_table d)) d)).

Definition fdb_kvdb_init (retries : nat) (nm path : string)
    (default_kv : option (list fdb_default_kv_node)) (user_data : Z)
    : M (fdb_kvdb W) fdb_err_t :=
  fdb_assert ((FDB_STR_KV_VALUE_MAX_SIZE * 8) mod FDB_WRITE_GRAN =? 0);;
  result ← up (_fdb_init_ex nm path FDB_DB_TYPE_KV user_data);
  result ← (if decide (result = FDB_NO_ERR) then
    up db_lock;;
    modify (fun d => set_default_kvs (default [] default_kv)
                       (set_in_recovery_check false (set_gc_request false d)));;
    modify (fun d => set_parent (set_oldest_addr 0 (parent d)) d);;
    r ← sector_iterator indet_sec FDB_SECTOR_STORE_UNUSED (0, FDB_SECTOR_STORE_UNUSED)
          (Some check_oldest_addr_cb) false;
    modify (fun d => set_parent (set_oldest_addr (fst (snd r)) (parent d)) d);;
    sec_num ← gets (fun d => kv_max_size d / kv_sec_size d);
    fdb_assert ((0 <? FDB_GC_EMPTY_SEC_THRESHOLD) && (FDB_GC_EMPTY_SEC_THRESHOLD <? sec_num));;
    reset_caches;;
    up db_unlock;;
    result ← _fdb_kv_load retries;
    up db_lock;;
    (if FDB_KV_AUTO_UPDATE && bool_decide (result = FDB_NO_ERR) then kv_auto_update else mret tt);;
    up db_unlock;;
    mret result
  else mret result);
  up (_fdb_init_finish result);;
  mret result.

Definition fdb_kvdb_deinit : M (fdb_kvdb W) fdb_err_t :=
  up _fdb_deinit;; mret FDB_NO_ERR.

(** ** Iterator *)

Definition fdb_kv_iterator_init (itr : fdb_kv_iterator) : M (fdb_kvdb W) fdb_kv_iterator :=
  oldest ← gets db_oldest_addr;
  mret (FdbKvIterator (kv_set_start 0 (curr_kv itr)) 0 0 0 oldest 0).

Definition itr_found (itr : fdb_kv_iterator) (kv : fdb_kv) : fdb_kv_iterator :=
  FdbKvIterator kv (u32 (iterated_cnt itr + 1)) (u64 (iterated_obj_bytes itr + kv_len kv))
    (u64 (iterated_value_bytes itr + kv_value_len kv)) (sector_addr itr) (traversed_len itr).

(** The inner loop: the next valid record of the sector from [kv] on, or the
    [kv] that ends it. *)
Definition iterate_valid (sector : kvdb_sec_info) (kv : fdb_kv)
    : M (fdb_kvdb W) (bool * fdb_kv) :=
  sec_size ← gets kv_sec_size;
  loop (Z.to_nat sec_size + 2)
    (fun kv =>
       r ← read_kv kv;
       let kv := snd r in
       if bool_decide (kv_status kv = FDB_KV_WRITE) && kv_crc_is_ok kv then mret (inr (true, kv))
       else
         next ← get_next_kv_addr sector kv;
         if next =? FAILED_ADDR then mret (inr (false, kv_set_start next kv))
         else mret (inl (kv_set_start next kv)))
    kv.

Definition fdb_kv_iterate (itr : fdb_kv_iterator) : M (fdb_kvdb W) (bool * fdb_kv_iterator) :=
  fuel ← gets sector_fuel;
  loop fuel
    (fun '(itr, sector) =>
       sec_size ← gets kv_sec_size;
       r ← read_sector_info (sector_addr itr) sector false;
       let sector := snd r in
       let kv := curr_kv itr in
       (* the record found, or the current one *)
       res ← (if bool_decide (fst r = FDB_NO_ERR) &&
                 (bool_decide (store sector = FDB_SECTOR_STORE_USING) ||
                  bool_decide (store sector = FDB_SECTOR_STORE_FULL))
              then
                if kv_start kv =? 0 then
                  iterate_valid sector (kv_set_start (u32 (addr sector + SECTOR_HDR_DATA_SIZE)) kv)
                else
                  next ← get_next_kv_addr sector kv;
                  if next =? FAILED_ADDR then mret (false, kv_set_start next kv)
                  else iterate_valid sector (kv_set_start next kv)
              else mret (false, kv));
       let '(found, kv) := res in
       if (found : bool) then mret (inr (true, itr_found itr kv))
       else
         let kv := kv_set_start 0 kv in
         let traversed := u32 (traversed_len itr + sec_size) in
         d ← gets id;
         let next_sec := get_next_sector_addr d sector traversed in
         let itr := FdbKvIterator kv (iterated_cnt itr) (iterated_obj_bytes itr)
                      (iterated_value_bytes itr) next_sec traversed in
         if next_sec =? FAILED_ADDR then mret (inr (false, itr))
         else mret (inl (itr, sector)))
    (itr, indet_sec).

(** ** Integrity check *)

(** The records of a sector: the result of the last [read_kv]. *)
Definition check_sector_kvs (sector : kvdb_sec_info) (kv : fdb_kv)
    : M (fdb_kvdb W) (fdb_err_t * fdb_kv) :=
  sec_size ← gets kv_sec_size;
  loop (Z.to_nat sec_size + 2)
    (fun kv =>
       r ← read_kv kv;
       let '(result, kv) := r in
       next ← get_next_kv_addr sector kv;
       let kv := kv_set_start next kv in
       if negb (next =? FAILED_ADDR) && bool_decide (result = FDB_NO_ERR)
       then mret (inl kv) else mret (inr (result, kv)))
    (kv_set_start (u32 (addr sector + SECTOR_HDR_DATA_SIZE)) kv).

Definition fdb_kvdb_check : M (fdb_kvdb W) fdb_err_t :=
  ok ← gets db_init_ok;
  if negb ok then mret FDB_INIT_FAILED
  else
    locked (
      oldest ← gets db_oldest_addr;
      fuel ← gets sector_fuel;
      loop fuel
        (fun '(sec_addr, traversed_len, sector, kv) =>
           sec_size ← gets kv_sec_size;
           let traversed_len := u32 (traversed_len + sec_size) in
           r ← read_sector_info sec_addr sector false;
           let '(result, sector) := r in
           it ← (if bool_decide (result = FDB_NO_ERR) &&
                    (bool_decide (store sector = FDB_SECTOR_STORE_USING) ||
                     bool_decide (store sector = FDB_SECTOR_STORE_FULL))
                 then check_sector_kvs sector kv
                 else mret (result, kv));
           let '(result, kv) := it in
           d ← gets id;
           let sec_addr := get_next_sector_addr d sector traversed_len in
           if negb (sec_addr =? FAILED_ADDR) && bool_decide (result = FDB_NO_ERR)
           then mret (inl (sec_addr, traversed_len, sector, kv))
           else mret (inr result))
        (oldest, 0, indet_sec, indet_kv)).

(** ** Sequences of calls *)

Inductive kv_call :=
| CallGetObj (key : list Z) (kv : fdb_kv)
| CallGetBlob (key : list Z) (blob : fdb_blob)
| CallSetBlob (key : list Z) (blob : fdb_blob)
| CallGet (key value : list Z)
| CallSet (key : list Z) (value : option (list Z))
| CallDel (key : list Z)
| CallSetDefault
| CallPrint
| CallCheck.

Definition run_call (c : kv_call) : M (fdb_kvdb W) unit :=
  match c with
  | CallGetObj key kv => fdb_kv_get_obj key kv;; mret tt
  | CallGetBlob key blob => fdb_kv_get_blob key blob;; mret tt
  | CallSetBlob key blob => fdb_kv_set_blob key blob;; mret tt
  | CallGet key value => fdb_kv_get key value;; mret tt
  | CallSet key value => fdb_kv_set key value;; mret tt
  | CallDel key => fdb_kv_del key;; mret tt
  | CallSetDefault => fdb_kv_set_default;; mret tt
  | CallPrint => fdb_kv_print;; mret tt
  | CallCheck => fdb_kvdb_check;; mret tt
  end.

Fixpoint run_calls (cs : list kv_call) : M (fdb_kvdb W) unit :=
  match cs with
  | [] => mret tt
  | c :: cs => run_call c;; run_calls cs
  end.
End api.
