(* ===== verification/TsDef.v ===== *)
(** Time-series database: data model.

    The structures of [inc/fdb_def.h] and [src/fdb_tsdb.c] used by the
    time-series database and its on-flash layout ([FDB_WRITE_GRAN] is 1, a
    timestamp is a signed 32-bit integer, logs have variable size). *)
From S2P Require Import Prelude FdbDef Status FlashIO.

(** ** Constants *)

Definition SECTOR_MAGIC_WORD : Z := 0x304C5354.

(** [struct sector_hdr_data] has byte arrays only, then [uint32_t reserved]. *)
Definition SECTOR_HDR_DATA_SIZE : Z := 32.
Definition SECTOR_MAGIC_OFFSET : Z := 1.
Definition SECTOR_START_TIME_OFFSET : Z := 5.
Definition SECTOR_END0_TIME_OFFSET : Z := 9.
Definition SECTOR_END0_IDX_OFFSET : Z := 13.
Definition SECTOR_END0_STATUS_OFFSET : Z := 17.
Definition SECTOR_END1_TIME_OFFSET : Z := 18.
Definition SECTOR_END1_IDX_OFFSET : Z := 22.
Definition SECTOR_END1_STATUS_OFFSET : Z := 26.
(** [struct log_idx_data]: the status byte, padding, time, length, address. *)
Definition LOG_IDX_DATA_SIZE : Z := 16.
Definition LOG_IDX_TS_OFFSET : Z := 4.
Definition TSL_TIME_ALIGN_SIZE : Z := 4.
Definition TSL_UINT32_ALIGN_SIZE : Z := 4.

Definition WG_ALIGN (n : Z) : Z := FDB_WG_ALIGN FDB_WRITE_GRAN n.

(** A timestamp in memory. *)
Definition time_bytes (t : Z) : list Z := le_bytes 4 (u32 t).
Definition time_at (b : list Z) (a : Z) : Z := i32 (le32_at b a).

(** ** Structures *)

Record sector_hdr_data := SectorHdr {
  sh_status : Z;
  sh_magic : Z;
  sh_start_time : Z;
  sh_end0_time : Z;
  sh_end0_index : Z;
  sh_end0_status : Z;
  sh_end1_time : Z;
  sh_end1_index : Z;
  sh_end1_status : Z;
}.

Definition dec_sector_hdr (b : list Z) : sector_hdr_data :=
  SectorHdr (nth 0 b 0) (le32_at b SECTOR_MAGIC_OFFSET) (time_at b SECTOR_START_TIME_OFFSET)
    (time_at b SECTOR_END0_TIME_OFFSET) (le32_at b SECTOR_END0_IDX_OFFSET)
    (nth (Z.to_nat SECTOR_END0_STATUS_OFFSET) b 0)
    (time_at b SECTOR_END1_TIME_OFFSET) (le32_at b SECTOR_END1_IDX_OFFSET)
    (nth (Z.to_nat SECTOR_END1_STATUS_OFFSET) b 0).

Record log_idx_data := LogIdx {
  li_status : Z;
  li_time : Z;
  li_log_len : Z;
  li_log_addr : Z;
}.

Definition dec_log_idx (b : list Z) : log_idx_data :=
  LogIdx (nth 0 b 0) (time_at b 4) (le32_at b 8) (le32_at b 12).

(** The members after the status and its padding. *)
Definition enc_log_idx (i : log_idx_data) : list Z :=
  time_bytes (li_time i) ++ le_bytes 4 (li_log_len i) ++ le_bytes 4 (li_log_addr i).

(** [struct fdb_tsl]; [tsl_index] and [tsl_log] are the members of [addr]. *)
Record fdb_tsl := FdbTsl {
  tsl_status : fdb_tsl_status;
  tsl_time : Z;
  tsl_log_len : Z;
  tsl_index : Z;
  tsl_log : Z;
}.

Record tsdb_sec_info := TsSec {
  check_ok : bool;
  status : fdb_sector_store_status;
  addr : Z;
  magic : Z;
  start_time : Z;
  end_time : Z;
  end_idx : Z;
  end_info_stat : fdb_tsl_status * fdb_tsl_status;
  remain : Z;
  empty_idx : Z;
  empty_data : Z;
}.

(** [struct fdb_tsdb]; [get_time] is the interface [Clock]. *)
Record fdb_tsdb (W : Type) := FdbTsdb {
  parent : fdb_db W;
  cur_sec : tsdb_sec_info;
  last_time : Z;
  max_len : Z;
  rollover : bool;
}.
Arguments FdbTsdb {W}.
Arguments parent {W}.
Arguments cur_sec {W}.
Arguments last_time {W}.
Arguments max_len {W}.
Arguments rollover {W}.

(** The user's [get_time] function. *)
Class Clock (W : Type) := get_time : M W Z.

(** ** Field updates *)

Definition sec_set_status (s : fdb_sector_store_status) (x : tsdb_sec_info) : tsdb_sec_info :=
  TsSec (check_ok x) s (addr x) (magic x) (start_time x) (end_time x) (end_idx x)
        (end_info_stat x) (remain x) (empty_idx x) (empty_data x).
Definition sec_set_start_time (t : Z) (x : tsdb_sec_info) : tsdb_sec_info :=
  TsSec (check_ok x) (status x) (addr x) (magic x) t (end_time x) (end_idx x)
        (end_info_stat x) (remain x) (empty_idx x) (empty_data x).
Definition sec_set_addr (a : Z) (x : tsdb_sec_info) : tsdb_sec_info :=
  TsSec (check_ok x) (status x) a (magic x) (start_time x) (end_time x) (end_idx x)
        (end_info_stat x) (remain x) (empty_idx x) (empty_data x).
Definition sec_set_end (t idx : Z) (x : tsdb_sec_info) : tsdb_sec_info :=
  TsSec (check_ok x) (status x) (addr x) (magic x) (start_time x) t idx
        (end_info_stat x) (remain x) (empty_idx x) (empty_data x).
Definition sec_set_space (rem idx data : Z) (x : tsdb_sec_info) : tsdb_sec_info :=
  TsSec (check_ok x) (status x) (addr x) (magic x) (start_time x) (end_time x) (end_idx x)
        (end_info_stat x) rem idx data.

Definition tsl_set_index (a : Z) (t : fdb_tsl) : fdb_tsl :=
  FdbTsl (tsl_status t) (tsl_time t) (tsl_log_len t) a (tsl_log t).

Section fields.
Context {W : Type}.

Definition set_parent (p : fdb_db W) (d : fdb_tsdb W) : fdb_tsdb W :=
  FdbTsdb p (cur_sec d) (last_time d) (max_len d) (rollover d).
Definition set_cur_sec (s : tsdb_sec_info) (d : fdb_tsdb W) : fdb_tsdb W :=
  FdbTsdb (parent d) s (last_time d) (max_len d) (rollover d).
Definition set_last_time (t : Z) (d : fdb_tsdb W) : fdb_tsdb W :=
  FdbTsdb (parent d) (cur_sec d) t (max_len d) (rollover d).
Definition set_max_len (n : Z) (d : fdb_tsdb W) : fdb_tsdb W :=
  FdbTsdb (parent d) (cur_sec d) (last_time d) n (rollover d).
Definition set_rollover (b : bool) (d : fdb_tsdb W) : fdb_tsdb W :=
  FdbTsdb (parent d) (cur_sec d) (last_time d) (max_len d) b.
Definition set_oldest (a : Z) (d : fdb_tsdb W) : fdb_tsdb W :=
  set_parent (set_oldest_addr a (parent d)) d.

(** A function of [fdb_utils.c] or [fdb.c] called on [(fdb_db_t) db]. *)
Definition up {A} (m : M (fdb_db W) A) : M (fdb_tsdb W) A := zoom parent set_parent m.

Definition ts_sec_size (d : fdb_tsdb W) : Z := sec_size (geo (parent d)).
Definition ts_max_size (d : fdb_tsdb W) : Z := max_size (geo (parent d)).
Definition db_oldest_addr (d : fdb_tsdb W) : Z := oldest_addr (parent d).
Definition db_init_ok (d : fdb_tsdb W) : bool := init_ok (parent d).
End fields.

(** ** Uninitialised locals *)

Definition indet_sec `{Indeterminate} : tsdb_sec_info :=
  TsSec (negb (indet 0 =? 0)) (enum_of (indet 1)) (u32 (indet 2)) (u32 (indet 3)) (i32 (indet 4))
        (i32 (indet 5)) (u32 (indet 6)) (enum_of (indet 7), enum_of (indet 8)) (u64 (indet 9))
        (u32 (indet 10)) (u32 (indet 11)).
Definition indet_tsl `{Indeterminate} : fdb_tsl :=
  FdbTsl (enum_of (indet 0)) (i32 (indet 1)) (u32 (indet 2)) (u32 (indet 3)) (u32 (indet 4)).

(** [_FDB_WRITE_STATUS] and [FLASH_WRITE]: on an error, return it. *)
Notation "m >>> k" :=
  (mbind (fun result : fdb_err_t => if decide (result = FDB_NO_ERR) then k else mret result) m)
  (at level 60, right associativity).
