(* ===== verification/TsOps.v ===== *)
(** Time-series database: sectors, log nodes and appending.

    Models [src/fdb_tsdb.c] up to [fdb_tsl_append_with_ts].  [update_sec_status]
    is only called on [&db->cur_sec]: the sector it changes is the database's
    own, also when [read_sector_info] refills it. *)
From S2P Require Import Prelude FdbDef Status FlashIO TsDef.

Section ops.
Context {W} {ST : Storage W} {IN : Indeterminate} {CL : Clock W}.

(** ** Nodes *)

(** Always succeeds; the node is returned. *)
Definition read_tsl (tsl : fdb_tsl) : M (fdb_tsdb W) fdb_tsl :=
  r ← up (_fdb_flash_read (tsl_index tsl) (indet_buf LOG_IDX_DATA_SIZE));
  let idx := dec_log_idx (snd r) in
  let st : fdb_tsl_status :=
    enum_of (_fdb_get_status FDB_WRITE_GRAN [li_status idx] FDB_TSL_STATUS_NUM) in
  if bool_decide (st = FDB_TSL_PRE_WRITE) || bool_decide (st = FDB_TSL_UNUSED) then
    n ← gets max_len;
    mret (FdbTsl st 0 (u32 n) (tsl_index tsl) FDB_DATA_UNUSED)
  else mret (FdbTsl st (li_time idx) (li_log_len idx) (tsl_index tsl) (li_log_addr idx)).

Definition get_next_sector_addr (d : fdb_tsdb W) (pre_sec : tsdb_sec_info) (traversed_len : Z) : Z :=
  if u32 (traversed_len + ts_sec_size d) <=? ts_max_size d then
    if u32 (addr pre_sec + ts_sec_size d) <? ts_max_size d
    then u32 (addr pre_sec + ts_sec_size d)
    else 0
  else FAILED_ADDR.

Definition get_next_tsl_addr (sector : tsdb_sec_info) (pre_tsl : fdb_tsl) : Z :=
  if decide (status sector = FDB_SECTOR_STORE_EMPTY) then FAILED_ADDR
  else if tsl_index pre_tsl + LOG_IDX_DATA_SIZE <=? end_idx sector
  then u32 (tsl_index pre_tsl + LOG_IDX_DATA_SIZE)
  else FAILED_ADDR.

Definition get_last_tsl_addr (sector : tsdb_sec_info) (pre_tsl : fdb_tsl) : Z :=
  if decide (status sector = FDB_SECTOR_STORE_EMPTY) then FAILED_ADDR
  else if addr sector + SECTOR_HDR_DATA_SIZE + LOG_IDX_DATA_SIZE <=? tsl_index pre_tsl
  then u32 (tsl_index pre_tsl - LOG_IDX_DATA_SIZE)
  else FAILED_ADDR.

Definition get_last_sector_addr (d : fdb_tsdb W) (pre_sec : tsdb_sec_info) (traversed_len : Z) : Z :=
  if u32 (traversed_len + ts_sec_size d) <=? ts_max_size d then
    if ts_sec_size d <=? addr pre_sec
    then u32 (addr pre_sec - ts_sec_size d)
    else u32 (ts_max_size d - ts_sec_size d)
  else FAILED_ADDR.

(** ** Sectors *)

(** The loop of [read_sector_info] over the nodes of a sector in use.  It
    ends: the remaining space shrinks at each node. *)
Definition traverse_tsls (sector : tsdb_sec_info) : M (fdb_tsdb W) (fdb_err_t * tsdb_sec_info) :=
  loop (Z.to_nat (remain sector / LOG_IDX_DATA_SIZE) + 2)
    (fun '(sector, tsl) =>
       tsl ← read_tsl tsl;
       if decide (tsl_status tsl = FDB_TSL_UNUSED) then mret (inr (FDB_NO_ERR, sector))
       else
         let end_t := if decide (tsl_status tsl = FDB_TSL_PRE_WRITE) then end_time sector
                      else tsl_time tsl in
         let sector := sec_set_end end_t (tsl_index tsl) sector in
         let node_size := u64 (LOG_IDX_DATA_SIZE + WG_ALIGN (tsl_log_len tsl)) in
         let idx := u32 (empty_idx sector + LOG_IDX_DATA_SIZE) in
         let data := u32 (empty_data sector - WG_ALIGN (tsl_log_len tsl)) in
         let tsl := tsl_set_index (u32 (tsl_index tsl + LOG_IDX_DATA_SIZE)) tsl in
         if node_size <? remain sector
         then mret (inl (sec_set_space (u64 (remain sector - node_size)) idx data sector, tsl))
         else mret (inr (FDB_READ_ERR, sec_set_space 0 idx data sector)))
    (sector, tsl_set_index (empty_idx sector) indet_tsl).

Definition read_sector_info (a : Z) (sector : tsdb_sec_info) (traversal : bool)
    : M (fdb_tsdb W) (fdb_err_t * tsdb_sec_info) :=
  sec_size ← gets ts_sec_size;
  r ← up (_fdb_flash_read a (indet_buf SECTOR_HDR_DATA_SIZE));
  let sec_hdr := dec_sector_hdr (snd r) in
  if negb (sh_magic sec_hdr =? SECTOR_MAGIC_WORD) then
    mret (FDB_INIT_FAILED,
          TsSec false (status sector) a (sh_magic sec_hdr) (start_time sector) (end_time sector)
                (end_idx sector) (end_info_stat sector) (remain sector) (empty_idx sector)
                (empty_data sector))
  else
    let tsl_stat b : fdb_tsl_status :=
      enum_of (_fdb_get_status FDB_WRITE_GRAN [b] FDB_TSL_STATUS_NUM) in
    let stat0 := tsl_stat (sh_end0_status sec_hdr) in
    let stat1 := tsl_stat (sh_end1_status sec_hdr) in
    (if bool_decide (stat0 = FDB_TSL_PRE_WRITE) && bool_decide (stat1 = FDB_TSL_PRE_WRITE)
     then fdb_assert false else mret tt);;
    let end_ := if decide (stat0 = FDB_TSL_WRITE) then (sh_end0_time sec_hdr, sh_end0_index sec_hdr)
                else if decide (stat1 = FDB_TSL_WRITE)
                then (sh_end1_time sec_hdr, sh_end1_index sec_hdr)
                else (end_time sector, end_idx sector) in
    let empty_idx := u32 (a + SECTOR_HDR_DATA_SIZE) in
    let empty_data := u32 (a + sec_size) in
    let sector :=
      TsSec true
        (enum_of (_fdb_get_status FDB_WRITE_GRAN [sh_status sec_hdr] FDB_SECTOR_STORE_STATUS_NUM))
        a (sh_magic sec_hdr) (sh_start_time sec_hdr) (fst end_) (snd end_) (stat0, stat1)
        (u32 (empty_data - empty_idx)) empty_idx empty_data in
    if bool_decide (status sector = FDB_SECTOR_STORE_USING) && traversal
    then traverse_tsls sector
    else mret (FDB_NO_ERR, sector).

Definition write_store_status (a : Z) (s : fdb_sector_store_status) : M (fdb_tsdb W) fdb_err_t :=
  up (_fdb_write_status FDB_WRITE_GRAN a FDB_SECTOR_STORE_STATUS_NUM (enum_val s) true).
Definition write_tsl_status (a : Z) (s : fdb_tsl_status) (sync : bool) : M (fdb_tsdb W) fdb_err_t :=
  up (_fdb_write_status FDB_WRITE_GRAN a FDB_TSL_STATUS_NUM (enum_val s) sync).
Definition flash_write (a : Z) (d : list Z) (sync : bool) : M (fdb_tsdb W) fdb_err_t :=
  up (_fdb_flash_write a d sync).

Definition format_sector (a : Z) : M (fdb_tsdb W) fdb_err_t :=
  sec_size ← gets ts_sec_size;
  (if sec_size =? 0 then stuck_at Undefined else fdb_assert (a mod sec_size =? 0));;
  up (_fdb_flash_erase a sec_size) >>>
  write_store_status a FDB_SECTOR_STORE_EMPTY >>>
  flash_write (u32 (a + SECTOR_MAGIC_OFFSET)) (le_bytes 4 SECTOR_MAGIC_WORD) true.

(** Sectors of the database; bounds the loops over them. *)
Definition sector_fuel (d : fdb_tsdb W) : nat := Z.to_nat (ts_max_size d / ts_sec_size d) + 2.

(** The sector left in [*sector], and the arguments of the callback. *)
Definition sector_iterator {A} (sector : tsdb_sec_info) (st : fdb_sector_store_status) (arg : A)
    (callback : option (tsdb_sec_info -> A -> M (fdb_tsdb W) (bool * A))) (traversal : bool)
    : M (fdb_tsdb W) (tsdb_sec_info * A) :=
  fuel ← gets sector_fuel;
  loop fuel
    (fun '(sec_addr, traversed_len, sector, arg) =>
       r ← read_sector_info sec_addr sector false;
       let sector := snd r in
       it ← (if bool_decide (st = FDB_SECTOR_STORE_UNUSED) || bool_decide (st = status sector)
             then
               sector ← (if traversal
                         then r ← read_sector_info sec_addr sector true; mret (snd r)
                         else mret sector);
               match callback with
               | Some callback => c ← callback sector arg; mret (fst c, sector, snd c)
               | None => mret (false, sector, arg)
               end
             else mret (false, sector, arg));
       let '(stop, sector, arg) := it in
       if (stop : bool) then mret (inr (sector, arg))
       else
         d ← gets id;
         let traversed_len := u32 (traversed_len + ts_sec_size d) in
         let sec_addr := get_next_sector_addr d sector traversed_len in
         if sec_addr =? FAILED_ADDR then mret (inr (sector, arg))
         else mret (inl (sec_addr, traversed_len, sector, arg)))
    (addr sector, 0, sector, arg).

(** ** Appending *)

(** The bytes of a blob's buffer. *)
Definition blob_bytes (blob : fdb_blob) : M (fdb_tsdb W) (list Z) :=
  match buf blob with
  | Some b => if size blob <=? len b then mret (slice b 0 (size blob)) else stuck_at Undefined
  | None => if size blob =? 0 then mret [] else stuck_at Undefined
  end.

Definition write_tsl (blob : fdb_blob) (time : Z) : M (fdb_tsdb W) fdb_err_t :=
  sec ← gets cur_sec;
  let idx_addr := empty_idx sec in
  let log_addr := u32 (empty_data sec - WG_ALIGN (size blob)) in
  let idx := LogIdx 0 time (u32 (size blob)) log_addr in
  write_tsl_status idx_addr FDB_TSL_PRE_WRITE false >>>
  flash_write (u32 (idx_addr + LOG_IDX_TS_OFFSET)) (enc_log_idx idx) false >>>
  (data ← blob_bytes blob; up (_fdb_flash_write_align FDB_WRITE_GRAN log_addr data)) >>>
  write_tsl_status idx_addr FDB_TSL_WRITE true.

(** The end node's index and timestamp saved in the header of a full sector. *)
Definition save_end_info (sector : tsdb_sec_info) (last : Z) : M (fdb_tsdb W) fdb_err_t :=
  let index := le_bytes 4 (u32 (empty_idx sector - LOG_IDX_DATA_SIZE)) in
  let time := time_bytes last in
  let save status_off time_off idx_off :=
    write_tsl_status (u32 (addr sector + status_off)) FDB_TSL_PRE_WRITE false >>>
    flash_write (u32 (addr sector + time_off)) time false >>>
    flash_write (u32 (addr sector + idx_off)) index false >>>
    write_tsl_status (u32 (addr sector + status_off)) FDB_TSL_WRITE true in
  if decide (fst (end_info_stat sector) = FDB_TSL_UNUSED) then
    save SECTOR_END0_STATUS_OFFSET SECTOR_END0_TIME_OFFSET SECTOR_END0_IDX_OFFSET
  else if decide (snd (end_info_stat sector) = FDB_TSL_UNUSED) then
    save SECTOR_END1_STATUS_OFFSET SECTOR_END1_TIME_OFFSET SECTOR_END1_IDX_OFFSET
  else mret FDB_NO_ERR.

(** The current sector is full: the next one becomes the current sector,
    formatted when it holds old data. *)
Definition move_to_next_sector : M (fdb_tsdb W) fdb_err_t :=
  sector ← gets cur_sec;
  sec_size ← gets ts_sec_size;
  max_size ← gets ts_max_size;
  roll ← gets rollover;
  let next := u32 (addr sector + sec_size) in
  if negb (next <? max_size) && negb roll then mret FDB_SAVED_FULL
  else
    let new_sec_addr := if next <? max_size then next else 0 in
    r ← read_sector_info new_sec_addr sector false;
    modify (set_cur_sec (snd r));;
    (if decide (status (snd r) = FDB_SECTOR_STORE_EMPTY) then mret tt
     else
       let next := u32 (new_sec_addr + sec_size) in
       modify (set_oldest (if next <? max_size then next else 0));;
       format_sector new_sec_addr;;
       r ← read_sector_info new_sec_addr (snd r) false;
       modify (set_cur_sec (snd r)));;
    mret FDB_NO_ERR.

(** An empty current sector is taken into use. *)
Definition open_sector (cur_time : Z) : M (fdb_tsdb W) fdb_err_t :=
  sector ← gets cur_sec;
  if decide (status sector = FDB_SECTOR_STORE_EMPTY) then
    modify (set_cur_sec (sec_set_start_time cur_time
                           (sec_set_status FDB_SECTOR_STORE_USING sector)));;
    (write_store_status (addr sector) FDB_SECTOR_STORE_USING >>>
     flash_write (u32 (addr sector + SECTOR_START_TIME_OFFSET)) (time_bytes cur_time) true)
  else mret FDB_NO_ERR.

Definition update_sec_status (blob : fdb_blob) (cur_time : Z) : M (fdb_tsdb W) fdb_err_t :=
  sector ← gets cur_sec;
  last ← gets last_time;
  (if bool_decide (status sector = FDB_SECTOR_STORE_USING)
      && (remain sector <? u64 (LOG_IDX_DATA_SIZE + WG_ALIGN (size blob)))
   then
     save_end_info sector last >>>
     write_store_status (addr sector) FDB_SECTOR_STORE_FULL >>>
     (modify (set_cur_sec (sec_set_status FDB_SECTOR_STORE_FULL sector));;
      move_to_next_sector)
   else if decide (status sector = FDB_SECTOR_STORE_FULL) then mret FDB_SAVED_FULL
   else mret FDB_NO_ERR) >>>
  open_sector cur_time.

(** [timestamp] is [None] for [NULL]. *)
Definition tsl_append (blob : fdb_blob) (timestamp : option Z) : M (fdb_tsdb W) fdb_err_t :=
  cur_time ← (match timestamp with
              | None => up (with_world get_time)
              | Some t => mret t
              end);
  n ← gets max_len;
  last ← gets last_time;
  if n <? size blob then mret FDB_WRITE_ERR
  else if cur_time <=? last then mret FDB_WRITE_ERR
  else
    update_sec_status blob cur_time >>>
    write_tsl blob cur_time >>>
    (modify (fun d =>
       let sec := cur_sec d in
       set_last_time cur_time
         (set_cur_sec
            (sec_set_space (u64 (remain sec - u64 (LOG_IDX_DATA_SIZE + WG_ALIGN (size blob))))
               (u32 (empty_idx sec + LOG_IDX_DATA_SIZE))
               (u32 (empty_data sec - WG_ALIGN (size blob)))
               (sec_set_end cur_time (empty_idx sec) sec)) d));;
     mret FDB_NO_ERR).

(** Between [db_lock] and [db_unlock]. *)
Definition locked {A} (m : M (fdb_tsdb W) A) : M (fdb_tsdb W) A :=
  up db_lock;; r ← m; up db_unlock;; mret r.

Definition fdb_tsl_append (blob : fdb_blob) : M (fdb_tsdb W) fdb_err_t :=
  ok ← gets db_init_ok;
  if negb ok then mret FDB_INIT_FAILED else locked (tsl_append blob None).

Definition fdb_tsl_append_with_ts (blob : fdb_blob) (timestamp : Z) : M (fdb_tsdb W) fdb_err_t :=
  ok ← gets db_init_ok;
  if negb ok then mret FDB_INIT_FAILED else locked (tsl_append blob (Some timestamp)).
End ops.
