(* ===== verification/TsApi.v ===== *)
(** Time-series database: iteration, queries, cleaning, control and
    initialisation.

    Models the rest of [src/fdb_tsdb.c].  A callback receives the node by value
    (the code passes a pointer to a local) and may run any operation of the
    database. *)
From S2P Require Import Prelude FdbDef Status FlashIO TsDef TsOps.

Section api.
Context {W} {ST : Storage W} {IN : Indeterminate} {CL : Clock W}.

Definition fdb_tsl_cb (A : Type) : Type := fdb_tsl -> A -> M (fdb_tsdb W) (bool * A).

(** Nodes from [index] on; [get_tsl_addr] gives the next one.  The boolean
    tells that the callback stopped the iteration. *)
Definition iterate_tsls {A} (fuel : nat) (get_tsl_addr : tsdb_sec_info -> fdb_tsl -> Z)
    (cb : fdb_tsl_cb A) (sector : tsdb_sec_info) (tsl : fdb_tsl) (arg : A)
    : M (fdb_tsdb W) (bool * fdb_tsl * A) :=
  loop fuel
    (fun '(tsl, arg) =>
       tsl ← read_tsl tsl;
       c ← cb tsl arg;
       if (fst c : bool) then mret (inr (true, tsl, snd c))
       else
         let next := get_tsl_addr sector tsl in
         if next =? FAILED_ADDR then mret (inr (false, tsl_set_index next tsl, snd c))
         else mret (inl (tsl_set_index next tsl, snd c)))
    (tsl, arg).

(** Bound on the nodes of a sector from [index], forwards and backwards. *)
Definition forward_fuel (sector : tsdb_sec_info) (index : Z) : nat :=
  Z.to_nat ((end_idx sector - index) / LOG_IDX_DATA_SIZE) + 2.
Definition backward_fuel (sector : tsdb_sec_info) (index : Z) : nat :=
  Z.to_nat ((index - addr sector) / LOG_IDX_DATA_SIZE) + 2.

(** The variables of an iterator's loop over the sectors: the sector's
    address, [traversed_len], [sector], [tsl], and the callback's argument. *)
Definition iter_vars (A : Type) : Type := Z * Z * tsdb_sec_info * fdb_tsl * A.

(** One turn of the loop over the sectors. *)
Definition iter_turn {A} (cb : fdb_tsl_cb A) (v : iter_vars A) : M (fdb_tsdb W) (iter_vars A + A) :=
  let '(sec_addr, traversed_len, sector, tsl, arg) := v in
  sec_size ← gets ts_sec_size;
  let traversed_len := u32 (traversed_len + sec_size) in
  r ← read_sector_info sec_addr sector false;
  let sector := snd r in
  cur ← gets cur_sec;
  let use := bool_decide (status sector = FDB_SECTOR_STORE_USING) in
  let full := bool_decide (status sector = FDB_SECTOR_STORE_FULL) in
  let visit := bool_decide (fst r = FDB_NO_ERR) && (use || full) in
  let sector := if visit && use then cur else sector in
  it ← (if visit then
          let index := u32 (addr sector + SECTOR_HDR_DATA_SIZE) in
          iterate_tsls (forward_fuel sector index) get_next_tsl_addr cb sector
                       (tsl_set_index index tsl) arg
        else mret (false, tsl, arg));
  let '(stop, tsl, arg) := it in
  if (stop : bool) then mret (inr arg)
  else
    d ← gets id;
    let sec_addr := get_next_sector_addr d sector traversed_len in
    if sec_addr =? FAILED_ADDR then mret (inr arg)
    else mret (inl (sec_addr, traversed_len, sector, tsl, arg)).

(** A database that is not initialised is only reported in the log. *)
Definition fdb_tsl_iter {A} (cb : option (fdb_tsl_cb A)) (arg : A) : M (fdb_tsdb W) A :=
  match cb with
  | None => mret arg
  | Some cb =>
      oldest ← gets db_oldest_addr;
      up db_lock;;
      fuel ← gets sector_fuel;
      r ← loop fuel (iter_turn cb) (oldest, 0, indet_sec, indet_tsl, arg);
      up db_unlock;;
      mret r
  end.

Definition iter_reverse_turn {A} (cb : fdb_tsl_cb A) (v : iter_vars A)
    : M (fdb_tsdb W) (iter_vars A + A) :=
  let '(sec_addr, traversed_len, sector, tsl, arg) := v in
  sec_size ← gets ts_sec_size;
  let traversed_len := u32 (traversed_len + sec_size) in
  r ← read_sector_info sec_addr sector false;
  let sector := snd r in
  cur ← gets cur_sec;
  let use := bool_decide (status sector = FDB_SECTOR_STORE_USING) in
  let full := bool_decide (status sector = FDB_SECTOR_STORE_FULL) in
  let visit := bool_decide (fst r = FDB_NO_ERR) && (use || full) in
  let sector := if visit && use then cur else sector in
  it ← (if visit then
          iterate_tsls (backward_fuel sector (end_idx sector)) get_last_tsl_addr cb sector
                       (tsl_set_index (end_idx sector) tsl) arg
        else mret (bool_decide (fst r = FDB_NO_ERR), tsl, arg));
  let '(stop, tsl, arg) := it in
  if (stop : bool) then mret (inr arg)
  else
    d ← gets id;
    let sec_addr := get_last_sector_addr d sector traversed_len in
    if sec_addr =? FAILED_ADDR then mret (inr arg)
    else mret (inl (sec_addr, traversed_len, sector, tsl, arg)).

Definition fdb_tsl_iter_reverse {A} (cb : option (fdb_tsl_cb A)) (arg : A) : M (fdb_tsdb W) A :=
  match cb with
  | None => mret arg
  | Some cb =>
      start ← gets (fun d => addr (cur_sec d));
      up db_lock;;
      fuel ← gets sector_fuel;
      r ← loop fuel (iter_reverse_turn cb) (start, 0, indet_sec, indet_tsl, arg);
      up db_unlock;;
      mret r
  end.

(** Binary search in the index of a sector.  [start] and [end_] are [int]s;
    [LOG_IDX_DATA_SIZE] is a [size_t]. *)
Definition search_start_tsl_addr (start end_ from to : Z) : M (fdb_tsdb W) Z :=
  loop (Z.to_nat ((end_ - start) / LOG_IDX_DATA_SIZE) + 3)
    (fun '(start, end_) =>
       let mid := u32 (start + FDB_ALIGN (u64 (Z.quot (i32 (end_ - start)) 2)) LOG_IDX_DATA_SIZE) in
       tsl ← read_tsl (tsl_set_index mid indet_tsl);
       if tsl_time tsl =? from then mret (inr (i32 mid))
       else
         let start := if tsl_time tsl <? from then i32 (mid + LOG_IDX_DATA_SIZE) else start in
         let end_ := if tsl_time tsl <? from then end_ else i32 (mid - LOG_IDX_DATA_SIZE) in
         if end_ <? start then
           if to <? from then
             tsl ← read_tsl (tsl_set_index (u32 start) tsl);
             mret (inr (if from <? tsl_time tsl then i32 (start - LOG_IDX_DATA_SIZE) else start))
           else mret (inr start)
         else mret (inl (start, end_)))
    (i32 start, i32 end_).

(** The nodes of one sector inside the interval; the boolean tells that the
    iteration ends. *)
Definition iterate_interval {A} (fuel : nat) (get_tsl_addr : tsdb_sec_info -> fdb_tsl -> Z)
    (from to : Z) (cb : fdb_tsl_cb A) (sector : tsdb_sec_info) (tsl : fdb_tsl) (arg : A)
    : M (fdb_tsdb W) (bool * fdb_tsl * A) :=
  loop fuel
    (fun '(tsl, arg) =>
       tsl ← read_tsl tsl;
       it ← (if decide (tsl_status tsl = FDB_TSL_UNUSED) then mret (false, arg)
             else if ((from <=? to) && (from <=? tsl_time tsl) && (tsl_time tsl <=? to))
                     || ((to <? from) && (tsl_time tsl <=? from) && (to <=? tsl_time tsl))
             then cb tsl arg
             else mret (true, arg));
       if (fst it : bool) then mret (inr (true, tsl, snd it))
       else
         let next := get_tsl_addr sector tsl in
         if next =? FAILED_ADDR then mret (inr (false, tsl_set_index next tsl, snd it))
         else mret (inl (tsl_set_index next tsl, snd it)))
    (tsl, arg).

(** [start_addr] is the first sector; the boolean of the loop's variables is
    [found_start_tsl]. *)
Definition by_time_turn {A} (from to start_addr : Z) (cb : fdb_tsl_cb A) (v : iter_vars (bool * A))
    : M (fdb_tsdb W) (iter_vars (bool * A) + A) :=
  let '(sec_addr, traversed_len, sector, tsl, (found, arg)) := v in
  let fwd := from <=? to in
  sec_size ← gets ts_sec_size;
  let traversed_len := u32 (traversed_len + sec_size) in
  r ← read_sector_info sec_addr sector false;
  let sector := snd r in
  cur ← gets cur_sec;
  let use := bool_decide (status sector = FDB_SECTOR_STORE_USING) in
  let full := bool_decide (status sector = FDB_SECTOR_STORE_FULL) in
  let visit := bool_decide (fst r = FDB_NO_ERR) && (use || full) in
  let empty := bool_decide (status sector = FDB_SECTOR_STORE_EMPTY) in
  let sector := if visit && use then cur else sector in
  let in_range :=
    found ||
    (fwd && (((sec_addr =? start_addr) && (from <=? start_time sector))
             || (from <=? end_time sector))) ||
    (negb fwd && (((sec_addr =? start_addr) && (end_time sector <=? from))
                  || (start_time sector <=? from))) in
  it ← (if visit && in_range then
          index ← search_start_tsl_addr (u32 (addr sector + SECTOR_HDR_DATA_SIZE))
                    (end_idx sector) from to;
          let index := u32 index in
          iterate_interval
            (if fwd then forward_fuel sector index else backward_fuel sector index)
            (if fwd then get_next_tsl_addr else get_last_tsl_addr) from to cb sector
            (tsl_set_index index tsl) arg
        else mret (bool_decide (fst r = FDB_NO_ERR) && empty, tsl, arg));
  let found := found || (visit && in_range) in
  let '(stop, tsl, arg) := it in
  if (stop : bool) then mret (inr arg)
  else
    d ← gets id;
    let sec_addr := if fwd then get_next_sector_addr d sector traversed_len
                    else get_last_sector_addr d sector traversed_len in
    if sec_addr =? FAILED_ADDR then mret (inr arg)
    else mret (inl (sec_addr, traversed_len, sector, tsl, (found, arg))).

Definition fdb_tsl_iter_by_time {A} (from to : Z) (cb : option (fdb_tsl_cb A)) (arg : A)
    : M (fdb_tsdb W) A :=
  d ← gets id;
  let start_addr := if from <=? to then db_oldest_addr d else addr (cur_sec d) in
  match cb with
  | None => mret arg
  | Some cb =>
      up db_lock;;
      fuel ← gets sector_fuel;
      r ← loop fuel (by_time_turn from to start_addr cb)
            (start_addr, 0, indet_sec, indet_tsl, (false, arg));
      up db_unlock;;
      mret r
  end.

(** [arg]: [args->count]. *)
Definition query_count_cb (st : fdb_tsl_status) : fdb_tsl_cb Z := fun tsl count =>
  mret (false, if decide (tsl_status tsl = st) then u64 (count + 1) else count).

Definition fdb_tsl_query_count (from to : Z) (st : fdb_tsl_status) : M (fdb_tsdb W) Z :=
  ok ← gets db_init_ok;
  if negb ok then mret 0 else fdb_tsl_iter_by_time from to (Some (query_count_cb st)) 0.

Definition fdb_tsl_set_status (tsl : fdb_tsl) (st : fdb_tsl_status) : M (fdb_tsdb W) fdb_err_t :=
  write_tsl_status (tsl_index tsl) st true.

Definition fdb_tsl_to_blob (tsl : fdb_tsl) (blob : fdb_blob) : fdb_blob :=
  FdbBlob (buf blob) (size blob) (tsl_index tsl) (tsl_log tsl) (tsl_log_len tsl).

(** ** Initialisation *)

Record check_sec_hdr_cb_args := CheckSecArgs {
  check_failed : bool;
  empty_num : Z;
  empty_addr : Z;
}.

Definition check_sec_hdr_cb (sector : tsdb_sec_info) (arg : check_sec_hdr_cb_args)
    : M (fdb_tsdb W) (bool * check_sec_hdr_cb_args) :=
  cur ← gets (fun d => addr (cur_sec d));
  if negb (check_ok sector) then
    mret (true, CheckSecArgs true (empty_num arg) (empty_addr arg))
  else match status sector with
  | FDB_SECTOR_STORE_USING =>
      if cur =? FDB_DATA_UNUSED then modify (set_cur_sec sector);; mret (false, arg)
      else mret (true, CheckSecArgs true (empty_num arg) (empty_addr arg))
  | FDB_SECTOR_STORE_EMPTY =>
      let arg := CheckSecArgs (check_failed arg) (u64 (empty_num arg + 1)) (addr sector) in
      (if (empty_num arg =? 1) && (cur =? FDB_DATA_UNUSED) then modify (set_cur_sec sector)
       else mret tt);;
      mret (false, arg)
  | _ => mret (false, arg)
  end.

Definition format_all_cb (sector : tsdb_sec_info) (arg : unit) : M (fdb_tsdb W) (bool * unit) :=
  format_sector (addr sector);; mret (false, arg).

Definition tsl_format_all : M (fdb_tsdb W) unit :=
  sector_iterator (sec_set_addr 0 indet_sec) FDB_SECTOR_STORE_UNUSED tt (Some format_all_cb) false;;
  modify (fun d => set_last_time 0 (set_cur_sec (sec_set_addr 0 (cur_sec d)) (set_oldest 0 d)));;
  cur ← gets cur_sec;
  r ← read_sector_info (addr cur) cur false;
  modify (set_cur_sec (snd r)).

Definition fdb_tsl_clean : M (fdb_tsdb W) unit := locked tsl_format_all.

(** The commands, with what [arg] points to. *)
Inductive tsdb_ctrl :=
| FDB_TSDB_CTRL_SET_SEC_SIZE (n : Z)
| FDB_TSDB_CTRL_GET_SEC_SIZE
| FDB_TSDB_CTRL_SET_LOCK (set : bool)
| FDB_TSDB_CTRL_SET_UNLOCK (set : bool)
| FDB_TSDB_CTRL_SET_ROLLOVER (b : bool)
| FDB_TSDB_CTRL_GET_ROLLOVER
| FDB_TSDB_CTRL_GET_LAST_TIME
| FDB_TSDB_CTRL_SET_FILE_MODE (b : bool)
| FDB_TSDB_CTRL_SET_MAX_SIZE (n : Z)
| FDB_TSDB_CTRL_SET_NOT_FORMAT (b : bool).

Definition assert_not_init : M (fdb_tsdb W) unit :=
  ok ← gets db_init_ok;
  fdb_assert (negb ok).

(** The value written through [arg], if any. *)
Definition fdb_tsdb_control (cmd : tsdb_ctrl) : M (fdb_tsdb W) (option Z) :=
  match cmd with
  | FDB_TSDB_CTRL_SET_SEC_SIZE n => assert_not_init;; up (modify (set_sec_size n));; mret None
  | FDB_TSDB_CTRL_GET_SEC_SIZE => n ← gets ts_sec_size; mret (Some n)
  | FDB_TSDB_CTRL_SET_LOCK b => up (modify (set_lock b));; mret None
  | FDB_TSDB_CTRL_SET_UNLOCK b => up (modify (set_unlock b));; mret None
  | FDB_TSDB_CTRL_SET_ROLLOVER b =>
      ok ← gets db_init_ok; fdb_assert ok;; modify (set_rollover b);; mret None
  | FDB_TSDB_CTRL_GET_ROLLOVER => b ← gets rollover; mret (Some (if (b : bool) then 1 else 0))
  | FDB_TSDB_CTRL_GET_LAST_TIME => t ← gets last_time; mret (Some t)
  | FDB_TSDB_CTRL_SET_FILE_MODE b =>
      (if FDB_USING_FILE_MODE then assert_not_init;; up (modify (set_file_mode b))
       else mret tt);;
      mret None
  | FDB_TSDB_CTRL_SET_MAX_SIZE n =>
      (if FDB_USING_FILE_MODE then assert_not_init;; up (modify (set_max_size n))
       else mret tt);;
      mret None
  | FDB_TSDB_CTRL_SET_NOT_FORMAT b =>
      assert_not_init;; up (modify (set_not_formatable b));; mret None
  end.

(** The oldest sector, from the sector after the latest one. *)
Definition set_oldest_from (arg : check_sec_hdr_cb_args) : M (fdb_tsdb W) unit :=
  sec_size ← gets ts_sec_size;
  max_size ← gets ts_max_size;
  roll ← gets rollover;
  cur ← gets cur_sec;
  latest_addr ← (if 0 <? empty_num arg then mret (empty_addr arg)
                 else if (roll : bool) then mret (addr cur)
                 else
                   let a := u32 (max_size - sec_size) in
                   modify (set_cur_sec (sec_set_addr a cur));; mret a);
  let next := u32 (latest_addr + sec_size) in
  modify (set_oldest (if max_size <=? next then 0 else next)).

(** The last timestamp, from the current sector or the one before it. *)
Definition load_last_time : M (fdb_tsdb W) unit :=
  cur ← gets cur_sec;
  r ← read_sector_info (addr cur) cur true;
  let cur := snd r in
  modify (set_cur_sec cur);;
  oldest ← gets db_oldest_addr;
  if decide (status cur = FDB_SECTOR_STORE_USING) then modify (set_last_time (end_time cur))
  else if bool_decide (status cur = FDB_SECTOR_STORE_EMPTY) && negb (oldest =? addr cur) then
    sec_size ← gets ts_sec_size;
    max_size ← gets ts_max_size;
    let a := if addr cur =? 0 then u32 (max_size - sec_size) else u32 (addr cur - sec_size) in
    r ← read_sector_info a indet_sec false;
    modify (set_last_time (end_time (snd r)))
  else mret tt.

(** On the branch that may not format, the code leaves without [db_unlock]. *)
Definition fdb_tsdb_init (nm path : string) (get_time_set : bool) (max : Z) (user_data : Z)
    : M (fdb_tsdb W) fdb_err_t :=
  fdb_assert get_time_set;;
  result ← up (_fdb_init_ex nm path FDB_DB_TYPE_TS user_data);
  result ← (if decide (result = FDB_NO_ERR) then
    up db_lock;;
    modify (fun d => set_cur_sec (sec_set_addr FDB_DATA_UNUSED (cur_sec d))
                       (set_oldest FDB_DATA_UNUSED (set_rollover true (set_max_len max d))));;
    sec_size ← gets ts_sec_size;
    fdb_assert (max <? sec_size);;
    r ← sector_iterator (sec_set_addr 0 indet_sec) FDB_SECTOR_STORE_UNUSED
          (CheckSecArgs false 0 0) (Some check_sec_hdr_cb) true;
    let arg := snd r in
    not_fmt ← gets (fun d => not_formatable (parent d));
    if check_failed arg && not_fmt then mret FDB_READ_ERR
    else
      (if check_failed arg then tsl_format_all else set_oldest_from arg);;
      load_last_time;;
      up db_unlock;;
      mret FDB_NO_ERR
  else mret result);
  up (_fdb_init_finish result);;
  mret result.

Definition fdb_tsdb_deinit : M (fdb_tsdb W) fdb_err_t :=
  up _fdb_deinit;; mret FDB_NO_ERR.
End api.
