(* ===== verification/KvRing.v ===== *)
(** The ring of sectors: the address [get_next_sector_addr] gives, and the
    iteration over all sectors. *)
From S2P Require Import Prelude FdbDef Status FlashIO FlashSpec KvDef KvRead KvWrite.

(** ** Arithmetic of the ring *)

Section ring.
Context (g : geom) (Hg : geom_ok g).

Definition sector_count : Z := max_size g / sec_size g.

Lemma max_size_eq : max_size g = sector_count * sec_size g.
Proof.
  destruct Hg as [Hs Hd _ _]. pose proof (Z.div_mod (max_size g) (sec_size g) ltac:(lia)) as Hx.
  unfold sector_count. lia.
Qed.

Lemma sector_count_two : 2 <= sector_count.
Proof. destruct Hg as [Hs Hd H2 _]. pose proof max_size_eq. nia. Qed.

(** The test "traversed all" and the wrap-around of the address. *)
Lemma ring_next k t :
  0 <= k < sector_count -> 0 <= t <= sector_count ->
  (u32 (t * sec_size g + sec_size g) <=? max_size g) = (t <? sector_count) /\
  (u32 (k * sec_size g + sec_size g) <? max_size g) = (k + 1 <? sector_count) /\
  u32 (k * sec_size g + sec_size g) = (k + 1) * sec_size g.
Proof.
  intros Hk Ht. pose proof max_size_eq as Hm. destruct Hg as [Hs _ _ H32].
  assert (k * sec_size g + sec_size g <= max_size g) by nia.
  assert (t * sec_size g <= max_size g) by nia.
  assert (0 <= k * sec_size g) by nia. assert (0 <= t * sec_size g) by nia.
  wrap_small. split_and!; [| |lia].
  - destruct (Z.ltb_spec t sector_count); [apply Z.leb_le|apply Z.leb_gt]; nia.
  - destruct (Z.ltb_spec (k + 1) sector_count); [apply Z.ltb_lt|apply Z.ltb_ge]; nia.
Qed.

Lemma sector_addr_range k : 0 <= k < sector_count ->
  0 <= k * sec_size g /\ k * sec_size g + sec_size g <= max_size g /\
  (k * sec_size g) mod sec_size g = 0.
Proof.
  intros Hk. pose proof max_size_eq. destruct Hg. split_and!; [nia|nia|].
  apply Z.mod_mul. lia.
Qed.
End ring.

(** The index of the sector after [k]. *)
Definition next_index (n k : Z) : Z := if k + 1 <? n then k + 1 else 0.

Section kv_ring.
Context {W} {ST : Storage W} {IN : Indeterminate}.
Implicit Type d : fdb_kvdb W.

Lemma get_next_sector_addr_ring d s k t :
  geom_ok (geo (parent d)) -> combined s = SECTOR_NOT_COMBINED ->
  addr s = k * kv_sec_size d -> 0 <= k < sector_count (geo (parent d)) ->
  0 <= t <= sector_count (geo (parent d)) ->
  get_next_sector_addr d s (t * kv_sec_size d) =
    if t <? sector_count (geo (parent d))
    then next_index (sector_count (geo (parent d))) k * kv_sec_size d else FAILED_ADDR.
Proof.
  intros Hg Hc Ha Hk Ht. unfold get_next_sector_addr, kv_max_size, kv_sec_size in *.
  rewrite Hc, Z.eqb_refl, Ha.
  destruct (ring_next _ Hg k t Hk Ht) as (-> & -> & ->). unfold next_index.
  by repeat case_match.
Qed.

Lemma not_failed d k :
  geom_ok (geo (parent d)) -> 0 <= k < sector_count (geo (parent d)) ->
  (k * kv_sec_size d =? FAILED_ADDR) = false.
Proof.
  intros Hg Hk. pose proof (sector_addr_range _ Hg k Hk) as (H1 & H2 & _).
  destruct Hg. unfold FAILED_ADDR, kv_sec_size in *. apply Z.eqb_neq. lia.
Qed.

Lemma next_index_range n k : 0 <= k < n -> 0 <= next_index n k < n.
Proof. unfold next_index. destruct (Z.ltb_spec (k + 1) n); lia. Qed.
End kv_ring.
