(* ===== verification/KvCacheSpec.v ===== *)
(** The two caches of the key-value database: what a lookup finds after an
    update, and the invariants of the tables. *)
From S2P Require Import Prelude FdbDef Crc32 Status FlashIO KvDef KvRead.

(** ** KV cache *)

(** The first node that a lookup of [crc] may return. *)
Definition live (crc : Z) (n : kv_cache_node) : Prop :=
  kc_addr n <> FDB_DATA_UNUSED /\ kc_name_crc n = crc.

#[export] Instance live_dec crc n : Decision (live crc n).
Proof. unfold live. apply _. Defined.

Definition active_ok (n : kv_cache_node) : Prop := 0 <= kc_active n <= 0xFFFF.

(** Nodes that differ in their activity only. *)
Definition aged (n n' : kv_cache_node) : Prop :=
  kc_name_crc n' = kc_name_crc n /\ kc_addr n' = kc_addr n /\ (active_ok n -> active_ok n').

#[export] Instance aged_refl : Reflexive aged.
Proof. by intros n. Qed.

Definition slot_in (i : nat) (t : list kv_cache_node) (o : option nat) : Prop :=
  exists k, o = Some k /\ (i <= k < i + length t)%nat.

(** The scan of [update_kv_cache] for a new address. *)
Lemma kv_cache_scan_spec crc a t i e mi ma :
  a <> FDB_DATA_UNUSED ->
  match kv_cache_scan crc a t i e mi ma with
  | (t', None) => exists l1 n l2 l1', t = l1 ++ n :: l2 /\
      t' = l1' ++ KvCacheNode crc (kc_active n) a :: l2 /\ Forall2 aged l1 l1' /\
      kc_name_crc n = crc /\ Forall (fun x => kc_name_crc x <> crc) l1
  | (t', Some (e', mi')) => Forall2 aged t t' /\ Forall (fun x => kc_name_crc x <> crc) t /\
      (e' = e \/ slot_in i t e') /\ (mi' = mi \/ slot_in i t mi') /\
      (Forall active_ok t -> ma = 0xFFFF -> t <> [] -> e' <> None \/ mi' <> None) /\
      (e <> None -> e' <> None) /\ (mi <> None -> mi' <> None)
  end.
Proof.
  intros Ha. revert i e mi ma. induction t as [|n t IH]; intros i e mi ma; cbn [kv_cache_scan].
  { split_and!; auto. }
  rewrite (proj2 (Z.eqb_neq a _)) by done. cbn [negb].
  destruct (Z.eqb_spec (kc_name_crc n) crc) as [Hc|Hc].
  { exists [], n, t, []. rewrite Hc. split_and!; auto. }
  assert (forall (o : option nat) n', o = Some i -> slot_in i (n' :: t) o) as Hhere
    by (intros o n' ->; exists i; simpl; split; [done|lia]).
  assert (forall o, slot_in (S i) t o -> slot_in i (n :: t) o) as Hthere
    by (intros o (k & -> & Hk); exists k; simpl; split; [done|lia]).
  assert (forall n' e1 mi1 ma1, aged n n' ->
    (e1 = e \/ e1 = Some i) -> (mi1 = mi \/ mi1 = Some i) ->
    (e <> None -> e1 <> None) -> (mi <> None -> mi1 <> None) ->
    (active_ok n -> ma = 0xFFFF -> e1 <> None \/ mi1 <> None \/ ma1 = 0xFFFF) ->
    (active_ok n -> ma = 0xFFFF -> t = [] -> e1 <> None \/ mi1 <> None) ->
    match (n' :: fst (kv_cache_scan crc a t (S i) e1 mi1 ma1),
           snd (kv_cache_scan crc a t (S i) e1 mi1 ma1)) with
    | (t', None) => exists l1 n0 l2 l1', n :: t = l1 ++ n0 :: l2 /\
        t' = l1' ++ KvCacheNode crc (kc_active n0) a :: l2 /\ Forall2 aged l1 l1' /\
        kc_name_crc n0 = crc /\ Forall (fun x => kc_name_crc x <> crc) l1
    | (t', Some (e', mi')) => Forall2 aged (n :: t) t' /\
        Forall (fun x => kc_name_crc x <> crc) (n :: t) /\
        (e' = e \/ slot_in i (n :: t) e') /\ (mi' = mi \/ slot_in i (n :: t) mi') /\
        (Forall active_ok (n :: t) -> ma = 0xFFFF -> n :: t <> [] -> e' <> None \/ mi' <> None) /\
        (e <> None -> e' <> None) /\ (mi <> None -> mi' <> None)
    end) as Hrec.
  { intros n' e1 mi1 ma1 Hn He Hmi Hen Hmn Hma Hnil. specialize (IH (S i) e1 mi1 ma1).
    destruct (kv_cache_scan crc a t (S i) e1 mi1 ma1) as [t' [[e' mi']|]]; cbn [fst snd].
    - destruct IH as (IH1 & IH2 & IH3 & IH4 & IH5 & IH6 & IH7). split_and!; auto.
      + destruct IH3 as [->|]; [destruct He as [->|]|]; auto.
      + destruct IH4 as [->|]; [destruct Hmi as [->|]|]; auto.
      + intros Hall Hmax _. inversion Hall as [|? ? Ho Hall']; subst.
        destruct (decide (t = [])) as [->|Hne].
        * destruct (Hnil Ho eq_refl eq_refl); auto.
        * destruct (Hma Ho eq_refl) as [|[|]]; auto.
    - destruct IH as (l1 & n0 & l2 & l1' & -> & -> & H1 & H2 & H3).
      exists (n :: l1), n0, l2, (n' :: l1'). split_and!; auto. }
  destruct ((kc_addr n =? FDB_DATA_UNUSED) && (if e is None then true else false)) eqn:Eu.
  - apply andb_prop in Eu as [_ Ee]. destruct e; [done|]. apply Hrec; auto; done.
  - destruct (Z.eqb_spec (kc_addr n) FDB_DATA_UNUSED) as [Ead|Ead]; cbn [negb].
    + assert (e <> None) as Hne by (by destruct e). apply Hrec; auto; done.
    + set (act := if 0 <? kc_active n then kc_active n - 1 else kc_active n).
      assert (active_ok n -> 0 <= act < 0xFFFF) as Hact.
      { unfold active_ok, act. intros. destruct (Z.ltb_spec 0 (kc_active n)); lia. }
      assert (aged n (KvCacheNode (kc_name_crc n) act (kc_addr n))) as Hag.
      { split_and!; [done..|]. intros H. specialize (Hact H). unfold active_ok. simpl. lia. }
      destruct (Z.ltb_spec act ma).
      * apply Hrec; auto; intros; right; (left; done) || done.
      * apply Hrec; auto; intros; specialize (Hact ltac:(done)); lia.
Qed.

Lemma Forall2_aged_active t t' : Forall2 aged t t' -> Forall active_ok t -> Forall active_ok t'.
Proof.
  induction 1 as [|n n' t t' (_ & _ & Hn) Ht IH]; [done|].
  intros Ha. inversion Ha; subst. constructor; auto.
Qed.

Lemma Forall2_aged_crc crc t t' :
  Forall2 aged t t' -> Forall (fun x => kc_name_crc x <> crc) t ->
  Forall (fun x => kc_name_crc x <> crc) t'.
Proof.
  induction 1 as [|n n' t t' (Hn & _ & _) Ht IH]; [done|].
  intros Ha. inversion Ha; subst. constructor; [congruence|auto].
Qed.

(** The first node of [t] with checksum [crc] that is in use is [n], the
    [k]-th. *)
Definition first_live (crc : Z) (t : list kv_cache_node) (k : nat) (n : kv_cache_node) : Prop :=
  t !! k = Some n /\ live crc n /\ forall j n', (j < k)%nat -> t !! j = Some n' -> ~ live crc n'.

Lemma new_node_active crc a : active_ok (KvCacheNode crc FDB_KV_CACHE_TABLE_SIZE a).
Proof. unfold active_ok, FDB_KV_CACHE_TABLE_SIZE. simpl. lia. Qed.

(** After an update with a new address, a lookup of the checksum finds it. *)
Lemma update_kv_table_found crc a t :
  a <> FDB_DATA_UNUSED -> t <> [] -> Forall active_ok t ->
  let t' := update_kv_table crc a t in
  length t' = length t /\ Forall active_ok t' /\
  exists k n, first_live crc t' k n /\ kc_addr n = a.
Proof.
  intros Ha Hne Hok t'. subst t'. unfold update_kv_table.
  pose proof (kv_cache_scan_spec crc a t 0 None None 0xFFFF Ha) as H.
  destruct (kv_cache_scan crc a t 0 None None 0xFFFF) as [t1 [[e mi]|]].
  - destruct H as (Hag & Hcrc & He & Hmi & Hsome & _ & _).
    pose proof (Forall2_length _ _ _ Hag) as Hlen.
    assert (forall i, (i < length t)%nat ->
      let t' := <[i := KvCacheNode crc FDB_KV_CACHE_TABLE_SIZE a]> t1 in
      length t' = length t /\ Forall active_ok t' /\
      exists k n, first_live crc t' k n /\ kc_addr n = a) as Hins.
    { intros i Hi t'. split_and!.
      - unfold t'. by rewrite length_insert.
      - apply Forall_insert; [by eapply Forall2_aged_active|apply new_node_active].
      - exists i, (KvCacheNode crc FDB_KV_CACHE_TABLE_SIZE a). split; [|done]. split_and!.
        + apply list_lookup_insert_eq. lia.
        + done.
        + intros j n' Hj Hn' [_ Hlive]. unfold t' in Hn'. rewrite list_lookup_insert_ne in Hn' by lia.
          apply (Forall2_aged_crc crc _ _ Hag) in Hcrc. rewrite Forall_lookup in Hcrc.
          by apply (Hcrc _ _ Hn'). }
    destruct e as [i|]; [|destruct mi as [i|]].
    + destruct He as [|(k & [= ->] & Hk)]; [done|]. apply Hins. lia.
    + destruct Hmi as [|(k & [= ->] & Hk)]; [done|]. apply Hins. lia.
    + by destruct (Hsome Hok eq_refl Hne).
  - destruct H as (l1 & n & l2 & l1' & -> & -> & Hag & Hc & Hcrc).
    pose proof (Forall2_length _ _ _ Hag) as Hlen.
    rewrite Forall_app, Forall_cons in Hok. destruct Hok as (Hl1 & Hn & Hl2).
    split_and!.
    + rewrite !length_app. simpl. lia.
    + apply Forall_app_2; [by eapply Forall2_aged_active|]. by constructor.
    + exists (length l1'), (KvCacheNode crc (kc_active n) a). split; [|done]. split_and!; [|done|].
      * by rewrite lookup_app_r, Nat.sub_diag by lia.
      * intros j n' Hj Hn' [_ Hlive]. rewrite lookup_app_l in Hn' by lia.
        apply (Forall2_aged_crc crc _ _ Hag) in Hcrc. rewrite Forall_lookup in Hcrc.
        by apply (Hcrc _ _ Hn').
Qed.

(** ** Sector cache *)

Lemma sector_slot_spec t a i e :
  match sector_slot t a i e with
  | inl k => exists j s, k = (i + j)%nat /\ t !! j = Some s /\ addr s = a /\
                         forall j' s', (j' < j)%nat -> t !! j' = Some s' -> addr s' <> a
  | inr e' => Forall (fun s => addr s <> a) t /\
              (e' = e \/ exists j s, e' = Some (i + j)%nat /\ t !! j = Some s /\
                                     addr s = FDB_DATA_UNUSED) /\
              (e' = None -> e = None /\ Forall (fun s => addr s <> FDB_DATA_UNUSED) t)
  end.
Proof.
  revert i e. induction t as [|x t IH]; intros i e; cbn [sector_slot]; [auto|].
  destruct (Z.eqb_spec (addr x) a) as [E|E].
  - exists 0%nat, x. split_and!; [lia|done|done|lia].
  - specialize (IH (S i) (if addr x =? FDB_DATA_UNUSED then Some i else e)).
    destruct (sector_slot t a (S i) _) as [k|e'].
    + destruct IH as (j & s & -> & Hs & Ha & Hj). exists (S j), s. split_and!; [lia|done|done|].
      intros [|j'] s' Hlt Hs'; simpl in Hs'; [congruence|]. apply (Hj j' s'); [lia|done].
    + destruct IH as (Hf & He & Hn). split_and!; [by constructor| |].
      * destruct He as [->|(j & s & -> & Hs & Ha)].
        -- destruct (Z.eqb_spec (addr x) FDB_DATA_UNUSED); [|by left]. right. exists 0%nat, x.
           split_and!; [f_equal; lia|done|done].
        -- right. exists (S j), s. split_and!; [f_equal; lia|done|done].
      * intros ->. destruct Hn as [Hn Hall]; [done|].
        destruct (Z.eqb_spec (addr x) FDB_DATA_UNUSED); [done|]. by split; [|constructor].
Qed.

(** At most one entry per sector. *)
Definition sectors_unique (t : list kvdb_sec_info) : Prop :=
  forall i j s s', t !! i = Some s -> t !! j = Some s' -> addr s = addr s' ->
                   addr s <> FDB_DATA_UNUSED -> i = j.

Definition cache_get (a : Z) (t : list kvdb_sec_info) : option kvdb_sec_info :=
  snd <$> list_find (fun s => addr s = a) t.

Lemma cache_get_Some a t s :
  cache_get a t = Some s <-> exists i, t !! i = Some s /\ addr s = a /\
    forall j s', (j < i)%nat -> t !! j = Some s' -> addr s' <> a.
Proof.
  unfold cache_get. rewrite fmap_Some. split.
  - intros ([i x] & H & ->). apply list_find_Some in H. naive_solver.
  - intros (i & H1 & H2 & H3). exists (i, s). split; [|done]. apply list_find_Some. naive_solver.
Qed.

Lemma cache_get_None a t : cache_get a t = None <-> Forall (fun s => addr s <> a) t.
Proof. unfold cache_get. by rewrite fmap_None, list_find_None. Qed.

Lemma cache_get_unique a t s :
  sectors_unique t -> a <> FDB_DATA_UNUSED ->
  cache_get a t = Some s <-> exists i, t !! i = Some s /\ addr s = a.
Proof.
  intros Hu Ha. rewrite cache_get_Some. split; [naive_solver|].
  intros (i & Hi & <-). exists i. split_and!; [done..|]. intros j s' Hj Hs' E.
  assert (j = i); [|lia]. apply (Hu j i s' s); auto; congruence.
Qed.

(** One entry replaced. *)
Section replaced.
Context (t : list kvdb_sec_info) (k : nat) (x y : kvdb_sec_info).
Context (Hu : sectors_unique t) (Hk : t !! k = Some y).
Context (Hother : addr x <> FDB_DATA_UNUSED ->
                  forall j z, j <> k -> t !! j = Some z -> addr z <> addr x).

Lemma insert_lookup j z :
  <[k := x]> t !! j = Some z -> (j = k /\ z = x) \/ (j <> k /\ t !! j = Some z).
Proof.
  destruct (decide (j = k)) as [->|].
  - rewrite list_lookup_insert_eq by (by eapply lookup_lt_Some). intros [= <-]. by left.
  - rewrite list_lookup_insert_ne by done. by right.
Qed.

Lemma insert_unique : sectors_unique (<[k := x]> t).
Proof.
  intros i j s s' Hi Hj E Hs.
  apply insert_lookup in Hi as [[-> ->]|[Hi1 Hi]]; apply insert_lookup in Hj as [[-> ->]|[Hj1 Hj]];
    [done| | |by eapply Hu].
  - by destruct (Hother Hs j s' Hj1 Hj).
  - rewrite E in Hs. by destruct (Hother Hs i s Hi1 Hi).
Qed.

Lemma insert_get a :
  a <> FDB_DATA_UNUSED ->
  cache_get a (<[k := x]> t) =
    if decide (a = addr x) then Some x
    else if decide (a = addr y) then None else cache_get a t.
Proof.
  intros Ha. pose proof insert_unique as Hu'.
  destruct (decide (a = addr x)) as [->|Hx].
  - apply cache_get_unique; [done..|]. exists k. split; [|done].
    rewrite list_lookup_insert_eq; [done|]. by eapply lookup_lt_Some.
  - assert (forall s, cache_get a (<[k := x]> t) = Some s <->
                      (a <> addr y /\ cache_get a t = Some s)) as H.
    { intros s. rewrite !cache_get_unique by done. split.
      - intros (i & Hi & <-). apply insert_lookup in Hi as [[-> ->]|[Hi1 Hi]]; [done|].
        split; [|eauto]. intros E. by apply Hi1, (Hu i k s y).
      - intros (Hy & i & Hi & <-). exists i. split; [|done].
        rewrite list_lookup_insert_ne; [done|]. intros <-. congruence. }
    destruct (decide (a = addr y)) as [->|Hy].
    + destruct (cache_get _ (<[k := x]> t)) as [z|]; [|done].
      by destruct (proj1 (H z) eq_refl).
    + destruct (cache_get a t) as [z|].
      * by apply H.
      * destruct (cache_get _ (<[k := x]> t)) as [z|]; [|done].
        by destruct (proj1 (H z) eq_refl).
Qed.
End replaced.

Definition has_room (a : Z) (t : list kvdb_sec_info) : Prop :=
  cache_get a t <> None \/ Exists (fun s => addr s = FDB_DATA_UNUSED) t.

(** The effect of [update_sector_cache] on the partial map the table is. *)
Lemma update_sector_table_get t sector :
  sectors_unique t -> addr sector <> FDB_DATA_UNUSED ->
  sectors_unique (update_sector_table sector t) /\
  length (update_sector_table sector t) = length t /\
  (forall a, a <> FDB_DATA_UNUSED -> a <> addr sector ->
     cache_get a (update_sector_table sector t) = cache_get a t) /\
  (check_ok sector = false -> cache_get (addr sector) (update_sector_table sector t) = None) /\
  (check_ok sector = true -> has_room (addr sector) t ->
     cache_get (addr sector) (update_sector_table sector t) = Some sector).
Proof.
  intros Hu Ha. unfold update_sector_table.
  pose proof (sector_slot_spec t (addr sector) 0 None) as Hs.
  destruct (sector_slot t (addr sector) 0 None) as [k|e].
  - destruct Hs as (j & y & -> & Hj & Hy & _). cbn [Nat.add].
    assert (forall i z, i <> j -> t !! i = Some z -> addr z <> addr sector) as Hother.
    { intros i z Hij Hz E. apply Hij, (Hu i j z y); [done|done|congruence|congruence]. }
    destruct (check_ok sector).
    + split_and!.
      * by apply insert_unique with y.
      * apply length_insert.
      * intros a Hau Hne. rewrite (insert_get t j sector y) by done.
        rewrite !decide_False by congruence. done.
      * done.
      * intros _ _. rewrite (insert_get t j sector y) by done. by rewrite decide_True by done.
    + assert (alter (sec_set_addr FDB_DATA_UNUSED) j t = <[j := sec_set_addr FDB_DATA_UNUSED y]> t)
        as ->.
      { apply list_eq. intros i. destruct (decide (i = j)) as [->|].
        - rewrite list_lookup_alter_eq, list_lookup_insert_eq by (by eapply lookup_lt_Some).
          by rewrite Hj.
        - by rewrite list_lookup_alter_ne, list_lookup_insert_ne. }
      split_and!.
      * by apply insert_unique with y.
      * apply length_insert.
      * intros a Hau Hne. rewrite (insert_get t j _ y) by done.
        rewrite !decide_False by (simpl; congruence). done.
      * intros _. rewrite (insert_get t j _ y) by done.
        rewrite decide_False by (simpl; congruence). by rewrite decide_True by done.
      * done.
  - destruct Hs as (Hnone & He & Hfull). destruct e as [k|].
    + destruct He as [|(j & y & [= ->] & Hj & Hy)]; [done|]. cbn [Nat.add].
      rewrite Forall_lookup in Hnone.
      destruct (check_ok sector).
      * split_and!.
        -- apply insert_unique with y; eauto.
        -- apply length_insert.
        -- intros a Hau Hne. rewrite (insert_get t j sector y) by eauto.
           rewrite !decide_False by congruence. done.
        -- done.
        -- intros _ _. rewrite (insert_get t j sector y) by eauto. by rewrite decide_True by done.
      * split_and!; [done..| |done]. intros _. apply cache_get_None. by apply Forall_lookup.
    + split_and!; [done..| |].
      * intros _. by apply cache_get_None.
      * intros _ [Hr|Hr]; [by apply cache_get_None in Hnone|]. destruct (Hfull eq_refl) as [_ Hall].
        apply Exists_exists in Hr as (z & Hz & Ez). rewrite Forall_forall in Hall.
        by destruct (Hall z Hz).
Qed.
