(* ===== verification/KvSpec.v ===== *)
(** Reading and writing records of the key-value database on a working medium.

    [rec_at m a r]: the bytes of [m] at [a] are the record [r], written by
    [create_kv_blob] and complete. *)
From S2P Require Import Prelude FdbDef Crc32 Status FlashIO FlashSpec KvDef KvRead KvWrite.

Lemma WG_ALIGN_id n : 0 <= n < 4294967296 -> WG_ALIGN n = n.
Proof.
  intros Hn. unfold WG_ALIGN, FDB_WG_ALIGN, FDB_ALIGN, FDB_WRITE_GRAN.
  change ((1 + 7) / 8) with 1. rewrite Z.mod_1_r. wrap_small. lia.
Qed.

Section kv_io.
Context {W} {ST : Storage W} {SL : StorageLaws W} {IN : Indeterminate}.

Implicit Type d : fdb_kvdb W.

(** The database after storage operations. *)
Definition kv_io (i : io W) d : fdb_kvdb W := set_parent (set_dbio i (parent d)) d.

Definition kv_holds d (m : list Z) : Prop := db_holds (parent d) m.

Lemma kv_io_io i j d : kv_io i (kv_io j d) = kv_io i d.
Proof. done. Qed.
Lemma kv_io_id d : kv_io (dbio (parent d)) d = d.
Proof. by destruct d as [[]]. Qed.

(** What a computation that only uses the storage does: the medium becomes
    [m'] and nothing else of the database changes. *)
Definition stores {A} (p : M (fdb_kvdb W) A) d (m' : list Z) (R : A -> Prop) : Prop :=
  wp p (fun r d' => exists i, d' = kv_io i d /\ kv_holds d' m' /\ R r) d.

Lemma stores_up {A} (p : M (fdb_db W) A) d m' (R : A -> Prop) :
  wp p (fun r db' => exists i, db' = set_dbio i (parent d) /\
                               holds (geo (parent d)) i m' /\ R r) (parent d) ->
  stores (up p) d m' R.
Proof.
  intros Hp. apply wp_zoom. eapply wp_mono; [exact Hp|].
  intros r db' (i & -> & Hi & HR). by exists i.
Qed.

Lemma stores_bind {A B} (p : M (fdb_kvdb W) A) (k : A -> M (fdb_kvdb W) B) d m1 m2 R1 R2 :
  stores p d m1 R1 ->
  (forall a i, R1 a -> kv_holds (kv_io i d) m1 -> stores (k a) (kv_io i d) m2 R2) ->
  stores (p ≫= k) d m2 R2.
Proof.
  intros Hp Hk. apply wp_bind. eapply wp_mono; [exact Hp|].
  intros a d' (i & -> & Hi & HR). eapply wp_mono; [by apply Hk|].
  intros b d'' (j & -> & Hj & HR'). by exists j.
Qed.

Lemma stores_ret {A} (a : A) d m (R : A -> Prop) :
  kv_holds d m -> R a -> stores (mret a) d m R.
Proof.
  intros Hm HR. apply wp_ret. exists (dbio (parent d)). by rewrite kv_io_id.
Qed.

Lemma stores_mono {A} (p : M (fdb_kvdb W) A) d m (R R' : A -> Prop) :
  stores p d m R -> (forall a, R a -> R' a) -> stores p d m R'.
Proof. intros Hp HR. eapply wp_mono; [exact Hp|]. naive_solver. Qed.

Lemma stores_gets {A B} (f : fdb_kvdb W -> A) (k : A -> M (fdb_kvdb W) B) d m R :
  stores (k (f d)) d m R -> stores (gets f ≫= k) d m R.
Proof. intros Hk. by apply wp_bind, wp_gets. Qed.

Lemma stores_read d m a b :
  kv_holds d m -> in_sector (geo (parent d)) a (len b) ->
  stores (up (_fdb_flash_read a b)) d m
    (fun r => snd r = slice m a (len b) /\ (0 < len b -> fst r = FDB_NO_ERR)).
Proof.
  intros Hm Hin. apply stores_up. eapply wp_mono; [by apply (read_law _ m)|].
  intros r db' (i & -> & Hi & Hr). by exists i.
Qed.

(** The CRC of a range read in pieces. *)
Lemma stores_read_crc d m a n crc :
  kv_holds d m -> in_sector (geo (parent d)) a n ->
  stores (read_crc a n crc) d m (fun r => r = fdb_calc_crc32 crc (slice m a n)).
Proof.
  intros Hm Hin. pose proof (holds_geom _ _ _ Hm) as Hg.
  pose proof (holds_len _ _ _ Hm) as Hlen. pose proof (in_sector_end _ _ _ Hg Hin) as He.
  destruct (Hg) as [Hs Hdv H2 H32]. destruct (Hin) as (Ha & Hn & _ & Hlt).
  unfold read_crc, stores. eapply (wp_loop
    (fun '(k, c, buf) d' => exists i, d' = kv_io i d /\ kv_holds d' m /\ 0 <= k <= n /\
       length buf = 32%nat /\ c = fdb_calc_crc32 crc (slice m a k))
    (fun '(k, c, buf) _ => Z.to_nat ((n - k + 31) / 32))).
  2:{ exists (dbio (parent d)). rewrite kv_io_id. split_and!; try done. by rewrite slice_nil, fdb_calc_crc32_nil. }
  2:{ simpl. pose proof (Z.div_mod n 32). pose proof (Z.mod_pos_bound n 32).
      assert ((n - 0 + 31) / 32 <= n / 32 + 1); [|lia].
      replace (n - 0 + 31) with (n + 31) by lia.
      etrans; [apply (Z.div_le_mono (n + 31) (n + 1 * 32) 32); lia|].
      rewrite Z.div_add by lia. lia. }
  intros [[k c] buf] d' (i & -> & Hi & Hk & Hb & ->).
  destruct (Z.ltb_spec k n).
  - assert ((if k + 32 <? n then 32 else n - k) = Z.min 32 (n - k)) as ->
      by (destruct (Z.ltb_spec (k + 32) n); lia).
    set (sz := Z.min 32 (n - k)). rewrite WG_ALIGN_id by lia. wrap_small.
    assert (len (slice buf 0 sz) = sz) as Hbs by (apply len_slice; unfold len; lia).
    apply wp_bind. eapply wp_mono.
    { apply (stores_read (kv_io i d) m (a + k)); [done|]. rewrite Hbs.
      eapply in_sector_sub; [done|exact Hin|lia..]. }
    intros r d' (j & -> & Hj & Hr & _). rewrite Hbs in Hr. rewrite Hr.
    assert (len (slice m (a + k) sz) = sz) as Hms by (apply len_slice; lia).
    assert (slice (splice buf 0 (slice m (a + k) sz)) 0 sz = slice m (a + k) sz) as ->.
    { rewrite <- Hms at 2. rewrite slice_splice_same; [done|lia|]. unfold len in *. lia. }
    apply wp_ret. split.
    + exists j. rewrite kv_io_io. repeat split; try done; [lia|lia|by rewrite splice_length|].
      rewrite fdb_calc_crc32_app, (slice_split m a (k + sz) k) by lia.
      by replace (k + sz - k) with sz by lia.
    + apply Z2Nat.inj_lt; [apply Z.div_pos; lia..|]. unfold sz.
      destruct (Z.min_spec 32 (n - k)) as [[? ->]|[? ->]].
      * replace (n - k + 31) with (n - (k + 32) + 31 + 1 * 32) by lia.
        rewrite Z.div_add by lia. lia.
      * rewrite (Z.div_small (n - (k + (n - k)) + 31)) by lia.
        apply Z.div_str_pos. lia.
  - apply wp_ret. exists i. repeat split; try done. by replace k with n by lia.
Qed.
End kv_io.

(** ** Records *)

Definition rec_len (key value : list Z) : Z := KV_HDR_DATA_SIZE + len key + len value.

(** The key and value of a record: the key is not empty, has no NUL byte and
    fits the name buffer. *)
Record rec_ok (key value : list Z) : Prop := {
  ro_key : Forall (fun b => 0 < b < 256) key;
  ro_key_len : 0 < len key <= FDB_KV_NAME_MAX;
  ro_value : bytes value;
  ro_len : rec_len key value < 4294967296;
}.

Definition ff3 : list Z := [FDB_BYTE_ERASED; FDB_BYTE_ERASED; FDB_BYTE_ERASED].

(** What the CRC of a record covers. *)
Definition rec_crc_bytes (key value : list Z) : list Z :=
  (len key :: ff3) ++ le_bytes 4 (len value) ++ key ++ value.

Definition rec_hdr (key value : list Z) : kv_hdr_data :=
  KvHdr FDB_BYTE_ERASED ff3 KV_MAGIC_WORD (rec_len key value)
        (fdb_calc_crc32 0 (rec_crc_bytes key value)) (len key) ff3 (len value).

(** A record with status [st] at [a]; the padding after the status byte is
    never written. *)
Definition rec_at (m : list Z) (a : Z) (st : fdb_kv_status) (key value : list Z) : Prop :=
  slice m a 1 = [status_byte (enum_val st)] /\
  slice m (a + KV_MAGIC_OFFSET) 20 = slice (enc_kv_hdr (rec_hdr key value)) KV_MAGIC_OFFSET 20 /\
  slice m (a + KV_HDR_DATA_SIZE) (len key) = key /\
  slice m (a + KV_HDR_DATA_SIZE + len key) (len value) = value.

Lemma rec_key_bytes key : Forall (fun b => 0 < b < 256) key -> bytes key.
Proof. intros Hk. eapply Forall_impl; [exact Hk|]. unfold is_byte. simpl. lia. Qed.

Lemma new_kv_hdr_rec key value :
  rec_ok key value -> new_kv_hdr key value (len value) = rec_hdr key value.
Proof.
  intros [Hk Hkl Hv Hl]. unfold rec_len, KV_HDR_DATA_SIZE, FDB_KV_NAME_MAX in *.
  pose proof (len_nonneg key). pose proof (len_nonneg value).
  assert (u8 (len key) = len key) as E by (apply Z.mod_small; lia).
  unfold new_kv_hdr, rec_hdr, rec_crc_bytes. rewrite E, (u32_small (len value)) by lia.
  rewrite !WG_ALIGN_id, !Z.sub_diag by lia. cbn [Z.to_nat replicate].
  rewrite !fdb_calc_crc32_nil, !slice_all, !fdb_calc_crc32_app. unfold KV_HDR_DATA_SIZE, rec_len.
  rewrite u32_small by (unfold KV_HDR_DATA_SIZE; lia). by rewrite !app_assoc.
Qed.

Lemma rec_crc_word32 key value :
  rec_ok key value -> word32 (fdb_calc_crc32 0 (rec_crc_bytes key value)).
Proof.
  intros [Hk Hkl Hv Hl]. unfold FDB_KV_NAME_MAX in *. pose proof (len_nonneg key).
  apply fdb_calc_crc32_word32; [unfold word32; lia|]. unfold rec_crc_bytes.
  apply bytes_app; [|apply bytes_app; [apply bytes_le_bytes|apply bytes_app; auto using rec_key_bytes]].
  repeat constructor; unfold FDB_BYTE_ERASED; lia.
Qed.

(** The header read back. *)
Lemma rec_at_hdr m a st key value :
  0 <= a -> a + KV_HDR_DATA_SIZE <= len m -> rec_ok key value -> rec_at m a st key value ->
  let h := slice m a KV_HDR_DATA_SIZE in
  kh_status (dec_kv_hdr h) = status_byte (enum_val st) /\
  kh_len (dec_kv_hdr h) = rec_len key value /\
  kh_crc32 (dec_kv_hdr h) = fdb_calc_crc32 0 (rec_crc_bytes key value) /\
  kh_name_len (dec_kv_hdr h) = len key /\
  kh_value_len (dec_kv_hdr h) = len value /\
  slice h 16 4 = len key :: ff3 /\ slice h 20 4 = le_bytes 4 (len value).
Proof.
  intros Ha Hm Hok (Hst & Hh & _ & _) h. pose proof (rec_crc_word32 key value Hok) as Hcrc.
  unfold KV_HDR_DATA_SIZE, KV_MAGIC_OFFSET, word32 in *.
  assert (forall b k, 4 <= b -> 0 <= k -> b + k <= 24 ->
    slice h b k = slice (enc_kv_hdr (rec_hdr key value)) b k) as Hb.
  { intros b k Hb Hk Hbk. unfold h. rewrite slice_slice by lia.
    replace (a + b) with (a + 4 + (b - 4)) by lia. rewrite <- (slice_slice m (a + 4) 20) by lia.
    rewrite Hh, slice_slice by lia. f_equal. lia. }
  pose proof (len_nonneg key). pose proof (len_nonneg value). destruct Hok as [_ Hkl _ Hrl].
  pose proof Hrl as Hrl'. unfold rec_len, FDB_KV_NAME_MAX, KV_HDR_DATA_SIZE in Hrl, Hkl.
  unfold dec_kv_hdr, le32_at. cbn [kh_status kh_len kh_crc32 kh_name_len kh_value_len].
  repeat split.
  - apply (slice_one h 0). unfold h. rewrite slice_slice by lia. by rewrite Z.add_0_r.
  - rewrite Hb by lia. apply (le_value_bytes 4). unfold rec_len, KV_HDR_DATA_SIZE. simpl. lia.
  - rewrite Hb by lia. apply (le_value_bytes 4). simpl. lia.
  - apply (slice_one h 16). by rewrite Hb by lia.
  - rewrite Hb by lia. apply (le_value_bytes 4). simpl. lia.
  - by rewrite Hb by lia.
  - by rewrite Hb by lia.
Qed.

Lemma kv_status_of_byte (st : fdb_kv_status) :
  enum_of (_fdb_get_status FDB_WRITE_GRAN [status_byte (enum_val st)] FDB_KV_STATUS_NUM) = st.
Proof. by destruct st. Qed.

(** The object [read_kv] fills for a complete record. *)
Definition kv_of_rec (kv : fdb_kv) (st : fdb_kv_status) (key value : list Z) : fdb_kv :=
  let nul := if FDB_KV_NAME_MAX <=? len key then FDB_KV_NAME_MAX - 1 else len key in
  FdbKv st true (len key) (kv_magic kv) (rec_len key value) (len value)
        (<[Z.to_nat nul := 0]> (splice (kv_name kv) 0 key)) (kv_start kv)
        (kv_start kv + KV_HDR_DATA_SIZE + len key).

Lemma slice_join m a n k l1 l2 :
  0 <= a -> 0 <= n -> 0 <= k -> slice m a n = l1 -> slice m (a + n) k = l2 ->
  slice m a (n + k) = l1 ++ l2.
Proof.
  intros Ha Hn Hk <- <-. rewrite (slice_split m a (n + k) n) by lia.
  by replace (n + k - n) with k by lia.
Qed.

Section read_rec.
Context {W} {ST : Storage W} {SL : StorageLaws W} {IN : Indeterminate}.
Implicit Type d : fdb_kvdb W.

Lemma stores_read_kv d m kv st key value :
  kv_holds d m -> length (kv_name kv) = 64%nat -> rec_ok key value ->
  in_sector (geo (parent d)) (kv_start kv) (rec_len key value) ->
  rec_at m (kv_start kv) st key value ->
  stores (read_kv kv) d m (fun r => r = (FDB_NO_ERR, kv_of_rec kv st key value)).
Proof.
  intros Hm Hnm Hok Hin Hrec. pose proof (holds_geom _ _ _ Hm) as Hg.
  pose proof (holds_len _ _ _ Hm) as Hlen. pose proof (in_sector_end _ _ _ Hg Hin) as He.
  pose proof (len_nonneg key) as Hk0. pose proof (len_nonneg value) as Hv0.
  pose proof (Hok) as [Hkey Hkl Hval Hrl]. destruct (Hg) as [Hs Hdv H2 H32].
  destruct (Hin) as (Ha & Hn & _ & Hlt). set (a := kv_start kv) in *.
  unfold rec_len, KV_HDR_DATA_SIZE, FDB_KV_NAME_MAX in Hrl, Hkl, He, Hn, Hin.
  pose proof (rec_at_hdr m a st key value Ha ltac:(unfold KV_HDR_DATA_SIZE; lia) Hok Hrec)
    as (Est & El & Ecrc & Enl & Evl & En & Ev).
  unfold read_kv. eapply stores_bind.
  { apply stores_read; [exact Hm|]. rewrite len_indet_buf by (unfold KV_HDR_DATA_SIZE; lia).
    eapply in_sector_here; [done|exact Hin|unfold KV_HDR_DATA_SIZE; lia]. }
  cbn beta. rewrite len_indet_buf by (unfold KV_HDR_DATA_SIZE; lia). fold a.
  intros [e h] i (Hh & _) Hm1. cbn [snd] in *. subst h.
  apply stores_gets. cbn [kv_set_len kv_len kv_status kv_set_status].
  rewrite Est, El, Enl, Evl, En, Ev, Ecrc, kv_status_of_byte.
  assert (kv_max_size (kv_io i d) = max_size (geo (parent d))) as -> by done.
  unfold rec_len at 1 2 3, UINT32_MAX, KV_HDR_DATA_SIZE.
  rewrite (proj2 (Z.eqb_neq _ _)), !(proj2 (Z.ltb_ge _ _)) by lia. cbn [orb].
  cbn [kv_start kv_set_len kv_set_status kv_len]. fold a.
  eapply stores_bind; [apply stores_read_crc; [exact Hm1|]|].
  { eapply in_sector_part; [exact Hg|exact Hin|unfold rec_len, KV_HDR_DATA_SIZE; lia..]. }
  cbn beta. intros c j -> Hm2. rewrite kv_io_io in *.
  destruct Hrec as (_ & _ & Hrk & Hrv). unfold KV_HDR_DATA_SIZE in Hrk, Hrv.
  replace (rec_len key value - 24) with (len key + len value)
    by (unfold rec_len, KV_HDR_DATA_SIZE; lia).
  rewrite (slice_join m (a + 24) (len key) (len value) key value ltac:(lia) Hk0 Hv0 Hrk Hrv), !fdb_calc_crc32_app.
  rewrite <- ?app_assoc. fold (rec_crc_bytes key value). rewrite Z.eqb_refl. cbn [negb].
  rewrite WG_ALIGN_id by lia. unfold FDB_KV_NAME_MAX.
  rewrite (proj2 (Z.ltb_ge 64 (len key))) by lia.
  cbn [kv_name kv_set_len kv_set_status]. wrap_small.
  assert (len (slice (kv_name kv) 0 (len key)) = len key) as Hls
    by (apply len_slice; unfold len in *; lia).
  eapply stores_bind.
  { apply stores_read; [exact Hm2|]. rewrite Hls.
    eapply in_sector_sub; [exact Hg|exact Hin|lia..]. }
  cbn beta. rewrite Hls. intros [e' b] i' (Hb & _) Hm3. cbn [snd] in *. rewrite Hrk in Hb. subst b.
  apply stores_ret; [exact Hm3|]. unfold kv_of_rec. cbn. wrap_small. done.
Qed.
End read_rec.

(** ** Storing *)

Section storing.
Context {W} {ST : Storage W} {SL : StorageLaws W} {IN : Indeterminate}.
Implicit Type d : fdb_kvdb W.

Lemma wp_stores {A} (p : M (fdb_kvdb W) A) d m' (R : A -> Prop) (Q : A -> fdb_kvdb W -> Prop) :
  stores p d m' R ->
  (forall r i, R r -> kv_holds (kv_io i d) m' -> Q r (kv_io i d)) -> wp p Q d.
Proof.
  intros Hp HQ. eapply wp_mono; [exact Hp|]. intros r d' (i & -> & Hi & HR). by apply HQ.
Qed.

Lemma stores_write d m a b sync :
  kv_holds d m -> in_sector (geo (parent d)) a (len b) -> 0 < len b -> bytes b -> clears m a b ->
  stores (up (_fdb_flash_write a b sync)) d (splice m a b) (fun r => r = FDB_NO_ERR).
Proof. intros. apply stores_up. by apply write_law. Qed.

Lemma stores_write_align d m a b :
  kv_holds d m -> (0 < len b -> in_sector (geo (parent d)) a (len b)) ->
  0 <= a <= max_size (geo (parent d)) -> bytes b -> clears m a b ->
  stores (up (_fdb_flash_write_align FDB_WRITE_GRAN a b)) d (splice m a b)
         (fun r => r = FDB_NO_ERR).
Proof. intros. apply stores_up. by apply write_align_spec. Qed.

Lemma stores_write_status d m a num s old sync :
  kv_holds d m -> in_sector (geo (parent d)) a 1 -> 0 < s < num -> num <= 8 ->
  slice m a 1 = [old] -> Z.land old (status_byte s) = status_byte s ->
  stores (up (_fdb_write_status FDB_WRITE_GRAN a num s sync)) d (splice m a [status_byte s])
         (fun r => r = FDB_NO_ERR).
Proof. intros. apply stores_up. by eapply write_status_spec. Qed.

Lemma stores_erase d m a :
  kv_holds d m -> 0 <= a < max_size (geo (parent d)) -> a mod sec_size (geo (parent d)) = 0 ->
  stores (up (_fdb_flash_erase a (sec_size (geo (parent d))))) d
         (splice m a (erased_sector (geo (parent d)))) (fun r => r = FDB_NO_ERR).
Proof. intros. apply stores_up. by apply erase_law. Qed.
End storing.

(** The bytes of a complete record. *)
Definition rec_bytes (key value : list Z) : list Z :=
  [status_byte (enum_val FDB_KV_WRITE)] ++ ff3 ++
  slice (enc_kv_hdr (rec_hdr key value)) KV_MAGIC_OFFSET 20 ++ key ++ value.

Lemma len_rec_hdr_tail key value : len (slice (enc_kv_hdr (rec_hdr key value)) KV_MAGIC_OFFSET 20) = 20.
Proof. reflexivity. Qed.

Lemma len_rec_bytes key value : len (rec_bytes key value) = rec_len key value.
Proof.
  unfold rec_bytes. rewrite !len_app, len_rec_hdr_tail. unfold rec_len, KV_HDR_DATA_SIZE.
  change (len [_]) with 1. change (len ff3) with 3. lia.
Qed.

Lemma bytes_rec_hdr_tail key value :
  rec_ok key value -> bytes (slice (enc_kv_hdr (rec_hdr key value)) KV_MAGIC_OFFSET 20).
Proof.
  intros [Hk Hkl Hv Hl]. unfold FDB_KV_NAME_MAX in *. apply bytes_slice.
  unfold enc_kv_hdr. repeat (apply bytes_app; [|]); auto with fdb;
    repeat constructor; cbn; unfold FDB_BYTE_ERASED; lia.
Qed.

(** The record is where its bytes are stored. *)
Lemma rec_at_stored m a key value :
  0 <= a -> a + rec_len key value <= len m ->
  rec_at (splice m a (rec_bytes key value)) a FDB_KV_WRITE key value.
Proof.
  intros Ha Hm. pose proof (len_nonneg key). pose proof (len_nonneg value).
  assert (forall b k, 0 <= b -> 0 <= k -> b + k <= rec_len key value ->
    slice (splice m a (rec_bytes key value)) (a + b) k = slice (rec_bytes key value) b k) as Hs.
  { intros b k Hb Hk Hbk. rewrite <- (slice_slice _ a (rec_len key value)) by lia.
    rewrite <- (len_rec_bytes key value) at 1.
    rewrite slice_splice_same by (rewrite ?len_rec_bytes; lia). done. }
  unfold rec_at, rec_len, KV_HDR_DATA_SIZE, KV_MAGIC_OFFSET in *. split_and!.
  - rewrite <- (Z.add_0_r a) at 2. by rewrite Hs by lia.
  - rewrite Hs by lia. unfold rec_bytes. rewrite app_assoc.
    apply slice_app_mid; [done|apply len_rec_hdr_tail].
  - rewrite Hs by lia. unfold rec_bytes. rewrite !app_assoc, <- (app_assoc _ key).
    apply slice_app_mid; [|done]. by rewrite !len_app, len_rec_hdr_tail.
  - rewrite <- Z.add_assoc, Hs by lia. unfold rec_bytes. rewrite !app_assoc.
    rewrite <- (app_nil_r (_ ++ value)), <- app_assoc. apply slice_app_mid; [|done].
    rewrite !len_app, len_rec_hdr_tail. change (len [_]) with 1. change (len ff3) with 3. lia.
Qed.

(** The writes of [create_kv_blob] on erased flash, put together. *)
Lemma rec_writes m a key value :
  0 <= a -> a + rec_len key value <= len m -> filled m a (rec_len key value) FDB_BYTE_ERASED ->
  splice (splice (splice (splice (splice m a [status_byte (enum_val FDB_KV_PRE_WRITE)])
    (a + KV_MAGIC_OFFSET) (slice (enc_kv_hdr (rec_hdr key value)) KV_MAGIC_OFFSET 20))
    (a + KV_HDR_DATA_SIZE) key) (a + KV_HDR_DATA_SIZE + len key) value)
    a [status_byte (enum_val FDB_KV_WRITE)]
  = splice m a (rec_bytes key value).
Proof.
  intros Ha Hm Hf. pose proof (len_nonneg key). pose proof (len_nonneg value).
  pose proof (len_rec_hdr_tail key value) as Hh.
  set (hdr := slice (enc_kv_hdr _) _ 20) in *. unfold rec_len, KV_HDR_DATA_SIZE, KV_MAGIC_OFFSET in *.
  set (s1 := [status_byte (enum_val FDB_KV_PRE_WRITE)]).
  set (s2 := [status_byte (enum_val FDB_KV_WRITE)]).
  assert (len s1 = 1) as E1 by done. assert (len s2 = 1) as E2 by done.
  rewrite (splice_splice_comm _ _ value) by (rewrite ?len_splice; lia).
  rewrite (splice_splice_comm _ _ key) by (rewrite ?len_splice; lia).
  rewrite (splice_splice_comm _ _ hdr) by (rewrite ?len_splice; lia).
  rewrite splice_splice_same by (rewrite ?len_splice; lia).
  unfold rec_bytes, KV_MAGIC_OFFSET. fold hdr s2. assert (len ff3 = 3) as E3 by done.
  rewrite <- (splice_app_join m a s2) by (rewrite ?len_app; lia).
  rewrite <- (splice_app_join _ _ ff3) by (rewrite ?len_splice, ?len_app; lia).
  rewrite (splice_id (splice m a s2) (a + len s2) ff3).
  - rewrite <- (splice_app_join _ _ hdr) by (rewrite ?len_splice, ?len_app; lia).
    rewrite <- (splice_app_join _ _ key) by (rewrite ?len_splice; lia).
    rewrite E2, E3, Hh. replace (a + 1 + 3) with (a + 4) by lia.
    by replace (a + 4 + 20) with (a + 24) by lia.
  - lia.
  - rewrite len_splice. lia.
  - rewrite slice_splice_other by lia.
    assert (filled m (a + len s2) (len ff3) FDB_BYTE_ERASED) as ->; [|done].
    eapply filled_sub; [exact Hf|lia..].
Qed.

(** ** The status of a sector *)

(** The entry of a sector in the cache, with its store status changed. *)
Definition cache_set_store (a : Z) (s : fdb_sector_store_status) (t : list kvdb_sec_info)
    : list kvdb_sec_info :=
  match list_find (fun x => addr x = a) t with
  | Some (i, x) => <[i := sec_set_store s x]> t
  | None => t
  end.

Definition cache_set_empty (sec_size a e : Z) (t : list kvdb_sec_info) : list kvdb_sec_info :=
  match list_find (fun x => addr x = a) t with
  | Some (i, x) => <[i := sec_set_space (u32 (sec_size - u32 (e - addr x))) e x]> t
  | None => t
  end.

Lemma store_val_range (s : fdb_sector_store_status) : 0 <= enum_val s < 4.
Proof. destruct s; cbn; lia. Qed.

(** The status a sector gets before a record of [n] bytes is stored in it. *)
Definition store_after (sector : kvdb_sec_info) (n : Z) : fdb_sector_store_status :=
  match store sector with
  | FDB_SECTOR_STORE_EMPTY => FDB_SECTOR_STORE_USING
  | FDB_SECTOR_STORE_USING =>
      if (remain sector <? FDB_SEC_REMAIN_THRESHOLD) || (u64 (remain sector - n) <? FDB_SEC_REMAIN_THRESHOLD)
      then FDB_SECTOR_STORE_FULL else FDB_SECTOR_STORE_USING
  | s => s
  end.

Definition becomes_full (sector : kvdb_sec_info) (n : Z) : bool :=
  bool_decide (store sector = FDB_SECTOR_STORE_USING) &&
  bool_decide (store_after sector n = FDB_SECTOR_STORE_FULL).

(** Changes of the caches and of the GC request, besides the medium. *)
Definition kv_with {W} (i : io W) (kct : list kv_cache_node) (sct : list kvdb_sec_info) (gc : bool)
    (d : fdb_kvdb W) : fdb_kvdb W :=
  set_gc_request gc (set_kv_cache_table kct (set_sector_cache_table sct (kv_io i d))).

Section creating.
Context {W} {ST : Storage W} {SL : StorageLaws W} {IN : Indeterminate}.
Implicit Type d : fdb_kvdb W.

Lemma wp_update_sec_status d m sector n (Q : fdb_err_t * bool -> fdb_kvdb W -> Prop) :
  kv_holds d m -> in_sector (geo (parent d)) (addr sector) 1 ->
  slice m (addr sector) 1 = [status_byte (enum_val (store sector))] ->
  (forall i, let st := store_after sector n in
     let sct := if bool_decide (st = store sector) then sector_cache_table d
                else cache_set_store (addr sector) st (sector_cache_table d) in
     let d' := kv_with i (kv_cache_table d) sct (gc_request d) d in
     kv_holds d' (splice m (addr sector) [status_byte (enum_val st)]) ->
     Q (FDB_NO_ERR, becomes_full sector n) d') ->
  wp (update_sec_status sector n false) Q d.
Proof.
  intros Hm Hin Hst HQ. pose proof (holds_len _ _ _ Hm) as Hlen.
  pose proof (in_sector_end _ _ _ (holds_geom _ _ _ Hm) Hin) as He. destruct Hin as (Ha & Hin').
  assert (in_sector (geo (parent d)) (addr sector) 1) as Hin by done.
  assert (forall st, enum_val (store sector) < enum_val st -> st <> FDB_SECTOR_STORE_UNUSED ->
    store_after sector n = st ->
    forall b, becomes_full sector n = b ->
    wp (result ← write_store_status (addr sector) st;
        update_sector_status_store_cache (addr sector) st;; mret (result, b)) Q d) as Hchange.
  { intros st Hlt Hu Est b Eb. apply wp_bind. eapply wp_stores.
    - pose proof (store_val_range st). pose proof (store_val_range (store sector)).
      eapply stores_write_status; [done|done| |done|exact Hst|].
      + unfold FDB_SECTOR_STORE_STATUS_NUM. lia.
      + apply status_byte_clears; lia.
    - intros r i -> Hi. apply wp_bind. unfold update_sector_status_store_cache, get_sector_from_cache.
      apply wp_bind, wp_gets. cbn [sector_cache_table kv_io set_parent].
      specialize (HQ i). cbv zeta in HQ. rewrite Est, Eb in HQ.
      rewrite bool_decide_eq_false_2 in HQ by (intros ->; lia). unfold cache_set_store in HQ.
      destruct (list_find _ _) as [[k x]|]; [apply wp_modify|apply wp_ret]; apply wp_ret, HQ, Hi. }
  assert (store_after sector n = store sector -> becomes_full sector n = false ->
          wp (mret (FDB_NO_ERR, false)) Q d) as Hsame.
  { intros Est Eb. apply wp_ret. specialize (HQ (dbio (parent d))). cbv zeta in HQ.
    rewrite Est, Eb, bool_decide_eq_true_2 in HQ by done.
    assert (kv_with (dbio (parent d)) (kv_cache_table d) (sector_cache_table d) (gc_request d) d = d)
      as E by (by destruct d as [[]]).
    rewrite E in HQ. apply HQ. rewrite splice_id; [done|done| |done]. change (len [_]) with 1. lia. }
  unfold update_sec_status. destruct (store sector) eqn:Es.
  - apply Hsame; unfold becomes_full, store_after; by rewrite ?Es.
  - apply (Hchange FDB_SECTOR_STORE_USING); unfold becomes_full, store_after; by rewrite ?Es.
  - destruct ((remain sector <? FDB_SEC_REMAIN_THRESHOLD) || _) eqn:Er.
    + apply (Hchange FDB_SECTOR_STORE_FULL); unfold becomes_full, store_after; by rewrite ?Es, ?Er.
    + apply Hsame; unfold becomes_full, store_after; by rewrite ?Es, ?Er.
  - apply Hsame; unfold becomes_full, store_after; by rewrite ?Es.
Qed.

(** The caches and the GC request after a record was created at [a]. *)
Definition created_sct d (sector : kvdb_sec_info) (a n : Z) : list kvdb_sec_info :=
  let st := store_after sector n in
  let sct := if bool_decide (st = store sector) then sector_cache_table d
             else cache_set_store (addr sector) st (sector_cache_table d) in
  if becomes_full sector n then sct
  else cache_set_empty (sec_size (geo (parent d))) (addr sector) (a + n) sct.

Definition created (i : io W) d (sector : kvdb_sec_info) (a : Z) (key value : list Z)
    : fdb_kvdb W :=
  kv_with i (update_kv_table (kv_name_crc key) a (kv_cache_table d))
    (created_sct d sector a (rec_len key value))
    (gc_request d || becomes_full sector (rec_len key value)) d.

Lemma wp_update_empty d a e (Q : unit -> fdb_kvdb W -> Prop) :
  Q tt (set_sector_cache_table
          (cache_set_empty (sec_size (geo (parent d))) a e (sector_cache_table d)) d) ->
  wp (update_sector_empty_addr_cache a e) Q d.
Proof.
  intros HQ. unfold update_sector_empty_addr_cache, get_sector_from_cache.
  apply wp_bind, wp_gets. unfold cache_set_empty in HQ.
  destruct (list_find _ _) as [[k x]|]; [by apply wp_bind, wp_gets, wp_modify|].
  apply wp_ret. by destruct d.
Qed.

Lemma wp_update_kv_cache d name n a (Q : unit -> fdb_kvdb W -> Prop) :
  n <= len name ->
  Q tt (set_kv_cache_table
          (update_kv_table (kv_name_crc (slice name 0 n)) a (kv_cache_table d)) d) ->
  wp (update_kv_cache name n a) Q d.
Proof.
  intros Hn HQ. unfold update_kv_cache, read_bytes. apply wp_bind.
  rewrite (proj2 (Z.leb_le _ _)) by done. by apply wp_ret, wp_modify.
Qed.

(** *** The writes of a new record *)

Section new_record.
Context (G : geom) (m : list Z) (a : Z) (key value : list Z) (HG : geom_ok G) (Hlen : len m = max_size G).
Context (Hok : rec_ok key value) (Hin : in_sector G a (rec_len key value)) (Hf : filled m a (rec_len key value) FDB_BYTE_ERASED).

Definition hdr_tail : list Z := slice (enc_kv_hdr (rec_hdr key value)) KV_MAGIC_OFFSET 20.
Definition with_hdr : list Z := splice (splice m a [status_byte (enum_val FDB_KV_PRE_WRITE)]) (a + 4) hdr_tail.
Definition with_key : list Z := splice with_hdr (a + 24) key.
Definition with_value : list Z := splice with_key (a + (24 + len key)) value.

Lemma new_bounds :
  0 <= a /\ 0 <= len key /\ 0 <= len value /\ rec_len key value = 24 + len key + len value /\
  a + rec_len key value <= len m /\ len m < 4294967296 /\ len hdr_tail = 20.
Proof.
  pose proof (in_sector_end _ _ _ HG Hin). pose proof (len_nonneg key). pose proof (len_nonneg value). destruct Hin, HG.
  split_and!; done || lia.
Qed.

Lemma new_in k l : 0 <= k -> 0 < l -> k + l <= rec_len key value -> in_sector G (a + k) l.
Proof. intros. eapply in_sector_sub; [exact HG|exact Hin|lia..]. Qed.

(** What is still erased. *)
Lemma new_erased k l :
  1 <= k -> 0 <= l -> k + l <= rec_len key value ->
  filled (splice m a [status_byte (enum_val FDB_KV_PRE_WRITE)]) (a + k) l FDB_BYTE_ERASED.
Proof.
  intros. destruct new_bounds as (? & _ & _ & _ & ? & _ & _). apply filled_splice; rewrite ?len_one; try lia.
  eapply filled_sub; [exact Hf|lia..].
Qed.

Lemma stores_new_hdr d :
  geo (parent d) = G -> kv_holds d m ->
  stores (write_kv_hdr a (rec_hdr key value)) d with_hdr (fun r => r = FDB_NO_ERR).
Proof.
  intros Eg Hm. destruct new_bounds as (? & ? & ? & ? & ? & ? & Eh). unfold write_kv_hdr, write_kv_status.
  eapply stores_bind.
  { eapply stores_write_status; [exact Hm| | |done| |].
    - rewrite Eg, <- (Z.add_0_r a). apply new_in; lia.
    - done.
    - assert (filled m a 1 FDB_BYTE_ERASED) as ->; [|done]. eapply filled_sub; [exact Hf|lia..].
    - done. }
  intros r i -> Hm2. rewrite decide_True by done. change (KV_HDR_DATA_SIZE - KV_MAGIC_OFFSET) with 20. fold hdr_tail.
  change KV_MAGIC_OFFSET with 4. wrap_small.
  apply stores_write; [exact Hm2|rewrite Eh; cbn [parent kv_io set_parent geo set_dbio]; rewrite Eg; apply new_in; lia|lia|by apply bytes_rec_hdr_tail|].
  apply clears_erased; [|by apply bytes_rec_hdr_tail]. rewrite Eh. apply new_erased; lia.
Qed.

Lemma stores_new_key d :
  geo (parent d) = G -> kv_holds d with_hdr ->
  stores (up (_fdb_flash_write_align FDB_WRITE_GRAN (u32 (a + KV_HDR_DATA_SIZE)) key)) d with_key (fun r => r = FDB_NO_ERR).
Proof.
  intros Eg Hm. destruct new_bounds as (? & ? & ? & ? & ? & ? & Eh). unfold KV_HDR_DATA_SIZE. wrap_small.
  apply stores_write_align; [exact Hm|intros; rewrite Eg; apply new_in; lia|rewrite Eg; lia|by apply rec_key_bytes, Hok|].
  apply clears_erased; [|by apply rec_key_bytes, Hok].
  apply filled_splice; [apply new_erased; lia|rewrite ?len_splice; lia..].
Qed.

Lemma stores_new_value d :
  geo (parent d) = G -> kv_holds d with_key ->
  stores (up (_fdb_flash_write_align FDB_WRITE_GRAN (u32 (a + (KV_HDR_DATA_SIZE + len key))) value)) d with_value
    (fun r => r = FDB_NO_ERR).
Proof.
  intros Eg Hm. destruct new_bounds as (? & ? & ? & ? & ? & ? & Eh). pose proof Hok as [_ _ Hval _].
  unfold KV_HDR_DATA_SIZE. wrap_small.
  apply stores_write_align; [exact Hm|intros; rewrite Eg; apply new_in; lia|rewrite Eg; lia|done|].
  apply clears_erased; [|done].
  do 2 (apply filled_splice; [|unfold with_hdr; rewrite ?len_splice; lia..]). apply new_erased; lia.
Qed.

Lemma stores_new_status d :
  geo (parent d) = G -> kv_holds d with_value ->
  stores (write_kv_status a FDB_KV_WRITE true) d (splice m a (rec_bytes key value)) (fun r => r = FDB_NO_ERR).
Proof.
  intros Eg Hm. destruct new_bounds as (? & ? & ? & ? & ? & ? & Eh).
  assert (splice with_value a [status_byte (enum_val FDB_KV_WRITE)] = splice m a (rec_bytes key value)) as <-.
  { rewrite <- rec_writes; [|lia|unfold rec_len, KV_HDR_DATA_SIZE in *; lia|exact Hf].
    unfold with_value, with_key, with_hdr, hdr_tail. unfold KV_MAGIC_OFFSET, KV_HDR_DATA_SIZE.
    by replace (a + (24 + len key)) with (a + 24 + len key) by lia. }
  eapply (stores_write_status _ _ _ _ _ (status_byte (enum_val FDB_KV_PRE_WRITE))); [exact Hm| |done|done| |done].
  - rewrite Eg, <- (Z.add_0_r a). apply new_in; lia.
  - unfold with_value, with_key, with_hdr. rewrite !slice_splice_other by (rewrite ?len_splice, ?len_one; lia).
    apply (slice_splice_same m a [_]); rewrite ?len_one; lia.
Qed.
End new_record.

(** The caches between the writes of the name and of the value. *)
Lemma wp_cache_new {A} (full : bool) d sa key e a (k : M (fdb_kvdb W) A) Q :
  wp k Q (set_kv_cache_table (update_kv_table (kv_name_crc key) a (kv_cache_table d))
           (set_sector_cache_table
             (if full then sector_cache_table d
              else cache_set_empty (sec_size (geo (parent d))) sa e (sector_cache_table d)) d)) ->
  wp ((if full then mret tt else update_sector_empty_addr_cache sa e);; update_kv_cache key (len key) a;; k) Q d.
Proof.
  intros HQ. apply wp_bind. destruct full.
  - apply wp_ret, wp_bind, wp_update_kv_cache; [lia|]. rewrite slice_all. by destruct d.
  - apply wp_update_empty, wp_bind, wp_update_kv_cache; [lia|]. by rewrite slice_all.
Qed.

Lemma wp_create_kv_blob d m sector key value :
  let a := empty_kv sector in
  let n := rec_len key value in
  kv_holds d m -> rec_ok key value -> n <= sec_size (geo (parent d)) - SECTOR_HDR_DATA_SIZE ->
  in_sector (geo (parent d)) (addr sector) 1 ->
  slice m (addr sector) 1 = [status_byte (enum_val (store sector))] ->
  addr sector < a -> in_sector (geo (parent d)) a n -> filled m a n FDB_BYTE_ERASED ->
  wp (create_kv_blob sector key value (len value)) (fun r d' => exists i,
    d' = created i d sector a key value /\
    kv_holds d' (splice (splice m (addr sector) [status_byte (enum_val (store_after sector n))])
                        a (rec_bytes key value)) /\
    r = (FDB_NO_ERR, sector)) d.
Proof.
  intros a n Hm Hok Hn Hs1 Hst Has Hin Hf. pose proof (holds_geom _ _ _ Hm) as Hg.
  pose proof (holds_len _ _ _ Hm) as Hlen. pose proof (in_sector_end _ _ _ Hg Hin) as He.
  pose proof (len_nonneg key) as Hk0. pose proof (len_nonneg value) as Hv0.
  pose proof (Hok) as [Hkey Hkl Hval Hrl]. destruct (Hg) as [Hs Hdv H2 H32].
  destruct (Hs1) as (Ha1 & _ & _ & Hlt1). destruct (Hin) as (Ha & Hn0 & _ & Hlt).
  pose proof (in_sector_end _ _ _ Hg Hs1) as He1.
  unfold create_kv_blob. apply wp_bind, wp_gets. rewrite new_kv_hdr_rec by done.
  unfold FDB_KV_NAME_MAX, SECTOR_HDR_DATA_SIZE in *. unfold kv_sec_size. cbn [kh_len rec_hdr]. fold n. rewrite (proj2 (Z.ltb_ge 64 _)) by lia.
  rewrite u64_small by lia. rewrite (proj2 (Z.ltb_ge _ n)) by lia. fold a.
  unfold FAILED_ADDR. rewrite (proj2 (Z.eqb_neq a _)) by lia. cbn [negb].
  apply wp_bind, wp_ret. rewrite (proj2 (Z.eqb_neq a _)) by lia.
  apply wp_bind. eapply wp_update_sec_status; [exact Hm|done|done|].
  intros i st sct d1 Hm1. set (b := [status_byte _]) in Hm1. set (m1 := splice m _ b) in *.
  assert (len m1 = max_size (geo (parent d))) as Hlen1 by (unfold m1; by rewrite len_splice).
  assert (filled m1 a n FDB_BYTE_ERASED) as Hf1 by (apply filled_splice; try done; change (len b) with 1; lia).
  cbn [kh_value_len kh_name_len rec_hdr]. rewrite decide_True by done. rewrite Z.ltb_irrefl, !slice_all. rewrite !WG_ALIGN_id by lia.
  apply wp_bind. eapply wp_stores; [by apply (stores_new_hdr (geo (parent d)) m1)|]. intros r i2 -> Hm2. rewrite decide_True by done.
  do 2 apply wp_bind. eapply wp_stores; [by apply (stores_new_key (geo (parent d)) m1 a key value)|]. intros r i3 -> Hm3.
  apply wp_cache_new, wp_ret. rewrite decide_True by done. apply wp_bind.
  eapply wp_stores; [by apply (stores_new_value (geo (parent d)) m1)|]. intros r i4 -> Hm4. rewrite decide_True by done.
  apply wp_bind. eapply wp_stores; [by apply (stores_new_status (geo (parent d)) m1)|]. intros r i5 -> Hm5.
  rewrite bool_decide_eq_true_2 by done. cbn [andb]. apply wp_bind.
  assert (forall d', d' = created i5 d sector a key value ->
    wp (mret (FDB_NO_ERR, sector)) (fun (r : fdb_err_t * kvdb_sec_info) d' => exists i0 : io W,
      d' = created i0 d sector a key value /\
      kv_holds d' (splice m1 a (rec_bytes key value)) /\ r = (FDB_NO_ERR, sector)) d') as Hend.
  { intros d' ->. apply wp_ret. exists i5. split; [done|]. split; [|done]. exact Hm5. }
  assert (u32 (a + (KV_HDR_DATA_SIZE + len key) + WG_ALIGN (len value)) = a + n) as ->.
  { unfold n, rec_len, KV_HDR_DATA_SIZE in *. rewrite WG_ALIGN_id by lia. wrap_small. lia. }
  destruct (becomes_full sector n) eqn:Efull; [apply wp_modify, Hend|apply wp_ret, Hend];
    unfold created, created_sct; fold n; by rewrite Efull, ?orb_true_r, ?orb_false_r.
Qed.
End creating.
