(* ===== verification/KvGetSpec.v ===== *)
(** Finding a record through the cache, and reading its value. *)
From S2P Require Import Prelude FdbDef Crc32 Status FlashIO FlashSpec KvDef KvRead KvWrite KvCacheSpec KvSpec.

Lemma strncmp_prefix key x y :
  Forall (fun b => 0 < b < 256) key -> strncmp_eq (length key) (key ++ x) (key ++ y) = Some true.
Proof.
  induction 1 as [|b key Hb Hk IH]; simpl; [done|].
  rewrite Z.eqb_refl, (proj2 (Z.eqb_neq b 0)) by lia. done.
Qed.

Lemma length_kv_name_of_rec kv st key value :
  length (kv_name kv) = 64%nat -> length (kv_name (kv_of_rec kv st key value)) = 64%nat.
Proof. intros. simpl. by rewrite length_insert, splice_length. Qed.

Lemma slice_name_prefix m a key rest :
  0 <= a -> slice m a (len (key ++ rest)) = key ++ rest -> slice m a (len key) = key.
Proof.
  intros Ha H. pose proof (len_nonneg key). pose proof (len_nonneg rest).
  rewrite <- (Z.add_0_r a), <- (slice_slice m a (len (key ++ rest)) 0), H by (rewrite ?len_app; lia).
  by rewrite slice_app_l, slice_all by lia.
Qed.

(** Closes the bounds of parts of a record. *)
Ltac rec_bounds :=
  unfold rec_len, KV_HDR_DATA_SIZE, FDB_SEC_REMAIN_THRESHOLD, KV_HDR_DATA_SIZE, FDB_KV_NAME_MAX;
  rewrite ?len_app; lia.

Section get_spec.
Context {W} {ST : Storage W} {SL : StorageLaws W} {IN : Indeterminate}.
Implicit Type d : fdb_kvdb W.

(** The nodes before the first live one are skipped. *)
Lemma wp_kv_cache_search d m key crc k n num i Q :
  kv_holds d m -> first_live crc (kv_cache_table d) k n -> (i <= k < i + num)%nat ->
  in_sector (geo (parent d)) (kc_addr n + KV_HDR_DATA_SIZE) 64 ->
  slice m (kc_addr n + KV_HDR_DATA_SIZE) (len key) = key ->
  Forall (fun b => 0 < b < 256) key -> len key <= 64 ->
  (forall j t, kv_holds (kv_io j d) m ->
     Q (Some (kc_addr n)) (set_kv_cache_table t (kv_io j d))) ->
  wp (kv_cache_search key crc num i) Q d.
Proof.
  intros Hm (Hk & [Hlive Hcrc] & Hfirst) Hi Hin Hname Hkey Hlen HQ.
  revert i Hi. induction num as [|num IH]; intros i Hi; [lia|].
  cbn [kv_cache_search]. apply wp_bind, wp_gets.
  destruct (decide (i = k)) as [->|Hne].
  - rewrite Hk, Hcrc, Z.eqb_refl, (proj2 (Z.eqb_neq _ _)) by done. cbn [negb andb].
    pose proof (holds_geom _ _ _ Hm) as Hg. pose proof (holds_len _ _ _ Hm) as Hl.
    pose proof (in_sector_end _ _ _ Hg Hin) as He. destruct Hg.
    destruct (Hin) as (Ha & _). wrap_small.
    apply wp_bind. eapply wp_stores.
    { apply stores_read; [done|]. exact Hin. }
    intros [e b] j [Hb _] Hj. cbn [snd] in *. subst b. change (len (replicate _ _)) with 64.
    rewrite (slice_split m _ 64 (len key)) by (pose proof (len_nonneg key); lia).
    rewrite Hname, strncmp_prefix by done.
    apply wp_bind, wp_modify, wp_ret. by apply HQ.
  - destruct (lookup_lt_is_Some_2 (kv_cache_table d) i) as [x Hx].
    { apply lookup_lt_Some in Hk. lia. }
    rewrite Hx. assert (~ live crc x) as Hnl by (apply (Hfirst i); [lia|done]).
    destruct (negb (kc_addr x =? FDB_DATA_UNUSED) && (kc_name_crc x =? crc)) eqn:E.
    + apply andb_prop in E as [E1 E2]. apply negb_true_iff, Z.eqb_neq in E1. apply Z.eqb_eq in E2.
      by destruct Hnl.
    + apply IH. lia.
Qed.

(** The cache leads from [key] to the record at [a], whose name is [key]
    followed by [rest]. *)
Record cached_rec d (m : list Z) (a : Z) (key rest value : list Z) : Prop := {
  cr_holds : kv_holds d m;
  cr_table : length (kv_cache_table d) = 64%nat;
  cr_live : exists k n, first_live (kv_name_crc key) (kv_cache_table d) k n /\ kc_addr n = a;
  cr_key : Forall (fun b => 0 < b < 256) key;
  cr_ok : rec_ok (key ++ rest) value;
  cr_rec : rec_at m a FDB_KV_WRITE (key ++ rest) value;
  cr_in : in_sector (geo (parent d)) a (rec_len (key ++ rest) value + FDB_SEC_REMAIN_THRESHOLD);
}.

Lemma rec_in_sector d m a key rest value k n :
  cached_rec d m a key rest value -> 0 <= k -> 0 <= n ->
  k + n <= rec_len (key ++ rest) value + FDB_SEC_REMAIN_THRESHOLD ->
  k < rec_len (key ++ rest) value + FDB_SEC_REMAIN_THRESHOLD -> in_sector (geo (parent d)) (a + k) n.
Proof.
  intros H Hk Hn Hkn Hlt. pose proof (holds_geom _ _ _ (cr_holds _ _ _ _ _ _ H)).
  eapply in_sector_part; [done|apply (cr_in _ _ _ _ _ _ H)|lia..].
Qed.

Lemma wp_find_kv_cached d m a key rest value kv Q :
  cached_rec d m a key rest value -> length (kv_name kv) = 64%nat ->
  (forall i t, kv_holds (kv_io i d) m ->
     Q (true, kv_of_rec (kv_set_start a kv) FDB_KV_WRITE (key ++ rest) value)
       (set_kv_cache_table t (kv_io i d))) ->
  wp (find_kv key kv) Q d.
Proof.
  intros Hc Hkv HQ. destruct (cr_live _ _ _ _ _ _ Hc) as (k & n & Hfirst & Ha).
  destruct (cr_rec _ _ _ _ _ _ Hc) as (_ & _ & Hname & _).
  destruct (cr_ok _ _ _ _ _ _ Hc) as [Hkey Hkl Hval Hrl]. unfold FDB_KV_NAME_MAX in Hkl.
  pose proof (len_nonneg value) as Hv0. pose proof (len_nonneg rest).
  pose proof (len_nonneg key). rewrite len_app in Hkl.
  unfold find_kv. apply wp_bind. unfold get_kv_from_cache.
  change (Z.to_nat FDB_KV_CACHE_TABLE_SIZE) with 64%nat.
  eapply (wp_kv_cache_search d m key _ k n);
    [by destruct Hc|done| | | |by destruct Hc|lia|].
  - destruct Hfirst as (Hk & _). apply lookup_lt_Some in Hk. rewrite (cr_table _ _ _ _ _ _ Hc) in Hk. lia.
  - rewrite Ha. eapply rec_in_sector; [exact Hc|..];
      rec_bounds.
  - rewrite Ha. apply slice_name_prefix with rest; [|exact Hname].
    pose proof (cr_in _ _ _ _ _ _ Hc) as [Ha0 _]. unfold KV_HDR_DATA_SIZE. lia.
  - intros j t Hj. rewrite Ha. apply wp_bind.
    eapply wp_stores.
    + apply (stores_read_kv (set_kv_cache_table t (kv_io j d)) m (kv_set_start a kv) FDB_KV_WRITE (key ++ rest) value);
        [exact Hj|done|by destruct Hc| |by destruct Hc].
      change (in_sector (geo (parent d)) a (rec_len (key ++ rest) value)).
      rewrite <- (Z.add_0_r a). eapply rec_in_sector; [exact Hc|..];
        rec_bounds.
    + intros r i -> Hi. apply wp_ret. cbn [snd]. by apply (HQ i t).
Qed.

(** What [get_kv] returns for a value and a buffer. *)
Definition got (value b : list Z) : Z * option (list Z) * Z :=
  let n := Z.min (len value) (len b) in (n, Some (splice b 0 (slice value 0 n)), len value).

Lemma wp_get_kv_cached d m a key rest value b Q :
  cached_rec d m a key rest value ->
  (forall i t, kv_holds (kv_io i d) m -> Q (got value b) (set_kv_cache_table t (kv_io i d))) ->
  wp (get_kv key (Some b) (len b)) Q d.
Proof.
  intros Hc HQ. unfold get_kv. apply wp_bind.
  eapply (wp_find_kv_cached d m a key rest value); [exact Hc|apply length_indet_buf|].
  intros i t Hi. cbn [fst snd kv_value_len kv_of_rec kv_value kv_start kv_set_start].
  destruct (cr_ok _ _ _ _ _ _ Hc) as [Hkey Hkl Hval Hrl]. unfold FDB_KV_NAME_MAX in Hkl.
  pose proof (len_nonneg key). pose proof (len_nonneg rest).
  destruct (cr_rec _ _ _ _ _ _ Hc) as (_ & _ & _ & Hvalue).
  pose proof (len_nonneg value) as Hv0. pose proof (len_nonneg b) as Hb0.
  assert ((if len value <? len b then len value else len b) = Z.min (len value) (len b)) as ->
    by (destruct (Z.ltb_spec (len value) (len b)); lia).
  set (n := Z.min (len value) (len b)).
  assert (len (slice b 0 n) = n) as Hbn by (apply len_slice; lia).
  apply wp_bind. eapply wp_stores.
  { apply stores_read; [exact Hi|]. rewrite Hbn.
    replace (a + KV_HDR_DATA_SIZE + len (key ++ rest)) with (a + (KV_HDR_DATA_SIZE + len (key ++ rest))) by lia.
    change (in_sector (geo (parent d)) (a + (KV_HDR_DATA_SIZE + len (key ++ rest))) n).
    eapply rec_in_sector; [exact Hc|..];
      rec_bounds. }
  intros [e b'] j [Hb' _] Hj. cbn [snd] in Hb'. subst b'. rewrite Hbn. apply wp_ret.
  cbn [snd].
  pose proof (in_sector_end _ _ _ (holds_geom _ _ _ Hi) (cr_in _ _ _ _ _ _ Hc)) as He.
  destruct (cr_in _ _ _ _ _ _ Hc) as (Ha & _).
  replace (slice m (a + KV_HDR_DATA_SIZE + len (key ++ rest)) n) with (slice value 0 n).
  { apply (HQ j t). exact Hj. }
  rewrite <- Hvalue, slice_slice by (unfold KV_HDR_DATA_SIZE; lia). f_equal. lia.
Qed.
End get_spec.
