(* ===== verification/KvThm.v ===== *)
(** Key-value database: a concrete database. *)
From S2P Require Import Prelude FdbDef Crc32 Status FlashIO FlashSpec FileIO FileSpec Disk.
From S2P Require Import KvDef KvRead KvWrite KvCacheSpec KvSpec KvGetSpec.

(** Two sectors of 256 bytes, the first in use and the second empty, both
    without records. *)

#[local] Instance zeros : Indeterminate := fun _ => 0.

Definition kgeom : geom := Geom "env" (storage_dir "/d") 256 512 true.
Definition kmedium : list Z :=
  let hdr st := [st; 127; 255; 255] ++ le_bytes 4 SECTOR_MAGIC_WORD ++ replicate 8 255 in
  hdr 63 ++ replicate 240 255 ++ hdr 127 ++ replicate 240 255.
Definition no_kv : fdb_kv := FdbKv FDB_KV_UNUSED false 0 0 0 0 (replicate 64 0) 0 0.
Definition ksector : kvdb_sec_info :=
  KvSec true FDB_SECTOR_STORE_USING FDB_SECTOR_DIRTY_FALSE 0 SECTOR_MAGIC_WORD
        SECTOR_NOT_COMBINED 240 16.
Definition free_entry : kvdb_sec_info :=
  KvSec false FDB_SECTOR_STORE_UNUSED FDB_SECTOR_DIRTY_UNUSED FDB_DATA_UNUSED 0 0 0 FAILED_ADDR.
Definition kdb_on (m : list Z) : fdb_kvdb libc :=
  FdbKvdb (FdbDb kgeom (disk_io kgeom "/d" m) FDB_DB_TYPE_KV 0 true false true true [] 0)
    [] false false no_kv free_entry false
    (replicate 64 (KvCacheNode 0 0 FDB_DATA_UNUSED)) (replicate 8 free_entry) 0.
Definition kdb : fdb_kvdb libc := kdb_on kmedium.

Lemma kgeom_file : geom_file kgeom "/d".
Proof. split; [split; simpl; (lia || done)|done|done|done|simpl; unfold DB_PATH_MAX; lia]. Qed.

Lemma kdb_on_holds m : len m = 512 -> bytes m -> kv_holds (kdb_on m) m.
Proof. intros. apply (disk_holds kgeom "/d" m); [apply kgeom_file|done|done]. Qed.

Lemma key_check key : forallb (fun b => (0 <? b) && (b <? 256)) key = true ->
  Forall (fun b => 0 < b < 256) key.
Proof.
  intros H. apply Forall_forall. intros b Hb.
  rewrite forallb_forall in H. specialize (H b ltac:(by apply list_elem_of_In)).
  apply andb_prop in H as [? ?]. lia.
Qed.

(** With a record of "ab" at 16. *)
Definition kmedium2 : list Z := splice kmedium 16 (rec_bytes [97; 98] [1; 2; 3]).

Lemma krec_ok : rec_ok [97; 98] [1; 2; 3].
Proof. split; [by apply key_check|done|by apply bytes_check|done]. Qed.

Lemma kdb_holds2 : kv_holds (kdb_on kmedium2) kmedium2.
Proof. apply kdb_on_holds; [vm_compute; reflexivity|apply bytes_check; vm_compute; reflexivity]. Qed.
