(* ===== verification/KvFrame.v ===== *)
(** What the operations of the key-value database leave alone: besides the
    medium, the caches, the oldest address and the flags of the key-value
    database, the fields of the common part are changed only by the
    initialisation, the control function and the locking. *)
From S2P Require Import Prelude FdbDef Crc32 Status FlashIO KvDef KvRead KvWrite KvApi.

Section frame.
Context {W} {ST : Storage W} {IN : Indeterminate} {KB : KvBuild}.

(** The part of the common structure that stays the same. *)
Definition db_fixed (db : fdb_db W) :=
  (geo db, db_type db, init_ok db, not_formatable db, (lock db, unlock db, lock_trace db),
   db_user_data db).

Definition dkeeps {A} (p : M (fdb_db W) A) : Prop :=
  forall db r db', p db = Done (r, db') -> db_fixed db' = db_fixed db.
Definition keeps {A} (p : M (fdb_kvdb W) A) : Prop :=
  forall d r d', p d = Done (r, d') -> db_fixed (parent d') = db_fixed (parent d).

Lemma dkeeps_ret {A} (a : A) : dkeeps (mret a).
Proof. by intros db r db' [= <- <-]. Qed.
Lemma dkeeps_bind {A B} (p : M (fdb_db W) A) (k : A -> M (fdb_db W) B) :
  dkeeps p -> (forall a, dkeeps (k a)) -> dkeeps (p ≫= k).
Proof.
  intros Hp Hk db r db'. unfold mbind, M_bind. destruct (p db) as [[a db1]|] eqn:E; [|done].
  intros H. apply Hk in H. apply Hp in E. congruence.
Qed.
Lemma dkeeps_gets {A} (f : fdb_db W -> A) : dkeeps (gets f).
Proof. by intros db r db' [= <- <-]. Qed.
Lemma dkeeps_stuck {A} w : dkeeps (@stuck_at (fdb_db W) A w).
Proof. by intros db r db'. Qed.
Lemma dkeeps_assert b : dkeeps (@fdb_assert (fdb_db W) b).
Proof. destruct b; [apply dkeeps_ret|apply dkeeps_stuck]. Qed.
Lemma dkeeps_with_io {A} (p : M (io W) A) : dkeeps (with_io p).
Proof.
  intros db r db'. unfold with_io, zoom. destruct (p (dbio db)) as [[a i]|]; [|done].
  by intros [= <- <-].
Qed.
Lemma dkeeps_loop {X R} fuel (body : X -> M (fdb_db W) (X + R)) x :
  (forall x, dkeeps (body x)) -> dkeeps (loop fuel body x).
Proof.
  intros Hb. revert x. induction fuel as [|fuel IH]; intros x; [apply dkeeps_stuck|].
  simpl. apply dkeeps_bind; [apply Hb|]. intros [y|r]; [apply IH|apply dkeeps_ret].
Qed.

Lemma keeps_ret {A} (a : A) : keeps (mret a).
Proof. by intros d r d' [= <- <-]. Qed.
Lemma keeps_bind {A B} (p : M (fdb_kvdb W) A) (k : A -> M (fdb_kvdb W) B) :
  keeps p -> (forall a, keeps (k a)) -> keeps (p ≫= k).
Proof.
  intros Hp Hk d r d'. unfold mbind, M_bind. destruct (p d) as [[a d1]|] eqn:E; [|done].
  intros H. apply Hk in H. apply Hp in E. congruence.
Qed.
Lemma keeps_gets {A} (f : fdb_kvdb W -> A) : keeps (gets f).
Proof. by intros d r d' [= <- <-]. Qed.
Lemma keeps_modify f :
  (forall d, db_fixed (parent (f d)) = db_fixed (parent d)) -> keeps (modify f).
Proof. intros Hf d r d' [= <- <-]. apply Hf. Qed.
Lemma keeps_stuck {A} w : keeps (@stuck_at (fdb_kvdb W) A w).
Proof. by intros d r d'. Qed.
Lemma keeps_assert b : keeps (@fdb_assert (fdb_kvdb W) b).
Proof. destruct b; [apply keeps_ret|apply keeps_stuck]. Qed.
Lemma keeps_up {A} (p : M (fdb_db W) A) : dkeeps p -> keeps (up p).
Proof.
  intros Hp d r d'. unfold up, zoom. destruct (p (parent d)) as [[a db]|] eqn:E; [|done].
  intros [= <- <-]. by eapply Hp.
Qed.
Lemma keeps_loop {X R} fuel (body : X -> M (fdb_kvdb W) (X + R)) x :
  (forall x, keeps (body x)) -> keeps (loop fuel body x).
Proof.
  intros Hb. revert x. induction fuel as [|fuel IH]; intros x; [apply keeps_stuck|].
  simpl. apply keeps_bind; [apply Hb|]. intros [y|r]; [apply IH|apply keeps_ret].
Qed.
End frame.

Create HintDb frame.

(** Goes through a computation; the operations it calls are in [frame]. *)
Ltac keep_step :=
  lazymatch goal with
  | |- forall _, _ => intros ?
  | |- dkeeps (mbind _ _) => apply dkeeps_bind
  | |- dkeeps (mret _) => apply dkeeps_ret
  | |- dkeeps (gets _) => apply dkeeps_gets
  | |- dkeeps (stuck_at _) => apply dkeeps_stuck
  | |- dkeeps (fdb_assert _) => apply dkeeps_assert
  | |- dkeeps (with_io _) => apply dkeeps_with_io
  | |- dkeeps (with_world _) => apply dkeeps_with_io
  | |- dkeeps (loop _ _ _) => apply dkeeps_loop
  | |- dkeeps (match ?x with _ => _ end) => destruct x
  | |- keeps (mbind _ _) => apply keeps_bind
  | |- keeps (mret _) => apply keeps_ret
  | |- keeps (gets _) => apply keeps_gets
  | |- keeps (modify _) => apply keeps_modify; [intros ?; reflexivity]
  | |- keeps (stuck_at _) => apply keeps_stuck
  | |- keeps (fdb_assert _) => apply keeps_assert
  | |- keeps (up _) => apply keeps_up
  | |- keeps (loop _ _ _) => apply keeps_loop
  | |- keeps (match ?x with _ => _ end) => destruct x
  | |- _ => solve [auto 3 with frame]
  end.
Ltac keep := repeat keep_step.

Section operations.
Context {W} {ST : Storage W} {IN : Indeterminate} {KB : KvBuild}.

Lemma dkeeps_read a b : dkeeps (W:=W) (_fdb_flash_read a b).
Proof. unfold _fdb_flash_read, storage_part_of. keep. Qed.
Lemma dkeeps_write a b sync : dkeeps (W:=W) (_fdb_flash_write a b sync).
Proof. unfold _fdb_flash_write, storage_part_of. keep. Qed.
Lemma dkeeps_erase a n : dkeeps (W:=W) (_fdb_flash_erase a n).
Proof. unfold _fdb_flash_erase, storage_part_of. keep. Qed.
#[local] Hint Resolve dkeeps_read dkeeps_write dkeeps_erase : frame.
Lemma dkeeps_write_status g a n i sync : dkeeps (W:=W) (_fdb_write_status g a n i sync).
Proof. unfold _fdb_write_status. keep. Qed.
Lemma dkeeps_read_status g a t n : dkeeps (W:=W) (_fdb_read_status g a t n).
Proof. unfold _fdb_read_status. keep. Qed.
Lemma dkeeps_continue g a b : dkeeps (W:=W) (_fdb_continue_ff_addr g a b).
Proof. unfold _fdb_continue_ff_addr. keep. Qed.
Lemma dkeeps_write_align g a b : dkeeps (W:=W) (_fdb_flash_write_align g a b).
Proof. unfold _fdb_flash_write_align. keep. Qed.
#[local] Hint Resolve dkeeps_write_status dkeeps_read_status dkeeps_continue dkeeps_write_align : frame.

Lemma keeps_update_sector_cache s : keeps (W:=W) (update_sector_cache s).
Proof. unfold update_sector_cache. keep. Qed.
Lemma keeps_get_sector_from_cache a : keeps (W:=W) (get_sector_from_cache a).
Proof. unfold get_sector_from_cache. keep. Qed.
Lemma keeps_store_sector_cache i s : keeps (W:=W) (store_sector_cache i s).
Proof. unfold store_sector_cache. keep. Qed.
#[local] Hint Resolve keeps_update_sector_cache keeps_get_sector_from_cache
  keeps_store_sector_cache : frame.
Lemma keeps_update_sector_empty a e : keeps (W:=W) (update_sector_empty_addr_cache a e).
Proof. unfold update_sector_empty_addr_cache. keep. Qed.
Lemma keeps_update_sector_store a s : keeps (W:=W) (update_sector_status_store_cache a s).
Proof. unfold update_sector_status_store_cache. keep. Qed.
Lemma keeps_read_bytes b n : keeps (W:=W) (read_bytes b n).
Proof. unfold read_bytes. keep. Qed.
#[local] Hint Resolve keeps_update_sector_empty keeps_update_sector_store keeps_read_bytes : frame.
Lemma keeps_update_kv_cache k n a : keeps (W:=W) (update_kv_cache k n a).
Proof. unfold update_kv_cache. keep. Qed.
Lemma keeps_kv_cache_search key crc n i : keeps (W:=W) (kv_cache_search key crc n i).
Proof. revert i. induction n as [|n IH]; intros i; cbn [kv_cache_search]; keep. Qed.
Lemma keeps_get_kv_from_cache key : keeps (W:=W) (get_kv_from_cache key).
Proof. apply keeps_kv_cache_search. Qed.
#[local] Hint Resolve keeps_update_kv_cache keeps_get_kv_from_cache : frame.

Lemma keeps_find_next a e : keeps (W:=W) (find_next_kv_addr a e).
Proof. unfold find_next_kv_addr. keep. Qed.
#[local] Hint Resolve keeps_find_next : frame.
Lemma keeps_get_next_kv_addr s k : keeps (W:=W) (get_next_kv_addr s k).
Proof. unfold get_next_kv_addr. keep. Qed.
Lemma keeps_read_crc a n c : keeps (W:=W) (read_crc a n c).
Proof. unfold read_crc. keep. Qed.
#[local] Hint Resolve keeps_get_next_kv_addr keeps_read_crc : frame.
Lemma keeps_read_kv k : keeps (W:=W) (read_kv k).
Proof. unfold read_kv. keep. Qed.
#[local] Hint Resolve keeps_read_kv : frame.
Lemma keeps_read_sector_kvs s : keeps (W:=W) (read_sector_kvs s).
Proof. unfold read_sector_kvs. keep. Qed.
#[local] Hint Resolve keeps_read_sector_kvs : frame.
Lemma keeps_traverse s : keeps (W:=W) (traverse_sector s).
Proof. unfold traverse_sector. keep. Qed.
#[local] Hint Resolve keeps_traverse : frame.
Lemma keeps_read_sector_info a s t : keeps (W:=W) (read_sector_info a s t).
Proof. unfold read_sector_info. keep. Qed.
#[local] Hint Resolve keeps_read_sector_info : frame.

Lemma keeps_iterate_sector {A} (cb : fdb_kv -> A -> M (fdb_kvdb W) (bool * A)) s k (a : A) :
  (forall k a, keeps (cb k a)) -> keeps (W:=W) (iterate_sector cb s k a).
Proof. intros Hcb. unfold iterate_sector. keep. Qed.
Lemma keeps_kv_iterator {A} k (a : A) cb :
  (forall f k a, cb = Some f -> keeps (f k a)) -> keeps (kv_iterator k a cb).
Proof.
  intros Hcb. unfold kv_iterator. destruct cb as [f|]; keep.
  apply keeps_iterate_sector. intros. by apply Hcb.
Qed.
Lemma keeps_find_kv_cb key k b : keeps (W:=W) (find_kv_cb key k b).
Proof. unfold find_kv_cb. keep. Qed.
#[local] Hint Resolve keeps_find_kv_cb : frame.
Lemma keeps_find_kv_no_cache key k : keeps (W:=W) (find_kv_no_cache key k).
Proof.
  unfold find_kv_no_cache. keep_step; [|keep]. apply keeps_kv_iterator.
  intros f k' a [= <-]. apply keeps_find_kv_cb.
Qed.
#[local] Hint Resolve keeps_find_kv_no_cache : frame.
Lemma keeps_find_kv key k : keeps (W:=W) (find_kv key k).
Proof. unfold find_kv. keep. Qed.
#[local] Hint Resolve keeps_find_kv : frame.
Lemma keeps_get_kv key b n : keeps (W:=W) (get_kv key b n).
Proof. unfold get_kv. keep. Qed.

Lemma keeps_write_kv_status a s sync : keeps (W:=W) (write_kv_status a s sync).
Proof. unfold write_kv_status. keep. Qed.
#[local] Hint Resolve keeps_write_kv_status : frame.
Lemma keeps_write_kv_hdr a h : keeps (W:=W) (write_kv_hdr a h).
Proof. unfold write_kv_hdr. keep. Qed.
Lemma keeps_format_sector a c : keeps (W:=W) (format_sector a c).
Proof. unfold format_sector. keep. Qed.
Lemma keeps_write_store_status a s : keeps (W:=W) (write_store_status a s).
Proof. unfold write_store_status. keep. Qed.
#[local] Hint Resolve keeps_write_kv_hdr keeps_format_sector keeps_write_store_status : frame.
Lemma keeps_update_sec_status s n b : keeps (W:=W) (update_sec_status s n b).
Proof. unfold update_sec_status. keep. Qed.
Lemma keeps_sector_iterator {A} s st (a : A) cb t :
  (forall f s a, cb = Some f -> keeps (f s a)) -> keeps (sector_iterator s st a cb t).
Proof.
  intros Hcb. unfold sector_iterator.
  destruct cb as [f|]; [assert (forall s a, keeps (f s a)) by (intros; by apply Hcb)|]; keep.
Qed.
#[local] Hint Resolve keeps_update_sec_status : frame.
Lemma keeps_alloc_kv s n : keeps (W:=W) (alloc_kv s n).
Proof.
  unfold alloc_kv. keep; apply keeps_sector_iterator; intros f s' a' [= <-];
    unfold sector_statistics_cb, alloc_kv_cb; keep.
Qed.
Lemma keeps_del_kv k o b : keeps (W:=W) (del_kv k o b).
Proof. unfold del_kv. keep. Qed.
Lemma keeps_copy_kv a b n : keeps (W:=W) (copy_kv a b n).
Proof. unfold copy_kv. keep. Qed.
#[local] Hint Resolve keeps_alloc_kv keeps_del_kv keeps_copy_kv : frame.
Lemma keeps_move_kv k : keeps (W:=W) (move_kv k).
Proof. unfold move_kv. keep. Qed.
#[local] Hint Resolve keeps_move_kv : frame.
Lemma keeps_gc_sector_kvs s : keeps (W:=W) (gc_sector_kvs s).
Proof. unfold gc_sector_kvs. keep. Qed.
#[local] Hint Resolve keeps_gc_sector_kvs : frame.
Lemma keeps_do_gc n s a : keeps (W:=W) (do_gc n s a).
Proof. unfold do_gc. keep. Qed.
Lemma keeps_gc_collect_by_free_size n : keeps (W:=W) (gc_collect_by_free_size n).
Proof.
  unfold gc_collect_by_free_size. keep; apply keeps_sector_iterator; intros f s' a' [= <-];
    [unfold gc_check_cb; keep|apply keeps_do_gc].
Qed.
#[local] Hint Resolve keeps_gc_collect_by_free_size : frame.
Lemma keeps_new_kv s n : keeps (W:=W) (new_kv s n).
Proof. unfold new_kv. keep. Qed.
#[local] Hint Resolve keeps_new_kv : frame.
Lemma keeps_create_kv_blob s k v n : keeps (W:=W) (create_kv_blob s k v n).
Proof. unfold create_kv_blob. keep. Qed.
#[local] Hint Resolve keeps_create_kv_blob : frame.
Lemma keeps_set_kv k v n : keeps (W:=W) (set_kv k v n).
Proof. unfold set_kv, new_kv_ex. keep. Qed.
End operations.

#[export] Hint Resolve dkeeps_read dkeeps_write dkeeps_erase dkeeps_write_status dkeeps_read_status
  dkeeps_continue dkeeps_write_align keeps_read_bytes keeps_get_next_kv_addr keeps_read_kv
  keeps_read_sector_info keeps_kv_iterator keeps_find_kv keeps_get_kv keeps_format_sector
  keeps_sector_iterator keeps_create_kv_blob keeps_del_kv keeps_set_kv keeps_gc_collect_by_free_size : frame.
