(* ===== verification/KvApiThm.v ===== *)
(** Key-value database: sector order, locking and errors. *)
From S2P Require Import Prelude FdbDef Crc32 Status FlashIO FlashSpec FileIO FileSpec Disk.
From S2P Require Import KvDef KvRead KvWrite KvApi KvRing KvCacheSpec KvSpec KvGetSpec KvThm KvFrame.

(** ** Sector order *)

Section walk.
Context {W} {ST : Storage W} {IN : Indeterminate}.
Implicit Type d : fdb_kvdb W.

(** The addresses the iterators visit from sector [a] on, when no sector is
    combined with the next one. *)
Fixpoint sector_walk (fuel : nat) d (a traversed_len : Z) : list Z :=
  match fuel with
  | O => []
  | S fuel =>
      let traversed_len := u32 (traversed_len + kv_sec_size d) in
      let next := get_next_sector_addr d
        (KvSec true FDB_SECTOR_STORE_UNUSED FDB_SECTOR_DIRTY_UNUSED a 0 SECTOR_NOT_COMBINED 0 0)
        traversed_len in
      a :: (if next =? FAILED_ADDR then [] else sector_walk fuel d next traversed_len)
  end.

Lemma sector_walk_from d (fuel : nat) k t :
  geom_ok (geo (parent d)) ->
  let n := sector_count (geo (parent d)) in
  0 <= k < n -> 0 <= t < n -> n - t <= Z.of_nat fuel ->
  sector_walk fuel d (k * kv_sec_size d) (t * kv_sec_size d) =
    map (fun i => (k + Z.of_nat i) mod n * kv_sec_size d) (seq 0 (Z.to_nat (n - t))).
Proof.
  intros Hg n. revert k t. induction fuel as [|fuel IH]; intros k t Hk Ht Hf; [lia|].
  cbn [sector_walk].
  destruct (ring_next _ Hg t t ltac:(done) ltac:(unfold n in *; lia)) as (_ & _ & Et).
  change (sec_size (geo (parent d))) with (kv_sec_size d) in Et. rewrite Et.
  rewrite (get_next_sector_addr_ring d _ k (t + 1)) by (done || (unfold n in *; lia)).
  fold n. replace (Z.to_nat (n - t)) with (S (Z.to_nat (n - (t + 1)))) by lia. cbn [seq map].
  f_equal; [f_equal; rewrite Z.add_0_r, Z.mod_small; lia|].
  destruct (Z.ltb_spec (t + 1) n) as [Hlt|Hge].
  - pose proof (next_index_range n k Hk) as Hr. rewrite (not_failed d) by done.
    rewrite IH by lia. rewrite <- seq_shift, map_map. apply map_ext. intros i. f_equal.
    unfold next_index. destruct (Z.ltb_spec (k + 1) n).
    + f_equal. lia.
    + replace (k + Z.of_nat (S i)) with (0 + Z.of_nat i + 1 * n) by lia. by rewrite Z.mod_add by lia.
  - cbn. by replace (Z.to_nat (n - (t + 1))) with 0%nat by lia.
Qed.

(** Starting at any sector, [get_next_sector_addr] leads through every
    sector of the database exactly once, in ring order, and then reports the
    end; the loops that use it visit as many sectors as there are. *)
Lemma sector_walk_ring d k :
  geom_ok (geo (parent d)) -> 0 <= k < sector_count (geo (parent d)) ->
  let n := sector_count (geo (parent d)) in
  let walk := sector_walk (sector_fuel d) d (k * kv_sec_size d) 0 in
  walk = map (fun i => (k + Z.of_nat i) mod n * kv_sec_size d) (seq 0 (Z.to_nat n)) /\
  NoDup walk /\
  (forall j, 0 <= j < n -> j * kv_sec_size d ∈ walk).
Proof.
  intros Hg Hk n walk. pose proof (sector_count_two _ Hg) as Hn. fold n in Hn.
  assert (walk = map (fun i => (k + Z.of_nat i) mod n * kv_sec_size d) (seq 0 (Z.to_nat n))) as E.
  { unfold walk. change 0 with (0 * kv_sec_size d) at 1.
    rewrite (sector_walk_from d) by (done || (unfold n, sector_fuel, sector_count in *;
      unfold kv_max_size, kv_sec_size; lia)).
    fold n. by rewrite Z.sub_0_r. }
  assert (0 < kv_sec_size d) as Hs by (unfold kv_sec_size; destruct Hg; lia).
  split; [done|]. rewrite E. split.
  - apply NoDup_fmap_2_strong; [|apply NoDup_seq].
    intros x y Hx Hy Exy. apply elem_of_seq in Hx, Hy.
    apply Z.mul_reg_r in Exy; [|lia].
    pose proof (Z.div_mod (k + Z.of_nat x) n ltac:(lia)).
    pose proof (Z.div_mod (k + Z.of_nat y) n ltac:(lia)).
    assert (Z.of_nat x - Z.of_nat y = n * ((k + Z.of_nat x) / n - (k + Z.of_nat y) / n)) by lia.
    assert ((k + Z.of_nat x) / n - (k + Z.of_nat y) / n = 0) by nia. lia.
  - intros j Hj. apply list_elem_of_fmap.
    exists (Z.to_nat ((j - k) mod n)).
    pose proof (Z.mod_pos_bound (j - k) n ltac:(lia)). split.
    + f_equal. rewrite Z2Nat.id by lia. rewrite Zplus_mod_idemp_r.
      replace (k + (j - k)) with j by lia. by rewrite Z.mod_small.
    + apply elem_of_seq. lia.
Qed.
End walk.

Lemma sector_walk_ring_witness : NoDup (sector_walk (sector_fuel kdb) kdb 256 0).
Proof.
  apply (sector_walk_ring kdb 1); [apply kgeom_file|vm_compute; intuition discriminate].
Defined.

(** ** The public functions *)

Section calls.
Context {W} {ST : Storage W} {IN : Indeterminate} {KB : KvBuild}.
Implicit Type d : fdb_kvdb W.

(** The calls of the lock functions of [n] operations. *)
Definition lock_events (db : fdb_db W) (n : nat) : list lock_event :=
  concat (replicate n ((if lock db then [LockCall] else []) ++
                       (if unlock db then [UnlockCall] else []))).

(** The common structure except for the lock calls. *)
Definition db_config (db : fdb_db W) :=
  (geo db, db_type db, init_ok db, not_formatable db, (lock db, unlock db), db_user_data db).

Definition locks {A} (n : nat) (p : M (fdb_kvdb W) A) : Prop :=
  forall d r d', p d = Done (r, d') -> init_ok (parent d) = true ->
    lock_trace (parent d') = lock_trace (parent d) ++ lock_events (parent d) n /\
    db_config (parent d') = db_config (parent d).

Lemma locked_locks {A} (m : M (fdb_kvdb W) A) : keeps m -> locks 1 (locked m).
Proof.
  intros Hm d r d' H _. unfold locked, up, zoom, db_lock, db_unlock, modify, mbind, M_bind in H.
  match type of H with context [m ?x] => set (d1 := x) in H end.
  destruct (m d1) as [[a d2]|] eqn:E; [|done]. apply Hm in E. injection H as <- <-.
  unfold db_fixed, d1 in E. unfold lock_events, db_config. cbn [replicate concat]. rewrite app_nil_r.
  destruct (lock (parent d)) eqn:L; cbn in E; injection E as E1 E2 E3 E4 E5 E6 E7 E8;
    cbn; rewrite E6; destruct (unlock (parent d)) eqn:U; cbn;
    rewrite ?E7, ?app_nil_r, <- ?app_assoc; split;
    first [reflexivity|congruence].
Qed.

Lemma locks_bind {A B} n (p : M (fdb_kvdb W) A) (f : A -> M (fdb_kvdb W) B) :
  locks n p -> (forall a d, exists b, f a d = Done (b, d)) -> locks n (p ≫= f).
Proof.
  intros Hp Hf d r d'. unfold mbind, M_bind. destruct (p d) as [[a d1]|] eqn:E; [|done].
  destruct (Hf a d1) as [b ->]. intros [= <- <-]. by apply (Hp _ _ _ E).
Qed.

Lemma locks_if_init {A} n (a : A) (p : M (fdb_kvdb W) A) :
  locks n p -> locks n (ok ← gets db_init_ok; if negb ok then mret a else p).
Proof.
  intros Hp d r d' H Hok. apply (Hp d r); [|done].
  unfold mbind, M_bind, gets, db_init_ok in H. by rewrite Hok in H.
Qed.

Lemma keeps_print_value_pass kv b buf : keeps (W:=W) (print_value_pass kv b buf).
Proof. unfold print_value_pass. keep. Qed.
Lemma keeps_print_kv_cb kv a : keeps (W:=W) (print_kv_cb kv a).
Proof. unfold print_kv_cb. keep; apply keeps_print_value_pass. Qed.
Lemma keeps_check_sector_kvs s k : keeps (W:=W) (check_sector_kvs s k).
Proof. unfold check_sector_kvs. keep. Qed.
Lemma keeps_default_value_len n : keeps (W:=W) (default_value_len n).
Proof. unfold default_value_len. keep. Qed.
Lemma keeps_create_defaults l s : keeps (W:=W) (create_defaults l s).
Proof.
  revert s. induction l as [|x l IH]; intros s; cbn [create_defaults]; keep;
    apply keeps_default_value_len || apply IH.
Qed.
Lemma keeps_format_all : keeps (W:=W) format_all.
Proof. unfold format_all. keep. Qed.

Lemma locks_set_default : locks 1 fdb_kv_set_default.
Proof.
  set (m := modify (fun d => set_kv_cache_table
      (map (fun n => KvCacheNode (kc_name_crc n) (kc_active n) FDB_DATA_UNUSED)
           (kv_cache_table d)) d);;
    result ← format_all;
    (if decide (result = FDB_NO_ERR) then
       kvs ← gets default_kvs; create_defaults kvs indet_sec
     else mret tt);;
    modify (fun d => set_parent (set_oldest_addr 0 (parent d)) d);;
    mret result : M (fdb_kvdb W) fdb_err_t).
  intros d r d' H. apply (locked_locks m) with r; subst m.
  - keep; apply keeps_format_all || apply keeps_create_defaults.
  - rewrite <- H. unfold fdb_kv_set_default, locked, mbind, M_bind.
    repeat match goal with
    | |- context [match ?p ?x with Done _ => _ | Stuck _ => _ end] =>
        destruct (p x) as [[??]|]; try reflexivity
    end.
Qed.

Lemma locks_get_blob key blob : locks 1 (fdb_kv_get_blob key blob).
Proof.
  apply locks_if_init, locks_bind; [apply locked_locks, keeps_get_kv|].
  intros [[n b] l] d. by eexists.
Qed.

Lemma locks_set_blob key blob : locks 1 (fdb_kv_set_blob key blob).
Proof. apply locks_if_init, locked_locks, keeps_set_kv. Qed.

Lemma locks_del key : locks 1 (fdb_kv_del key).
Proof. apply locks_if_init, locked_locks, keeps_del_kv. Qed.

Lemma locks_print : locks 1 fdb_kv_print.
Proof.
  apply locks_if_init, locked_locks. keep. apply keeps_kv_iterator.
  intros f k a [= <-]. apply keeps_print_kv_cb.
Qed.

Lemma locks_check : locks 1 fdb_kvdb_check.
Proof.
  apply locks_if_init, locked_locks.
  repeat (keep_step || cbv zeta || apply keeps_read_sector_info || apply keeps_check_sector_kvs).
Qed.

Lemma locks_call c : locks 1 (run_call c).
Proof.
  destruct c as [key kv|key blob|key blob|key value|key value|key| | |]; cbn [run_call];
    (apply locks_bind; [|by eexists]).
  - apply locks_if_init, locks_bind; [apply locked_locks, keeps_find_kv|by eexists].
  - apply locks_get_blob.
  - apply locks_set_blob.
  - apply locks_bind; [apply locks_get_blob|]. intros [n b] d. cbv zeta; destruct (_ && _); by eexists.
  - destruct value; [apply locks_set_blob|apply locks_del].
  - apply locks_del.
  - apply locks_set_default.
  - apply locks_print.
  - apply locks_check.
Qed.

Lemma lock_events_S db db' n :
  lock db' = lock db -> unlock db' = unlock db ->
  lock_events db 1 ++ lock_events db' n = lock_events db (S n).
Proof. unfold lock_events. intros -> ->. cbn. by rewrite app_nil_r. Qed.


(** Before initialisation no function touches the database: each one
    returns its error value (no object, zero bytes, [FDB_INIT_FAILED]) and
    leaves the whole state, the medium and the lock included, as it was. *)
Lemma uninitialised_calls d key kv blob :
  init_ok (parent d) = false ->
  fdb_kv_get_obj key kv d = Done ((None, kv), d) /\
  fdb_kv_get_blob key blob d = Done ((0, blob), d) /\
  fdb_kv_set_blob key blob d = Done (FDB_INIT_FAILED, d) /\
  (forall v, fdb_kv_set key v d = Done (FDB_INIT_FAILED, d)) /\
  fdb_kv_del key d = Done (FDB_INIT_FAILED, d) /\
  (forall v, fdb_kv_get key v d = Done ((None, v), d)) /\
  fdb_kv_print d = Done (([], 0), d) /\
  fdb_kvdb_check d = Done (FDB_INIT_FAILED, d).
Proof.
  intros Hok.
  assert (forall A (a : A) p,
      (ok ← gets db_init_ok; if negb ok then mret a else p) d = Done (a, d))
    as Hi by (intros A a p; unfold mbind, M_bind, gets, db_init_ok; by rewrite Hok).
  split_and!; try apply Hi.
  - intros [v|]; apply Hi.
  - intros v. unfold fdb_kv_get, fdb_kv_get_blob. unfold mbind at 1, M_bind at 1. by rewrite Hi.
Qed.
End calls.

#[local] Instance zeros : Indeterminate := fun _ => 0.
#[local] Instance no_auto_update : KvBuild := false.


Lemma uninitialised_calls_witness :
  let d := set_parent (set_init_ok false (parent kdb)) kdb in
  fdb_kv_del [97] d = Done (FDB_INIT_FAILED, d).
Proof.
  apply (uninitialised_calls (set_parent (set_init_ok false (parent kdb)) kdb) [97] no_kv
           (FdbBlob None 0 0 0 0)).
  reflexivity.
Defined.
