(* ===== verification/KvLimits.v ===== *)
(** Key-value database: limits.

    What the functions do at the edges: sizes and names that are refused,
    lengths that do not fit their fields, names that are found by accident or
    not at all, and iterating past the end. *)
From S2P Require Import Prelude FdbDef Crc32 Status FlashIO FlashSpec FileIO FileSpec Disk.
From S2P Require Import KvDef KvRead KvWrite KvApi KvRing KvCacheSpec KvSpec KvGetSpec KvThm KvFrame.

Section refusals.
Context {W} {ST : Storage W} {IN : Indeterminate} {KB : KvBuild}.
Implicit Type d : fdb_kvdb W.

(** The length of a record as the 32-bit field [len] of its header holds it. *)
Definition record_len (key : list Z) (n : Z) : Z := u32 (KV_HDR_DATA_SIZE + len key + u32 n).

Lemma new_kv_hdr_len key value n :
  len key <= FDB_KV_NAME_MAX -> kh_len (new_kv_hdr key value n) = record_len key n.
Proof.
  intros Hk. pose proof (len_nonneg key). unfold FDB_KV_NAME_MAX in Hk. pose proof (u32_range n).
  unfold new_kv_hdr, record_len. cbn [kh_len].
  assert (u8 (len key) = len key) as -> by (unfold u8; apply Z.mod_small; lia).
  by rewrite !WG_ALIGN_id by lia.
Qed.


End refusals.

(** ** Recognising a record *)

Lemma strncmp_names key key' x y :
  Forall (fun b => 0 < b < 256) key -> length key' = length key ->
  strncmp_eq (length key) (key' ++ x) (key ++ y) = Some (bool_decide (key' = key)).
Proof.
  intros Hk. revert key'. induction Hk as [|b key Hb Hk IH]; intros [|c key'] Hl; try done.
  cbn [length app strncmp_eq]. destruct (Z.eqb_spec c b) as [->|Hne].
  - rewrite (proj2 (Z.eqb_neq b 0)) by lia. rewrite IH by (simpl in Hl; lia). f_equal.
    apply bool_decide_ext. split; [by intros ->|by intros [= ->]].
  - rewrite bool_decide_eq_false_2; [done|congruence].
Qed.

Lemma strncmp_longest key key' y :
  Forall (fun b => 0 < b < 256) key -> length key' = length key -> (0 < length key)%nat ->
  strncmp_eq (length key) (take (length key - 1) key' ++ [0]) (key ++ y) = Some false.
Proof.
  intros Hk. revert key'. induction Hk as [|b key Hb Hk IH]; intros [|c key'] Hl Hpos; simpl in Hl, Hpos; try lia.
  cbn [length]. replace (S (length key) - 1)%nat with (length key) by lia.
  destruct (length key) as [|n] eqn:E.
  - cbn [take app strncmp_eq]. by rewrite (proj2 (Z.eqb_neq 0 b)) by lia.
  - replace (take (S n) (c :: key')) with (c :: take (S n - 1) key')
      by (simpl; do 2 f_equal; lia).
    cbn [app strncmp_eq]. destruct (Z.eqb_spec c b) as [->|]; [|done].
    rewrite (proj2 (Z.eqb_neq b 0)) by lia. apply IH; lia.
Qed.

(** The name buffer [read_kv] leaves. *)
Lemma kv_of_rec_name kv st key value :
  length (kv_name kv) = 64%nat -> len key <= FDB_KV_NAME_MAX ->
  exists x, kv_name (kv_of_rec kv st key value) =
    if decide (len key < FDB_KV_NAME_MAX) then key ++ x
    else take (length key - 1) key ++ [0].
Proof.
  intros Hn Hk. unfold FDB_KV_NAME_MAX, len in *. cbn [kv_name kv_of_rec].
  unfold splice, FDB_KV_NAME_MAX, len. rewrite Hn. cbn [Z.to_nat take].
  rewrite Nat.sub_0_r, app_nil_l, take_ge by lia. rewrite Nat.add_0_l.
  destruct (Z.leb_spec 64 (Z.of_nat (length key))); case_decide; try lia.
  - exists []. rewrite insert_app_l by lia. rewrite drop_ge, app_nil_r by lia.
    replace (Z.to_nat (64 - 1)) with (length key - 1)%nat by lia.
    rewrite insert_take_drop by lia. f_equal. rewrite drop_ge; [done|lia].
  - exists (<[0%nat:=0]> (drop (length key) (kv_name kv))).
    rewrite Nat2Z.id. by rewrite insert_app_r_alt, Nat.sub_diag by lia.
Qed.

Section recognise.
Context {W} {ST : Storage W} {SL : StorageLaws W} {IN : Indeterminate} {KB : KvBuild}.
Implicit Type d : fdb_kvdb W.

(** Searching the sectors recognises exactly the right records: a complete
    record read from the flash is accepted by [find_kv_cb] if and only if it
    has the key searched for and the status written, provided the key is
    shorter than 64 bytes.  A key of 64 bytes can be stored
    ([create_kv_blob] accepts it) but no record of it is ever recognised:
    the last byte of the name is replaced by a NUL when it is read back. *)
Lemma search_recognises d m kv st key key' value :
  kv_holds d m -> length (kv_name kv) = 64%nat -> rec_ok key' value ->
  in_sector (geo (parent d)) (kv_start kv) (rec_len key' value) ->
  rec_at m (kv_start kv) st key' value -> Forall (fun b => 0 < b < 256) key ->
  wp (r ← read_kv kv; find_kv_cb key (snd r) false)
     (fun c _ => let ok := bool_decide (key' = key /\ st = FDB_KV_WRITE /\ len key < FDB_KV_NAME_MAX) in
                 c = (ok, ok)) d.
Proof.
  intros Hm Hn Hok Hin Hrec Hkey. apply wp_bind. eapply wp_stores.
  { by apply (stores_read_kv d m kv st key' value). }
  intros r i -> _. cbn [snd]. unfold find_kv_cb. cbn [kv_name_len kv_crc_is_ok kv_status kv_of_rec].
  destruct (Z.eqb_spec (len key) (len key')) as [El|Hne]; cbn [negb].
  2:{ apply wp_ret. rewrite bool_decide_eq_false_2; [done|]. intros [-> _]. done. }
  case_bool_decide as Hst; cbn [andb].
  2:{ apply wp_ret. rewrite bool_decide_eq_false_2; [done|]. naive_solver. }
  destruct (ro_key_len _ _ Hok) as [H0 H64].
  destruct (kv_of_rec_name kv st key' value Hn H64) as [x Hx].
  assert (length key' = length key) as Hl by (unfold len in El; lia).
  change (<[_:=0]> _) with (kv_name (kv_of_rec kv st key' value)). rewrite Hx, <- El. clear Hx.
  case_decide as H63.
  - rewrite strncmp_names by done. case_bool_decide as E; apply wp_ret.
    + by rewrite bool_decide_eq_true_2.
    + rewrite bool_decide_eq_false_2; [done|]. naive_solver.
  - rewrite Hl, strncmp_longest by (done || (unfold len in *; lia)). apply wp_ret.
    rewrite bool_decide_eq_false_2; [done|]. naive_solver.
Qed.

(** C36: The cache identifies a record by a 16-bit checksum of the key and by a
    comparison of the first [strlen(key)] bytes of the stored name: when the
    first node with the key's checksum leads to a valid record whose name
    merely starts with the key, [get_kv] returns the value of that other
    key. *)
Theorem cache_prefix_match d m a key rest value b :
  cached_rec d m a key rest value ->
  wp (get_kv key (Some b) (len b)) (fun r _ => r = got value b) d.
Proof. intros H. by eapply wp_get_kv_cached. Qed.
End recognise.


(** ** Concrete cases *)

#[local] Instance zeros : Indeterminate := fun _ => 0.
#[local] Instance no_auto_update : KvBuild := false.


Lemma search_recognises_witness :
  wp (r ← read_kv (kv_set_start 16 no_kv); find_kv_cb [97; 98] (snd r) false)
     (fun c _ => c = (true, true)) (kdb_on kmedium2).
Proof.
  apply (search_recognises (kdb_on kmedium2) kmedium2 (kv_set_start 16 no_kv) FDB_KV_WRITE
           [97; 98] [97; 98] [1; 2; 3]).
  - apply kdb_holds2.
  - reflexivity.
  - apply krec_ok.
  - vm_compute. intuition discriminate.
  - apply rec_at_stored; [done|vm_compute; discriminate].
  - by apply key_check.
Defined.

(** The keys "user" and "user0lx" have the same 16-bit checksum; the database
    holds a record of the second one only. *)
Definition key_user : list Z := [117; 115; 101; 114].
Definition key_user0lx : list Z := [117; 115; 101; 114; 48; 108; 120].
Definition kmedium3 : list Z := splice kmedium 16 (rec_bytes key_user0lx [9]).
Definition kdb3 : fdb_kvdb libc :=
  set_kv_cache_table (KvCacheNode (kv_name_crc key_user0lx) 64 16 ::
                      replicate 63 (KvCacheNode 0 0 FDB_DATA_UNUSED)) (kdb_on kmedium3).

Lemma cache_prefix_match_witness :
  wp (get_kv key_user (Some [0]) 1) (fun r _ => r = (1, Some [9], 1)) kdb3.
Proof.
  apply (cache_prefix_match kdb3 kmedium3 16 key_user [48; 108; 120] [9] [0]). split.
  - apply kdb_on_holds; [vm_compute; reflexivity|apply bytes_check; vm_compute; reflexivity].
  - reflexivity.
  - exists 0%nat, (KvCacheNode (kv_name_crc key_user0lx) 64 16). split; [|reflexivity]. split; [reflexivity|]. split.
    + split; [vm_compute; discriminate|vm_compute; reflexivity].
    + intros j n' Hj. lia.
  - by apply key_check.
  - split; [by apply key_check|done|by apply bytes_check|done].
  - apply rec_at_stored; [done|vm_compute; discriminate].
  - vm_compute. intuition discriminate.
Defined.
