(* ===== verification/KvTerm.v ===== *)
(** Key-value database: termination.

    The loops of the key-value database follow addresses that they read from
    the medium; the theorems say that they end whatever the medium contains.
    [runs] is a Hoare-style judgement over the invariant [kinv] the loops need:
    the geometry, the oldest address, and what the sector cache may say about
    combined sectors. *)
From S2P Require Import Prelude FdbDef Crc32 Status FlashIO FlashSpec FileIO Term.
From S2P Require Import KvDef KvRead KvWrite KvApi KvRing KvSpec KvThm.

(** [read_sector_info] accepts two values of [combined]. *)
Definition sec_ok (s : kvdb_sec_info) : Prop :=
  combined s = SECTOR_NOT_COMBINED \/ combined s = SECTOR_COMBINED.

Section runs.
Context {W} {ST : Storage W} {TM : StorageTerm W} {IN : Indeterminate} {KB : KvBuild}.
Context (G : geom) (HG : geom_ok G).

Record kinv (d : fdb_kvdb W) : Prop := {
  ki_geo : geo (parent d) = G;
  ki_oldest : 0 <= oldest_addr (parent d) < max_size G;
  ki_cache : Forall sec_ok (sector_cache_table d);
}.

(** Keeps the invariant, does not run out of fuel, and its result satisfies
    [R]. *)
Definition runs {A} (p : M (fdb_kvdb W) A) (R : A -> Prop) : Prop :=
  forall d, kinv d -> may p (fun r d' => kinv d' /\ R r) d.

Lemma runs_ret {A} (a : A) (R : A -> Prop) : R a -> runs (mret a) R.
Proof. by intros HR d Hd. Qed.
Lemma runs_bind {A B} (p : M (fdb_kvdb W) A) (k : A -> M (fdb_kvdb W) B) R R' :
  runs p R' -> (forall a, R' a -> runs (k a) R) -> runs (p ≫= k) R.
Proof.
  intros Hp Hk d Hd. apply may_bind. eapply may_mono; [by apply Hp|].
  intros a d1 [Hd1 Ha]. by apply Hk.
Qed.
Lemma runs_weaken {A} (p : M (fdb_kvdb W) A) (R R' : A -> Prop) :
  runs p R -> (forall a, R a -> R' a) -> runs p R'.
Proof. intros Hp HR d Hd. eapply may_mono; [by apply Hp|]. intros a d' [H Ha]. auto. Qed.
Lemma runs_any {A} (p : M (fdb_kvdb W) A) R : runs p R -> runs p anything.
Proof. intros Hp. by eapply runs_weaken. Qed.
(** What is read from the state satisfies what the invariant says of it. *)
Lemma runs_gets {A} (f : fdb_kvdb W -> A) (R : A -> Prop) :
  (forall d, kinv d -> R (f d)) -> runs (gets f) R.
Proof. intros HR d Hd. split; [done|by apply HR]. Qed.
Lemma runs_modify f : (forall d, kinv d -> kinv (f d)) -> runs (modify f) anything.
Proof. intros Hf d Hd. split; [by apply Hf|done]. Qed.
Lemma runs_stuck {A} w (R : A -> Prop) : w <> OutOfFuel -> runs (stuck_at w) R.
Proof. by intros Hw d Hd. Qed.
Lemma runs_assert b : runs (fdb_assert b) (fun _ => b = true).
Proof. by destruct b; intros d Hd. Qed.
Lemma runs_up {A} (p : M (fdb_db W) A) R : io_only p R -> runs (up p) R.
Proof.
  intros Hp d Hd. apply may_zoom. eapply may_mono; [apply Hp|].
  intros a db' [[i ->] Ha]. split; [|done]. destruct Hd. by split.
Qed.
Lemma runs_loop {X R} (Inv : X -> Prop) (measure : X -> nat) fuel
    (body : X -> M (fdb_kvdb W) (X + R)) x (Q : R -> Prop) :
  (forall x, Inv x -> runs (body x) (fun r =>
     match r with inl x' => Inv x' /\ (measure x' < measure x)%nat | inr r => Q r end)) ->
  Inv x -> (measure x < fuel)%nat -> runs (loop fuel body x) Q.
Proof.
  intros Hb. revert x. induction fuel as [|fuel IH]; intros x Hx Hm; [lia|]. cbn [loop].
  eapply runs_bind; [by apply Hb|]. intros [y|r] Hr; [|by apply runs_ret].
  destruct Hr. apply IH; [done|lia].
Qed.

(** The values read from the database. *)
Lemma runs_sec_size : runs (gets kv_sec_size) (fun n => n = sec_size G).
Proof. apply runs_gets. intros d Hd. unfold kv_sec_size. by rewrite (ki_geo d Hd). Qed.
Lemma runs_max_size : runs (gets kv_max_size) (fun n => n = max_size G).
Proof. apply runs_gets. intros d Hd. unfold kv_max_size. by rewrite (ki_geo d Hd). Qed.
Lemma runs_oldest : runs (gets db_oldest_addr) (fun a => 0 <= a < max_size G).
Proof. apply runs_gets. intros d Hd. apply Hd. Qed.
Lemma runs_fuel :
  runs (gets sector_fuel) (fun n => n = (Z.to_nat (max_size G / sec_size G) + 2)%nat).
Proof.
  apply runs_gets. intros d Hd. unfold sector_fuel, kv_max_size, kv_sec_size.
  by rewrite (ki_geo d Hd).
Qed.
End runs.

Create HintDb runs.

(** Goes through a computation; the operations it calls are in [runs].  Of the
    results of the parts only what the hints say is kept. *)
Ltac run_leaf := solve [eauto 3 with runs].
Ltac run_step :=
  lazymatch goal with
  | |- forall _, _ => intros ?
  | |- _ -> _ => intros ?
  | |- runs _ (mbind _ (gets kv_sec_size)) _ => eapply runs_bind; [apply runs_sec_size|intros ? ->]
  | |- runs _ (mbind _ (gets kv_max_size)) _ => eapply runs_bind; [apply runs_max_size|intros ? ->]
  | |- runs _ (mbind _ (gets db_oldest_addr)) _ => eapply runs_bind; [apply runs_oldest|intros ? ?]
  | |- runs _ (mbind _ (gets sector_fuel)) _ => eapply runs_bind; [apply runs_fuel|intros ? ->]
  | |- runs _ (mbind _ (gets _)) _ =>
      eapply runs_bind with (R' := anything); [apply runs_gets; done|intros ? _]
  | |- runs _ (mbind _ _) _ =>
      first [eapply runs_bind; [run_leaf|]|eapply runs_bind with (R' := anything)]
  | |- runs _ (mret _) _ => apply runs_ret
  | |- runs _ (gets _) _ => apply runs_gets; done
  | |- runs _ (modify _) _ => apply runs_modify; intros ? []; split; cbn; auto
  | |- runs _ (stuck_at _) _ => apply runs_stuck; done
  | |- runs _ (fdb_assert _) anything => eapply runs_any, runs_assert
  | |- runs _ (fdb_assert _) _ => apply runs_assert
  | |- runs _ (match ?x with _ => _ end) _ => destruct x eqn:?
  | |- runs _ (let _ := _ in _) _ => cbv zeta
  | |- anything _ => exact I
  | |- _ => run_leaf
  end.
Ltac run := repeat run_step.

Lemma find_magic_range buf cur start end_ n i a :
  KV_MAGIC_OFFSET <= cur -> cur + Z.of_nat (i + n) < 4294967296 ->
  find_magic buf cur start end_ n i = Some a -> start <= a < end_.
Proof.
  unfold KV_MAGIC_OFFSET. intros Hc. revert i. induction n as [|n IH]; intros i Hi; cbn [find_magic]; [done|].
  assert (u32 (cur + Z.of_nat i) = cur + Z.of_nat i) as -> by (unfold u32; apply Z.mod_small; lia).
  destruct (Z.ltb_spec (cur + Z.of_nat i) end_); [|done]. unfold KV_MAGIC_OFFSET.
  assert (u64 (cur + Z.of_nat i - 4) = cur + Z.of_nat i - 4) as -> by (unfold u64; apply Z.mod_small; lia).
  destruct (_ && _) eqn:E; [|apply IH; lia].
  apply andb_prop in E as [_ E%Z.leb_le]. intros [= <-]. unfold u32. rewrite Z.mod_small; lia.
Qed.

(** The loops that work through [n] bytes, 32 at a time. *)
Definition chunks_left (n : Z) : nat := Z.to_nat ((n + 31) / 32).

Lemma chunks_fuel n : (chunks_left (n - 0) < Z.to_nat (n / 32) + 2)%nat.
Proof.
  unfold chunks_left. pose proof (Z.div_le_mono (n - 0 + 31) (n + 1 * 32) 32 ltac:(lia) ltac:(lia)) as H.
  rewrite Z.div_add in H by lia. lia.
Qed.

Lemma chunks_step n k :
  k < n -> (chunks_left (n - (k + if (k + 32 <? n)%Z then 32 else n - k)) < chunks_left (n - k))%nat.
Proof.
  intros Hk. unfold chunks_left. destruct (Z.ltb_spec (k + 32) n).
  - replace (n - k + 31) with (n - (k + 32) + 31 + 1 * 32) by lia. rewrite Z.div_add by lia.
    pose proof (Z.div_pos (n - (k + 32) + 31) 32). lia.
  - replace (n - (k + (n - k)) + 31) with 31 by lia. change (31 / 32) with 0.
    pose proof (Z.div_le_lower_bound (n - k + 31) 32 1). lia.
Qed.

Section operations.
Context {W} {ST : Storage W} {TM : StorageTerm W} {IN : Indeterminate} {KB : KvBuild}.
Context (G : geom) (HG : geom_ok G) (Hmax : 2 * max_size G < 4294967296).
Notation runs := (runs (W:=W) G).

Lemma runs_read a b : runs (up (_fdb_flash_read a b)) anything.
Proof. apply runs_up, io_only_read. Qed.
Lemma runs_write a b sync : runs (up (_fdb_flash_write a b sync)) anything.
Proof. apply runs_up, io_only_write. Qed.
Lemma runs_erase a n : runs (up (_fdb_flash_erase a n)) anything.
Proof. apply runs_up, io_only_erase. Qed.
Lemma runs_write_status g a n i sync : runs (up (_fdb_write_status g a n i sync)) anything.
Proof. apply runs_up, io_only_write_status. Qed.
Lemma runs_read_status g a t n : runs (up (_fdb_read_status g a t n)) anything.
Proof. apply runs_up, io_only_read_status. Qed.
Lemma runs_write_align g a b : runs (up (_fdb_flash_write_align g a b)) anything.
Proof. apply runs_up, io_only_write_align. Qed.
#[local] Hint Resolve runs_read runs_write runs_erase runs_write_status runs_read_status
  runs_write_align : runs.

(** *** Caches *)

Lemma sector_table_ok s t :
  sec_ok s -> Forall sec_ok t -> Forall sec_ok (update_sector_table s t).
Proof.
  intros Hs Ht. unfold update_sector_table. destruct (sector_slot _ _ _ _) as [i|[i|]]; [| |done].
  - case_match; [by apply Forall_insert|].
    apply Forall_alter; [done|]. by intros x _.
  - case_match; [by apply Forall_insert|done].
Qed.
Lemma runs_update_sector_cache s :
  (check_ok s = true -> sec_ok s) -> runs (update_sector_cache s) anything.
Proof.
  intros Hs. apply runs_modify. intros d [H1 H2 H3]. split; cbn; auto.
  destruct (check_ok s) eqn:E; [by apply sector_table_ok; auto|].
  unfold update_sector_table. rewrite E. destruct (sector_slot _ _ _ _) as [i|[i|]]; [|done..].
  apply Forall_alter; [done|]. by intros x Hx.
Qed.
Lemma runs_get_sector_from_cache a :
  runs (get_sector_from_cache a) (fun r =>
    match r with Some (_, s) => sec_ok s /\ addr s = a | None => True end).
Proof.
  apply runs_gets. intros d Hd. destruct (list_find _ _) as [[i s]|] eqn:E; [|done].
  apply list_find_Some in E as (E & Ha & _). split; [|done].
  eapply Forall_lookup_1; [apply Hd|exact E].
Qed.
Lemma runs_store_sector_cache i s : sec_ok s -> runs (store_sector_cache i s) anything.
Proof. intros Hs. apply runs_modify. intros d [H1 H2 H3]. split; cbn; auto. by apply Forall_insert. Qed.
#[local] Hint Resolve runs_get_sector_from_cache : runs.
Lemma runs_update_sector_empty a e : runs (update_sector_empty_addr_cache a e) anything.
Proof.
  unfold update_sector_empty_addr_cache. run_step; intros [[i s]|] ?; run; apply runs_store_sector_cache; naive_solver.
Qed.
Lemma runs_update_sector_store a st : runs (update_sector_status_store_cache a st) anything.
Proof.
  unfold update_sector_status_store_cache. run_step; intros [[i s]|] ?; run; apply runs_store_sector_cache; naive_solver.
Qed.
Lemma runs_read_bytes b n : runs (read_bytes b n) anything.
Proof. unfold read_bytes. run. Qed.
#[local] Hint Resolve runs_update_sector_empty runs_update_sector_store runs_read_bytes : runs.
Lemma runs_update_kv_cache k n a : runs (update_kv_cache k n a) anything.
Proof. unfold update_kv_cache. run. Qed.
Lemma runs_kv_cache_search key crc n i : runs (kv_cache_search key crc n i) anything.
Proof. revert i. induction n as [|n IH]; intros i; cbn [kv_cache_search]; run. Qed.
Lemma runs_get_kv_from_cache key : runs (get_kv_from_cache key) anything.
Proof. apply runs_kv_cache_search. Qed.
#[local] Hint Resolve runs_update_kv_cache runs_get_kv_from_cache : runs.

(** *** The next record: strictly further on in the sector *)

Lemma runs_find_next start end_ :
  KV_MAGIC_OFFSET <= start -> end_ < 4294967296 ->
  runs (find_next_kv_addr start end_) (fun n => n = FAILED_ADDR \/ start <= n < end_).
Proof.
  intros Hs He. unfold find_next_kv_addr. run_step. run_step. intros c _.
  match goal with |- context [if ?c then mret FAILED_ADDR else _] => destruct c end; [apply runs_ret; by left|].
  apply runs_loop with (Inv := fun x => start <= x.1)
    (measure := fun x => Z.to_nat ((end_ - x.1) / 28)).
  - intros [cur buf] Hc. cbn [fst] in Hc |- *.
    destruct (Z.ltb_spec cur end_), (Z.ltb_spec (cur + 32) end_); cbn [andb];
      try (apply runs_ret; by left).
    run_step. intros [e b] _. cbn [fst snd]. case_decide; [|apply runs_ret; by left].
    set (o := find_magic b cur start end_ 28 0). destruct o as [a|] eqn:E; apply runs_ret.
    + right. eapply find_magic_range; [| |exact E]; lia.
    + cbn [fst]. unfold KV_MAGIC_OFFSET in Hs. wrap_small. split; [lia|].
      replace (end_ - cur) with (end_ - (cur + 28) + 1 * 28) by lia.
      rewrite Z.div_add by lia. pose proof (Z.div_pos (end_ - (cur + 28)) 28). lia.
  - cbn. lia.
  - cbn. lia.
Qed.

(** [sec] is a sector of the database. *)
Definition sec_at (s : kvdb_sec_info) : Prop :=
  sec_ok s /\ 0 <= addr s /\ addr s + sec_size G <= max_size G.

(** A valid record is not longer than the database. *)
Definition kv_ok (kv : fdb_kv) : Prop :=
  kv_crc_is_ok kv = true -> 0 <= kv_len kv <= max_size G.

Lemma runs_get_next_kv_addr s kv :
  sec_at s -> addr s + SECTOR_HDR_DATA_SIZE <= kv_start kv -> kv_ok kv ->
  runs (get_next_kv_addr s kv) (fun n =>
    n = FAILED_ADDR \/ kv_start kv = FAILED_ADDR /\ n = addr s + SECTOR_HDR_DATA_SIZE \/
    kv_start kv < n <= addr s + sec_size G).
Proof.
  intros (Hc & Ha & Hm) Hk Hl. destruct HG as [H64 Hd H2 H32]. unfold SECTOR_HDR_DATA_SIZE in *.
  unfold get_next_kv_addr. run_step. case_decide; [apply runs_ret; by left|].
  unfold SECTOR_HDR_DATA_SIZE. wrap_small.
  destruct (Z.eqb_spec (kv_start kv) FAILED_ADDR); [apply runs_ret; auto|].
  destruct (Z.leb_spec (kv_start kv) (addr s + sec_size G)); [|apply runs_ret; by left].
  set (start := if kv_crc_is_ok kv then _ else _).
  assert (start = kv_start kv + 1 \/ start = kv_start kv + kv_len kv /\ 0 <= kv_len kv) as Hstart.
  { subst start. unfold kv_ok in Hl. destruct (kv_crc_is_ok kv).
    - specialize (Hl eq_refl). right. wrap_small. lia.
    - left. rewrite WG_ALIGN_id by lia. wrap_small. done. }
  clearbody start. eapply runs_bind; [apply runs_find_next; unfold KV_MAGIC_OFFSET; lia|].
  cbn beta. intros next Hn. destruct (Z.eqb_spec (kv_len kv) 0).
  { rewrite orb_true_r. apply runs_ret. by left. }
  destruct (_ || false) eqn:Eb; apply runs_ret; [by left|].
  apply orb_false_elim in Eb as [[Eb%Z.eqb_neq _]%orb_false_elim _]. lia.
Qed.

(** *** A record *)

Lemma runs_read_crc a n crc : runs (read_crc a n crc) anything.
Proof.
  unfold read_crc. apply runs_loop with (Inv := anything)
    (measure := fun x => chunks_left (n - x.1.1)); [|done|apply chunks_fuel].
  intros [[k c] buf] _. cbn [fst]. destruct (Z.ltb_spec k n) as [Hk|]; [|by apply runs_ret].
  run_step; intros r _. apply runs_ret. split; [done|]. by apply chunks_step.
Qed.
#[local] Hint Resolve runs_read_crc : runs.

(** [read_kv] fills a record without moving it. *)
Definition read_of (kv : fdb_kv) (r : fdb_err_t * fdb_kv) : Prop :=
  kv_start (snd r) = kv_start kv /\ kv_ok (snd r).

Lemma runs_read_kv kv : runs (read_kv kv) (read_of kv).
Proof.
  unfold read_kv, read_of. run_step. intros hdr _. cbv zeta. run_step.
  destruct (_ || _) eqn:E.
  - eapply runs_bind with (R' := fun k => kv_start k = kv_start kv).
    + case_decide; [by apply runs_ret|]. run_step. intros _ _. by apply runs_ret.
    + intros k Hk. apply runs_ret. done.
  - apply orb_false_elim in E as [[E1 E2%Z.ltb_ge]%orb_false_elim E3%Z.ltb_ge].
    run_step. intros crc _. destruct (negb _).
    + run_step. intros r _. by apply runs_ret.
    + destruct (_ <? _); [by apply runs_stuck|]. run_step. intros r _. apply runs_ret.
      split; [done|]. intros _. cbn in E2, E3 |- *. unfold KV_HDR_DATA_SIZE in E3. lia.
Qed.
#[local] Hint Resolve runs_read_kv : runs.

(** *** A sector *)

Lemma sec_at_space s r e : sec_at s -> sec_at (sec_set_space r e s).
Proof. by intros [H1 H2]. Qed.

(** The measure of the loops over records: the part of the sector left. *)
Definition sec_left (s : kvdb_sec_info) (kv : fdb_kv) : nat :=
  Z.to_nat (addr s + sec_size G - kv_start kv).
(** The record is inside the sector. *)
Definition kv_in (s : kvdb_sec_info) (kv : fdb_kv) : Prop :=
  addr s + SECTOR_HDR_DATA_SIZE <= kv_start kv <= addr s + sec_size G.

Lemma runs_next_kv s kv :
  sec_at s -> kv_in s kv -> kv_ok kv ->
  runs (get_next_kv_addr s kv) (fun n => (n =? FAILED_ADDR) = false ->
    kv_in s (kv_set_start n kv) /\ (sec_left s (kv_set_start n kv) < sec_left s kv)%nat).
Proof.
  intros Hs Hk Hok. eapply runs_weaken; [apply runs_get_next_kv_addr; [done|apply Hk|done]|].
  destruct Hs as (_ & Ha & Hm), Hk as [Hk1 Hk2], HG as [H64 Hd H2 H32].
  intros n [->|[[Hf _]|Hn]]; [done| |].
  - exfalso. unfold FAILED_ADDR, FDB_FAILED_ADDR in *. lia.
  - intros _. unfold kv_in, sec_left. cbn. unfold SECTOR_HDR_DATA_SIZE in *. lia.
Qed.

(** The first record of a sector. *)
Lemma first_kv_in s kv :
  sec_at s ->
  kv_in s (kv_set_start (u32 (addr s + SECTOR_HDR_DATA_SIZE)) kv) /\
  (sec_left s (kv_set_start (u32 (addr s + SECTOR_HDR_DATA_SIZE)) kv) < Z.to_nat (sec_size G) + 2)%nat.
Proof.
  intros (_ & Ha & Hm). destruct HG as [H64 Hd H2 H32].
  unfold kv_in, sec_left, SECTOR_HDR_DATA_SIZE. cbn [kv_start kv_set_start]. wrap_small. lia.
Qed.

(** [sec_at] with the address of [s]. *)
Definition sec_same (s : kvdb_sec_info) (s' : kvdb_sec_info) : Prop :=
  sec_at s' /\ addr s' = addr s.

Lemma runs_read_sector_kvs s :
  sec_at s -> runs (read_sector_kvs s) (fun r => sec_same s (snd r)).
Proof.
  intros Hs. unfold read_sector_kvs. run_step.
  apply runs_loop with (Inv := fun x => sec_same s x.1 /\ kv_in s x.2) (measure := fun x => sec_left s x.2);
    [|split; [done|by apply first_kv_in]|by apply first_kv_in].
  intros [s' kv] [[Hs' Ea] Hk]. cbn [fst snd] in *.
  eapply runs_bind; [apply runs_read_kv|]. intros [e kv'] [Hst Hok]. cbn [fst snd] in *. cbv zeta.
  destruct (_ && _); [by apply runs_ret|].
  eapply runs_bind.
  { apply runs_next_kv; [by apply sec_at_space| |exact Hok]. unfold kv_in in *. cbn. by rewrite Ea, Hst. }
  cbn beta. intros n Hn. destruct (n =? FAILED_ADDR); apply runs_ret; [done|].
  destruct (Hn eq_refl) as [H1 H2]. unfold kv_in, sec_left in *. cbn in *.
  rewrite Ea, Hst in *. done.
Qed.

Lemma runs_continue g a b :
  b + 32 < 4294967296 -> runs (up (_fdb_continue_ff_addr g a b)) anything.
Proof. intros Hb. by apply runs_up, io_only_continue. Qed.

Lemma runs_traverse_sector s :
  sec_at s -> runs (traverse_sector s) (fun r => sec_same s (snd r)).
Proof.
  intros Hs. destruct (Hs) as (Hc & Ha & Hm). destruct HG as [H64 Hd H2 H32].
  unfold traverse_sector. run_step. cbv zeta.
  eapply runs_bind with (R' := fun r => sec_same s (snd r)).
  - destruct (store _); try (apply runs_ret; done).
    eapply runs_bind; [apply runs_read_sector_kvs; done|].
    intros [e s'] [Hs' Ea]. cbn [fst snd addr sec_set_space] in *.
    eapply runs_bind; [apply runs_continue; rewrite Ea; wrap_small; lia|]. intros ff _.
    apply runs_ret. cbn [snd]. by destruct (_ =? _).
  - intros [e s'] Hr. eapply runs_bind; [apply runs_update_sector_cache; intros _; apply Hr|].
    intros _ _. by apply runs_ret.
Qed.

(** The sector [read_sector_info] returns, for an address in the database. *)
Lemma runs_read_sector_info a s t :
  0 <= a < max_size G ->
  runs (read_sector_info a s t) (fun r => sec_at (snd r) /\ addr (snd r) = a).
Proof.
  intros Ha. destruct (HG) as [H64 Hd H2 H32]. unfold read_sector_info. run_step.
  rewrite (proj2 (Z.eqb_neq _ _)) by lia.
  eapply runs_bind; [apply runs_assert|]. cbn beta. intros _ Hmod%Z.eqb_eq.
  assert (a + sec_size G <= max_size G) as Hend.
  { pose proof (in_sector_end G a (sec_size G) HG). unfold in_sector in *. lia. }
  eapply runs_bind; [apply runs_get_sector_from_cache|]. cbn beta. intros cached Hcached.
  match goal with |- context [match ?c with Some s => mret (FDB_NO_ERR, s) | None => _ end] =>
    destruct c as [s'|] eqn:E end.
  { apply runs_ret. destruct cached as [[i s0]|]; [|done]. destruct (_ || _); [|done].
    injection E as <-. destruct Hcached as [Hc <-]. split; [|done]. split; [done|]. cbn [snd]. lia. }
  run_step. intros hdr _. cbv zeta. destruct (_ || _) eqn:Em.
  { apply runs_ret. split; [|done]. split; [by left|]. cbn. lia. }
  apply orb_false_elim in Em as [_ Ec].
  match goal with |- context [traverse_sector ?x] => set (s1 := x) end.
  assert (sec_at s1) as Hs1.
  { split; [|cbn; lia]. unfold sec_ok. cbn.
    destruct (Z.eqb_spec (sh_combined (dec_sector_hdr (snd hdr))) SECTOR_NOT_COMBINED); [by left|].
    cbn [negb andb] in Ec. apply negb_false_iff, Z.eqb_eq in Ec. by right. }
  destruct t; [eapply runs_weaken; [by apply runs_traverse_sector|]; by intros r []|].
  eapply runs_bind; [apply runs_get_sector_from_cache|]. cbn beta. intros [x|] _; [by apply runs_ret|].
  eapply runs_bind; [apply runs_update_sector_cache; intros _; apply Hs1|].
  intros _ _. by apply runs_ret.
Qed.

(** The size of a sector as [get_next_sector_addr] computes it. *)
Lemma sector_block s :
  sec_ok s -> exists b, (b = sec_size G \/ b = 0) /\
    (if combined s =? SECTOR_NOT_COMBINED then sec_size G
     else u32 (combined s * sec_size G)) = b.
Proof. intros [-> | ->]; eexists; (split; [|reflexivity]); [by left|by right]. Qed.

(** The next sector, after [t] bytes were traversed. *)
Lemma next_sector (d : fdb_kvdb W) s t :
  kinv G d -> sec_at s -> 0 <= t -> t + sec_size G < 4294967296 ->
  get_next_sector_addr d s t = FAILED_ADDR \/
  0 <= get_next_sector_addr d s t < max_size G /\ t <= max_size G.
Proof.
  intros Hd (Hc & Ha & Hm) Ht Ht32. destruct HG as [H64 Hdv H2 H32].
  unfold get_next_sector_addr, kv_sec_size, kv_max_size. rewrite (ki_geo _ d Hd).
  destruct (sector_block s Hc) as (b & Hb & ->).
  assert (t + b < 4294967296 /\ addr s + b < 4294967296 /\ 0 <= b) as (? & ? & ?) by lia.
  wrap_small. destruct (Z.leb_spec (t + b) (max_size G)); [|by left]. right.
  destruct (Z.ltb_spec (addr s + b) (max_size G)); lia.
Qed.

(** The state of a loop over the sectors: the next address, and how much was
    traversed before it. *)
Definition walk_in (a t : Z) : Prop := 0 <= a < max_size G /\ 0 <= t <= max_size G.
Definition walk_left (t : Z) : nat := Z.to_nat ((max_size G + sec_size G - t) / sec_size G).

Lemma walk_fuel : (walk_left 0 < Z.to_nat (max_size G / sec_size G) + 2)%nat.
Proof.
  destruct HG as [H64 Hdv H2 H32]. unfold walk_left.
  replace (max_size G + sec_size G - 0) with (max_size G + 1 * sec_size G) by lia.
  rewrite Z.div_add by lia. pose proof (Z.div_pos (max_size G) (sec_size G)). lia.
Qed.

(** Going on to the next sector makes progress. *)
Lemma runs_next_sector {R} (s : kvdb_sec_info) (t t' : Z) (k : fdb_kvdb W -> M (fdb_kvdb W) R) Q :
  sec_at s -> 0 <= t <= max_size G -> t' = u32 (t + sec_size G) ->
  (forall d, kinv G d ->
     get_next_sector_addr d s t' = FAILED_ADDR \/
     walk_in (get_next_sector_addr d s t') t' /\ (walk_left t' < walk_left t)%nat ->
     may (k d) (fun r d' => kinv G d' /\ Q r) d) ->
  runs (d ← gets id; k d) Q.
Proof.
  intros Hs Ht -> Hk d Hd. destruct (HG) as [H64 Hdv H2 H32]. apply may_bind, may_gets. cbn beta.
  apply Hk; [done|]. unfold walk_in, walk_left. wrap_small.
  destruct (Z.ltb_spec (t + sec_size G + sec_size G) 4294967296) as [Hlt|Hge].
  - destruct (next_sector d s (t + sec_size G) Hd Hs ltac:(lia) Hlt) as [H|[H1 H3]]; [by left|].
    right. split; [lia|].
    replace (max_size G + sec_size G - t)
      with (max_size G + sec_size G - (t + sec_size G) + 1 * sec_size G) by lia.
    rewrite Z.div_add by lia.
    pose proof (Z.div_pos (max_size G + sec_size G - (t + sec_size G)) (sec_size G)). lia.
  - exfalso. assert (2 * sec_size G <= max_size G) by lia. lia.
Qed.

(** A loop over the sectors whose body reads the sector at the current
    address and goes on from there. *)
Lemma runs_walk {X R} (a0 t0 : X -> Z) fuel (body : X -> M (fdb_kvdb W) (X + R)) x (Q : R -> Prop) :
  walk_in (a0 x) 0 -> t0 x = 0 -> fuel = (Z.to_nat (max_size G / sec_size G) + 2)%nat ->
  (forall x, walk_in (a0 x) (t0 x) -> runs (body x) (fun r =>
     match r with
     | inl x' => walk_in (a0 x') (t0 x') /\ (walk_left (t0 x') < walk_left (t0 x))%nat
     | inr r => Q r
     end)) ->
  runs (loop fuel body x) Q.
Proof.
  intros Hx Ht -> Hb.
  apply runs_loop with (Inv := fun x => walk_in (a0 x) (t0 x)) (measure := fun x => walk_left (t0 x));
    [exact Hb|by rewrite Ht|rewrite Ht; apply walk_fuel].
Qed.

Lemma runs_iterate_sector {A} (cb : fdb_kv -> A -> M (fdb_kvdb W) (bool * A)) s k (a : A) :
  sec_at s -> (forall k a, runs (cb k a) anything) -> runs (iterate_sector cb s k a) anything.
Proof.
  intros Hs Hcb. unfold iterate_sector. run_step.
  apply runs_loop with (Inv := fun x => kv_in s x.1) (measure := fun x => sec_left s x.1);
    [|by apply first_kv_in..].
  intros [kv arg] Hk. cbn [fst] in *.
  eapply runs_bind; [apply runs_read_kv|]. intros [e kv'] [Hst Hok]. cbn [fst snd] in *. cbv zeta.
  eapply runs_bind; [apply Hcb|]. intros [stop arg'] _. cbn [fst snd].
  destruct stop; [by apply runs_ret|].
  eapply runs_bind; [apply runs_next_kv; [done| |exact Hok]; unfold kv_in in *; by rewrite Hst|].
  cbn beta. intros n Hn. destruct (n =? FAILED_ADDR); apply runs_ret; [done|].
  destruct (Hn eq_refl) as [H1 H2]. split; [done|]. unfold sec_left in *. by rewrite Hst in H2.
Qed.

Lemma oldest_walk a : 0 <= a < max_size G -> walk_in a 0.
Proof. destruct HG. split; lia. Qed.

Lemma runs_kv_iterator {A} k (a : A) cb :
  (forall f k a, cb = Some f -> runs (f k a) anything) -> runs (kv_iterator k a cb) anything.
Proof.
  intros Hcb. unfold kv_iterator. run_step. run_step.
  apply runs_walk with (a0 := fun x => x.1.1.1.1) (t0 := fun x => x.1.1.1.2);
    [by apply oldest_walk|done..|].
  intros [[[[sa t] s] kv] arg] [Ha Ht]. cbn [fst snd] in *. run_step. cbv zeta.
  eapply runs_bind; [by apply runs_read_sector_info|]. intros [e s'] [Hs _]. cbn [fst snd] in *.
  eapply runs_bind with (R' := anything).
  { destruct cb as [f|]; [|by apply runs_ret]. destruct (_ && _); [|by apply runs_ret].
    apply runs_iterate_sector; [done|]. intros. by apply Hcb. }
  intros [[stop kv'] arg'] _. destruct stop; [by apply runs_ret|].
  eapply runs_next_sector; [done|exact Ht|done|]. intros d Hd [->|[H1 H2]]; [by apply may_ret|].
  destruct (_ =? _); by apply may_ret.
Qed.

Lemma runs_find_kv_cb key k b : runs (find_kv_cb key k b) anything.
Proof. unfold find_kv_cb. run. Qed.
Lemma runs_find_kv_no_cache key k : runs (find_kv_no_cache key k) anything.
Proof.
  unfold find_kv_no_cache. eapply runs_bind; [|by intros; apply runs_ret].
  apply runs_kv_iterator. intros f k' a [= <-]. apply runs_find_kv_cb.
Qed.
#[local] Hint Resolve runs_find_kv_no_cache : runs.
Lemma runs_read_kv_any k : runs (read_kv k) anything.
Proof. eapply runs_any, runs_read_kv. Qed.
#[local] Hint Resolve runs_read_kv_any : runs.
Lemma runs_find_kv key k : runs (find_kv key k) anything.
Proof. unfold find_kv. run. Qed.
#[local] Hint Resolve runs_find_kv : runs.
Lemma runs_get_kv key b n : runs (get_kv key b n) anything.
Proof. unfold get_kv. run. Qed.

(** *** Writing *)

Lemma runs_write_kv_status a s sync : runs (write_kv_status a s sync) anything.
Proof. apply runs_write_status. Qed.
#[local] Hint Resolve runs_write_kv_status : runs.
Lemma runs_write_kv_hdr a h : runs (write_kv_hdr a h) anything.
Proof. unfold write_kv_hdr. run. Qed.
Lemma runs_forget_sector a :
  runs (update_sector_cache
    (KvSec false FDB_SECTOR_STORE_UNUSED FDB_SECTOR_DIRTY_UNUSED a 0 0 0 FAILED_ADDR)) anything.
Proof. by apply runs_update_sector_cache. Qed.
#[local] Hint Resolve runs_write_kv_hdr runs_forget_sector : runs.
Lemma runs_format_sector a c : runs (format_sector a c) anything.
Proof. unfold format_sector. run. Qed.
Lemma runs_write_store_status a s : runs (write_store_status a s) anything.
Proof. apply runs_write_status. Qed.
#[local] Hint Resolve runs_format_sector runs_write_store_status : runs.
Lemma runs_update_sec_status s n b : runs (update_sec_status s n b) anything.
Proof. unfold update_sec_status. run. Qed.
#[local] Hint Resolve runs_update_sec_status : runs.

(** The callback keeps a property of its argument. *)
Lemma runs_sector_iterator {A} (P : A -> Prop) s st (a : A) cb t :
  P a ->
  (forall f s a, cb = Some f -> sec_at s -> P a -> runs (f s a) (fun c => P (snd c))) ->
  runs (sector_iterator s st a cb t) (fun r => P (snd r)).
Proof.
  intros HP Hcb. unfold sector_iterator. run_step. run_step.
  apply runs_loop with (Inv := fun x => walk_in x.1.1.1 x.1.1.2 /\ P x.2)
    (measure := fun x => walk_left x.1.1.2); [|split; [by apply oldest_walk|done]|apply walk_fuel].
  intros [[[sa tl] s'] arg] [[Ha Ht] Harg]. cbn [fst snd] in *. run_step. cbv zeta.
  eapply runs_bind; [by apply runs_read_sector_info|]. intros [e s1] [Hs _]. cbn [fst snd] in *.
  eapply runs_bind with (R' := fun r => sec_at r.1.2 /\ P r.2).
  { destruct (_ || _); [|by apply runs_ret].
    eapply runs_bind with (R' := sec_at).
    - destruct t; [|by apply runs_ret].
      eapply runs_bind; [by apply runs_read_sector_info|]. intros r [Hr _]. by apply runs_ret.
    - intros s2 Hs2. destruct cb as [f|]; [|by apply runs_ret].
      eapply runs_bind; [by apply Hcb|]. cbn beta. intros c Hc. by apply runs_ret. }
  intros [[stop s2] arg'] [Hs2 Harg']. cbn [fst snd] in *. destruct stop; [by apply runs_ret|].
  eapply runs_next_sector; [done|exact Ht|done|]. intros d Hd [->|[H1 H2]]; [by apply may_ret|].
  destruct (_ =? _); by apply may_ret.
Qed.
Lemma runs_sector_iterator_any {A} s st (a : A) cb t :
  (forall f s a, cb = Some f -> sec_at s -> runs (f s a) anything) ->
  runs (sector_iterator s st a cb t) anything.
Proof.
  intros Hcb. eapply runs_any, (runs_sector_iterator anything); [done|]. intros. by apply Hcb.
Qed.

Lemma runs_alloc_kv s n : runs (alloc_kv s n) anything.
Proof.
  unfold alloc_kv. eapply runs_bind with (R' := anything).
  { apply runs_sector_iterator_any. intros f s' a [= <-] _. unfold sector_statistics_cb. run. }
  intros [s1 [e u]] _. eapply runs_bind with (R' := anything).
  { destruct (0 <? u); [|by apply runs_ret]. apply runs_sector_iterator_any.
    intros f s' a [= <-] _. unfold alloc_kv_cb. run. }
  intros [s2 k] _. destruct (_ && _); [|by apply runs_ret]. run_step. destruct (_ || _); [|run].
  eapply runs_bind with (R' := anything); [|intros; by apply runs_ret].
  apply runs_sector_iterator_any. intros f s' a' [= <-] _. unfold alloc_kv_cb. run.
Qed.
Lemma runs_store_dirty i s : sec_ok s -> runs (store_sector_cache i (sec_set_dirty FDB_SECTOR_DIRTY_TRUE s)) anything.
Proof. intros Hs. by apply runs_store_sector_cache. Qed.
Lemma runs_del_kv k o b : runs (del_kv k o b) anything.
Proof.
  unfold del_kv. eapply runs_bind with (R' := anything); [run|]. intros [old|] _; [|run].
  cbv zeta. eapply runs_bind; [apply runs_write_kv_status|]. intros e _.
  eapply runs_bind with (R' := anything); [run|]. intros _ _. run_step.
  eapply runs_bind with (R' := anything); [run|]. intros _ _. cbv zeta. case_decide; [|run].
  eapply runs_bind; [apply runs_read_status|]. intros st _. destruct (_ =? _); [|run].
  eapply runs_bind; [apply runs_write_status|]. intros e' _.
  eapply runs_bind; [apply runs_get_sector_from_cache|]. cbn beta. intros [[i s]|] Hs; [|run].
  eapply runs_bind; [apply runs_store_dirty, Hs|]. run.
Qed.
Lemma runs_copy_kv a b n : runs (copy_kv a b n) anything.
Proof.
  unfold copy_kv. apply runs_loop with (Inv := anything)
    (measure := fun x => chunks_left (n - x.1.1)); [|done|apply chunks_fuel].
  intros [[k c] buf] _. cbn [fst]. destruct (Z.ltb_spec k n) as [Hk|]; [|by apply runs_ret].
  run_step; intros r _. cbv zeta. run_step; intros e _. apply runs_ret. split; [done|].
  by apply chunks_step.
Qed.
#[local] Hint Resolve runs_alloc_kv runs_del_kv runs_copy_kv : runs.
Lemma runs_move_kv k : runs (move_kv k) anything.
Proof. unfold move_kv. run. Qed.
#[local] Hint Resolve runs_move_kv : runs.

Lemma runs_gc_sector_kvs s : sec_at s -> runs (gc_sector_kvs s) anything.
Proof.
  intros Hs. unfold gc_sector_kvs. run_step.
  apply runs_loop with (Inv := kv_in s) (measure := sec_left s); [|by apply first_kv_in..].
  intros kv Hk. eapply runs_bind; [apply runs_read_kv|]. intros [e kv'] [Hst Hok].
  cbn [fst snd] in *. cbv zeta. eapply runs_bind with (R' := anything); [run|]. intros _ _.
  eapply runs_bind; [apply runs_next_kv; [done| |exact Hok]; unfold kv_in in *; by rewrite Hst|].
  cbn beta. intros n Hn. destruct (n =? FAILED_ADDR); apply runs_ret; [done|].
  destruct (Hn eq_refl) as [H1 H2]. split; [done|]. unfold sec_left in *. by rewrite Hst in H2.
Qed.

(** The oldest sector after a collection: the one after the collected one. *)
Lemma runs_set_oldest s :
  sec_at s ->
  runs (modify (fun d => set_parent (set_oldest_addr (get_next_sector_addr d s 0) (parent d)) d))
       anything.
Proof.
  intros Hs. apply runs_modify. intros d Hd.
  destruct HG as [H64 Hdv H2 H32]. assert (0 + sec_size G < 4294967296) as Ht by lia.
  destruct (next_sector d s 0 Hd Hs ltac:(lia) Ht) as [H|[H _]].
  - exfalso. revert H. unfold get_next_sector_addr, kv_sec_size, kv_max_size.
    rewrite (ki_geo _ d Hd). destruct Hs as (Hc & Ha & Hm).
    destruct (sector_block s Hc) as (b & Hb & ->).
    wrap_small. rewrite (proj2 (Z.leb_le (0 + b) _)) by lia.
    destruct (_ <? _); unfold FAILED_ADDR, FDB_FAILED_ADDR; lia.
  - destruct Hd. by split.
Qed.

Definition addr_in (a : Z) : Prop := 0 <= a < max_size G.

Lemma sec_addr_in s : sec_at s -> addr_in (addr s).
Proof. intros (_ & H1 & H2). destruct HG. unfold addr_in. lia. Qed.

Lemma runs_do_gc n s a : sec_at s -> addr_in a -> runs (do_gc n s a) (fun c => addr_in (snd c)).
Proof.
  intros Hs Ha. unfold do_gc. destruct (_ && _); [|by apply runs_ret].
  eapply runs_bind; [apply runs_write_status|]. intros _ _.
  eapply runs_bind; [by apply runs_gc_sector_kvs|]. intros _ _.
  eapply runs_bind; [apply runs_format_sector|]. intros _ _. cbv zeta. run_step.
  eapply runs_bind; [by apply runs_set_oldest|]. intros _ _.
  assert (u32 a = a) as -> by (destruct HG; unfold addr_in in Ha; wrap_small; done).
  eapply runs_bind; [by apply runs_read_sector_info|]. intros r _. apply runs_ret.
  by apply sec_addr_in.
Qed.
Lemma runs_gc_collect_by_free_size n : runs (gc_collect_by_free_size n) anything.
Proof.
  unfold gc_collect_by_free_size.
  eapply runs_bind; [apply runs_sector_iterator with (P := fun a : Z * Z => addr_in a.2)|].
  - destruct HG. unfold addr_in. cbn. lia.
  - intros f s a [= <-] Hs Ha. unfold gc_check_cb. destruct (check_ok s); apply runs_ret; [|done].
    by apply sec_addr_in.
  - intros [s [e ea]] Ha. eapply runs_bind with (R' := anything); [|run].
    destruct (_ <=? _); [|run]. eapply runs_bind with (R' := anything); [|run].
    eapply runs_any, runs_sector_iterator with (P := addr_in); [done|].
    intros f s' a [= <-] Hs Ha'. by apply runs_do_gc.
Qed.
#[local] Hint Resolve runs_gc_collect_by_free_size : runs.
Lemma runs_new_kv s n : runs (new_kv s n) anything.
Proof.
  unfold new_kv. apply runs_loop with (Inv := anything) (measure := fun x : bool * _ => if x.1 then 0%nat else 1%nat);
    [|done|cbn; lia].
  intros [gc s'] _. eapply runs_bind; [apply runs_alloc_kv|]. intros [e s1] _.
  destruct (_ =? _); [|run]. run_step. destruct a, gc; cbn [negb andb]; run.
Qed.
#[local] Hint Resolve runs_new_kv : runs.
Lemma runs_create_kv_blob s k v n : runs (create_kv_blob s k v n) anything.
Proof. unfold create_kv_blob. run. Qed.
#[local] Hint Resolve runs_create_kv_blob : runs.
Lemma runs_set_kv k v n : runs (set_kv k v n) anything.
Proof. unfold set_kv, new_kv_ex. run. Qed.
#[local] Hint Resolve runs_get_kv runs_set_kv : runs.

(** *** The public functions *)

Lemma runs_lock : runs (up db_lock) anything.
Proof.
  intros d []. apply may_zoom, may_modify. destruct (lock (parent d)); (split; [by split|done]).
Qed.
Lemma runs_unlock : runs (up db_unlock) anything.
Proof.
  intros d []. apply may_zoom, may_modify. destruct (unlock (parent d)); (split; [by split|done]).
Qed.
#[local] Hint Resolve runs_lock runs_unlock : runs.
Lemma runs_locked {A} (p : M (fdb_kvdb W) A) : runs p anything -> runs (locked p) anything.
Proof. intros Hp. unfold locked. run. Qed.

Lemma runs_format_all : runs format_all anything.
Proof.
  unfold format_all. run_step.
  apply runs_loop with (Inv := fun x => 0 <= x.1)
    (measure := fun x => Z.to_nat ((max_size G + sec_size G - x.1) / sec_size G));
    [|done|apply walk_fuel].
  intros [a e] Ha. cbn [fst] in *. run_step. run_step. destruct (Z.ltb_spec a (max_size G)); [|run].
  eapply runs_bind; [apply runs_format_sector|]. intros e' _. case_decide; [|run].
  destruct HG as [H64 Hdv H2 H32]. apply runs_ret. cbn [fst]. wrap_small. split; [lia|].
  replace (max_size G + sec_size G - a)
    with (max_size G + sec_size G - (a + sec_size G) + 1 * sec_size G) by lia.
  rewrite Z.div_add by lia.
  pose proof (Z.div_pos (max_size G + sec_size G - (a + sec_size G)) (sec_size G)). lia.
Qed.
Lemma runs_create_defaults l s : runs (create_defaults l s) anything.
Proof.
  revert s. induction l as [|x l IH]; intros s; cbn [create_defaults]; unfold default_value_len; run.
Qed.
#[local] Hint Resolve runs_format_all runs_create_defaults : runs.
Lemma runs_set_default : runs fdb_kv_set_default anything.
Proof.
  unfold fdb_kv_set_default. run. destruct HG. lia.
Qed.

Lemma runs_print_value_pass kv b buf : runs (print_value_pass kv b buf) anything.
Proof.
  unfold print_value_pass. apply runs_loop with (Inv := anything)
    (measure := fun x => chunks_left (kv_value_len kv - x.1.1)); [|done|apply chunks_fuel].
  intros [[k out] buf'] _. cbn [fst]. destruct (Z.ltb_spec k (kv_value_len kv)); [|by apply runs_ret].
  run_step; intros r _. cbv zeta.
  repeat match goal with |- context [if ?c then mret _ else _] => destruct c end; apply runs_ret;
    split; try done; by apply chunks_step.
Qed.
#[local] Hint Resolve runs_print_value_pass : runs.
Lemma runs_print_kv_cb kv a : runs (print_kv_cb kv a) anything.
Proof. unfold print_kv_cb. run. Qed.
Lemma runs_print : runs fdb_kv_print anything.
Proof.
  unfold fdb_kv_print. run_step. destruct (negb _); [run|]. apply runs_locked.
  eapply runs_bind; [apply runs_kv_iterator|run]. intros f k a' [= <-]. apply runs_print_kv_cb.
Qed.

Lemma runs_check_sector_kvs s kv : sec_at s -> runs (check_sector_kvs s kv) anything.
Proof.
  intros Hs. unfold check_sector_kvs. run_step.
  apply runs_loop with (Inv := kv_in s) (measure := sec_left s); [|by apply first_kv_in..].
  intros k Hk. eapply runs_bind; [apply runs_read_kv|]. intros [e kv'] [Hst Hok].
  cbn [fst snd] in *. cbv zeta.
  eapply runs_bind; [apply runs_next_kv; [done| |exact Hok]; unfold kv_in in *; by rewrite Hst|].
  cbn beta. intros n Hn. destruct (n =? FAILED_ADDR); cbn [negb andb]; [by apply runs_ret|].
  destruct (bool_decide _); apply runs_ret; [|done].
  destruct (Hn eq_refl) as [H1 H2]. split; [done|]. unfold sec_left in *. by rewrite Hst in H2.
Qed.
Lemma runs_check : runs fdb_kvdb_check anything.
Proof.
  unfold fdb_kvdb_check. run_step. destruct (negb _); [run|]. apply runs_locked. run_step. run_step.
  apply runs_walk with (a0 := fun x => x.1.1.1) (t0 := fun x => x.1.1.2);
    [by apply oldest_walk|done..|].
  intros [[[sa t] s] kv] [Ha Ht]. cbn [fst snd] in *. run_step. cbv zeta.
  eapply runs_bind; [by apply runs_read_sector_info|]. intros [e s'] [Hs _]. cbn [fst snd] in *.
  eapply runs_bind with (R' := anything).
  { destruct (_ && _); [|by apply runs_ret]. by apply runs_check_sector_kvs. }
  intros [e' kv'] _. eapply runs_next_sector; [done|exact Ht|done|].
  intros d Hd [->|[H1 H2]]; [by apply may_ret|].
  destruct (_ && _); by apply may_ret.
Qed.

Lemma runs_get_blob key blob : runs (fdb_kv_get_blob key blob) anything.
Proof.
  unfold fdb_kv_get_blob. run_step. destruct (negb _); [run|].
  eapply runs_bind; [apply runs_locked, runs_get_kv|]. run.
Qed.
Lemma runs_set_blob key blob : runs (fdb_kv_set_blob key blob) anything.
Proof. unfold fdb_kv_set_blob. run_step. destruct (negb _); [run|apply runs_locked, runs_set_kv]. Qed.
Lemma runs_del key : runs (fdb_kv_del key) anything.
Proof. unfold fdb_kv_del. run_step. destruct (negb _); [run|apply runs_locked, runs_del_kv]. Qed.

Lemma runs_call c : runs (run_call c) anything.
Proof.
  destruct c as [key kv|key blob|key blob|key value|key value|key| | |]; cbn [run_call];
    (eapply runs_bind with (R' := anything); [|intros; by apply runs_ret]).
  - unfold fdb_kv_get_obj. run_step. destruct (negb _); [run|].
    eapply runs_bind; [apply runs_locked, runs_find_kv|]. run.
  - apply runs_get_blob.
  - apply runs_set_blob.
  - unfold fdb_kv_get. eapply runs_bind; [apply runs_get_blob|]. run.
  - destruct value; [apply runs_set_blob|apply runs_del].
  - apply runs_del.
  - apply runs_set_default.
  - apply runs_print.
  - apply runs_check.
Qed.

Lemma runs_run_calls cs : runs (run_calls cs) anything.
Proof.
  induction cs as [|c cs IH]; cbn [run_calls]; [run|].
  eapply runs_bind; [apply runs_call|]. intros _ _. exact IH.
Qed.

(** *** The iterator *)

(** An iterator on the way: its sector is one of the database, and its record
    one of the sector. *)
Record itr_ok (itr : fdb_kv_iterator) : Prop := {
  io_walk : walk_in (sector_addr itr) (traversed_len itr);
  io_kv : kv_start (curr_kv itr) = 0 \/
          sector_addr itr + SECTOR_HDR_DATA_SIZE <= kv_start (curr_kv itr) <=
            sector_addr itr + sec_size G /\ kv_ok (curr_kv itr);
}.

Lemma runs_iterate_valid s kv :
  sec_at s -> kv_in s kv ->
  runs (iterate_valid s kv) (fun r => fst r = true -> kv_in s (snd r) /\ kv_ok (snd r)).
Proof.
  intros Hs Hk. unfold iterate_valid. run_step.
  apply runs_loop with (Inv := kv_in s) (measure := sec_left s); [|done|].
  2:{ unfold sec_left, kv_in, SECTOR_HDR_DATA_SIZE in *. lia. }
  intros k Hk'. eapply runs_bind; [apply runs_read_kv|]. intros [e k'] [Hst Hok].
  cbn [fst snd] in *. cbv zeta.
  destruct (_ && _).
  { apply runs_ret. intros _. split; [unfold kv_in in *; cbn [snd]; lia|done]. }
  eapply runs_bind; [apply runs_next_kv; [done| |exact Hok]; unfold kv_in in *; by rewrite Hst|].
  cbn beta. intros n Hn. destruct (n =? FAILED_ADDR); apply runs_ret; [done|].
  destruct (Hn eq_refl) as [H1 H2]. split; [done|]. unfold sec_left in *. by rewrite Hst in H2.
Qed.

Lemma runs_iterate itr :
  itr_ok itr ->
  runs (fdb_kv_iterate itr) (fun r =>
    if (fst r : bool) then itr_ok (snd r) else sector_addr (snd r) = FAILED_ADDR).
Proof.
  intros Hitr. unfold fdb_kv_iterate. run_step.
  apply runs_loop with (Inv := fun x => itr_ok x.1) (measure := fun x => walk_left (traversed_len x.1));
    [|done|].
  2:{ destruct Hitr as [[Ha Ht] _]. pose proof walk_fuel. unfold walk_left in *. cbn [fst].
      destruct HG as [H64 Hdv H2 H32].
      pose proof (Z.div_le_mono (max_size G + sec_size G - traversed_len itr)
                    (max_size G + sec_size G - 0) (sec_size G) ltac:(lia) ltac:(lia)).
      pose proof (Z.div_pos (max_size G + sec_size G - traversed_len itr) (sec_size G)). lia. }
  intros [i s] [[Ha Ht] Hkv]. cbn [fst snd] in *. run_step.
  eapply runs_bind; [by apply runs_read_sector_info|]. intros [e s'] [Hs Ea]. cbn [fst snd] in *.
  cbv zeta.
  eapply runs_bind with (R' := fun r => fst r = true -> kv_in s' (snd r) /\ kv_ok (snd r)).
  { destruct (_ && _); [|by apply runs_ret]. destruct (Z.eqb_spec (kv_start (curr_kv i)) 0) as [_|Hne].
    - apply runs_iterate_valid; [done|by apply first_kv_in].
    - assert (kv_in s' (curr_kv i)) as Hin by (unfold kv_in; rewrite Ea; lia).
      eapply runs_bind; [apply runs_next_kv; [done..|]; lazymatch goal with |- kv_ok _ => naive_solver end|].
      cbn beta. intros n Hn. destruct (n =? FAILED_ADDR); [by apply runs_ret|].
      apply runs_iterate_valid; [done|by apply Hn]. }
  intros [found kv] Hf. cbn [fst snd] in *. destruct found.
  { apply runs_ret. cbn [fst snd]. destruct (Hf eq_refl) as [Hin Hok].
    split; cbn; [done|]. right. unfold kv_in in Hin. rewrite Ea in Hin. naive_solver. }
  eapply runs_next_sector; [done|exact Ht|done|]. intros d Hd [->|[H1 H2]]; [by apply may_ret|].
  destruct (Z.eqb_spec (get_next_sector_addr d s' (u32 (traversed_len i + sec_size G))) FAILED_ADDR) as [->|];
    apply may_ret; (split; [done|]); [done|]. split; [|done]. split; cbn; [done|by left].
Qed.
End operations.

(** ** Theorems *)

Section theorems.
Context {W} {ST : Storage W} {TM : StorageTerm W} {IN : Indeterminate} {KB : KvBuild}.
Implicit Type d : fdb_kvdb W.

(** What the loops need of a database: a geometry as [_fdb_init_ex] checks it
    for at most 2 GiB, the oldest address inside, and a sector cache filled by
    [read_sector_info]. *)
Definition db_sane d : Prop :=
  geom_ok (geo (parent d)) /\ 2 * max_size (geo (parent d)) < 4294967296 /\
  kinv (geo (parent d)) d.


(** Iteration terminates and ends definitely: [fdb_kv_iterate] on an
    iterator that [fdb_kv_iterator_init] or an earlier successful call made
    finishes, with a record of the current sector or with [false]; after
    [false] the iterator is not usable any more: calling [fdb_kv_iterate] on
    it again fails an assertion (which loops forever in the code), if the
    sector size is even. *)
Lemma iterate_terminates itr d :
  db_sane d -> itr_ok (geo (parent d)) itr -> Z.even (kv_sec_size d) = true ->
  may (fdb_kv_iterate itr) (fun r d' =>
    if (fst r : bool) then itr_ok (geo (parent d')) (snd r)
    else fdb_kv_iterate (snd r) d' = Stuck AssertFailed) d.
Proof.
  intros (Hg & Hm & Hd) Hitr Hev. eapply may_mono; [apply (runs_iterate _ Hg Hm itr Hitr d Hd)|].
  intros [[] itr'] d' [Hd' Hr]; cbn [fst snd] in *.
  - by rewrite (ki_geo _ d' Hd').
  - unfold fdb_kv_iterate, mbind, M_bind, gets, sector_fuel.
    replace (Z.to_nat (kv_max_size d' / kv_sec_size d') + 2)%nat
      with (S (Z.to_nat (kv_max_size d' / kv_sec_size d') + 1))%nat by lia.
    cbn [loop]. unfold mbind, M_bind, read_sector_info, mbind, M_bind, gets. rewrite Hr.
    unfold kv_sec_size in *. rewrite (ki_geo _ d' Hd'). destruct Hg as [H64 _ _ _].
    rewrite (proj2 (Z.eqb_neq _ 0)) by lia. unfold fdb_assert.
    destruct (Z.eqb_spec (FAILED_ADDR mod sec_size (geo (parent d))) 0) as [E|_]; [|done].
    exfalso. apply Z.even_spec in Hev as [k Hk]. apply Z.mod_divide in E as [q Hq]; [|lia].
    rewrite Hk in Hq. unfold FAILED_ADDR in Hq. lia.
Qed.
End theorems.

(** The database of [KvThm]. *)
#[local] Instance zeros : Indeterminate := fun _ => 0.
#[local] Instance no_auto_update : KvBuild := false.

Lemma kdb_sane : db_sane kdb.
Proof.
  split; [apply kgeom_file|]. split; [done|].
  split; [done|split; [discriminate|done]|]. apply Forall_replicate. by right.
Qed.


Lemma iterate_terminates_witness :
  may (fdb_kv_iterate (FdbKvIterator no_kv 0 0 0 0 0)) (fun r d' =>
    if (fst r : bool) then itr_ok (geo (parent d')) (snd r)
    else fdb_kv_iterate (snd r) d' = Stuck AssertFailed) kdb.
Proof.
  apply iterate_terminates; [apply kdb_sane| |reflexivity].
  split; [split; cbn; lia|by left].
Defined.
