(* ===== verification/TsSpec.v ===== *)
(** Time-series database: the log of a sector.

    A sector keeps a log: its index grows from the header upwards, one node of
    16 bytes per entry, and the data of the entries grows from the end of the
    sector downwards.  [log_at m a n l] says that the sector of [n] bytes at
    [a] holds the entries [l], oldest first, and is erased between the index and
    the data. *)
From S2P Require Import Prelude FdbDef Status FlashIO FlashSpec TsDef TsOps.

(** ** Entries and their places *)

Record entry := Entry {
  e_status : fdb_tsl_status;
  e_time : Z;
  e_data : list Z;
}.

(** A complete entry. *)
Record entry_ok (e : entry) : Prop := {
  eo_status : e_status e <> FDB_TSL_UNUSED /\ e_status e <> FDB_TSL_PRE_WRITE;
  eo_time : -2147483648 <= e_time e < 2147483648;
  eo_data : bytes (e_data e);
  eo_len : len (e_data e) < 4294967296;
}.

Fixpoint data_size (l : list entry) : Z :=
  match l with
  | [] => 0
  | e :: l => len (e_data e) + data_size l
  end.

Definition node_addr (a : Z) (i : nat) : Z := a + SECTOR_HDR_DATA_SIZE + LOG_IDX_DATA_SIZE * Z.of_nat i.
Definition data_addr (a n : Z) (l : list entry) (i : nat) : Z := a + n - data_size (take (S i) l).
(** The bytes between the index and the data. *)
Definition free_space (n : Z) (l : list entry) : Z :=
  n - SECTOR_HDR_DATA_SIZE - LOG_IDX_DATA_SIZE * Z.of_nat (length l) - data_size l.

(** What a node stores after its status. *)
Definition node_bytes (a n : Z) (l : list entry) (i : nat) (e : entry) : list Z :=
  enc_log_idx (LogIdx 0 (e_time e) (len (e_data e)) (data_addr a n l i)).

Definition node_at (m : list Z) (a n : Z) (l : list entry) (i : nat) (e : entry) : Prop :=
  slice m (node_addr a i) 1 = [status_byte (enum_val (e_status e))] /\
  slice m (node_addr a i + LOG_IDX_TS_OFFSET) 12 = node_bytes a n l i e /\
  slice m (data_addr a n l i) (len (e_data e)) = e_data e.

Record log_at (m : list Z) (a n : Z) (l : list entry) : Prop := {
  la_ok : Forall entry_ok l;
  la_nodes : forall i e, l !! i = Some e -> node_at m a n l i e;
  la_fits : 0 <= free_space n l;
  la_free : filled m (node_addr a (length l)) (free_space n l) FDB_BYTE_ERASED;
}.

(** The object [read_tsl] fills for an entry. *)
Definition tsl_of (a n : Z) (l : list entry) (i : nat) (e : entry) : fdb_tsl :=
  FdbTsl (e_status e) (e_time e) (len (e_data e)) (node_addr a i) (data_addr a n l i).

Lemma data_size_nonneg l : 0 <= data_size l.
Proof. induction l as [|e l IH]; cbn [data_size]; [lia|]. pose proof (len_nonneg (e_data e)). lia. Qed.
Lemma data_size_app l k : data_size (l ++ k) = data_size l + data_size k.
Proof. induction l as [|e l IH]; cbn [data_size app]; [done|lia]. Qed.
Lemma data_size_take i l : data_size (take i l) <= data_size l.
Proof.
  rewrite <- (take_drop i l) at 2. rewrite data_size_app. pose proof (data_size_nonneg (drop i l)). lia.
Qed.
Lemma data_size_snoc i l e :
  l !! i = Some e -> data_size (take (S i) l) = data_size (take i l) + len (e_data e).
Proof. intros H. rewrite (take_S_r _ _ _ H), data_size_app. cbn. lia. Qed.

Lemma data_addr_app a n l k i : (i < length l)%nat -> data_addr a n (l ++ k) i = data_addr a n l i.
Proof. intros H. unfold data_addr. by rewrite take_app_le by lia. Qed.

Lemma free_space_snoc n l e :
  free_space n (l ++ [e]) = free_space n l - LOG_IDX_DATA_SIZE - len (e_data e).
Proof. unfold free_space. rewrite length_app, data_size_app. cbn. lia. Qed.

Ltac ts_unfold :=
  unfold free_space, node_addr, data_addr, SECTOR_HDR_DATA_SIZE, LOG_IDX_DATA_SIZE,
    LOG_IDX_TS_OFFSET in *.

(** Where nodes and data lie: the nodes before the free space, the data behind
    it, each entry's data directly before the previous one's. *)
Lemma node_range a n l i :
  0 <= free_space n l -> (i < length l)%nat ->
  a + SECTOR_HDR_DATA_SIZE <= node_addr a i /\
  node_addr a i + LOG_IDX_DATA_SIZE <= node_addr a (length l) /\
  node_addr a (length l) + free_space n l = a + n - data_size l.
Proof. intros Hf Hi. ts_unfold. lia. Qed.

Lemma data_range a n l i e :
  0 <= free_space n l -> l !! i = Some e ->
  node_addr a (length l) + free_space n l <= data_addr a n l i /\
  data_addr a n l i + len (e_data e) <= a + n.
Proof.
  intros Hf Hi. pose proof (data_size_take (S i) l). pose proof (data_size_snoc i l e Hi).
  pose proof (data_size_nonneg (take i l)). ts_unfold. lia.
Qed.

(** ** Changes to the medium *)

Section log.
Context (m : list Z) (a n : Z) (l : list entry).
Context (Ha : 0 <= a) (Hm : a + n <= len m).

(** A log does not depend on the bytes outside the sector's index and data. *)
Lemma log_at_other b d :
  log_at m a n l -> 0 <= b -> b + len d <= len m ->
  b + len d <= a + SECTOR_HDR_DATA_SIZE \/ a + n <= b -> log_at (splice m b d) a n l.
Proof.
  intros [H1 H2 H3 H4] Hb Hd Hout. split; [done| |done|].
  - intros i e Hi. destruct (H2 i e Hi) as (N1 & N2 & N3). pose proof (len_nonneg (e_data e)).
    pose proof (lookup_lt_Some _ _ _ Hi) as Hlt.
    destruct (node_range a n l i H3 Hlt) as (R1 & R2 & R3). destruct (data_range a n l i e H3 Hi).
    pose proof (data_size_nonneg l). unfold node_at, LOG_IDX_TS_OFFSET, LOG_IDX_DATA_SIZE, SECTOR_HDR_DATA_SIZE in *.
    split_and!; (rewrite slice_splice_other; [done|lia..]).
  - pose proof (data_size_nonneg l). apply filled_splice; [done|ts_unfold; lia..].
Qed.

(** The bytes of a new entry, in the order [write_tsl] stores them. *)
Definition append_bytes (e : entry) : list Z :=
  let i := length l in
  splice (splice (splice (splice m (node_addr a i) [status_byte (enum_val FDB_TSL_PRE_WRITE)])
    (node_addr a i + LOG_IDX_TS_OFFSET) (node_bytes a n (l ++ [e]) i e))
    (data_addr a n (l ++ [e]) i) (e_data e))
    (node_addr a i) [status_byte (enum_val (e_status e))].

Lemma len_node_bytes i e : len (node_bytes a n l i e) = 12.
Proof.
  unfold node_bytes, enc_log_idx, time_bytes, len. rewrite !length_app, !length_le_bytes. done.
Qed.
End log.

Lemma new_data_addr a n l e :
  data_addr a n (l ++ [e]) (length l) = a + n - data_size l - len (e_data e).
Proof.
  unfold data_addr. rewrite take_ge by (rewrite length_app; cbn; lia). rewrite data_size_app. cbn. lia.
Qed.

(** Old entries are not touched by the new one, and the new one is there. *)
Lemma log_at_append m a n l e :
  0 <= a -> a + n <= len m -> log_at m a n l -> entry_ok e ->
  LOG_IDX_DATA_SIZE + len (e_data e) <= free_space n l ->
  log_at (append_bytes m a n l e) a n (l ++ [e]).
Proof.
  intros Ha Hm [H1 H2 H3 H4] He Hroom. pose proof (len_nonneg (e_data e)) as Hd0.
  pose proof (data_size_nonneg l) as Hds. pose proof (new_data_addr a n l e) as Hnew.
  pose proof (len_node_bytes a n (l ++ [e]) (length l) e) as Hnb.
  unfold append_bytes. set (i := length l) in *. set (hdr := node_bytes _ _ _ _ _) in *.
  set (da := data_addr a n (l ++ [e]) i) in *.
  assert (Hni : node_addr a i = a + 32 + 16 * Z.of_nat i) by done.
  assert (Hfs : free_space n l = n - 32 - 16 * Z.of_nat i - data_size l) by done.
  unfold LOG_IDX_DATA_SIZE, LOG_IDX_TS_OFFSET in *.
  split.
  - apply Forall_app; split; [done|by constructor].
  - intros j e' Hj. apply lookup_app_Some in Hj as [Hj|[Hij Hj]].
    + pose proof (lookup_lt_Some _ _ _ Hj) as Hlt.
      destruct (H2 j e' Hj) as (N1 & N2 & N3). pose proof (len_nonneg (e_data e')).
      destruct (node_range a n l j H3 Hlt) as (R1 & R2 & R3). destruct (data_range a n l j e' H3 Hj).
      unfold LOG_IDX_DATA_SIZE, SECTOR_HDR_DATA_SIZE in *. fold i in R2, R3, H0.
      unfold node_at, node_bytes, LOG_IDX_TS_OFFSET. rewrite data_addr_app by done.
      fold (node_bytes a n l j e').
      split_and!; rewrite !slice_splice_other; rewrite ?len_splice, ?Hnb, ?len_one;
        (done || lia).
    + fold i in Hij, Hj. destruct (j - i)%nat as [|k] eqn:E; [|by destruct k]. injection Hj as <-. assert (j = i) as -> by lia.
      unfold node_at. fold hdr da. unfold LOG_IDX_TS_OFFSET. split_and!.
      * change 1 with (len [status_byte (enum_val (e_status e))]) at 1.
        apply slice_splice_same; rewrite ?len_splice, ?len_one; lia.
      * rewrite !(slice_splice_other _ (node_addr a i)) by
          (rewrite ?len_splice, ?len_one; lia).
        rewrite slice_splice_other by (rewrite ?len_splice; lia).
        rewrite <- Hnb. apply slice_splice_same; rewrite ?len_splice; lia.
      * rewrite slice_splice_other by (rewrite ?len_splice, ?len_one; lia).
        apply slice_splice_same; rewrite ?len_splice; lia.
  - rewrite free_space_snoc. unfold LOG_IDX_DATA_SIZE. lia.
  - rewrite free_space_snoc, length_app. cbn [length]. unfold LOG_IDX_DATA_SIZE.
    assert (node_addr a (i + 1) = node_addr a i + 16) as E by (ts_unfold; lia). fold i. rewrite E.
    repeat (apply filled_splice; rewrite ?len_splice; rewrite ?len_one; try lia).
    eapply filled_sub; [exact H4|lia..].
Qed.

(** Changing the status of an entry. *)
Definition set_entry_status (s : fdb_tsl_status) (e : entry) : entry := Entry s (e_time e) (e_data e).

Lemma data_size_set_status j s l i :
  data_size (take i (alter (set_entry_status s) j l)) = data_size (take i l).
Proof.
  revert i j. induction l as [|e l IH]; intros i j; [done|].
  destruct i as [|i]; [done|]. destruct j as [|j]; cbn; [done|]. by rewrite IH.
Qed.

Lemma log_at_set_status m a n l j s :
  0 <= a -> a + n <= len m -> log_at m a n l -> (j < length l)%nat ->
  s <> FDB_TSL_UNUSED -> s <> FDB_TSL_PRE_WRITE ->
  log_at (splice m (node_addr a j) [status_byte (enum_val s)]) a n (alter (set_entry_status s) j l).
Proof.
  intros Ha Hm [H1 H2 H3 H4] Hj Hs1 Hs2. pose proof (data_size_nonneg l) as Hds.
  assert (data_size (alter (set_entry_status s) j l) = data_size l) as Ed.
  { pose proof (data_size_set_status j s l (length l)) as E.
    rewrite !take_ge in E by (rewrite ?length_alter; lia). done. }
  assert (free_space n (alter (set_entry_status s) j l) = free_space n l) as Ef
    by (unfold free_space; by rewrite Ed, length_alter).
  assert (forall i, data_addr a n (alter (set_entry_status s) j l) i = data_addr a n l i) as Eda
    by (intros i; unfold data_addr; by rewrite data_size_set_status).
  destruct (node_range a n l j H3 Hj) as (Rj1 & Rj2 & Rj3).
  unfold LOG_IDX_DATA_SIZE, SECTOR_HDR_DATA_SIZE in *.
  split.
  - apply Forall_alter; [done|]. intros e _ [He1 He2 He3 He4]. by split.
  - intros i e Hi. unfold node_at, node_bytes. rewrite Eda.
    destruct (decide (i = j)) as [->|Hne].
    + rewrite list_lookup_alter, decide_True in Hi by done. apply fmap_Some in Hi as (e0 & Hi & ->). cbn [e_status e_time e_data set_entry_status].
      destruct (H2 j e0 Hi) as (N1 & N2 & N3). destruct (data_range a n l j e0 H3 Hi).
      pose proof (len_nonneg (e_data e0)). unfold LOG_IDX_TS_OFFSET in *. split_and!.
      * change 1 with (len [status_byte (enum_val s)]) at 1. apply slice_splice_same; rewrite ?len_one; lia.
      * rewrite slice_splice_other by (rewrite ?len_one; lia). exact N2.
      * rewrite slice_splice_other by (rewrite ?len_one; lia). exact N3.
    + rewrite list_lookup_alter, decide_False in Hi by done.
      destruct (H2 i e Hi) as (N1 & N2 & N3). pose proof (lookup_lt_Some _ _ _ Hi) as Hlt.
      destruct (node_range a n l i H3 Hlt) as (R1 & R2 & R3). destruct (data_range a n l i e H3 Hi).
      pose proof (len_nonneg (e_data e)). unfold LOG_IDX_TS_OFFSET, LOG_IDX_DATA_SIZE, SECTOR_HDR_DATA_SIZE in *.
      assert (node_addr a i + 16 <= node_addr a j \/ node_addr a j + 16 <= node_addr a i)
        by (ts_unfold; lia).
      split_and!; (rewrite slice_splice_other by (rewrite ?len_one; lia)); done.
  - by rewrite Ef.
  - rewrite Ef, length_alter. apply filled_splice; [done|..]; rewrite ?len_one; try lia.
Qed.
