(* ===== verification/TsRead.v ===== *)
(** Time-series database: reading nodes and sectors, and appending. *)
From S2P Require Import Prelude FdbDef Status FlashIO FlashSpec TsDef TsOps TsSpec.

Lemma ts_align_id n : 0 <= n < 4294967296 -> WG_ALIGN n = n.
Proof.
  intros Hn. unfold WG_ALIGN, FDB_WG_ALIGN, FDB_ALIGN, FDB_WRITE_GRAN.
  change ((1 + 7) / 8) with 1. rewrite Z.mod_1_r. wrap_small. lia.
Qed.

(** ** Computations that use the storage *)

Section io.
Context {W} {ST : Storage W} {SL : StorageLaws W} {IN : Indeterminate} {CL : Clock W}.
Implicit Type d : fdb_tsdb W.

Definition ts_io (i : io W) d : fdb_tsdb W := set_parent (set_dbio i (parent d)) d.
Definition ts_holds d (m : list Z) : Prop := db_holds (parent d) m.

Lemma ts_io_id d : ts_io (dbio (parent d)) d = d.
Proof. by destruct d as [[]]. Qed.

(** The medium becomes [m'], and nothing else of the database changes. *)
Definition tstores {A} (p : M (fdb_tsdb W) A) d (m' : list Z) (R : A -> Prop) : Prop :=
  wp p (fun r d' => exists i, d' = ts_io i d /\ ts_holds d' m' /\ R r) d.

Lemma tstores_up {A} (p : M (fdb_db W) A) d m' (R : A -> Prop) :
  wp p (fun r db' => exists i, db' = set_dbio i (parent d) /\
                               holds (geo (parent d)) i m' /\ R r) (parent d) ->
  tstores (up p) d m' R.
Proof.
  intros Hp. apply wp_zoom. eapply wp_mono; [exact Hp|].
  intros r db' (i & -> & Hi & HR). by exists i.
Qed.
Lemma tstores_bind {A B} (p : M (fdb_tsdb W) A) (k : A -> M (fdb_tsdb W) B) d m1 m2 R1 R2 :
  tstores p d m1 R1 ->
  (forall a i, R1 a -> ts_holds (ts_io i d) m1 -> tstores (k a) (ts_io i d) m2 R2) ->
  tstores (p ≫= k) d m2 R2.
Proof.
  intros Hp Hk. apply wp_bind. eapply wp_mono; [exact Hp|].
  intros a d' (i & -> & Hi & HR). eapply wp_mono; [by apply Hk|].
  intros b d'' (j & -> & Hj & HR'). by exists j.
Qed.
Lemma tstores_ret {A} (a : A) d m (R : A -> Prop) : ts_holds d m -> R a -> tstores (mret a) d m R.
Proof. intros Hm HR. apply wp_ret. exists (dbio (parent d)). by rewrite ts_io_id. Qed.
Lemma tstores_gets {A B} (f : fdb_tsdb W -> A) (k : A -> M (fdb_tsdb W) B) d m R :
  tstores (k (f d)) d m R -> tstores (gets f ≫= k) d m R.
Proof. intros Hk. by apply wp_bind, wp_gets. Qed.
Lemma tstores_mono {A} (p : M (fdb_tsdb W) A) d m (R1 R2 : A -> Prop) :
  tstores p d m R1 -> (forall r, R1 r -> R2 r) -> tstores p d m R2.
Proof. intros Hp HR. eapply wp_mono; [exact Hp|]. intros r d' (i & -> & Hi & Hr). eauto. Qed.
Lemma wp_tstores {A} (p : M (fdb_tsdb W) A) d m' (R : A -> Prop) (Q : A -> fdb_tsdb W -> Prop) :
  tstores p d m' R ->
  (forall r i, R r -> ts_holds (ts_io i d) m' -> Q r (ts_io i d)) -> wp p Q d.
Proof.
  intros Hp HQ. eapply wp_mono; [exact Hp|]. intros r d' (i & -> & Hi & HR). by apply HQ.
Qed.

Lemma tstores_read d m a b :
  ts_holds d m -> in_sector (geo (parent d)) a (len b) ->
  tstores (up (_fdb_flash_read a b)) d m
    (fun r => snd r = slice m a (len b) /\ (0 < len b -> fst r = FDB_NO_ERR)).
Proof.
  intros Hm Hin. apply tstores_up. eapply wp_mono; [by apply (read_law _ m)|].
  intros r db' (i & -> & Hi & Hr). by exists i.
Qed.
Lemma tstores_write d m a b sync :
  ts_holds d m -> in_sector (geo (parent d)) a (len b) -> 0 < len b -> bytes b -> clears m a b ->
  tstores (flash_write a b sync) d (splice m a b) (fun r => r = FDB_NO_ERR).
Proof. intros. apply tstores_up. by apply write_law. Qed.
Lemma tstores_write_align d m a b :
  ts_holds d m -> (0 < len b -> in_sector (geo (parent d)) a (len b)) ->
  0 <= a <= max_size (geo (parent d)) -> bytes b -> clears m a b ->
  tstores (up (_fdb_flash_write_align FDB_WRITE_GRAN a b)) d (splice m a b)
          (fun r => r = FDB_NO_ERR).
Proof. intros. apply tstores_up. by apply write_align_spec. Qed.
Lemma tstores_write_status d m a num s old sync :
  ts_holds d m -> in_sector (geo (parent d)) a 1 -> 0 < s < num -> num <= 8 ->
  slice m a 1 = [old] -> Z.land old (status_byte s) = status_byte s ->
  tstores (up (_fdb_write_status FDB_WRITE_GRAN a num s sync)) d (splice m a [status_byte s])
          (fun r => r = FDB_NO_ERR).
Proof. intros. apply tstores_up. by eapply write_status_spec. Qed.
Lemma tstores_erase d m a :
  ts_holds d m -> 0 <= a < max_size (geo (parent d)) -> a mod sec_size (geo (parent d)) = 0 ->
  tstores (up (_fdb_flash_erase a (sec_size (geo (parent d))))) d
          (splice m a (erased_sector (geo (parent d)))) (fun r => r = FDB_NO_ERR).
Proof. intros. apply tstores_up. by apply erase_law. Qed.

(** A step that returns early on an error, when there is none. *)
Lemma tstores_then (p k : M (fdb_tsdb W) fdb_err_t) d m1 m2 R :
  tstores p d m1 (fun r => r = FDB_NO_ERR) ->
  (forall i, ts_holds (ts_io i d) m1 -> tstores k (ts_io i d) m2 R) ->
  tstores (p >>> k) d m2 R.
Proof.
  intros Hp Hk. eapply tstores_bind; [exact Hp|]. intros r i -> Hi.
  rewrite decide_True by done. by apply Hk.
Qed.
End io.

(** ** Nodes *)

Lemma i32_u32 t : -2147483648 <= t < 2147483648 -> i32 (u32 t) = t.
Proof.
  intros Ht. unfold i32, u32. rewrite Zplus_mod_idemp_l, Z.mod_small; lia.
Qed.

Lemma le_value_time t : -2147483648 <= t < 2147483648 -> i32 (le_value (time_bytes t)) = t.
Proof.
  intros Ht. unfold time_bytes. rewrite (le_value_bytes 4); [by apply i32_u32|].
  unfold u32. change (256 ^ Z.of_nat 4) with 4294967296. apply Z.mod_pos_bound. lia.
Qed.

Lemma tsl_status_of_byte (st : fdb_tsl_status) :
  enum_of (_fdb_get_status FDB_WRITE_GRAN [status_byte (enum_val st)] FDB_TSL_STATUS_NUM) = st.
Proof. by destruct st. Qed.
Lemma store_status_of_byte (st : fdb_sector_store_status) :
  enum_of (_fdb_get_status FDB_WRITE_GRAN [status_byte (enum_val st)] FDB_SECTOR_STORE_STATUS_NUM) = st.
Proof. by destruct st. Qed.

(** The 16 bytes of a node, decoded. *)
Lemma dec_node m x st t k b :
  0 <= x -> -2147483648 <= t < 2147483648 -> 0 <= k < 4294967296 -> 0 <= b < 4294967296 ->
  slice m x 1 = [status_byte st] -> slice m (x + LOG_IDX_TS_OFFSET) 12 = enc_log_idx (LogIdx 0 t k b) ->
  dec_log_idx (slice m x LOG_IDX_DATA_SIZE) = LogIdx (status_byte st) t k b.
Proof.
  intros Hx Ht Hk Hb Hst Hn. unfold LOG_IDX_TS_OFFSET, LOG_IDX_DATA_SIZE in *.
  assert (forall y, 0 <= y <= 8 -> slice (slice m x 16) (4 + y) 4 =
    slice (enc_log_idx (LogIdx 0 t k b)) y 4) as Hs.
  { intros y Hy. rewrite slice_slice, <- Hn, slice_slice by lia. f_equal. lia. }
  assert (length (time_bytes t) = 4%nat) as Hlt by apply length_le_bytes.
  pose proof (Hs 0 ltac:(lia)) as H0. pose proof (Hs 4 ltac:(lia)) as H4.
  pose proof (Hs 8 ltac:(lia)) as H8. rewrite Z.add_0_r in H0.
  change (4 + 4) with 8 in H4. change (4 + 8) with 12 in H8.
  unfold dec_log_idx, time_at, le32_at. f_equal.
  - apply (slice_one (slice m x 16) 0). rewrite slice_slice by lia. by rewrite Z.add_0_r.
  - rewrite H0. apply le_value_time. done.
  - rewrite H4. apply (le_value_bytes 4). simpl. lia.
  - rewrite H8. apply (le_value_bytes 4). simpl. lia.
Qed.

Section nodes.
Context {W} {ST : Storage W} {SL : StorageLaws W} {IN : Indeterminate} {CL : Clock W}.
Implicit Type d : fdb_tsdb W.

(** A sector of the database, of a size that is a multiple of a node's. *)
Record sector_in (g : geom) (a : Z) : Prop := {
  si_geom : geom_ok g;
  si_addr : 0 <= a /\ a mod sec_size g = 0 /\ a + sec_size g <= max_size g;
  si_mult : sec_size g mod LOG_IDX_DATA_SIZE = 0;
}.

(** Bytes inside the sector. *)
Lemma sector_in_part g a b n :
  sector_in g a -> a <= b -> 0 <= n -> b + n <= a + sec_size g -> b < a + sec_size g ->
  in_sector g b n.
Proof.
  intros [Hg (Ha & Hm & He) _] Hb Hn Hbn Hlt. destruct Hg.
  apply (in_sector_part g a (sec_size g)); try lia; [done|]. unfold in_sector. lia.
Qed.

(** The node of an entry. *)
Lemma tstores_read_tsl d m a l i e tsl :
  ts_holds d m -> sector_in (geo (parent d)) a -> log_at m a (ts_sec_size d) l ->
  l !! i = Some e -> tsl_index tsl = node_addr a i ->
  tstores (read_tsl tsl) d m (fun r => r = tsl_of a (ts_sec_size d) l i e).
Proof.
  intros Hm Hs Hl Hi Ht. pose proof (lookup_lt_Some _ _ _ Hi) as Hlt.
  destruct (node_range a _ l i (la_fits _ _ _ _ Hl) Hlt) as (R1 & R2 & R3).
  destruct (data_range a _ l i e (la_fits _ _ _ _ Hl) Hi) as (D1 & D2).
  destruct (la_nodes _ _ _ _ Hl i e Hi) as (N1 & N2 & N3).
  pose proof (la_fits _ _ _ _ Hl) as Hf. pose proof (data_size_nonneg l).
  pose proof (len_nonneg (e_data e)).
  pose proof (Forall_lookup_1 _ _ _ _ (la_ok _ _ _ _ Hl) Hi) as [Hst Htm _ Hln].
  destruct (Hs) as [Hg (Ha & Hmod & He) _]. destruct Hg.
  unfold ts_sec_size, LOG_IDX_DATA_SIZE, SECTOR_HDR_DATA_SIZE in *.
  unfold read_tsl. rewrite Ht. eapply tstores_bind.
  { apply tstores_read; [exact Hm|]. rewrite len_indet_buf by (unfold LOG_IDX_DATA_SIZE; lia).
    eapply sector_in_part; [exact Hs|unfold LOG_IDX_DATA_SIZE; lia..]. }
  cbn beta. rewrite len_indet_buf by (unfold LOG_IDX_DATA_SIZE; lia).
  intros [err b] j [Hb _] Hj. cbn [snd] in Hb. subst b. cbn [snd].
  unfold node_bytes in N2.
  rewrite (dec_node m _ (enum_val (e_status e)) (e_time e) (len (e_data e))
             (data_addr a (sec_size (geo (parent d))) l i)) by (done || lia).
  cbn [li_status li_time li_log_len li_log_addr]. rewrite tsl_status_of_byte.
  rewrite !bool_decide_eq_false_2 by apply Hst. cbn [orb].
  apply tstores_ret; [exact Hj|]. done.
Qed.

(** The place of the next node reads as unused. *)
Lemma tstores_read_unused d m a l tsl :
  ts_holds d m -> sector_in (geo (parent d)) a -> log_at m a (ts_sec_size d) l ->
  0 < free_space (ts_sec_size d) l -> tsl_index tsl = node_addr a (length l) ->
  tstores (read_tsl tsl) d m (fun r => tsl_status r = FDB_TSL_UNUSED /\ tsl_index r = tsl_index tsl).
Proof.
  intros Hm Hs Hl Hf Ht. pose proof (la_free _ _ _ _ Hl) as Hff. pose proof (data_size_nonneg l).
  destruct (Hs) as [Hg (Ha & Hmod & He) Hmul]. destruct Hg.
  assert (a + 32 <= node_addr a (length l) /\ node_addr a (length l) + 16 <= a + ts_sec_size d) as [Hn1 Hn2].
  { unfold ts_sec_size in *. apply Z.mod_divide in Hmul as [q Hq]; [|done]. ts_unfold. lia. }
  unfold read_tsl. rewrite <- Ht in Hn1, Hn2. eapply tstores_bind.
  { apply tstores_read; [exact Hm|]. rewrite len_indet_buf by (unfold LOG_IDX_DATA_SIZE; lia).
    eapply sector_in_part; [exact Hs|unfold LOG_IDX_DATA_SIZE, ts_sec_size in *; lia..]. }
  cbn beta. rewrite len_indet_buf by (unfold LOG_IDX_DATA_SIZE; lia).
  intros [err b] j [Hb _] Hj. cbn [snd] in Hb. subst b. cbn [snd].
  assert (li_status (dec_log_idx (slice m (tsl_index tsl) LOG_IDX_DATA_SIZE)) = 255) as ->.
  { rewrite Ht in *. apply (slice_one _ 0). rewrite slice_slice by (unfold LOG_IDX_DATA_SIZE; lia).
    rewrite Z.add_0_r. apply (filled_sub m (node_addr a (length l)) (free_space (ts_sec_size d) l) FDB_BYTE_ERASED _ 1); [done|lia..]. }
  apply tstores_gets. apply tstores_ret; [exact Hj|]. done.
Qed.
End nodes.

(** ** Sectors *)

(** The time and the node of the last entry. *)
Definition last_entry_time (l : list entry) : Z := from_option e_time 0 (last l).
Definition last_node (a : Z) (l : list entry) : Z := node_addr a (length l - 1).

(** The sector at [a]: its header, with the saved end of a full sector, and its
    log. *)
Record sector_at (m : list Z) (a n : Z) (st : fdb_sector_store_status) (start : Z)
    (l : list entry) : Prop := {
  sa_status : slice m a 1 = [status_byte (enum_val st)];
  sa_magic : slice m (a + SECTOR_MAGIC_OFFSET) 4 = le_bytes 4 SECTOR_MAGIC_WORD;
  sa_log : log_at m a n l;
  sa_used : st <> FDB_SECTOR_STORE_UNUSED;
  sa_empty : st = FDB_SECTOR_STORE_EMPTY ->
    l = [] /\ filled m (a + SECTOR_START_TIME_OFFSET) 4 FDB_BYTE_ERASED;
  sa_start : st <> FDB_SECTOR_STORE_EMPTY ->
    -2147483648 <= start < 2147483648 /\
    slice m (a + SECTOR_START_TIME_OFFSET) 4 = time_bytes start;
  sa_open : st <> FDB_SECTOR_STORE_FULL ->
    filled m (a + SECTOR_END0_TIME_OFFSET) 18 FDB_BYTE_ERASED;
  sa_full : st = FDB_SECTOR_STORE_FULL -> l <> [] /\
    slice m (a + SECTOR_END0_TIME_OFFSET) 4 = time_bytes (last_entry_time l) /\
    slice m (a + SECTOR_END0_IDX_OFFSET) 4 = le_bytes 4 (last_node a l) /\
    slice m (a + SECTOR_END0_STATUS_OFFSET) 1 = [status_byte (enum_val FDB_TSL_WRITE)];
}.

(** The structure in memory for the log [l] of the sector at [a]. *)
Record sec_log (s : tsdb_sec_info) (a n : Z) (st : fdb_sector_store_status) (start : Z)
    (l : list entry) : Prop := {
  sl_ok : check_ok s = true;
  sl_status : status s = st;
  sl_addr : addr s = a;
  sl_start : st <> FDB_SECTOR_STORE_EMPTY -> start_time s = start;
  sl_remain : remain s = free_space n l;
  sl_idx : empty_idx s = node_addr a (length l);
  sl_data : empty_data s = a + n - data_size l;
  sl_end : l <> [] -> end_time s = last_entry_time l /\ end_idx s = last_node a l;
  sl_info : st <> FDB_SECTOR_STORE_FULL -> end_info_stat s = (FDB_TSL_UNUSED, FDB_TSL_UNUSED);
}.

(** One more entry: the sector as [tsl_append] and the traversal update it. *)
Definition sec_push (n : Z) (l : list entry) (e : entry) (s : tsdb_sec_info) : tsdb_sec_info :=
  sec_set_space (free_space n (l ++ [e])) (node_addr (addr s) (length l) + LOG_IDX_DATA_SIZE)
    (addr s + n - data_size l - len (e_data e))
    (sec_set_end (e_time e) (node_addr (addr s) (length l)) s).

Lemma sec_log_push s a n st start l e :
  sec_log s a n st start l -> sec_log (sec_push n l e s) a n st start (l ++ [e]).
Proof.
  intros [S1 S2 S3 S4 S5 S6 S7 S8 S9]. split; cbn; try done.
  - rewrite S3, length_app. cbn. ts_unfold. lia.
  - rewrite S3, data_size_app. cbn. lia.
  - intros _. unfold last_entry_time, last_node. rewrite last_snoc, length_app, S3. cbn.
    by replace (length l + 1 - 1)%nat with (length l) by lia.
Qed.

(** The arithmetic of one more entry, when it fits. *)
Lemma push_bounds a n l e :
  0 <= free_space n (l ++ [e]) ->
  LOG_IDX_DATA_SIZE + len (e_data e) <= free_space n l <= n - SECTOR_HDR_DATA_SIZE /\
  a + SECTOR_HDR_DATA_SIZE <= node_addr a (length l) /\
  node_addr a (length l) + LOG_IDX_DATA_SIZE <= a + n - data_size l - len (e_data e) /\
  node_addr a (length l) + LOG_IDX_DATA_SIZE = node_addr a (length (l ++ [e])).
Proof.
  intros H. rewrite free_space_snoc in H. rewrite length_app. cbn [length].
  pose proof (data_size_nonneg l). pose proof (len_nonneg (e_data e)). ts_unfold. lia.
Qed.

Section sectors.
Context {W} {ST : Storage W} {SL : StorageLaws W} {IN : Indeterminate} {CL : Clock W}.
Implicit Type d : fdb_tsdb W.

(** The space left shrinks by whole entries. *)
Lemma free_space_take n l k e :
  l !! k = Some e -> 0 <= free_space n l ->
  0 <= free_space n (take k l ++ [e]) /\
  (free_space n (take k l ++ [e]) = 0 -> S k = length l).
Proof.
  intros Hlk Hf. rewrite <- (take_drop_middle l k e Hlk) in Hf.
  pose proof (lookup_lt_Some _ _ _ Hlk).
  rewrite cons_middle, app_assoc in Hf. revert Hf. generalize (take k l ++ [e]). intros l1 Hf.
  assert (free_space n (l1 ++ drop (S k) l) = free_space n l1 - 16 * Z.of_nat (length (drop (S k) l))
            - data_size (drop (S k) l)) as E.
  { unfold free_space, LOG_IDX_DATA_SIZE. rewrite length_app, data_size_app. lia. }
  pose proof (data_size_nonneg (drop (S k) l)). rewrite length_drop in E. lia.
Qed.

(** The traversal comes closer to its end. *)
Lemma traverse_measure f n : 0 <= n -> 0 <= f - (16 + n) -> (Z.to_nat ((f - (16 + n)) / 16) < Z.to_nat (f / 16))%nat.
Proof.
  intros Hn Hf. pose proof (Z.div_pos (f - (16 + n)) 16). replace f with (f - 16 + 1 * 16) at 2 by lia.
  rewrite Z.div_add by lia. pose proof (Z.div_le_mono (f - (16 + n)) (f - 16) 16). lia.
Qed.

(** The entry that fills the sector is the last one. *)
Lemma traverse_last n l k e :
  l !! k = Some e -> free_space n (take k l) - 16 - len (e_data e) = 0 -> 0 <= free_space n l ->
  take (S k) l = l /\ free_space n l = 0.
Proof.
  intros Hlk Hz Hfit. destruct (free_space_take _ _ _ _ Hlk Hfit) as [_ Hlast].
  rewrite free_space_snoc in Hlast. specialize (Hlast Hz). pose proof (take_S_r l k e Hlk) as El.
  rewrite (take_ge l (S k)) in * by lia. split; [done|]. rewrite El, free_space_snoc. unfold LOG_IDX_DATA_SIZE. lia.
Qed.

(** The traversal of a sector in use finds the log again. *)
Lemma tstores_traverse d m a l s0 st start :
  ts_holds d m -> sector_in (geo (parent d)) a -> log_at m a (ts_sec_size d) l ->
  sec_log s0 a (ts_sec_size d) st start [] ->
  tstores (traverse_tsls s0) d m (fun r =>
    fst r = (if 0 <? free_space (ts_sec_size d) l then FDB_NO_ERR else FDB_READ_ERR) /\
    sec_log (snd r) a (ts_sec_size d) st start l).
Proof.
  intros Hm Hs Hl H0. pose proof (la_fits _ _ _ _ Hl) as Hfit. pose proof (data_size_nonneg l) as Hds.
  destruct (Hs) as [Hg (Ha & Hmod & He) Hmul]. destruct (Hg) as [H64 Hdv H2 H32].
  unfold traverse_tsls, tstores.
  eapply (wp_loop
    (fun '(s, tsl) d' => exists i k, d' = ts_io i d /\ ts_holds d' m /\ (k <= length l)%nat /\
       sec_log s a (ts_sec_size d) st start (take k l) /\
       0 < free_space (ts_sec_size d) (take k l) /\ tsl_index tsl = node_addr a k)
    (fun '(s, tsl) _ => Z.to_nat (remain s / LOG_IDX_DATA_SIZE))).
  2:{ exists (dbio (parent d)), 0%nat. rewrite ts_io_id. split_and!; try done.
      - lia.
      - change (take 0 l) with (@nil entry).
        unfold ts_sec_size, free_space, SECTOR_HDR_DATA_SIZE, LOG_IDX_DATA_SIZE. cbn [data_size length]. lia.
      - cbn. by rewrite (sl_idx _ _ _ _ _ _ H0). }
  2:{ cbn. lia. }
  intros [s tsl] d' (i & k & -> & Hi & Hk & Hsl & Hfree & Htsl).
  destruct (decide (k = length l)) as [->|Hne].
  - rewrite take_ge in Hsl, Hfree by lia.
    apply wp_bind. eapply wp_tstores.
    { apply (tstores_read_unused (ts_io i d) m a l); done. }
    intros r j [Hr _] Hj. rewrite decide_True by done. apply wp_ret.
    exists j. split; [done|]. split; [done|]. cbn [fst snd]. by rewrite (proj2 (Z.ltb_lt _ _)) by done.
  - destruct (lookup_lt_is_Some_2 l k ltac:(lia)) as [e Hlk].
    apply wp_bind. eapply wp_tstores.
    { apply (tstores_read_tsl (ts_io i d) m a l k e); done. }
    intros r j -> Hj. pose proof (Forall_lookup_1 _ _ _ _ (la_ok _ _ _ _ Hl) Hlk) as [Hst Htm _ Hln].
    pose proof (len_nonneg (e_data e)) as Hd0.
    destruct (free_space_take _ _ _ _ Hlk Hfit) as [Hfs0 Hlast].
    assert (length (take k l) = k) as Lk by (rewrite length_take; lia).
    pose proof (sec_log_push _ _ _ _ _ _ e Hsl) as Hpush.
    destruct (push_bounds a _ _ e Hfs0) as (Hp1 & Hp2 & Hp3 & Hp4).
    rewrite Lk in *. rewrite length_app, Lk in Hp4. cbn [length] in Hp4.
    rewrite free_space_snoc in Hfs0, Hlast. unfold sec_push in Hpush. rewrite free_space_snoc, Lk in Hpush.
    rewrite <- (take_S_r _ _ _ Hlk) in Hpush.
    rewrite decide_False by apply Hst. rewrite decide_False by apply Hst.
    cbn [tsl_of tsl_status tsl_time tsl_log_len tsl_index sec_set_end remain empty_idx empty_data tsl_set_index].
    rewrite (sl_remain _ _ _ _ _ _ Hsl), (sl_idx _ _ _ _ _ _ Hsl), (sl_data _ _ _ _ _ _ Hsl), Lk.
    rewrite (sl_addr _ _ _ _ _ _ Hsl) in Hpush.
    pose proof (data_size_nonneg (take k l)). unfold ts_sec_size in *.
    set (sec := sec_size (geo (parent d))) in *. set (f := free_space sec (take k l)) in *.
    rewrite ts_align_id by lia. unfold LOG_IDX_DATA_SIZE, SECTOR_HDR_DATA_SIZE in *. wrap_small.
    destruct (Z.ltb_spec (16 + len (e_data e)) f).
    + apply wp_ret. split.
      * exists j, (S k). split_and!; [done|done|lia| | |].
        -- replace (f - (16 + len (e_data e))) with (f - 16 - len (e_data e)) by lia. exact Hpush.
        -- rewrite (take_S_r _ _ _ Hlk), free_space_snoc. fold f. unfold LOG_IDX_DATA_SIZE. lia.
        -- cbn [tsl_index tsl_set_index]. replace (S k) with (k + 1)%nat by lia. exact Hp4.
      * cbn. apply traverse_measure; lia.
    + apply wp_ret. exists j. split; [done|]. split; [done|]. cbn [fst snd].
      assert (f - 16 - len (e_data e) = 0) as Hz by lia. rewrite Hz in Hpush.
      destruct (traverse_last _ _ _ _ Hlk Hz Hfit) as [El Ef]. rewrite El in Hpush. by rewrite Ef.
Qed.

(** The header read back. *)
Lemma sector_hdr m a n st start l :
  0 <= a -> -2147483648 <= last_entry_time l < 2147483648 -> 0 <= last_node a l < 4294967296 ->
  sector_at m a n st start l ->
  let h := dec_sector_hdr (slice m a SECTOR_HDR_DATA_SIZE) in
  sh_status h = status_byte (enum_val st) /\ sh_magic h = SECTOR_MAGIC_WORD /\
  (st <> FDB_SECTOR_STORE_EMPTY -> sh_start_time h = start) /\
  (st <> FDB_SECTOR_STORE_FULL -> sh_end0_status h = 255 /\ sh_end1_status h = 255) /\
  (st = FDB_SECTOR_STORE_FULL -> sh_end0_status h = status_byte (enum_val FDB_TSL_WRITE) /\
     sh_end0_time h = last_entry_time l /\ sh_end0_index h = last_node a l).
Proof.
  intros Ha Ht Hn [H1 H2 _ _ _ H5 H6 H7] h.
  assert (forall b k, 0 <= b -> 0 <= k -> b + k <= 32 ->
    slice (slice m a SECTOR_HDR_DATA_SIZE) b k = slice m (a + b) k) as Hs
    by (intros; apply slice_slice; unfold SECTOR_HDR_DATA_SIZE; lia).
  assert (forall b x, 0 <= b < 32 -> slice m (a + b) 1 = [x] ->
    nth (Z.to_nat b) (slice m a SECTOR_HDR_DATA_SIZE) 0 = x) as Hb
    by (intros b x Hb Hx; apply slice_one; rewrite Hs by lia; exact Hx).
  unfold h, dec_sector_hdr, time_at, le32_at.
  cbn [sh_status sh_magic sh_start_time sh_end0_status sh_end1_status sh_end0_time sh_end0_index].
  unfold SECTOR_MAGIC_OFFSET, SECTOR_START_TIME_OFFSET, SECTOR_END0_TIME_OFFSET,
    SECTOR_END0_IDX_OFFSET, SECTOR_END0_STATUS_OFFSET, SECTOR_END1_STATUS_OFFSET in *.
  rewrite !Hs by lia. split_and!.
  - apply (Hb 0); [lia|]. by rewrite Z.add_0_r.
  - by rewrite H2.
  - intros Hst. destruct (H5 Hst) as [Hr ->]. by apply le_value_time.
  - intros Hst. specialize (H6 Hst). split; apply Hb; try lia;
      apply (filled_sub m (a + 9) 18 FDB_BYTE_ERASED _ 1); try done; lia.
  - intros Hst. destruct (H7 Hst) as (_ & E1 & E2 & E3). rewrite E1, E2. split_and!.
    + apply Hb; [lia|done].
    + by apply le_value_time.
    + by apply (le_value_bytes 4).
Qed.

Lemma last_bounds g a l m :
  sector_in g a -> log_at m a (sec_size g) l ->
  -2147483648 <= last_entry_time l < 2147483648 /\ 0 <= last_node a l < 4294967296.
Proof.
  intros [Hg (Ha & _ & He) _] [H1 _ H3 _]. destruct Hg. pose proof (data_size_nonneg l). split.
  - unfold last_entry_time. destruct (last l) as [e|] eqn:El; cbn; [|lia].
    apply last_Some in El as [l' ->]. apply Forall_app in H1 as [_ H1].
    inversion H1 as [|?? Hok]; subst. apply Hok.
  - unfold last_node. ts_unfold. lia.
Qed.

(** What [read_sector_info] makes of a sector: without the traversal the log
    is taken to be empty, and the end of a full sector is read from the
    header; with it the log of a sector in use is found. *)
Lemma tstores_read_sector d m a st start l s0 (t : bool) :
  ts_holds d m -> sector_in (geo (parent d)) a -> sector_at m a (ts_sec_size d) st start l ->
  tstores (read_sector_info a s0 t) d m (fun r =>
    (st = FDB_SECTOR_STORE_USING -> t = true ->
       fst r = (if 0 <? free_space (ts_sec_size d) l then FDB_NO_ERR else FDB_READ_ERR) /\
       sec_log (snd r) a (ts_sec_size d) st start l) /\
    (st <> FDB_SECTOR_STORE_USING \/ t = false ->
       fst r = FDB_NO_ERR /\ sec_log (snd r) a (ts_sec_size d) st start [] /\
       (st = FDB_SECTOR_STORE_FULL ->
          end_time (snd r) = last_entry_time l /\ end_idx (snd r) = last_node a l))).
Proof.
  intros Hm Hs Hsec. destruct (last_bounds _ _ _ _ Hs (sa_log _ _ _ _ _ _ Hsec)) as [Hb1 Hb2].
  destruct (Hs) as [Hg (Ha & Hmod & He) Hmul]. destruct (Hg) as [H64 Hdv H2 H32].
  destruct (sector_hdr _ _ _ _ _ _ Ha Hb1 Hb2 Hsec) as (E1 & E2 & E3 & E4 & E5).
  unfold read_sector_info. apply tstores_gets. eapply tstores_bind.
  { apply tstores_read; [exact Hm|]. rewrite len_indet_buf by (unfold SECTOR_HDR_DATA_SIZE; lia).
    eapply sector_in_part; [exact Hs|unfold SECTOR_HDR_DATA_SIZE; lia..]. }
  cbn beta. rewrite len_indet_buf by (unfold SECTOR_HDR_DATA_SIZE; lia).
  intros [err b] j [Hb _] Hj. cbn [snd] in Hb. subst b. cbn [snd].
  set (h := dec_sector_hdr _) in *. rewrite E2, Z.eqb_refl. cbn [negb]. rewrite E1, store_status_of_byte.
  set (stat0 := enum_of (_fdb_get_status FDB_WRITE_GRAN [sh_end0_status h] FDB_TSL_STATUS_NUM) : fdb_tsl_status).
  set (stat1 := enum_of (_fdb_get_status FDB_WRITE_GRAN [sh_end1_status h] FDB_TSL_STATUS_NUM) : fdb_tsl_status).
  assert (st <> FDB_SECTOR_STORE_FULL -> stat0 = FDB_TSL_UNUSED /\ stat1 = FDB_TSL_UNUSED) as Hopen.
  { intros Hst. destruct (E4 Hst) as [F1 F2]. unfold stat0, stat1. by rewrite F1, F2. }
  assert (st = FDB_SECTOR_STORE_FULL -> stat0 = FDB_TSL_WRITE) as Hfull.
  { intros Hst. destruct (E5 Hst) as [F1 _]. unfold stat0. by rewrite F1. }
  assert (bool_decide (stat0 = FDB_TSL_PRE_WRITE) = false) as ->.
  { apply bool_decide_eq_false_2. intros E. destruct (decide (st = FDB_SECTOR_STORE_FULL)) as [Hst|Hst].
    - rewrite (Hfull Hst) in E. done.
    - destruct (Hopen Hst). congruence. }
  cbn [andb]. eapply tstores_bind; [by apply (tstores_ret tt _ _ (fun _ => True))|]. intros _ i _ Hi.
  cbv zeta. unfold ts_sec_size, SECTOR_HDR_DATA_SIZE in *. set (sec := sec_size (geo (parent d))) in *.
  wrap_small. cbn [status].
  match goal with |- context [traverse_tsls ?x] => set (s := x) end.
  assert (sec_log s a sec st start []) as Hsl.
  { unfold s. split; cbn [check_ok status addr start_time remain empty_idx empty_data end_info_stat length data_size];
      try done.
    - unfold free_space, SECTOR_HDR_DATA_SIZE, LOG_IDX_DATA_SIZE. cbn [length data_size]. lia.
    - unfold node_addr, SECTOR_HDR_DATA_SIZE, LOG_IDX_DATA_SIZE. lia.
    - lia.
    - intros Hst. destruct (Hopen Hst) as [-> ->]. done. }
  destruct (bool_decide (st = FDB_SECTOR_STORE_USING) && t) eqn:Et.
  - apply andb_prop in Et as [Est%bool_decide_eq_true_1 ->]. unfold tstores.
    eapply wp_mono; [apply (tstores_traverse (ts_io i (ts_io j d)) m a l s st start Hi Hs (sa_log _ _ _ _ _ _ Hsec) Hsl)|].
    intros r d' (k & -> & Hk & Hr). exists k. split; [done|]. split; [done|].
    split; [done|]. intros [?|?]; done.
  - apply tstores_ret; [exact Hi|]. split.
    + intros -> ->. by rewrite bool_decide_eq_true_2 in Et.
    + intros _. split; [done|]. split; [done|]. intros Hst. cbn [snd end_time end_idx s].
      rewrite (Hfull Hst), decide_True by done. destruct (E5 Hst) as (_ & -> & ->). done.
Qed.
End sectors.
