(* ===== verification/TsAppend.v ===== *)
(** Time-series database: appending an entry to the current sector. *)
From S2P Require Import Prelude FdbDef Status FlashIO FlashSpec TsDef TsOps TsSpec TsRead.

(** ** The medium *)

(** Appending leaves alone what is outside the index and the data. *)
Lemma append_bytes_other m a n l e b k :
  0 <= a -> a + n <= len m -> 0 <= free_space n (l ++ [e]) -> 0 <= b -> 0 <= k ->
  b + k <= a + SECTOR_HDR_DATA_SIZE \/ a + n <= b ->
  slice (append_bytes m a n l e) b k = slice m b k.
Proof.
  intros Ha Hm Hf Hb Hk Hout. destruct (push_bounds a n l e Hf) as (H1 & H2 & H3 & _).
  pose proof (len_nonneg (e_data e)). pose proof (data_size_nonneg l). pose proof (new_data_addr a n l e) as Hd.
  unfold append_bytes, LOG_IDX_TS_OFFSET, LOG_IDX_DATA_SIZE, SECTOR_HDR_DATA_SIZE in *. rewrite Hd.
  rewrite !slice_splice_other; rewrite ?len_splice, ?len_node_bytes, ?len_one; (done || lia).
Qed.

Lemma sector_at_append m a n start l e :
  0 <= a -> a + n <= len m -> sector_at m a n FDB_SECTOR_STORE_USING start l -> entry_ok e ->
  0 <= free_space n (l ++ [e]) ->
  sector_at (append_bytes m a n l e) a n FDB_SECTOR_STORE_USING start (l ++ [e]).
Proof.
  intros Ha Hm [H1 H2 H3 H4 H5 H6 H7 H8] He Hf.
  assert (forall b k, a <= b -> 0 <= k -> b + k <= a + 32 ->
    slice (append_bytes m a n l e) b k = slice m b k) as Hs.
  { intros b k Hb Hk Hbk. apply append_bytes_other; try done; [lia|]. left. unfold SECTOR_HDR_DATA_SIZE. lia. }
  unfold SECTOR_MAGIC_OFFSET, SECTOR_START_TIME_OFFSET, SECTOR_END0_TIME_OFFSET in *.
  split; try done; unfold filled in *.
  - rewrite Hs by lia. done.
  - unfold SECTOR_MAGIC_OFFSET. rewrite Hs by lia. done.
  - apply log_at_append; try done. destruct (push_bounds a n l e Hf) as ([] & _). lia.
  - intros _. unfold SECTOR_START_TIME_OFFSET. rewrite Hs by lia. by apply H6.
  - intros _. unfold SECTOR_END0_TIME_OFFSET. rewrite Hs by lia. by apply H7.
Qed.

(** The first entry's time goes into the header when the sector is taken into
    use. *)
Definition opened (m : list Z) (a t : Z) : list Z :=
  splice (splice m a [status_byte (enum_val FDB_SECTOR_STORE_USING)])
         (a + SECTOR_START_TIME_OFFSET) (time_bytes t).

Lemma len_time_bytes t : len (time_bytes t) = 4.
Proof. unfold len, time_bytes. by rewrite length_le_bytes. Qed.

Lemma opened_other m a t b k :
  0 <= a -> a + SECTOR_HDR_DATA_SIZE <= len m -> 0 <= b -> 0 <= k ->
  b + k <= a \/ a + SECTOR_END0_TIME_OFFSET <= b \/ (a + 1 <= b /\ b + k <= a + SECTOR_START_TIME_OFFSET) ->
  slice (opened m a t) b k = slice m b k.
Proof.
  unfold opened, SECTOR_HDR_DATA_SIZE, SECTOR_END0_TIME_OFFSET, SECTOR_START_TIME_OFFSET.
  intros Ha Hm Hb Hk Hout. rewrite !slice_splice_other; rewrite ?len_splice, ?len_time_bytes, ?len_one; (done || lia).
Qed.

Lemma sector_at_opened m a n start l t :
  0 <= a -> a + n <= len m -> SECTOR_HDR_DATA_SIZE <= n -> -2147483648 <= t < 2147483648 ->
  sector_at m a n FDB_SECTOR_STORE_EMPTY start l ->
  sector_at (opened m a t) a n FDB_SECTOR_STORE_USING t l.
Proof.
  intros Ha Hm Hn Ht [H1 H2 H3 H4 H5 H6 H7 H8]. unfold SECTOR_HDR_DATA_SIZE in Hn.
  assert (forall b k, 0 <= b -> 0 <= k -> a + 9 <= b \/ (a + 1 <= b /\ b + k <= a + 5) ->
    slice (opened m a t) b k = slice m b k) as Hs.
  { intros b k Hb Hk Hbk. apply opened_other; unfold SECTOR_HDR_DATA_SIZE,
      SECTOR_END0_TIME_OFFSET, SECTOR_START_TIME_OFFSET; lia. }
  unfold SECTOR_MAGIC_OFFSET, SECTOR_START_TIME_OFFSET, SECTOR_END0_TIME_OFFSET in *.
  split; try done; unfold filled in *.
  - unfold opened, SECTOR_START_TIME_OFFSET.
    rewrite slice_splice_other; rewrite ?len_splice, ?len_time_bytes, ?len_one; try lia.
    apply (slice_splice_same m a [status_byte (enum_val FDB_SECTOR_STORE_USING)]); rewrite ?len_one; lia.
  - unfold SECTOR_MAGIC_OFFSET. rewrite Hs by lia. done.
  - unfold opened, SECTOR_START_TIME_OFFSET.
    apply log_at_other; rewrite ?len_splice, ?len_time_bytes; unfold SECTOR_HDR_DATA_SIZE; try lia.
    apply log_at_other; rewrite ?len_one; unfold SECTOR_HDR_DATA_SIZE; try lia. done.
  - intros _. split; [done|]. unfold opened, SECTOR_START_TIME_OFFSET. rewrite <- (len_time_bytes t).
    apply slice_splice_same; rewrite ?len_splice, ?len_time_bytes; lia.
  - intros _. unfold SECTOR_END0_TIME_OFFSET. rewrite Hs by lia. by apply H7.
Qed.

(** ** The operation *)

Section append.
Context {W} {ST : Storage W} {SL : StorageLaws W} {IN : Indeterminate} {CL : Clock W}.
Implicit Type d : fdb_tsdb W.

(** The current sector: the one at [a], with the log [l]; it is empty or in
    use, and the structure in memory agrees with the medium. *)
Record cur_log d (m : list Z) (a : Z) (st : fdb_sector_store_status) (start : Z)
    (l : list entry) : Prop := {
  cl_holds : ts_holds d m;
  cl_sector : sector_in (geo (parent d)) a;
  cl_open : st = FDB_SECTOR_STORE_EMPTY \/ st = FDB_SECTOR_STORE_USING;
  cl_at : sector_at m a (ts_sec_size d) st start l;
  cl_mem : sec_log (cur_sec d) a (ts_sec_size d) st start l;
}.

(** A blob over a buffer of exactly its size. *)
Definition blob_of (data : list Z) : fdb_blob := FdbBlob (Some data) (len data) 0 0 0.

Lemma bytes_enc_log_idx i : bytes (enc_log_idx i).
Proof.
  unfold enc_log_idx, time_bytes. apply bytes_app; [apply bytes_le_bytes|].
  apply bytes_app; apply bytes_le_bytes.
Qed.

(** [write_tsl] stores the entry in the free space. *)
Lemma tstores_write_tsl d m a st start l t data :
  cur_log d m a st start l -> entry_ok (Entry FDB_TSL_WRITE t data) ->
  0 <= free_space (ts_sec_size d) (l ++ [Entry FDB_TSL_WRITE t data]) ->
  tstores (write_tsl (blob_of data) t) d
          (append_bytes m a (ts_sec_size d) l (Entry FDB_TSL_WRITE t data)) (fun r => r = FDB_NO_ERR).
Proof.
  intros [Hm Hs _ Hat Hmem] Hok Hf. set (e := Entry FDB_TSL_WRITE t data) in *.
  destruct (push_bounds a _ l e Hf) as (Hp1 & Hp2 & Hp3 & Hp4).
  pose proof (la_free _ _ _ _ (sa_log _ _ _ _ _ _ Hat)) as Hfree.
  pose proof (new_data_addr a (ts_sec_size d) l e) as Hda. pose proof (data_size_nonneg l).
  pose proof (len_node_bytes a (ts_sec_size d) (l ++ [e]) (length l) e) as Hnb.
  destruct (Hs) as [Hg (Ha & Hmod & He) Hmul]. destruct (Hg) as [H64 Hdv H2 H32].
  pose proof (holds_len _ _ _ Hm) as Hlm. destruct Hok as [_ Htm Hbd Hln].
  pose proof (len_nonneg data) as Hd0. change (e_data e) with data in *.
  unfold write_tsl. apply tstores_gets. destruct Hmem as [_ _ _ _ _ Hidx Hdat _ _].
  rewrite Hidx, Hdat. cbn [blob_of size]. rewrite ts_align_id by lia.
  unfold append_bytes. cbv zeta. unfold node_bytes in *. set (da := data_addr a _ _ _) in *.
  change (e_time e) with t in *. change (e_data e) with data in *.
  set (x := node_addr a (length l)) in *. set (f := free_space (ts_sec_size d) l) in *.
  unfold LOG_IDX_TS_OFFSET, LOG_IDX_DATA_SIZE, SECTOR_HDR_DATA_SIZE, ts_sec_size in *.
  assert (x + f = a + sec_size (geo (parent d)) - data_size l) as Hxf
    by (unfold x, f; ts_unfold; lia).
  assert (forall b k, x <= b -> 0 <= k -> b + k <= a + sec_size (geo (parent d)) ->
    b < a + sec_size (geo (parent d)) -> in_sector (geo (parent d)) b k) as Hin
    by (intros; eapply sector_in_part; [exact Hs|lia..]).
  wrap_small. rewrite <- Hda.
  eapply tstores_then.
  { apply (tstores_write_status d m x FDB_TSL_STATUS_NUM (enum_val FDB_TSL_PRE_WRITE) 255 false Hm); try done.
    - apply Hin; lia.
    - apply (filled_sub m x f FDB_BYTE_ERASED _ 1); [done|lia..]. }
  intros i1 Hi1. eapply tstores_then.
  { apply tstores_write; [exact Hi1|rewrite Hnb; apply Hin; lia|lia|apply bytes_enc_log_idx|].
    apply clears_erased; [|apply bytes_enc_log_idx]. rewrite Hnb.
    apply filled_splice; rewrite ?len_one; try lia.
    eapply (filled_sub m x f); [done|lia..]. }
  intros i2 Hi2. eapply tstores_then.
  { eapply tstores_bind with (R1 := fun b => b = data).
    - unfold blob_bytes. cbn [blob_of buf size]. rewrite (proj2 (Z.leb_le _ _)) by lia.
      rewrite slice_all. apply tstores_ret; [exact Hi2|done].
    - intros b i3 -> Hi3. apply tstores_write_align; [exact Hi3| |cbn; lia|done|].
      + intros Hpos. apply Hin; lia.
      + apply clears_erased; [|done].
        apply filled_splice; rewrite ?len_splice, ?len_one, ?Hnb; try lia.
        apply filled_splice; rewrite ?len_splice, ?len_one, ?Hnb; try lia.
        eapply (filled_sub m x f); [done|lia..]. }
  intros i4 Hi4.
  apply (tstores_write_status _ _ x FDB_TSL_STATUS_NUM (enum_val FDB_TSL_WRITE)
           (status_byte (enum_val FDB_TSL_PRE_WRITE)) true Hi4); try done.
  - apply (Hin x 1); lia.
  - rewrite 2!slice_splice_other; rewrite ?len_splice, ?len_one, ?Hnb; try lia.
    change 1 with (len [status_byte (enum_val FDB_TSL_PRE_WRITE)]) at 1.
    apply slice_splice_same; rewrite ?len_one; lia.
Qed.

(** What an append never changes. *)
Definition ts_config d :=
  (geo (parent d), init_ok (parent d), lock (parent d), unlock (parent d), max_len d, rollover d).

Lemma ts_config_size d d' : ts_config d' = ts_config d -> ts_sec_size d' = ts_sec_size d.
Proof. unfold ts_config, ts_sec_size. by intros [= -> _ _ _ _ _]. Qed.

(** The bytes outside the sector at [a] are the same. *)
Definition same_outside (m m' : list Z) (a n : Z) : Prop :=
  forall b k, 0 <= b -> 0 <= k -> b + k <= a \/ a + n <= b -> slice m' b k = slice m b k.

(** Taking an empty current sector into use. *)
Lemma wp_open_sector d m a st start l t Q :
  cur_log d m a st start l -> -2147483648 <= t < 2147483648 ->
  (forall d1 m1 start1, cur_log d1 m1 a FDB_SECTOR_STORE_USING start1 l ->
     start1 = (if decide (st = FDB_SECTOR_STORE_EMPTY) then t else start) ->
     ts_config d1 = ts_config d -> oldest_addr (parent d1) = oldest_addr (parent d) ->
     last_time d1 = last_time d -> same_outside m m1 a (ts_sec_size d) ->
     Q FDB_NO_ERR d1) ->
  wp (open_sector t) Q d.
Proof.
  intros Hc Ht HQ. pose proof (Hc) as [Hm Hs Hopen Hat Hmem].
  destruct (Hs) as [Hg (Ha & Hmod & He) Hmul]. destruct (Hg) as [H64 Hdv H2 H32].
  pose proof (holds_len _ _ _ Hm) as Hlm.
  pose proof (Hmem) as [M1 M2 M3 M4 M5 M6 M7 M8 M9].
  unfold open_sector. apply wp_bind, wp_gets. rewrite M2. unfold ts_sec_size in *.
  destruct Hopen as [-> | ->].
  - rewrite decide_True by done. apply wp_bind, wp_modify.
    set (d1 := set_cur_sec _ d).
    assert (sec_log (cur_sec d1) a (ts_sec_size d) FDB_SECTOR_STORE_USING t l) as Hmem1
      by (split; cbn; try done; intros _; by apply M9).
    assert (ts_holds d1 m) as Hm1 by done.
    eapply wp_tstores.
    { rewrite M3. eapply tstores_then.
      - apply (tstores_write_status d1 m a FDB_SECTOR_STORE_STATUS_NUM (enum_val FDB_SECTOR_STORE_USING)
                 (status_byte (enum_val FDB_SECTOR_STORE_EMPTY)) true Hm1); try done.
        + change (in_sector (geo (parent d)) a 1). eapply sector_in_part; [exact Hs|lia..].
        + apply (sa_status _ _ _ _ _ _ Hat).
      - intros i Hi. unfold SECTOR_START_TIME_OFFSET. wrap_small.
        apply tstores_write; rewrite ?len_time_bytes; [exact Hi| |done|apply bytes_le_bytes|].
        + change (in_sector (geo (parent d)) (a + 5) 4). eapply sector_in_part; [exact Hs|lia..].
        + apply clears_erased; [|apply bytes_le_bytes]. rewrite len_time_bytes.
          apply filled_splice; rewrite ?len_one; try lia.
          apply (sa_empty _ _ _ _ _ _ Hat eq_refl). }
    intros r i -> Hi. cbn beta. apply (HQ (ts_io i d1) (opened m a t) t); try done.
    + split; [exact Hi|done|by right| |exact Hmem1].
      change (ts_sec_size (ts_io i d1)) with (sec_size (geo (parent d))).
      apply sector_at_opened with start; try done; [lia|unfold SECTOR_HDR_DATA_SIZE; lia].
    + intros b k Hb Hk Hout. apply opened_other;
        unfold SECTOR_HDR_DATA_SIZE, SECTOR_END0_TIME_OFFSET; lia.
  - rewrite decide_False by done. apply wp_ret. by apply (HQ d m start).
Qed.

(** With room in the current sector, [update_sec_status] only takes an empty
    sector into use. *)
Lemma wp_room_sector d m a st start l t data Q :
  cur_log d m a st start l -> len data < 4294967296 ->
  LOG_IDX_DATA_SIZE + len data <= free_space (ts_sec_size d) l ->
  wp (open_sector t) Q d -> wp (update_sec_status (blob_of data) t) Q d.
Proof.
  intros [Hm Hs Hopen Hat Hmem] Hln Hroom HQ.
  destruct (Hs) as [Hg (Ha & Hmod & He) Hmul]. destruct (Hg) as [H64 Hdv H2 H32].
  pose proof (len_nonneg data) as Hd0. pose proof (data_size_nonneg l).
  assert (free_space (ts_sec_size d) l <= ts_sec_size d) as Hfle by (ts_unfold; lia).
  unfold update_sec_status. apply wp_bind, wp_gets, wp_bind, wp_gets. cbn [blob_of size].
  rewrite (sl_status _ _ _ _ _ _ Hmem), (sl_remain _ _ _ _ _ _ Hmem). rewrite ts_align_id by lia.
  unfold LOG_IDX_DATA_SIZE, ts_sec_size in *. wrap_small.
  rewrite (proj2 (Z.ltb_ge _ _)), andb_false_r by lia.
  rewrite (decide_False (P := st = FDB_SECTOR_STORE_FULL)) by (destruct Hopen; congruence).
  apply wp_bind, wp_ret. by rewrite decide_True by done.
Qed.

(** The structures after an append. *)
Lemma append_mem d a st start l t data :
  sec_log (cur_sec d) a (ts_sec_size d) st start l ->
  sector_in (geo (parent d)) a -> len data < 4294967296 ->
  let e := Entry FDB_TSL_WRITE t data in
  0 <= free_space (ts_sec_size d) (l ++ [e]) ->
  sec_log (sec_set_space
             (u64 (remain (cur_sec d) - u64 (LOG_IDX_DATA_SIZE + WG_ALIGN (len data))))
             (u32 (empty_idx (cur_sec d) + LOG_IDX_DATA_SIZE))
             (u32 (empty_data (cur_sec d) - WG_ALIGN (len data)))
             (sec_set_end t (empty_idx (cur_sec d)) (cur_sec d)))
          a (ts_sec_size d) st start (l ++ [e]).
Proof.
  intros Hmem [Hg (Ha & Hmod & He) _] Hln e Hf. destruct Hg.
  destruct (push_bounds a _ l e Hf) as (Hp1 & Hp2 & Hp3 & Hp4). pose proof (len_nonneg data).
  pose proof (data_size_nonneg l).
  pose proof (sec_log_push _ _ _ _ _ _ e Hmem) as Hpush. unfold sec_push in Hpush.
  pose proof (free_space_snoc (ts_sec_size d) l e) as Efs.
  destruct (Hmem) as [_ _ M3 _ M5 M6 M7 _ _]. rewrite M3 in Hpush. rewrite M5, M6, M7.
  cbn [e e_data e_time] in *. unfold ts_sec_size, LOG_IDX_DATA_SIZE, SECTOR_HDR_DATA_SIZE in *.
  rewrite ts_align_id by lia. wrap_small.
  replace (free_space (sec_size (geo (parent d))) l - (16 + len data))
    with (free_space (sec_size (geo (parent d))) (l ++ [e])) by (rewrite Efs; lia).
  exact Hpush.
Qed.

(** The end of an append, when the current sector is in use and has room. *)
Lemma wp_write_entry d m a start l t data Q :
  cur_log d m a FDB_SECTOR_STORE_USING start l -> entry_ok (Entry FDB_TSL_WRITE t data) ->
  0 <= free_space (ts_sec_size d) (l ++ [Entry FDB_TSL_WRITE t data]) ->
  (forall d' m',
     cur_log d' m' a FDB_SECTOR_STORE_USING start (l ++ [Entry FDB_TSL_WRITE t data]) ->
     ts_config d' = ts_config d -> oldest_addr (parent d') = oldest_addr (parent d) ->
     last_time d' = t -> same_outside m m' a (ts_sec_size d) ->
     Q FDB_NO_ERR d') ->
  wp (write_tsl (blob_of data) t >>>
      (modify (fun d =>
         let sec := cur_sec d in
         set_last_time t
           (set_cur_sec
              (sec_set_space (u64 (remain sec - u64 (LOG_IDX_DATA_SIZE + WG_ALIGN (size (blob_of data)))))
                 (u32 (empty_idx sec + LOG_IDX_DATA_SIZE))
                 (u32 (empty_data sec - WG_ALIGN (size (blob_of data))))
                 (sec_set_end t (empty_idx sec) sec)) d));;
       mret FDB_NO_ERR)) Q d.
Proof.
  intros Hc1 Hok Hf HQ. set (e := Entry FDB_TSL_WRITE t data) in *. destruct (Hok) as [_ Htm Hbd Hln].
  change (e_data e) with data in *. change (e_time e) with t in *.
  apply wp_bind. eapply wp_tstores.
  { by apply (tstores_write_tsl d m a FDB_SECTOR_STORE_USING start l). }
  intros r i -> Hi. rewrite decide_True by done. apply wp_bind, wp_modify, wp_ret.
  destruct Hc1 as [Hm1 Hs1 _ Hat1 Hmem1]. pose proof (holds_len _ _ _ Hm1) as Hlm.
  destruct (Hs1) as [_ (Ha & _ & He) _]. unfold ts_sec_size in *.
  eapply (HQ _ (append_bytes m a (ts_sec_size d) l e)); try done.
  - split; [exact Hi|exact Hs1|by right| |].
    + apply (sector_at_append m a (sec_size (geo (parent d)))); try done; lia.
    + exact (append_mem d a _ _ l t data Hmem1 Hs1 Hln Hf).
  - intros b k Hb Hk Hout. apply append_bytes_other; unfold ts_sec_size, SECTOR_HDR_DATA_SIZE; try done; lia.
Qed.

(** An append to a current sector with room. *)
Lemma wp_tsl_append d m a st start l t data Q :
  cur_log d m a st start l -> entry_ok (Entry FDB_TSL_WRITE t data) ->
  last_time d < t -> len data <= max_len d ->
  0 <= free_space (ts_sec_size d) (l ++ [Entry FDB_TSL_WRITE t data]) ->
  (forall d' m' start',
     cur_log d' m' a FDB_SECTOR_STORE_USING start' (l ++ [Entry FDB_TSL_WRITE t data]) ->
     start' = (if decide (st = FDB_SECTOR_STORE_EMPTY) then t else start) ->
     ts_config d' = ts_config d -> oldest_addr (parent d') = oldest_addr (parent d) ->
     last_time d' = t -> same_outside m m' a (ts_sec_size d) ->
     Q FDB_NO_ERR d') ->
  wp (tsl_append (blob_of data) (Some t)) Q d.
Proof.
  intros Hc Hok Hlt Hml Hf HQ. set (e := Entry FDB_TSL_WRITE t data) in *.
  destruct (push_bounds a _ l e Hf) as (Hp1 & _). destruct (Hok) as [_ Htm Hbd Hln].
  change (e_data e) with data in *. change (e_time e) with t in *.
  unfold tsl_append. apply wp_bind, wp_ret, wp_bind, wp_gets, wp_bind, wp_gets. cbn [blob_of size].
  rewrite (proj2 (Z.ltb_ge _ _)), (proj2 (Z.leb_gt _ _)) by lia.
  apply wp_bind. eapply (wp_room_sector d m a st start l); [done|done|lia|].
  eapply (wp_open_sector d m a st start l); [done|done|].
  intros d1 m1 start1 Hc1 Es1 Hg1 Ho1 Hl1 Hout1. rewrite decide_True by done.
  pose proof (ts_config_size _ _ Hg1) as Esz.
  eapply (wp_write_entry d1 m1 a start1 l); [done|done|by rewrite Esz|].
  intros d' m' Hc' Hg' Ho' Hl' Hout'. eapply (HQ d' m' start1); try done; [congruence..|].
  intros b k Hb Hk Hout. rewrite Hout' by (rewrite ?Esz; done). by apply Hout1.
Qed.
End append.
