(* ===== verification/TsIter.v ===== *)
(** Time-series database: iterating over the log.

    A database is a ring of sectors; its log is the concatenation of the
    sectors' logs, from the oldest sector on.  The iterators visit exactly the
    entries of the log, in order or in reverse order, until the callback stops
    them. *)
From S2P Require Import Prelude FdbDef Status FlashIO FlashSpec KvRing TsDef TsOps TsApi TsSpec TsRead TsAppend.

(** ** What the callback sees *)

(** The objects of the entries of a sector. *)
Definition sector_tsls (a n : Z) (l : list entry) : list fdb_tsl := imap (tsl_of a n l) l.

(** A callback function applied to a list, until it returns [true]. *)
Fixpoint visit {A} (f : fdb_tsl -> A -> bool * A) (ts : list fdb_tsl) (arg : A) : bool * A :=
  match ts with
  | [] => (false, arg)
  | t :: ts => if fst (f t arg) then (true, snd (f t arg)) else visit f ts (snd (f t arg))
  end.

Lemma visit_app {A} (f : fdb_tsl -> A -> bool * A) l k arg :
  visit f (l ++ k) arg =
    if fst (visit f l arg) then visit f l arg else visit f k (snd (visit f l arg)).
Proof.
  revert arg. induction l as [|t l IH]; intros arg; [done|]. cbn [visit app].
  destruct (f t arg) as [[] a]; cbn [fst snd]; [done|apply IH].
Qed.

(** The nodes [ks] of a sector, as the function that gives the next address
    walks through them. *)
Fixpoint walks (get : fdb_tsl -> Z) (a : Z) (ks : list nat) : Prop :=
  match ks with
  | [] => True
  | i :: js =>
      (forall t, tsl_index t = node_addr a i ->
         get t = match js with [] => FAILED_ADDR | j :: _ => node_addr a j end) /\
      walks get a js
  end.

Lemma walks_forward s a l i :
  status s <> FDB_SECTOR_STORE_EMPTY -> end_idx s = last_node a l -> (i < length l)%nat ->
  0 <= a -> node_addr a (length l) < 4294967296 ->
  walks (get_next_tsl_addr s) a (seq i (length l - i)).
Proof.
  intros Hst He Hi Ha H32. remember (length l - i)%nat as k eqn:Ek. revert i Hi Ek.
  induction k as [|k IH]; intros i Hi Ek; [lia|]. cbn [seq walks]. split.
  - intros t Ht. unfold get_next_tsl_addr. rewrite decide_False, Ht, He by done. unfold last_node.
    destruct k as [|k]; cbn [seq].
    + rewrite (proj2 (Z.leb_gt _ _)) by (ts_unfold; lia). done.
    + rewrite (proj2 (Z.leb_le _ _)) by (ts_unfold; lia).
      assert (node_addr a i + LOG_IDX_DATA_SIZE = node_addr a (S i)) as -> by (ts_unfold; lia).
      apply Z.mod_small. ts_unfold. lia.
  - destruct k as [|k]; [done|]. apply IH; lia.
Qed.

(** Backwards from node [i]. *)
Definition down_from (i : nat) : list nat := rev (seq 0 (S i)).

Lemma down_from_S i : down_from (S i) = S i :: down_from i.
Proof. unfold down_from. rewrite (seq_S (S i)), rev_app_distr. done. Qed.

Lemma walks_backward s a i :
  status s <> FDB_SECTOR_STORE_EMPTY -> addr s = a -> 0 <= a -> node_addr a i < 4294967296 ->
  walks (get_last_tsl_addr s) a (down_from i).
Proof.
  intros Hst Es Ha H32. induction i as [|i IH].
  - cbn. split; [|done]. intros t Ht. unfold get_last_tsl_addr. rewrite decide_False, Ht, Es by done.
    by rewrite (proj2 (Z.leb_gt _ _)) by (ts_unfold; lia).
  - rewrite down_from_S. cbn [walks]. split; [|apply IH; ts_unfold; lia].
    intros t Ht. unfold get_last_tsl_addr. rewrite decide_False, Ht, Es by done.
    rewrite (proj2 (Z.leb_le _ _)) by (ts_unfold; lia).
    assert (node_addr a (S i) - LOG_IDX_DATA_SIZE = node_addr a i) as -> by (ts_unfold; lia).
    destruct i as [|i]; [|rewrite down_from_S]; cbn; apply Z.mod_small; ts_unfold; lia.
Qed.

Section iterate.
Context {W} {ST : Storage W} {SL : StorageLaws W} {IN : Indeterminate} {CL : Clock W}.
Implicit Type d : fdb_tsdb W.

(** A callback that computes [f] and at most reads the medium. *)
Definition computes {A} (cb : fdb_tsl_cb A) (f : fdb_tsl -> A -> bool * A) (m : list Z) : Prop :=
  forall t a d, ts_holds d m -> tstores (cb t a) d m (fun c => c = f t a).

Lemma computes_pure {A} (f : fdb_tsl -> A -> bool * A) m : computes (fun t a => mret (f t a)) f m.
Proof. intros t a d Hd. by apply tstores_ret. Qed.

Lemma tstores_iterate_tsls {A} m a l cb (f : fdb_tsl -> A -> bool * A) get s ks :
  forall d fuel tsl (arg : A),
  ts_holds d m -> sector_in (geo (parent d)) a -> log_at m a (ts_sec_size d) l ->
  computes cb f m -> walks (get s) a ks -> Forall (fun i => (i < length l)%nat) ks ->
  node_addr a (length l) < FAILED_ADDR ->
  ks <> [] -> (length ks <= fuel)%nat -> (forall i, head ks = Some i -> tsl_index tsl = node_addr a i) ->
  tstores (iterate_tsls fuel get cb s tsl arg) d m (fun r =>
    let v := visit f (omap (sector_tsls a (ts_sec_size d) l !!.) ks) arg in
    fst (fst r) = fst v /\ snd r = snd v).
Proof.
  induction ks as [|k ks IH]; intros d fuel tsl arg Hm Hs Hl Hcb Hw Hlt H32 Hne Hf Hh; [done|].
  destruct fuel as [|fuel]; [cbn in Hf; lia|]. cbn [walks] in Hw. destruct Hw as [Hk Hw].
  apply Forall_cons in Hlt as [Hkl Hlt].
  destruct (lookup_lt_is_Some_2 l k Hkl) as [e He]. pose proof (Hh k eq_refl) as Ht.
  assert (sector_tsls a (ts_sec_size d) l !! k = Some (tsl_of a (ts_sec_size d) l k e)) as Hlk
    by (unfold sector_tsls; by rewrite list_lookup_imap, He).
  cbn [omap list_omap]. rewrite Hlk. cbn [visit]. set (t := tsl_of a (ts_sec_size d) l k e) in *.
  unfold iterate_tsls. cbn [loop]. eapply tstores_bind with (m1 := m) (R1 := fun r =>
    match r with
    | inr r => if fst (f t arg) : bool then fst (fst r) = true /\ snd r = snd (f t arg)
               else ks = [] /\ fst (fst r) = false /\ snd r = snd (f t arg)
    | inl (tsl', arg') => fst (f t arg) = false /\ arg' = snd (f t arg) /\
        exists j js, ks = j :: js /\ tsl_index tsl' = node_addr a j
    end).
  - eapply tstores_bind; [by apply (tstores_read_tsl d m a l k e)|]. intros r i -> Hi.
    eapply tstores_bind; [by apply Hcb|]. intros c j -> Hj. fold t.
    destruct (f t arg) as [[] arg'] eqn:Ef; cbn [fst snd].
    + by apply tstores_ret.
    + rewrite (Hk t eq_refl). destruct ks as [|j' js].
      * rewrite Z.eqb_refl. by apply tstores_ret.
      * inversion Hlt; subst. rewrite (proj2 (Z.eqb_neq _ _)) by (ts_unfold; lia).
        apply tstores_ret; [done|]. split_and!; [done..|]. by exists j', js.
  - intros [[tsl' arg']|r] i Hr Hi.
    + destruct Hr as (Hf0 & -> & j & js & -> & Ht'). rewrite Hf0.
      apply (IH (ts_io i d) fuel tsl'); try done; [cbn in *; lia|]. by intros ? [= <-].
    + apply tstores_ret; [done|]. destruct (fst (f t arg)); [done|].
      destruct Hr as (-> & H1 & H2). done.
Qed.

(** The entries from a place on, and back from it. *)
Lemma omap_lookup_seq {B} (l : list B) i :
  (i <= length l)%nat -> omap (l !!.) (seq i (length l - i)) = drop i l.
Proof.
  intros Hi. remember (length l - i)%nat as k eqn:Ek. revert i Hi Ek.
  induction k as [|k IH]; intros i Hi Ek; cbn [seq].
  - rewrite drop_ge by lia. done.
  - destruct (lookup_lt_is_Some_2 l i ltac:(lia)) as [x Hx]. cbn [omap list_omap]. rewrite Hx.
    rewrite (drop_S l x i Hx). f_equal. apply IH; lia.
Qed.
Lemma omap_lookup_down {B} (l : list B) i :
  (i < length l)%nat -> omap (l !!.) (down_from i) = rev (take (S i) l).
Proof.
  induction i as [|i IH]; intros Hi.
  - destruct l as [|x l]; [cbn in Hi; lia|]. done.
  - destruct (lookup_lt_is_Some_2 l (S i) ltac:(lia)) as [x Hx].
    rewrite down_from_S. cbn [omap list_omap]. rewrite Hx, IH by lia.
    by rewrite (take_S_r l (S i) x Hx), rev_app_distr.
Qed.

(** The nodes end before the data. *)
Lemma node_bound g a l i :
  sector_in g a -> 0 <= free_space (sec_size g) l -> (i <= length l)%nat ->
  0 <= a /\ node_addr a i <= a + sec_size g /\ a + sec_size g < FAILED_ADDR.
Proof.
  intros [Hg (Ha & _ & He) _] Hf Hi. destruct Hg. pose proof (data_size_nonneg l).
  unfold FAILED_ADDR. ts_unfold. lia.
Qed.

Lemma length_sector_tsls a n l : length (sector_tsls a n l) = length l.
Proof. apply length_imap. Qed.

(** The entries from [i] on. *)
Lemma tstores_nodes_forward {A} d m a l cb (f : fdb_tsl -> A -> bool * A) s tsl i arg :
  ts_holds d m -> sector_in (geo (parent d)) a -> log_at m a (ts_sec_size d) l -> (i < length l)%nat ->
  computes cb f m -> status s <> FDB_SECTOR_STORE_EMPTY -> end_idx s = last_node a l ->
  tstores (iterate_tsls (forward_fuel s (node_addr a i)) get_next_tsl_addr cb s
             (tsl_set_index (node_addr a i) tsl) arg) d m
    (fun r => let v := visit f (drop i (sector_tsls a (ts_sec_size d) l)) arg in
              fst (fst r) = fst v /\ snd r = snd v).
Proof.
  intros Hm Hs Hl Hi Hcb Hst Ee.
  destruct (node_bound _ _ _ (length l) Hs (la_fits _ _ _ _ Hl) ltac:(lia)) as (Ha & Hb & H32).
  pose proof (omap_lookup_seq (sector_tsls a (ts_sec_size d) l) i) as E.
  rewrite length_sector_tsls in E. rewrite <- E by lia.
  apply (tstores_iterate_tsls m a l cb f get_next_tsl_addr s (seq i (length l - i)) d); try done.
  - apply walks_forward; try done. unfold FAILED_ADDR in H32. lia.
  - apply Forall_forall. intros j Hj. apply elem_of_seq in Hj. lia.
  - lia.
  - by destruct (length l - i)%nat eqn:?; [lia|].
  - rewrite length_seq. unfold forward_fuel. rewrite Ee. unfold last_node.
    replace (node_addr a (length l - 1) - node_addr a i) with (Z.of_nat (length l - 1 - i) * LOG_IDX_DATA_SIZE)
      by (ts_unfold; lia).
    rewrite Z.div_mul by done. lia.
  - intros j Hj. destruct (length l - i)%nat eqn:?; [lia|]. cbn in Hj. by injection Hj as <-.
Qed.

(** The entries from [i] backwards. *)
Lemma tstores_nodes_backward {A} d m a l cb (f : fdb_tsl -> A -> bool * A) s tsl i arg :
  ts_holds d m -> sector_in (geo (parent d)) a -> log_at m a (ts_sec_size d) l -> (i < length l)%nat ->
  computes cb f m -> status s <> FDB_SECTOR_STORE_EMPTY -> addr s = a ->
  tstores (iterate_tsls (backward_fuel s (node_addr a i)) get_last_tsl_addr cb s
             (tsl_set_index (node_addr a i) tsl) arg) d m
    (fun r => let v := visit f (rev (take (S i) (sector_tsls a (ts_sec_size d) l))) arg in
              fst (fst r) = fst v /\ snd r = snd v).
Proof.
  intros Hm Hs Hl Hi Hcb Hst Ea.
  destruct (node_bound _ _ _ (length l) Hs (la_fits _ _ _ _ Hl) ltac:(lia)) as (Ha & Hb & H32).
  assert (node_addr a i < node_addr a (length l)) by (ts_unfold; lia).
  pose proof (omap_lookup_down (sector_tsls a (ts_sec_size d) l) i) as E.
  rewrite length_sector_tsls in E. rewrite <- E by lia.
  apply (tstores_iterate_tsls m a l cb f get_last_tsl_addr s (down_from i) d); try done.
  - apply walks_backward; try done. unfold FAILED_ADDR in H32. lia.
  - apply Forall_forall. intros j Hj. unfold down_from in Hj.
    rewrite elem_of_reverse in Hj || apply list_elem_of_In, in_rev, list_elem_of_In in Hj.
    apply elem_of_seq in Hj. lia.
  - lia.
  - unfold down_from. rewrite (seq_S i), rev_app_distr. done.
  - unfold down_from. rewrite length_rev, length_seq. unfold backward_fuel. rewrite Ea.
    replace (node_addr a i - a) with (Z.of_nat (i + 2) * LOG_IDX_DATA_SIZE) by (ts_unfold; lia).
    rewrite Z.div_mul by done. lia.
  - intros j Hj. unfold down_from in Hj. rewrite (seq_S i), rev_app_distr in Hj.
    cbn in Hj. by injection Hj as <-.
Qed.

(** All entries of a sector, forwards; and backwards. *)
Lemma tstores_sector_forward {A} d m a l cb (f : fdb_tsl -> A -> bool * A) s tsl arg :
  ts_holds d m -> sector_in (geo (parent d)) a -> log_at m a (ts_sec_size d) l -> l <> [] ->
  computes cb f m -> status s <> FDB_SECTOR_STORE_EMPTY -> addr s = a -> end_idx s = last_node a l ->
  let index := u32 (addr s + SECTOR_HDR_DATA_SIZE) in
  tstores (iterate_tsls (forward_fuel s index) get_next_tsl_addr cb s (tsl_set_index index tsl) arg) d m
    (fun r => let v := visit f (sector_tsls a (ts_sec_size d) l) arg in
              fst (fst r) = fst v /\ snd r = snd v).
Proof.
  intros Hm Hs Hl Hne Hcb Hst Ea Ee index.
  destruct (node_bound _ _ _ (length l) Hs (la_fits _ _ _ _ Hl) ltac:(lia)) as (Ha & Hb & H32).
  assert (0 < length l)%nat as Hpos by (destruct l; [done|cbn; lia]).
  assert (index = node_addr a 0) as ->.
  { unfold index. rewrite Ea. unfold FAILED_ADDR in H32. ts_unfold. wrap_small. lia. }
  rewrite <- (drop_0 (sector_tsls _ _ _)). by apply tstores_nodes_forward.
Qed.

Lemma tstores_sector_backward {A} d m a l cb (f : fdb_tsl -> A -> bool * A) s tsl arg :
  ts_holds d m -> sector_in (geo (parent d)) a -> log_at m a (ts_sec_size d) l -> l <> [] ->
  computes cb f m -> status s <> FDB_SECTOR_STORE_EMPTY -> addr s = a -> end_idx s = last_node a l ->
  tstores (iterate_tsls (backward_fuel s (end_idx s)) get_last_tsl_addr cb s
             (tsl_set_index (end_idx s) tsl) arg) d m
    (fun r => let v := visit f (rev (sector_tsls a (ts_sec_size d) l)) arg in
              fst (fst r) = fst v /\ snd r = snd v).
Proof.
  intros Hm Hs Hl Hne Hcb Hst Ea Ee. assert (0 < length l)%nat by (destruct l; [done|cbn; lia]).
  rewrite Ee. rewrite <- (take_ge (sector_tsls _ _ _) (S (length l - 1))) by (rewrite length_sector_tsls; lia).
  unfold last_node. apply tstores_nodes_backward; try done. lia.
Qed.
End iterate.
