(* ===== verification/TsRing.v ===== *)
(** Time-series database: the ring of sectors, and the iterators over the whole
    log. *)
From S2P Require Import Prelude FdbDef Status FlashIO FlashSpec KvRing.
From S2P Require Import TsDef TsOps TsApi TsSpec TsRead TsAppend TsIter.

(** ** The ring *)

(** The index of the sector before [k]. *)
Definition prev_index (n k : Z) : Z := if 0 <? k then k - 1 else n - 1.

Lemma next_index_mod n o k : 0 < n -> next_index n ((o + k) mod n) = (o + (k + 1)) mod n.
Proof.
  intros Hn. unfold next_index. pose proof (Z.mod_pos_bound (o + k) n Hn).
  replace (o + (k + 1)) with (o + k + 1) by lia. rewrite <- (Zplus_mod_idemp_l (o + k) 1).
  destruct (Z.ltb_spec ((o + k) mod n + 1) n); [by rewrite (Z.mod_small ((o + k) mod n + 1)) by lia|].
  replace ((o + k) mod n + 1) with n by lia. by rewrite Z.mod_same by lia.
Qed.

Lemma prev_index_mod n o k : 0 < n -> prev_index n ((o - k) mod n) = (o - (k + 1)) mod n.
Proof.
  intros Hn. unfold prev_index. pose proof (Z.mod_pos_bound (o - k) n Hn).
  replace (o - (k + 1)) with (o - k - 1) by lia. rewrite <- (Zminus_mod_idemp_l (o - k) 1).
  destruct (Z.ltb_spec 0 ((o - k) mod n)); [by rewrite (Z.mod_small ((o - k) mod n - 1)) by lia|].
  replace ((o - k) mod n - 1) with (n - 1 + -1 * n) by lia. rewrite Z.mod_add, Z.mod_small; lia.
Qed.

Section ts_ring.
Context {W : Type}.
Implicit Type d : fdb_tsdb W.

Lemma ts_next_sector_addr d s k t :
  geom_ok (geo (parent d)) -> addr s = k * ts_sec_size d ->
  0 <= k < sector_count (geo (parent d)) -> 0 <= t <= sector_count (geo (parent d)) ->
  get_next_sector_addr d s (t * ts_sec_size d) =
    if t <? sector_count (geo (parent d))
    then next_index (sector_count (geo (parent d))) k * ts_sec_size d else FAILED_ADDR.
Proof.
  intros Hg Ha Hk Ht. unfold get_next_sector_addr, ts_max_size, ts_sec_size in *. rewrite Ha.
  destruct (ring_next _ Hg k t Hk Ht) as (-> & -> & ->). unfold next_index. by repeat case_match.
Qed.

Lemma ts_last_sector_addr d s k t :
  geom_ok (geo (parent d)) -> addr s = k * ts_sec_size d ->
  0 <= k < sector_count (geo (parent d)) -> 0 <= t <= sector_count (geo (parent d)) ->
  get_last_sector_addr d s (t * ts_sec_size d) =
    if t <? sector_count (geo (parent d))
    then prev_index (sector_count (geo (parent d))) k * ts_sec_size d else FAILED_ADDR.
Proof.
  intros Hg Ha Hk Ht. pose proof (max_size_eq _ Hg) as Hmax.
  unfold get_last_sector_addr, ts_max_size, ts_sec_size in *. rewrite Ha.
  destruct (ring_next _ Hg k t Hk Ht) as (-> & _ & _). unfold prev_index.
  destruct (t <? _); [|done]. destruct Hg as [H64 Hdv H2 H32].
  assert (k * sec_size (geo (parent d)) <= max_size (geo (parent d))) by nia.
  destruct (Z.ltb_spec 0 k).
  - rewrite (proj2 (Z.leb_le _ _)) by nia. assert (sec_size (geo (parent d)) <= k * sec_size (geo (parent d))) by nia.
    wrap_small. lia.
  - rewrite (proj2 (Z.leb_gt _ _)) by nia. wrap_small. rewrite Hmax at 1. lia.
Qed.

Lemma ts_index_not_failed d k :
  geom_ok (geo (parent d)) -> 0 <= k < sector_count (geo (parent d)) ->
  (k * ts_sec_size d =? FAILED_ADDR) = false.
Proof.
  intros Hg Hk. pose proof (sector_addr_range _ Hg k Hk) as (H1 & H2 & _).
  destruct Hg. unfold FAILED_ADDR, ts_sec_size in *. apply Z.eqb_neq. lia.
Qed.
End ts_ring.

(** ** The log of a database *)

Record sector_state := SecState {
  ss_status : fdb_sector_store_status;
  ss_start : Z;
  ss_log : list entry;
}.

Section log.
Context {W} {ST : Storage W} {SL : StorageLaws W} {IN : Indeterminate} {CL : Clock W}.
Implicit Type d : fdb_tsdb W.

(** The address of the [k]-th sector from the one with index [o] on. *)
Definition ring_addr (g : geom) (o k : Z) : Z := (o + k) mod sector_count g * sec_size g.

(** The sectors of the database in ring order, from the one with index [o]
    on. *)
Record ring_log d (m : list Z) (o : Z) (secs : list sector_state) : Prop := {
  rl_holds : ts_holds d m;
  rl_mult : sec_size (geo (parent d)) mod LOG_IDX_DATA_SIZE = 0;
  rl_count : Z.of_nat (length secs) = sector_count (geo (parent d));
  rl_first : 0 <= o < sector_count (geo (parent d));
  rl_secs : forall k s, secs !! k = Some s ->
    let a := ring_addr (geo (parent d)) o (Z.of_nat k) in
    sector_at m a (ts_sec_size d) (ss_status s) (ss_start s) (ss_log s) /\
    (ss_status s = FDB_SECTOR_STORE_USING ->
       ss_log s <> [] /\
       sec_log (cur_sec d) a (ts_sec_size d) FDB_SECTOR_STORE_USING (ss_start s) (ss_log s));
}.

(** The objects of the whole log, oldest first. *)
Definition ring_tsls (g : geom) (o : Z) (secs : list sector_state) : list fdb_tsl :=
  concat (imap (fun k s => sector_tsls (ring_addr g o (Z.of_nat k)) (sec_size g) (ss_log s)) secs).

Lemma ring_sector d m o secs k :
  ring_log d m o secs -> sector_in (geo (parent d)) (ring_addr (geo (parent d)) o k).
Proof.
  intros H. pose proof (holds_geom _ _ _ (rl_holds _ _ _ _ H)) as Hg.
  pose proof (sector_count_two _ Hg) as Hn.
  destruct (sector_addr_range _ Hg ((o + k) mod sector_count (geo (parent d)))) as (H1 & H2 & H3).
  { apply Z.mod_pos_bound. lia. }
  split; [done|done|by destruct H].
Qed.

Lemma ring_log_io d i m o secs : ring_log d m o secs -> ts_holds (ts_io i d) m -> ring_log (ts_io i d) m o secs.
Proof. intros [H1 H2 H3 H4 H5] Hi. by split. Qed.

(** The objects of the [k]-th sector. *)
Definition ring_part (g : geom) (o : Z) (k : nat) (s : sector_state) : list fdb_tsl :=
  sector_tsls (ring_addr g o (Z.of_nat k)) (sec_size g) (ss_log s).

Lemma ring_addr_end g o k : geom_ok g -> 0 <= ring_addr g o k < max_size g.
Proof.
  intros Hg. pose proof (sector_count_two _ Hg).
  destruct (sector_addr_range _ Hg ((o + k) mod sector_count g)) as (H1 & H2 & _).
  { apply Z.mod_pos_bound. lia. }
  destruct Hg. unfold ring_addr. lia.
Qed.

Lemma lock_trace_config (b : bool) l d :
  let d' := set_parent (if b then set_lock_trace l (parent d) else parent d) d in
  (geo (parent d'), dbio (parent d')) = (geo (parent d), dbio (parent d)) /\
  ts_config d' = ts_config d /\ cur_sec d' = cur_sec d /\
  oldest_addr (parent d') = oldest_addr (parent d) /\ last_time d' = last_time d.
Proof. by destruct b. Qed.

Lemma locked_parent d (Q : unit -> fdb_tsdb W -> Prop) m :
  ts_holds d m ->
  (forall d', ts_holds d' m -> ts_config d' = ts_config d -> cur_sec d' = cur_sec d ->
     oldest_addr (parent d') = oldest_addr (parent d) -> last_time d' = last_time d -> Q tt d') ->
  wp (up db_lock) Q d /\ wp (up db_unlock) Q d.
Proof.
  intros Hm HQ.
  assert (forall d', (geo (parent d'), dbio (parent d')) = (geo (parent d), dbio (parent d)) -> ts_holds d' m) as HH
    by (intros d' [= Hg Hi]; unfold ts_holds, db_holds in *; by rewrite Hg, Hi).
  split; apply wp_zoom, wp_modify.
  - destruct (lock_trace_config (lock (parent d)) (lock_trace (parent d) ++ [LockCall]) d) as (H & ? & ? & ? & ?).
    apply HQ; try done. by apply HH.
  - destruct (lock_trace_config (unlock (parent d)) (lock_trace (parent d) ++ [UnlockCall]) d) as (H & ? & ? & ? & ?).
    apply HQ; try done. by apply HH.
Qed.

Lemma ts_config_geo d d' : ts_config d' = ts_config d -> geo (parent d') = geo (parent d).
Proof. unfold ts_config. by intros [= -> _ _ _ _ _]. Qed.

(** The tests and the copy at the beginning of an iterator's turn, after the
    sector's header was read. *)
Definition visited (r : fdb_err_t * tsdb_sec_info) : bool :=
  bool_decide (fst r = FDB_NO_ERR) &&
  (bool_decide (status (snd r) = FDB_SECTOR_STORE_USING) || bool_decide (status (snd r) = FDB_SECTOR_STORE_FULL)).
Definition turn_sector (r : fdb_err_t * tsdb_sec_info) (cur : tsdb_sec_info) : tsdb_sec_info :=
  if visited r && bool_decide (status (snd r) = FDB_SECTOR_STORE_USING) then cur else snd r.

(** The sector structure an iterator works on for the sector state [s] at
    [a]. *)
Record sector_ready (s : sector_state) (a : Z) (x : tsdb_sec_info) : Prop := {
  sr_log : ss_log s <> [];
  sr_used : status x <> FDB_SECTOR_STORE_EMPTY;
  sr_addr : addr x = a;
  sr_start : start_time x = ss_start s;
  sr_end_time : end_time x = last_entry_time (ss_log s);
  sr_end_idx : end_idx x = last_node a (ss_log s);
}.

(** Reading the [k]-th sector of the ring, as every iterator begins a turn. *)
Lemma tstores_ring_sector {B} d m o secs k s x (rest : fdb_err_t * tsdb_sec_info -> tsdb_sec_info ->
    M (fdb_tsdb W) B) m' R :
  ring_log d m o secs -> secs !! k = Some s ->
  let a := ring_addr (geo (parent d)) o (Z.of_nat k) in
  (forall i r, ring_log (ts_io i d) m o secs -> fst r = FDB_NO_ERR ->
     addr (turn_sector r (cur_sec d)) = a ->
     (if visited r then ss_status s <> FDB_SECTOR_STORE_EMPTY /\ sector_ready s a (turn_sector r (cur_sec d))
      else ss_status s = FDB_SECTOR_STORE_EMPTY /\ ss_log s = [] /\ status (snd r) = FDB_SECTOR_STORE_EMPTY) ->
     tstores (rest r (cur_sec d)) (ts_io i d) m' R) ->
  tstores (r ← read_sector_info a x false; cur ← gets cur_sec; rest r cur) d m' R.
Proof.
  intros H Hk a Hrest. pose proof (ring_sector d m o secs (Z.of_nat k) H) as Hs.
  destruct (rl_secs _ _ _ _ H k s Hk) as [Hat Huse]. fold a in Hat, Huse.
  eapply tstores_bind; [by apply (tstores_read_sector d m _ _ _ _ x false (rl_holds _ _ _ _ H) Hs Hat)|].
  intros [e y] i [_ Hr] Hi. destruct (Hr (or_intror eq_refl)) as (He & Hy & Hfull). cbn [fst snd] in *.
  subst e. apply tstores_gets. pose proof (sa_used _ _ _ _ _ _ Hat). pose proof (ring_log_io d i m o secs H Hi).
  pose proof (sl_status _ _ _ _ _ _ Hy) as Hst.
  apply (Hrest i (FDB_NO_ERR, y)); [done..| |];
    unfold turn_sector, visited; cbn [fst snd]; rewrite Hst; destruct (ss_status s) eqn:Es; try done.
  - by apply Hy.
  - destruct (Huse eq_refl) as [_ Hc]. change (addr (cur_sec d) = a). by apply Hc.
  - by apply Hy.
  - change (FDB_SECTOR_STORE_EMPTY = FDB_SECTOR_STORE_EMPTY /\ ss_log s = [] /\
            FDB_SECTOR_STORE_EMPTY = FDB_SECTOR_STORE_EMPTY).
    split; [done|]. split; [|done]. by apply (sa_empty _ _ _ _ _ _ Hat).
  - destruct (Huse eq_refl) as [Hne Hc]. destruct (sl_end _ _ _ _ _ _ Hc Hne).
    pose proof (sl_status _ _ _ _ _ _ Hc) as Hcs. split; [done|].
    change (sector_ready s a (cur_sec d)). split; [done|by rewrite Hcs|by apply Hc|by apply Hc|done|done].
  - destruct (Hfull eq_refl). split; [done|]. change (sector_ready s a y).
    split; [by apply (sa_full _ _ _ _ _ _ Hat)|by rewrite Hst|by apply Hy|by apply Hy|done|done].
Qed.

End log.
