(* ===== verification/TsLog.v ===== *)
(** Time-series database: the iterators over the whole log.

    An iterator is a sweep over the sectors: one turn per sector, which may end
    the sweep.  [tstores_sweep] reduces a loop of the model to its turns; the turns
    of [fdb_tsl_iter] and [fdb_tsl_iter_reverse] visit the entries of their
    sector, so the whole loops visit the entries of the log, in order and in
    reverse order. *)
From S2P Require Import Prelude FdbDef Status FlashIO FlashSpec KvRing.
From S2P Require Import TsDef TsOps TsApi TsSpec TsRead TsAppend TsIter TsRing.

(** ** Sweeps *)

(** [n] turns from the [k]-th on, until one ends the sweep. *)
Fixpoint sweep {A} (turn : nat -> A -> bool * A) (n k : nat) (a : A) : A :=
  match n with
  | O => a
  | S n => if fst (turn k a) then snd (turn k a) else sweep turn n (S k) (snd (turn k a))
  end.

Lemma sweep_visit {A} (f : fdb_tsl -> A -> bool * A) (part : nat -> list fdb_tsl) n k a :
  sweep (fun k => visit f (part k)) n k a = snd (visit f (concat (map part (seq k n))) a).
Proof.
  revert k a. induction n as [|n IH]; intros k a; [done|]. cbn [sweep seq map concat].
  rewrite visit_app, IH. by destruct (fst (visit f (part k) a)).
Qed.

Lemma sweep_ext {A} (turn turn' : nat -> A -> bool * A) n k a :
  (forall j b, (k <= j < k + n)%nat -> turn j b = turn' j b) -> sweep turn n k a = sweep turn' n k a.
Proof.
  revert k a. induction n as [|n IH]; intros k a H; [done|]. cbn [sweep].
  rewrite (H k a) by lia. rewrite IH; [done|]. intros j b Hj. apply H. lia.
Qed.

Lemma sweep_trailing {A} (turn : nat -> A -> bool * A) n j k a :
  (forall b, turn (k + n)%nat b = (true, b)) -> sweep turn (n + j) k a = sweep turn n k a.
Proof.
  revert k a. induction n as [|n IH]; intros k a H; cbn [sweep Nat.add].
  - destruct j; [done|]. cbn. rewrite Nat.add_0_r in H. by rewrite H.
  - rewrite IH; [done|]. intros b. rewrite <- H. f_equal. lia.
Qed.

(** A log visited backwards, part by part. *)
Lemma rev_parts {B} (p : nat -> list B) c :
  rev (concat (map p (seq 0 (S c)))) = concat (map (fun k => rev (p (c - k)%nat)) (seq 0 (S c))).
Proof.
  induction c as [|c IH]; [cbn; by rewrite !app_nil_r|].
  rewrite (seq_S (S c) 0) at 1. rewrite map_app, concat_app, rev_app_distr, IH. cbn [map concat].
  rewrite app_nil_r. change (seq 0 (S (S c))) with (0%nat :: seq 1 (S c)). cbn [map concat].
  f_equal. rewrite <- (seq_shift (S c) 0), map_map. done.
Qed.

Section loops.
Context {W} {ST : Storage W} {SL : StorageLaws W} {IN : Indeterminate} {CL : Clock W}.
Implicit Type d : fdb_tsdb W.

(** A loop whose body makes one turn: [at_turn x k a] says that the loop's
    variables [x] are those before the [k]-th turn, with the argument [a]. *)
Lemma tstores_sweep {X A B} m (turn : nat -> A -> bool * A) (at_turn : X -> nat -> A -> Prop)
    (body : X -> M (fdb_tsdb W) (X + B)) (out : A -> B) (P : fdb_tsdb W -> Prop) N :
  (forall i d, P d -> ts_holds (ts_io i d) m -> P (ts_io i d)) ->
  (forall d x k a, P d -> at_turn x k a -> (k < N)%nat ->
     tstores (body x) d m (fun r =>
       match r with
       | inl x' => fst (turn k a) = false /\ (S k < N)%nat /\ at_turn x' (S k) (snd (turn k a))
       | inr b => b = out (snd (turn k a)) /\ (fst (turn k a) = true \/ S k = N)
       end)) ->
  forall n fuel d x k a, P d -> at_turn x k a -> (k + S n = N)%nat -> (n < fuel)%nat ->
  tstores (loop fuel body x) d m (fun b => b = out (sweep turn (S n) k a)).
Proof.
  intros HP Hbody n. induction n as [|n IH]; intros fuel d x k a Hd Hx Hk Hf;
    (destruct fuel as [|fuel]; [lia|]); cbn [loop];
    (eapply tstores_bind; [apply (Hbody d x k a); try done; lia|]);
    intros [x'|b] i Hr Hi; cbn [sweep].
  - destruct Hr as (_ & ? & _). lia.
  - destruct Hr as [-> [->|_]]; apply tstores_ret; try done. by destruct (fst (turn k a)).
  - destruct Hr as (-> & Hlt & Hx'). by apply (IH fuel _ x' (S k)); [apply HP| |lia..].
  - destruct Hr as [-> [->|?]]; [by apply tstores_ret|lia].
Qed.
End loops.

(** ** Iterating over the log *)

(** The beginning of a turn, in the terms of [tstores_ring_sector]. *)
Ltac turn_fold r d :=
  repeat change (bool_decide (fst r = FDB_NO_ERR) &&
    (bool_decide (status (snd r) = FDB_SECTOR_STORE_USING) ||
     bool_decide (status (snd r) = FDB_SECTOR_STORE_FULL))) with (visited r);
  repeat change (if visited r && bool_decide (status (snd r) = FDB_SECTOR_STORE_USING)
                 then cur_sec d else snd r) with (turn_sector r (cur_sec d)).

Section iterators.
Context {W} {ST : Storage W} {SL : StorageLaws W} {IN : Indeterminate} {CL : Clock W}.
Implicit Type d : fdb_tsdb W.

(** The [k]-th part of the log. *)
Definition part_at (g : geom) (o : Z) (secs : list sector_state) (k : nat) : list fdb_tsl :=
  from_option (ring_part g o k) [] (secs !! k).

Lemma imap_parts {B C} (f : nat -> B -> list C) (l : list B) k :
  concat (imap (fun j => f (k + j)%nat) l) =
  concat (map (fun j => from_option (f j) [] (l !! (j - k)%nat)) (seq k (length l))).
Proof.
  revert k. induction l as [|x l IH]; intros k; [done|]. cbn [length seq map concat].
  rewrite Nat.sub_diag, imap_cons. cbn [concat]. rewrite Nat.add_0_r. cbn. f_equal.
  replace (imap _ l) with (imap (fun j => f (S k + j)%nat) l)
    by (apply imap_ext; intros; cbn; f_equal; lia).
  rewrite IH. f_equal. apply map_ext_in. intros j Hj%in_seq. by replace (j - k)%nat with (S (j - S k)) by lia.
Qed.

Lemma ring_tsls_parts g o secs :
  ring_tsls g o secs = concat (map (part_at g o secs) (seq 0 (length secs))).
Proof.
  unfold ring_tsls. etrans; [apply (imap_parts (fun k s => ring_part g o k s) secs 0)|].
  f_equal. apply map_ext. intros j. unfold part_at. by rewrite Nat.sub_0_r.
Qed.

(** What the turns of an iterator keep of the database. *)
Definition same_log d0 (m : list Z) (o : Z) (secs : list sector_state) d : Prop :=
  ring_log d m o secs /\ geo (parent d) = geo (parent d0) /\ cur_sec d = cur_sec d0.

Lemma same_log_io d0 m o secs i d :
  same_log d0 m o secs d -> ts_holds (ts_io i d) m -> same_log d0 m o secs (ts_io i d).
Proof. intros (H & Hg & Hc) Hi. split; [by apply ring_log_io|done]. Qed.

(** The sector after and before the [k]-th one visited. *)
Lemma ring_next_turn d sector m o secs k :
  ring_log d m o secs -> (k < length secs)%nat ->
  addr sector = ring_addr (geo (parent d)) o (Z.of_nat k) ->
  let trav := u32 (Z.of_nat k * ts_sec_size d + ts_sec_size d) in
  trav = Z.of_nat (S k) * ts_sec_size d /\
  get_next_sector_addr d sector trav =
    (if (S k <? length secs)%nat then ring_addr (geo (parent d)) o (Z.of_nat (S k)) else FAILED_ADDR) /\
  (ring_addr (geo (parent d)) o (Z.of_nat (S k)) =? FAILED_ADDR) = false.
Proof.
  intros H Hk Ha trav. pose proof (holds_geom _ _ _ (rl_holds _ _ _ _ H)) as Hg.
  pose proof (rl_count _ _ _ _ H) as Hc. pose proof (sector_count_two _ Hg) as Hn.
  assert (trav = Z.of_nat (S k) * ts_sec_size d) as Et.
  { unfold trav, ts_sec_size. destruct (ring_next _ Hg (Z.of_nat k) 0 ltac:(lia) ltac:(lia)) as (_ & _ & ->). lia. }
  pose proof (Z.mod_pos_bound (o + Z.of_nat k) (sector_count (geo (parent d))) ltac:(lia)) as Hm.
  split; [done|]. split.
  - rewrite Et, (ts_next_sector_addr d sector ((o + Z.of_nat k) mod sector_count (geo (parent d))));
      try done; [|lia].
    rewrite next_index_mod by lia. replace (Z.of_nat k + 1) with (Z.of_nat (S k)) by lia.
    destruct (Z.ltb_spec (Z.of_nat (S k)) (sector_count (geo (parent d))));
      destruct (Nat.ltb_spec (S k) (length secs)); done || lia.
  - apply (ts_index_not_failed d); [done|]. apply Z.mod_pos_bound. lia.
Qed.

(** One turn forwards. *)
Lemma tstores_iter_turn {A} d m o secs k cb (f : fdb_tsl -> A -> bool * A) sector tsl a :
  ring_log d m o secs -> computes cb f m -> (k < length secs)%nat ->
  let g := geo (parent d) in
  let t := visit f (part_at g o secs k) a in
  tstores (iter_turn cb (ring_addr g o (Z.of_nat k), Z.of_nat k * sec_size g, sector, tsl, a)) d m (fun r =>
    match r with
    | inl (sec_addr, trav, _, _, a') =>
        fst t = false /\ (S k < length secs)%nat /\ sec_addr = ring_addr g o (Z.of_nat (S k)) /\
        trav = Z.of_nat (S k) * sec_size g /\ a' = snd t
    | inr a' => a' = snd t /\ (fst t = true \/ S k = length secs)
    end).
Proof.
  intros H1 Hcb Hk g t. unfold iter_turn.
  destruct (lookup_lt_is_Some_2 secs k Hk) as [s Hs].
  subst t. unfold part_at. rewrite Hs. cbn [from_option]. set (t := visit _ _ _).
  destruct (rl_secs _ _ _ _ H1 k s Hs) as [Hat _]. apply tstores_gets.
  eapply (tstores_ring_sector d m o secs k s); [done..|]. cbv zeta. intros i r H2 He Ha Hv.
  turn_fold r d. eapply tstores_bind with (m1 := m) (R1 := fun it => fst (fst it) = fst t /\ snd it = snd t).
  { destruct (visited r).
    - destruct Hv as [_ Hv]. eapply (tstores_sector_forward (ts_io i d) m _ (ss_log s) cb f);
        [apply H2|exact (ring_sector d m o secs (Z.of_nat k) H1)|apply Hat|apply Hv|done|apply Hv..].
    - destruct Hv as (_ & Hl & _). apply tstores_ret; [apply H2|].
      unfold t, ring_part, sector_tsls. by rewrite Hl. }
  intros [[stop tsl'] a'] j [Hst Ha'] Hj. cbn [fst snd] in *. subst stop a'.
  destruct (fst t) eqn:Ev; [apply tstores_ret; auto|].
  apply tstores_gets. change (@id (fdb_tsdb W) (ts_io j (ts_io i d))) with (ts_io j (ts_io i d)).
  destruct (ring_next_turn (ts_io j (ts_io i d)) (turn_sector r (cur_sec d)) m o secs k) as (Et & En & Ef);
    [by apply ring_log_io|done..|].
  change (ts_sec_size (ts_io j (ts_io i d))) with (sec_size g) in Et, En.
  change (ts_sec_size d) with (sec_size g). rewrite En.
  destruct (Nat.ltb_spec (S k) (length secs)); [rewrite Ef|rewrite Z.eqb_refl]; apply tstores_ret; auto.
  split; [done|]. right. lia.
Qed.

(** *** Backwards *)

(** The oldest sectors are full, then comes the current one, in use or still
    empty, then the empty ones. *)
Record ring_shape (secs : list sector_state) (c : nat) : Prop := {
  rs_full : forall k s, secs !! k = Some s -> (k < c)%nat -> ss_status s = FDB_SECTOR_STORE_FULL;
  rs_cur : exists s, secs !! c = Some s /\
    (ss_status s = FDB_SECTOR_STORE_EMPTY \/ ss_status s = FDB_SECTOR_STORE_USING);
  rs_empty : forall k s, secs !! k = Some s -> (c < k)%nat -> ss_status s = FDB_SECTOR_STORE_EMPTY;
}.

(** The position in the ring of the [k]-th sector backwards from the [c]-th. *)
Definition back_pos (n c k : nat) : nat := if (k <=? c)%nat then c - k else n + c - k.

Lemma ring_addr_back d m o secs c k :
  ring_log d m o secs -> (c < length secs)%nat -> (k < length secs)%nat ->
  (back_pos (length secs) c k < length secs)%nat /\
  ring_addr (geo (parent d)) o (Z.of_nat c - Z.of_nat k) =
    ring_addr (geo (parent d)) o (Z.of_nat (back_pos (length secs) c k)).
Proof.
  intros H Hc Hk. pose proof (rl_count _ _ _ _ H). unfold back_pos, ring_addr.
  destruct (Nat.leb_spec k c); (split; [lia|]); f_equal.
  - f_equal. lia.
  - rewrite <- (Z.mod_add _ 1) by lia. f_equal. lia.
Qed.

Lemma ring_last_turn d sector m o secs c k :
  ring_log d m o secs -> (k < length secs)%nat ->
  addr sector = ring_addr (geo (parent d)) o (Z.of_nat c - Z.of_nat k) ->
  let trav := u32 (Z.of_nat k * ts_sec_size d + ts_sec_size d) in
  trav = Z.of_nat (S k) * ts_sec_size d /\
  get_last_sector_addr d sector trav =
    (if (S k <? length secs)%nat then ring_addr (geo (parent d)) o (Z.of_nat c - Z.of_nat (S k))
     else FAILED_ADDR) /\
  (ring_addr (geo (parent d)) o (Z.of_nat c - Z.of_nat (S k)) =? FAILED_ADDR) = false.
Proof.
  intros H Hk Ha trav. pose proof (holds_geom _ _ _ (rl_holds _ _ _ _ H)) as Hg.
  pose proof (rl_count _ _ _ _ H) as Hc. pose proof (sector_count_two _ Hg) as Hn.
  assert (trav = Z.of_nat (S k) * ts_sec_size d) as Et.
  { unfold trav, ts_sec_size. destruct (ring_next _ Hg (Z.of_nat k) 0 ltac:(lia) ltac:(lia)) as (_ & _ & ->). lia. }
  unfold ring_addr in *. rewrite Z.add_sub_assoc in Ha. rewrite Z.add_sub_assoc.
  pose proof (Z.mod_pos_bound (o + Z.of_nat c - Z.of_nat k) (sector_count (geo (parent d))) ltac:(lia)) as Hm.
  split; [done|]. split.
  - rewrite Et, (ts_last_sector_addr d sector ((o + Z.of_nat c - Z.of_nat k) mod sector_count (geo (parent d))));
      try done; [|lia].
    rewrite prev_index_mod by lia. replace (Z.of_nat k + 1) with (Z.of_nat (S k)) by lia.
    destruct (Z.ltb_spec (Z.of_nat (S k)) (sector_count (geo (parent d))));
      destruct (Nat.ltb_spec (S k) (length secs)); done || lia.
  - apply (ts_index_not_failed d); [done|]. apply Z.mod_pos_bound. lia.
Qed.

(** One turn backwards from the [c]-th sector; an empty sector ends the
    iteration. *)
Definition back_turn {A} (f : fdb_tsl -> A -> bool * A) (g : geom) (o : Z) (secs : list sector_state)
    (c k : nat) (a : A) : bool * A :=
  let p := back_pos (length secs) c k in
  match secs !! p with
  | Some s => if decide (ss_status s = FDB_SECTOR_STORE_EMPTY) then (true, a)
              else visit f (rev (ring_part g o p s)) a
  | None => (true, a)
  end.

Lemma tstores_reverse_turn {A} d m o secs c k cb (f : fdb_tsl -> A -> bool * A) sector tsl a :
  ring_log d m o secs -> computes cb f m -> (k < length secs)%nat -> (c < length secs)%nat ->
  let g := geo (parent d) in
  let t := back_turn f g o secs c k a in
  tstores (iter_reverse_turn cb (ring_addr g o (Z.of_nat c - Z.of_nat k), Z.of_nat k * sec_size g,
                                 sector, tsl, a)) d m (fun r =>
    match r with
    | inl (sec_addr, trav, _, _, a') =>
        fst t = false /\ (S k < length secs)%nat /\
        sec_addr = ring_addr g o (Z.of_nat c - Z.of_nat (S k)) /\
        trav = Z.of_nat (S k) * sec_size g /\ a' = snd t
    | inr a' => a' = snd t /\ (fst t = true \/ S k = length secs)
    end).
Proof.
  intros H1 Hcb Hk Hc g t. unfold iter_reverse_turn.
  destruct (ring_addr_back d m o secs c k H1 Hc Hk) as [Hp Ep]. subst t. unfold back_turn.
  set (p := back_pos (length secs) c k) in *.
  destruct (lookup_lt_is_Some_2 secs p Hp) as [s Hs]. rewrite Hs. set (t := if decide _ then _ else _).
  destruct (rl_secs _ _ _ _ H1 p s Hs) as [Hat _]. apply tstores_gets. fold g in Ep. rewrite Ep.
  eapply (tstores_ring_sector d m o secs p s); [done..|]. cbv zeta. intros i r H2 He Ha Hv.
  turn_fold r d. eapply tstores_bind with (m1 := m) (R1 := fun it => fst (fst it) = fst t /\ snd it = snd t).
  { unfold t. destruct (visited r).
    - destruct Hv as [Hne Hv]. rewrite decide_False by done.
      eapply (tstores_sector_backward (ts_io i d) m _ (ss_log s) cb f);
        [apply H2|exact (ring_sector d m o secs (Z.of_nat p) H1)|apply Hat|apply Hv|done|apply Hv..].
    - destruct Hv as (Hem & _ & _). rewrite decide_True by done. apply tstores_ret; [apply H2|].
      by rewrite He. }
  intros [[stop tsl'] a'] j [Hst Ha'] Hj. cbn [fst snd] in *. subst stop a'.
  destruct (fst t) eqn:Ev; [apply tstores_ret; auto|].
  apply tstores_gets. change (@id (fdb_tsdb W) (ts_io j (ts_io i d))) with (ts_io j (ts_io i d)).
  destruct (ring_last_turn (ts_io j (ts_io i d)) (turn_sector r (cur_sec d)) m o secs c k) as (Et & En & Ef);
    [by apply ring_log_io|done|rewrite Ha; symmetry; exact Ep|].
  change (ts_sec_size (ts_io j (ts_io i d))) with (sec_size g) in Et, En.
  change (ts_sec_size d) with (sec_size g). rewrite En.
  destruct (Nat.ltb_spec (S k) (length secs)); [rewrite Ef|rewrite Z.eqb_refl]; apply tstores_ret; auto.
  split; [done|]. right. lia.
Qed.

(** *** The whole iterators *)

Lemma ring_log_same d d' m o secs :
  ring_log d m o secs -> ts_holds d' m -> geo (parent d') = geo (parent d) -> cur_sec d' = cur_sec d ->
  ring_log d' m o secs.
Proof.
  intros [H1 H2 H3 H4 H5] Hm Hg Hc. unfold ts_sec_size in *.
  split; rewrite ?Hg; try done. intros k s Hs. unfold ts_sec_size. rewrite Hg, Hc. by apply H5.
Qed.

(** A call that at most reads: the medium and the structure are as before,
    apart from the connection to the storage and the trace of the locks. *)
Record kept d (m : list Z) d' : Prop := {
  kp_holds : ts_holds d' m;
  kp_config : ts_config d' = ts_config d;
  kp_cur : cur_sec d' = cur_sec d;
  kp_oldest : oldest_addr (parent d') = oldest_addr (parent d);
  kp_last : last_time d' = last_time d;
}.

Lemma kept_geo d m d' : kept d m d' -> geo (parent d') = geo (parent d).
Proof. intros []. by apply ts_config_geo. Qed.

Lemma kept_io d m d' i : kept d m d' -> ts_holds (ts_io i d') m -> kept d m (ts_io i d').
Proof. intros [] Hi. by split. Qed.

Lemma kept_lock_trace d m l : ts_holds d m -> kept d m (set_parent (set_lock_trace l (parent d)) d).
Proof. intros Hm. by split. Qed.

Lemma kept_trans d m d' d'' : kept d m d' -> kept d' m d'' -> kept d m d''.
Proof. intros [] []. split; congruence || done. Qed.

Lemma kept_ring_log d m d' o secs : ring_log d m o secs -> kept d m d' -> ring_log d' m o secs.
Proof. intros H Hk. apply (ring_log_same d); [done|apply Hk|by eapply kept_geo|apply Hk]. Qed.

(** The lock is held around a loop that at most reads. *)
Lemma wp_locked_loop {A} d m o secs (p : nat -> M (fdb_tsdb W) A) R :
  ring_log d m o secs ->
  (forall d1 fuel, ring_log d1 m o secs -> geo (parent d1) = geo (parent d) -> cur_sec d1 = cur_sec d ->
     (length secs < fuel)%nat -> tstores (p fuel) d1 m R) ->
  wp (up db_lock;; fuel ← gets sector_fuel; r ← p fuel; up db_unlock;; mret r)
     (fun r d' => R r /\ kept d m d') d.
Proof.
  intros H Hp. apply wp_bind. apply (locked_parent _ _ m); [apply H|].
  intros d1 H1 Hcf1 Hc1 Ho1 Hl1. assert (kept d m d1) as Hk1 by done.
  pose proof (kept_ring_log _ _ _ _ _ H Hk1) as Hr1. apply wp_bind, wp_gets, wp_bind. eapply wp_tstores.
  { apply Hp; [done|by eapply kept_geo|done|]. unfold sector_fuel. pose proof (rl_count _ _ _ _ Hr1) as Hc.
    unfold sector_count in Hc. unfold ts_max_size, ts_sec_size. lia. }
  intros r i HR Hi. pose proof (kept_io _ _ _ _ Hk1 Hi) as Hk2. apply wp_bind.
  apply (locked_parent _ _ m); [done|]. intros d2 H2 Hcf2 Hc2 Ho2 Hl2. apply wp_ret.
  split; [done|]. by apply (kept_trans _ _ _ _ Hk2).
Qed.

(** The turns are those of the sweep over the sectors. *)
Lemma wp_iter {A} d m o secs cb (f : fdb_tsl -> A -> bool * A) arg :
  ring_log d m o secs -> oldest_addr (parent d) = ring_addr (geo (parent d)) o 0 -> computes cb f m ->
  wp (fdb_tsl_iter (Some cb) arg) (fun r d' =>
    r = snd (visit f (ring_tsls (geo (parent d)) o secs) arg) /\ kept d m d') d.
Proof.
  intros H Ho Hcb. apply wp_bind, wp_gets. apply (wp_locked_loop d m o secs _ _ H).
  intros d1 fuel H1 Hg1 Hc1 Hf. pose proof (rl_count _ _ _ _ H1) as Hc.
  pose proof (sector_count_two _ (holds_geom _ _ _ (rl_holds _ _ _ _ H1))) as Hn.
  rewrite ring_tsls_parts, <- sweep_visit, <- Hg1. destruct (length secs) as [|n] eqn:El; [lia|].
  unfold db_oldest_addr. rewrite Ho, <- Hg1.
  eapply (tstores_sweep m _
    (fun '(sec_addr, trav, _, _, a) k b => sec_addr = ring_addr (geo (parent d1)) o (Z.of_nat k) /\
       trav = Z.of_nat k * sec_size (geo (parent d1)) /\ a = b) _ id (same_log d1 m o secs) (S n)
    (fun i d' => same_log_io d1 m o secs i d')); [|done|done|lia|lia].
  intros d2 [[[[sec_addr trav] sector] tsl] a'] k a (H2 & Hg2 & Hc2) (-> & -> & ->) Hk.
  rewrite <- Hg2. eapply tstores_mono; [apply (tstores_iter_turn d2 m o secs k cb f); [done..|lia]|].
  intros [[[[[? ?] ?] ?] ?]|b] Hr; [|by rewrite El in Hr]. destruct Hr as (? & ? & -> & -> & ->). auto with lia.
Qed.

(** C19: [fdb_tsl_iter] visits exactly the entries of the database's log, oldest
    first, each once, and stops as soon as the callback returns [true]; it
    changes neither the medium nor the database. *)
Theorem iter_log {A} d m o secs cb (f : fdb_tsl -> A -> bool * A) arg :
  ring_log d m o secs -> oldest_addr (parent d) = ring_addr (geo (parent d)) o 0 -> computes cb f m ->
  wp (fdb_tsl_iter (Some cb) arg) (fun r d' =>
    r = snd (visit f (ring_tsls (geo (parent d)) o secs) arg) /\ kept d m d') d.
Proof. exact (wp_iter d m o secs cb f arg). Qed.

(** The entries are in the sectors up to the current one. *)
Lemma part_at_empty m g o secs c k :
  (forall k s, secs !! k = Some s ->
     sector_at m (ring_addr g o (Z.of_nat k)) (sec_size g) (ss_status s) (ss_start s) (ss_log s)) ->
  ring_shape secs c -> (c < k)%nat -> part_at g o secs k = [].
Proof.
  intros Hat [_ _ He] Hk. unfold part_at. destruct (secs !! k) as [s|] eqn:Es; [|done]. cbn [from_option].
  destruct (sa_empty _ _ _ _ _ _ (Hat k s Es) (He k s Es Hk)) as [El _]. unfold ring_part, sector_tsls. by rewrite El.
Qed.

Lemma ring_tsls_used d m o secs c :
  ring_log d m o secs -> ring_shape secs c ->
  ring_tsls (geo (parent d)) o secs = concat (map (part_at (geo (parent d)) o secs) (seq 0 (S c))).
Proof.
  intros H Hs. destruct (rs_cur _ _ Hs) as (s & Hsc & _). apply lookup_lt_Some in Hsc.
  rewrite ring_tsls_parts. replace (length secs) with (S c + (length secs - S c))%nat by lia.
  rewrite seq_app, map_app, concat_app. rewrite <- (app_nil_r (concat (map _ (seq 0 (S c))))) at 2. f_equal.
  apply concat_nil_Forall, Forall_map, Forall_forall. intros k Hk%elem_of_seq. unfold compose.
  apply (part_at_empty m _ _ _ c); [|done|lia]. intros j x Hx. by destruct (rl_secs _ _ _ _ H j x Hx).
Qed.

(** The turns backwards, put together. *)
Lemma back_sweep {A} d m o secs c s (f : fdb_tsl -> A -> bool * A) arg :
  ring_log d m o secs -> ring_shape secs c ->
  secs !! c = Some s -> ss_status s = FDB_SECTOR_STORE_USING ->
  let g := geo (parent d) in
  sweep (back_turn f g o secs c) (length secs) 0 arg = snd (visit f (rev (ring_tsls g o secs)) arg).
Proof.
  intros H Hsh Hsc Hu g. pose proof (lookup_lt_Some _ _ _ Hsc) as Hc. unfold g.
  rewrite (ring_tsls_used d m o secs c H Hsh). destruct Hsh as [Hf _ He]. fold g.
  rewrite rev_parts, <- sweep_visit.
  transitivity (sweep (back_turn f g o secs c) (S c) 0 arg).
  - replace (length secs) with (S c + (length secs - S c))%nat at 1 by lia.
    destruct (decide (length secs = S c)) as [E|E]; [rewrite E, Nat.sub_diag, Nat.add_0_r; done|].
    apply sweep_trailing. intros b. cbn [Nat.add]. unfold back_turn, back_pos.
    rewrite (proj2 (Nat.leb_gt _ _)) by lia.
    destruct (lookup_lt_is_Some_2 secs (length secs + c - S c) ltac:(lia)) as [s' Hs]. rewrite Hs.
    by rewrite decide_True by (apply (He _ s' Hs); lia).
  - apply sweep_ext. intros j b Hj. unfold back_turn, back_pos, part_at.
    rewrite (proj2 (Nat.leb_le _ _)) by lia.
    destruct (lookup_lt_is_Some_2 secs (c - j) ltac:(lia)) as [s' Hs]. rewrite Hs. cbn [from_option].
    rewrite decide_False; [done|]. destruct j as [|j].
    + rewrite Nat.sub_0_r, Hsc in Hs. injection Hs as <-. congruence.
    + rewrite (Hf _ s' Hs) by lia. done.
Qed.

(** The turns from the current sector on are those of the sweep backwards. *)
Lemma wp_iter_reverse {A} d m o secs c cb (f : fdb_tsl -> A -> bool * A) arg :
  let g := geo (parent d) in
  ring_log d m o secs -> (c < length secs)%nat -> addr (cur_sec d) = ring_addr g o (Z.of_nat c) -> computes cb f m ->
  wp (fdb_tsl_iter_reverse (Some cb) arg) (fun r d' =>
    r = sweep (back_turn f g o secs c) (length secs) 0 arg /\ kept d m d') d.
Proof.
  intros g H Hc Hcur Hcb. apply wp_bind, wp_gets. rewrite Hcur. unfold g.
  apply (wp_locked_loop d m o secs _ _ H). intros d1 fuel H1 Hg1 Hc1 Hf.
  rewrite <- Hg1. destruct (length secs) as [|n] eqn:El; [lia|].
  eapply (tstores_sweep m _
    (fun '(sec_addr, trav, _, _, a) k b =>
       sec_addr = ring_addr (geo (parent d1)) o (Z.of_nat c - Z.of_nat k) /\
       trav = Z.of_nat k * sec_size (geo (parent d1)) /\ a = b) _ id (same_log d1 m o secs) (S n)
    (fun i d' => same_log_io d1 m o secs i d')); [|done| |lia|lia].
  - intros d2 [[[[sec_addr trav] sector] tsl] a'] k a (H2 & Hg2 & Hc2) (-> & -> & ->) Hk.
    rewrite <- Hg2. eapply tstores_mono; [apply (tstores_reverse_turn d2 m o secs c k cb f); [done|done|lia..]|].
    intros [[[[[? ?] ?] ?] ?]|b] Hr; [|by rewrite El in Hr]. destruct Hr as (? & ? & -> & -> & ->). auto with lia.
  - split; [|done]. f_equal. lia.
Qed.

(** When the current sector is empty, nothing is visited. *)
Lemma back_sweep_empty {A} g o secs c s (f : fdb_tsl -> A -> bool * A) arg :
  secs !! c = Some s -> ss_status s = FDB_SECTOR_STORE_EMPTY -> sweep (back_turn f g o secs c) (length secs) 0 arg = arg.
Proof.
  intros Hs He. pose proof (lookup_lt_Some _ _ _ Hs). destruct (length secs) eqn:E; [lia|]. cbn [sweep]. unfold back_turn, back_pos.
  cbn [Nat.leb]. by rewrite Nat.sub_0_r, Hs, decide_True.
Qed.

(** C26: [fdb_tsl_iter_reverse] visits exactly the entries of the log, newest
    first, each once, until the callback returns [true]; the empty sectors
    that follow the current one in the ring end it.  It changes neither the
    medium nor the database. *)
Theorem iter_reverse_log {A} d m o secs c s cb (f : fdb_tsl -> A -> bool * A) arg :
  ring_log d m o secs -> ring_shape secs c ->
  secs !! c = Some s -> ss_status s = FDB_SECTOR_STORE_USING -> computes cb f m ->
  wp (fdb_tsl_iter_reverse (Some cb) arg) (fun r d' =>
    r = snd (visit f (rev (ring_tsls (geo (parent d)) o secs)) arg) /\ kept d m d') d.
Proof.
  intros H Hs Hsc Hu Hcb. rewrite <- (back_sweep d m o secs c s) by done.
  destruct (rl_secs _ _ _ _ H c s Hsc) as [_ Hcur]. destruct (Hcur Hu) as [_ Hcs].
  apply wp_iter_reverse; [done|by apply lookup_lt_Some in Hsc|apply Hcs|done].
Qed.
End iterators.
