(* ===== verification/TsStore.v ===== *)
(** Time-series database: appending to the log of the database.

    The log of the database is the list of its sectors' logs in ring order
    ([ring_log]).  An append extends the log of the current sector; when the
    entry does not fit, the sector is closed and the next one of the ring is
    taken into use, erased first when it holds the oldest entries. *)
From S2P Require Import Prelude FdbDef Status FlashIO FlashSpec KvRing.
From S2P Require Import TsDef TsOps TsApi TsSpec TsRead TsAppend TsIter TsRing TsLog.

(** ** Sectors that are not touched *)

(** The bytes of [[a, a + n)] are the same on both media. *)
Definition same_bytes (m m' : list Z) (a n : Z) : Prop :=
  forall b k, a <= b -> 0 <= k -> b + k <= a + n -> slice m' b k = slice m b k.

Lemma log_at_frame m m' a n l : same_bytes m m' a n -> log_at m a n l -> log_at m' a n l.
Proof.
  intros Hs [H1 H2 H3 H4]. pose proof (data_size_nonneg l). split; [done| |done|].
  - intros i e Hi. destruct (H2 i e Hi) as (N1 & N2 & N3). pose proof (lookup_lt_Some _ _ _ Hi) as Hlt.
    pose proof (len_nonneg (e_data e)).
    destruct (node_range a n l i H3 Hlt) as (R1 & R2 & R3). destruct (data_range a n l i e H3 Hi).
    unfold node_at, LOG_IDX_TS_OFFSET, LOG_IDX_DATA_SIZE, SECTOR_HDR_DATA_SIZE in *.
    rewrite !Hs by lia. done.
  - unfold filled. rewrite Hs; [done|ts_unfold; lia..].
Qed.

Lemma sector_at_frame m m' a n st start l :
  same_bytes m m' a n -> SECTOR_HDR_DATA_SIZE <= n ->
  sector_at m a n st start l -> sector_at m' a n st start l.
Proof.
  intros Hs Hn [H1 H2 H3 H4 H5 H6 H7 H8].
  unfold SECTOR_HDR_DATA_SIZE, SECTOR_MAGIC_OFFSET, SECTOR_START_TIME_OFFSET, SECTOR_END0_TIME_OFFSET,
    SECTOR_END0_IDX_OFFSET, SECTOR_END0_STATUS_OFFSET in *.
  split; unfold filled in *; unfold SECTOR_MAGIC_OFFSET, SECTOR_START_TIME_OFFSET, SECTOR_END0_TIME_OFFSET,
    SECTOR_END0_IDX_OFFSET, SECTOR_END0_STATUS_OFFSET; rewrite ?Hs by lia; try done.
  by apply (log_at_frame m).
Qed.

(** ** Closing a sector *)

(** The end of the log saved in the header; then the status full. *)
Definition end_saved (m : list Z) (a : Z) (l : list entry) : list Z :=
  splice (splice (splice (splice m
    (a + SECTOR_END0_STATUS_OFFSET) [status_byte (enum_val FDB_TSL_PRE_WRITE)])
    (a + SECTOR_END0_TIME_OFFSET) (time_bytes (last_entry_time l)))
    (a + SECTOR_END0_IDX_OFFSET) (le_bytes 4 (last_node a l)))
    (a + SECTOR_END0_STATUS_OFFSET) [status_byte (enum_val FDB_TSL_WRITE)].
Definition closed (m : list Z) (a : Z) (l : list entry) : list Z :=
  splice (end_saved m a l) a [status_byte (enum_val FDB_SECTOR_STORE_FULL)].

Lemma len_le4 z : len (le_bytes 4 z) = 4.
Proof. unfold len. by rewrite length_le_bytes. Qed.

Ltac hdr_unfold :=
  unfold SECTOR_HDR_DATA_SIZE, SECTOR_MAGIC_OFFSET, SECTOR_START_TIME_OFFSET, SECTOR_END0_TIME_OFFSET,
    SECTOR_END0_IDX_OFFSET, SECTOR_END0_STATUS_OFFSET in *.
Ltac len_simpl := rewrite ?len_splice, ?len_time_bytes, ?len_le4, ?len_one.

Lemma closed_other m a l b k :
  0 <= a -> a + SECTOR_HDR_DATA_SIZE <= len m -> 0 <= b -> 0 <= k ->
  b + k <= a \/ a + 18 <= b \/ (a + 1 <= b /\ b + k <= a + SECTOR_END0_TIME_OFFSET) ->
  slice (closed m a l) b k = slice m b k.
Proof.
  hdr_unfold. intros Ha Hm Hb Hk Hout. unfold closed, end_saved. hdr_unfold.
  rewrite !slice_splice_other; len_simpl; (done || lia).
Qed.

Lemma closed_hdr m a l :
  0 <= a -> a + SECTOR_HDR_DATA_SIZE <= len m ->
  slice (closed m a l) a 1 = [status_byte (enum_val FDB_SECTOR_STORE_FULL)] /\
  slice (closed m a l) (a + SECTOR_END0_TIME_OFFSET) 4 = time_bytes (last_entry_time l) /\
  slice (closed m a l) (a + SECTOR_END0_IDX_OFFSET) 4 = le_bytes 4 (last_node a l) /\
  slice (closed m a l) (a + SECTOR_END0_STATUS_OFFSET) 1 = [status_byte (enum_val FDB_TSL_WRITE)].
Proof.
  hdr_unfold. intros Ha Hm. unfold closed, end_saved. hdr_unfold. split_and!.
  - apply (slice_splice_same _ a [_]); len_simpl; lia.
  - rewrite 3!slice_splice_other by (len_simpl; lia). rewrite <- (len_time_bytes (last_entry_time l)).
    apply slice_splice_same; len_simpl; lia.
  - rewrite 2!slice_splice_other by (len_simpl; lia). rewrite <- (len_le4 (last_node a l)) at 1.
    apply slice_splice_same; len_simpl; lia.
  - rewrite slice_splice_other by (len_simpl; lia).
    apply (slice_splice_same _ (a + 17) [_]); len_simpl; lia.
Qed.

Lemma sector_at_closed m a n start l :
  0 <= a -> a + n <= len m -> SECTOR_HDR_DATA_SIZE <= n -> l <> [] ->
  sector_at m a n FDB_SECTOR_STORE_USING start l ->
  sector_at (closed m a l) a n FDB_SECTOR_STORE_FULL start l.
Proof.
  intros Ha Hm Hn Hne [H1 H2 H3 H4 H5 H6 H7 H8].
  destruct (closed_hdr m a l Ha ltac:(lia)) as (C1 & C2 & C3 & C4).
  assert (forall b k, 0 <= b -> 0 <= k -> a + 18 <= b \/ (a + 1 <= b /\ b + k <= a + 9) ->
    slice (closed m a l) b k = slice m b k) as Hs
    by (intros b k Hb Hk Hout; apply closed_other; hdr_unfold; lia).
  split; try done.
  - hdr_unfold. rewrite Hs by lia. done.
  - hdr_unfold. unfold closed, end_saved. hdr_unfold.
    repeat (apply log_at_other; len_simpl; hdr_unfold; try lia). done.
  - intros _. destruct (H6 ltac:(done)) as [Hr E]. split; [done|]. hdr_unfold. rewrite Hs by lia. done.
Qed.

(** ** Formatting a sector *)

Definition formatted (m : list Z) (a n : Z) : list Z :=
  splice (splice (splice m a (replicate (Z.to_nat n) FDB_BYTE_ERASED))
    a [status_byte (enum_val FDB_SECTOR_STORE_EMPTY)])
    (a + SECTOR_MAGIC_OFFSET) (le_bytes 4 SECTOR_MAGIC_WORD).

Lemma sector_at_formatted m a n start :
  0 <= a -> a + n <= len m -> SECTOR_HDR_DATA_SIZE <= n ->
  sector_at (formatted m a n) a n FDB_SECTOR_STORE_EMPTY start [].
Proof.
  intros Ha Hm Hn. hdr_unfold.
  assert (len (replicate (Z.to_nat n) FDB_BYTE_ERASED) = n) as Hl by (rewrite len_replicate; lia).
  assert (forall b k, a + 5 <= b -> 0 <= k -> b + k <= a + n ->
    filled (formatted m a n) b k FDB_BYTE_ERASED) as Hf.
  { intros b k Hb Hk Hbk. unfold formatted, SECTOR_MAGIC_OFFSET.
    apply filled_splice; len_simpl; try lia. apply filled_splice; len_simpl; try lia.
    apply (filled_sub _ a n); try lia. unfold filled. rewrite <- Hl at 2. rewrite slice_splice_same; [done|lia..]. }
  split; try done.
  - unfold formatted, SECTOR_MAGIC_OFFSET. rewrite slice_splice_other by (len_simpl; lia).
    apply (slice_splice_same _ a [_]); len_simpl; lia.
  - unfold formatted, SECTOR_MAGIC_OFFSET. rewrite <- (len_le4 SECTOR_MAGIC_WORD) at 1.
    apply slice_splice_same; len_simpl; lia.
  - split; [constructor|done| |].
    + unfold free_space, SECTOR_HDR_DATA_SIZE. cbn. lia.
    + apply Hf; unfold node_addr, free_space, SECTOR_HDR_DATA_SIZE; cbn; lia.
  - intros _. split; [done|]. apply Hf; hdr_unfold; lia.
  - intros _. apply Hf; hdr_unfold; lia.
Qed.

Lemma formatted_other m a n b k :
  0 <= a -> a + n <= len m -> SECTOR_HDR_DATA_SIZE <= n -> 0 <= b -> 0 <= k ->
  b + k <= a \/ a + n <= b -> slice (formatted m a n) b k = slice m b k.
Proof.
  intros Ha Hm Hn Hb Hk Hout. hdr_unfold. unfold formatted, SECTOR_MAGIC_OFFSET.
  rewrite !slice_splice_other; len_simpl; rewrite ?len_replicate; (done || lia).
Qed.

Section ring.
Context {W} {ST : Storage W} {SL : StorageLaws W} {IN : Indeterminate} {CL : Clock W}.
Implicit Type d : fdb_tsdb W.

(** Different positions of the ring are different, disjoint sectors. *)
Lemma ring_addr_disjoint g o j k :
  geom_ok g -> 0 <= j < sector_count g -> 0 <= k < sector_count g -> j <> k ->
  ring_addr g o j + sec_size g <= ring_addr g o k \/ ring_addr g o k + sec_size g <= ring_addr g o j.
Proof.
  intros Hg Hj Hk Hne. pose proof (sector_count_two _ Hg) as Hn. unfold ring_addr.
  assert ((o + j) mod sector_count g <> (o + k) mod sector_count g) as Hm.
  { intros E. apply Hne. destruct (Z.lt_trichotomy j k) as [|[|]]; [|done|]; exfalso.
    - assert ((k - j) mod sector_count g = 0) as E0
        by (replace (k - j) with ((o + k) - (o + j)) by lia; rewrite Zminus_mod, E, Z.sub_diag; by apply Z.mod_0_l; lia).
      rewrite Z.mod_small in E0; lia.
    - assert ((j - k) mod sector_count g = 0) as E0
        by (replace (j - k) with ((o + j) - (o + k)) by lia; rewrite Zminus_mod, E, Z.sub_diag; by apply Z.mod_0_l; lia).
      rewrite Z.mod_small in E0; lia. }
  destruct Hg. nia.
Qed.

(** *** The operations *)

Lemma wp_then (p k : M (fdb_tsdb W) fdb_err_t) d m1 Q :
  tstores p d m1 (fun r => r = FDB_NO_ERR) ->
  (forall i, ts_holds (ts_io i d) m1 -> wp k Q (ts_io i d)) -> wp (p >>> k) Q d.
Proof.
  intros Hp Hk. apply wp_bind. eapply wp_tstores; [exact Hp|]. intros r i -> Hi.
  rewrite decide_True by done. by apply Hk.
Qed.

Lemma tstores_save_end d m a start l :
  cur_log d m a FDB_SECTOR_STORE_USING start l -> l <> [] ->
  tstores (save_end_info (cur_sec d) (last_entry_time l)) d (end_saved m a l) (fun r => r = FDB_NO_ERR).
Proof.
  intros [Hm Hs _ Hat Hmem] Hne. pose proof (sa_open _ _ _ _ _ _ Hat ltac:(done)) as Hopen.
  destruct (Hs) as [Hg (Ha & Hmod & He) Hmul]. destruct (Hg) as [H64 Hdv H2 H32].
  pose proof (holds_len _ _ _ Hm) as Hlm.
  destruct (last_bounds _ _ _ _ Hs (sa_log _ _ _ _ _ _ Hat)) as [_ Hb].
  unfold save_end_info. rewrite (sl_info _ _ _ _ _ _ Hmem) by done. cbn [fst snd].
  rewrite decide_True by done. rewrite (sl_idx _ _ _ _ _ _ Hmem), (sl_addr _ _ _ _ _ _ Hmem).
  assert (u32 (node_addr a (length l) - LOG_IDX_DATA_SIZE) = last_node a l) as ->.
  { replace (node_addr a (length l) - LOG_IDX_DATA_SIZE) with (last_node a l)
      by (destruct l; [done|]; unfold last_node; cbn [length]; ts_unfold; lia). wrap_small. done. }
  unfold end_saved. hdr_unfold. wrap_small.
  assert (forall b k, a <= b -> 0 <= k -> b + k <= a + 32 -> in_sector (geo (parent d)) b k) as Hin
    by (intros; eapply sector_in_part; [exact Hs|lia..]).
  eapply tstores_then.
  { apply (tstores_write_status d m _ FDB_TSL_STATUS_NUM (enum_val FDB_TSL_PRE_WRITE) 255 false Hm); try done.
    - apply Hin; lia.
    - apply (filled_sub m (a + 9) 18 FDB_BYTE_ERASED _ 1); [done|lia..]. }
  intros i1 Hi1. eapply tstores_then.
  { apply tstores_write; [exact Hi1|rewrite len_time_bytes; apply Hin; lia|by rewrite len_time_bytes|apply bytes_le_bytes|].
    apply clears_erased; [|apply bytes_le_bytes]. rewrite len_time_bytes.
    apply filled_splice; len_simpl; try lia. apply (filled_sub m (a + 9) 18); [done|lia..]. }
  intros i2 Hi2. eapply tstores_then.
  { apply tstores_write; [exact Hi2|rewrite len_le4; apply Hin; lia|by rewrite len_le4|apply bytes_le_bytes|].
    apply clears_erased; [|apply bytes_le_bytes]. rewrite len_le4.
    repeat (apply filled_splice; len_simpl; try lia). apply (filled_sub m (a + 9) 18); [done|lia..]. }
  intros i3 Hi3.
  apply (tstores_write_status _ _ (a + 17) FDB_TSL_STATUS_NUM (enum_val FDB_TSL_WRITE)
           (status_byte (enum_val FDB_TSL_PRE_WRITE)) true Hi3); try done.
  - apply (Hin (a + 17) 1); lia.
  - rewrite 2!slice_splice_other by (len_simpl; lia).
    apply (slice_splice_same _ (a + 17) [_]); len_simpl; lia.
Qed.

Lemma tstores_close d m a start l s :
  cur_log d m a FDB_SECTOR_STORE_USING start l -> addr s = a -> forall i, ts_holds (ts_io i d) (end_saved m a l) ->
  tstores (write_store_status (addr s) FDB_SECTOR_STORE_FULL) (ts_io i d) (closed m a l)
    (fun r => r = FDB_NO_ERR).
Proof.
  intros [Hm Hs _ Hat Hmem] -> i Hi. destruct (Hs) as [Hg (Ha & Hmod & He) Hmul]. destruct (Hg).
  pose proof (holds_len _ _ _ Hm) as Hlm.
  apply (tstores_write_status _ _ a FDB_SECTOR_STORE_STATUS_NUM (enum_val FDB_SECTOR_STORE_FULL)
           (status_byte (enum_val FDB_SECTOR_STORE_USING)) true Hi); try done.
  - change (in_sector (geo (parent d)) a 1). eapply sector_in_part; [exact Hs|lia..].
  - unfold end_saved. hdr_unfold. rewrite !slice_splice_other by (len_simpl; lia). apply Hat.
Qed.

Lemma erased_filled g m a :
  geom_ok g -> 0 <= a -> a + sec_size g <= len m ->
  filled (splice m a (erased_sector g)) a (sec_size g) FDB_BYTE_ERASED.
Proof.
  intros [] Ha Hm. assert (len (erased_sector g) = sec_size g) as Hle
    by (unfold erased_sector; rewrite len_replicate; lia).
  unfold filled. rewrite <- Hle at 1. by rewrite slice_splice_same by lia.
Qed.

Lemma tstores_format d m a :
  ts_holds d m -> sector_in (geo (parent d)) a ->
  tstores (format_sector a) d (formatted m a (ts_sec_size d)) (fun r => r = FDB_NO_ERR).
Proof.
  intros Hm Hs. destruct (Hs) as [Hg (Ha & Hmod & He) Hmul]. destruct (Hg) as [H64 Hdv H2 H32].
  pose proof (holds_len _ _ _ Hm) as Hlm. unfold format_sector. apply tstores_gets. unfold ts_sec_size.
  rewrite (proj2 (Z.eqb_neq _ _)) by lia. rewrite Hmod, Z.eqb_refl.
  pose proof (erased_filled _ m a Hg ltac:(lia) ltac:(lia)) as Hff.
  eapply (tstores_bind _ _ _ m _ (fun _ => True)); [by apply tstores_ret|]. intros _ i0 _ Hi0.
  eapply tstores_then.
  { apply (tstores_erase (ts_io i0 d)); [done| |done]. change (0 <= a < max_size (geo (parent d))). lia. }
  intros i1 Hi1. unfold formatted. eapply tstores_then.
  { apply (tstores_write_status _ _ a FDB_SECTOR_STORE_STATUS_NUM (enum_val FDB_SECTOR_STORE_EMPTY) 255 true Hi1);
      try done.
    - change (in_sector (geo (parent d)) a 1). eapply sector_in_part; [exact Hs|lia..].
    - change [255] with (replicate (Z.to_nat 1) FDB_BYTE_ERASED).
      apply (filled_sub _ a (sec_size (geo (parent d)))); [exact Hff|lia..]. }
  intros i2 Hi2. unfold SECTOR_MAGIC_OFFSET. wrap_small.
  apply tstores_write; rewrite ?len_le4; [exact Hi2| |done|apply bytes_le_bytes|].
  - change (in_sector (geo (parent d)) (a + 1) 4). eapply sector_in_part; [exact Hs|lia..].
  - apply clears_erased; [|apply bytes_le_bytes]. rewrite len_le4.
    apply filled_splice; len_simpl; try lia. apply (filled_sub _ a (sec_size (geo (parent d)))); [exact Hff|lia..].
Qed.

(** The next sector of the ring becomes the current one; it is formatted
    first, and the oldest sector moves on, unless it is empty. *)
Lemma wp_move_to_next d m o c st start l Q :
  ts_holds d m -> let g := geo (parent d) in
  addr (cur_sec d) = ring_addr g o c -> rollover d = true -> geom_ok g ->
  let a := ring_addr g o (c + 1) in
  sector_in g a -> sector_at m a (sec_size g) st start l ->
  (forall d' m', cur_log d' m' a FDB_SECTOR_STORE_EMPTY 0 [] ->
     ts_config d' = ts_config d -> last_time d' = last_time d ->
     (if decide (st = FDB_SECTOR_STORE_EMPTY) then m' = m /\ oldest_addr (parent d') = oldest_addr (parent d)
      else same_outside m m' a (sec_size g) /\ oldest_addr (parent d') = ring_addr g o (c + 2)) ->
     Q FDB_NO_ERR d') ->
  wp move_to_next_sector Q d.
Proof.
  intros Hm g Ha Hroll Hg a Hs Hat HQ. pose proof (sector_count_two _ Hg) as Hn.
  assert (forall x, let k := (o + x) mod sector_count g in
    (if u32 (ring_addr g o x + sec_size g) <? max_size g then u32 (ring_addr g o x + sec_size g) else 0)
      = ring_addr g o (x + 1)) as Hnext.
  { intros x k. pose proof (Z.mod_pos_bound (o + x) (sector_count g) ltac:(lia)) as Hk.
    unfold ring_addr. fold k in Hk |- *. destruct (ring_next g Hg k 0 Hk ltac:(lia)) as (_ & -> & ->).
    rewrite <- next_index_mod by lia. fold k. unfold next_index. by destruct (k + 1 <? sector_count g). }
  pose proof (Hnext c) as Hn1. pose proof (Hnext (c + 1)) as Hn2. cbv zeta in Hn1, Hn2. fold a in Hn1, Hn2.
  replace (c + 1 + 1) with (c + 2) in Hn2 by lia. clear Hnext.
  unfold move_to_next_sector. do 4 apply wp_bind, wp_gets. cbv zeta. rewrite Ha, Hroll, andb_false_r.
  change (ts_sec_size d) with (sec_size g). change (ts_max_size d) with (max_size g). rewrite Hn1.
  apply wp_bind. eapply wp_tstores; [by apply (tstores_read_sector d m a st start l _ false)|].
  intros [e y] i [_ Hr] Hi. destruct (Hr (or_intror eq_refl)) as (_ & Hy & _). cbn [fst snd] in *.
  apply wp_bind, wp_modify. rewrite (sl_status _ _ _ _ _ _ Hy).
  destruct (decide (st = FDB_SECTOR_STORE_EMPTY)) as [->|Hne].
  - apply wp_bind, wp_ret, wp_ret. apply (HQ _ m); try done.
    destruct Hat as [A1 A2 A3 A4 A5 A6 A7 A8]. destruct (A5 eq_refl) as [-> A5'].
    split; [exact Hi|exact Hs|by left|by split|]. by destruct Hy; split.
  - apply wp_bind, wp_bind, wp_modify. rewrite Hn2. set (d1 := set_oldest _ _).
    assert (ts_holds d1 m) as H1 by exact Hi.
    apply wp_bind. eapply wp_tstores; [by apply (tstores_format d1 m a)|]. intros r j -> Hj.
    change (ts_sec_size d1) with (sec_size g) in Hj.
    destruct (Hs) as [_ (Ha0 & Hmod & He) _]. pose proof (holds_len _ _ _ Hm) as Hlm.
    assert (SECTOR_HDR_DATA_SIZE <= sec_size g) as Hsz by (destruct Hg; unfold SECTOR_HDR_DATA_SIZE; lia).
    pose proof (sector_at_formatted m a (sec_size g) 0 Ha0 ltac:(fold g in Hlm; lia) Hsz) as Hf.
    apply wp_bind. eapply wp_tstores.
    { by apply (tstores_read_sector (ts_io j d1) _ a FDB_SECTOR_STORE_EMPTY 0 [] _ false). }
    intros [e' y'] j' [_ Hr'] Hj'. destruct (Hr' (or_intror eq_refl)) as (_ & Hy' & _). cbn [fst snd] in *.
    apply wp_modify, wp_ret. apply (HQ _ (formatted m a (sec_size g))); try done.
    + split; [exact Hj'|exact Hs|by left|exact Hf|exact Hy'].
    + split; [|done]. intros b k Hb Hk Hout. apply formatted_other; try done. fold g in Hlm. lia.
Qed.

(** A current sector without room is closed. *)
Lemma wp_close_current d m a start l data t Q :
  let n := sec_size (geo (parent d)) in
  cur_log d m a FDB_SECTOR_STORE_USING start l -> l <> [] -> last_time d = last_entry_time l ->
  len data < 4294967296 - 16 -> free_space n l < LOG_IDX_DATA_SIZE + len data ->
  (forall i, let d' := set_cur_sec (sec_set_status FDB_SECTOR_STORE_FULL (cur_sec d)) (ts_io i d) in
     ts_holds d' (closed m a l) ->
     wp move_to_next_sector (fun r => wp (if decide (r = FDB_NO_ERR) then open_sector t else mret r) Q) d') ->
  wp (update_sec_status (blob_of data) t) Q d.
Proof.
  intros n Hc Hne Hlast Hln Hfull HQ. pose proof (Hc) as [Hm Hs _ Hat Hmem].
  destruct (Hs) as [Hg (Ha & Hmod & He) Hmul]. destruct (Hg) as [H64 Hdv H2 H32].
  pose proof (len_nonneg data) as Hd0. pose proof (holds_len _ _ _ Hm) as Hlm.
  pose proof (la_fits _ _ _ _ (sa_log _ _ _ _ _ _ Hat)) as Hf0. change (ts_sec_size d) with n in *. fold n in Hdv, H2, H32.
  unfold update_sec_status. apply wp_bind, wp_gets, wp_bind, wp_gets. cbn [blob_of size].
  rewrite (sl_status _ _ _ _ _ _ Hmem), (sl_remain _ _ _ _ _ _ Hmem). rewrite ts_align_id by lia.
  unfold LOG_IDX_DATA_SIZE in *. wrap_small. rewrite (proj2 (Z.ltb_lt _ _)) by lia.
  rewrite bool_decide_eq_true_2 by done. cbn [andb]. rewrite Hlast.
  apply wp_bind. eapply wp_then; [by apply (tstores_save_end d m a start l)|]. intros i1 Hi1.
  eapply wp_then; [apply (tstores_close d m a start l); [done|by apply Hmem|exact Hi1]|]. intros i2 Hi2.
  apply wp_bind, wp_modify. by apply (HQ i2).
Qed.

(** A full current sector is closed, and the next one becomes current. *)
Lemma wp_full_sector d m o c start l st' start' l' data t Q :
  let g := geo (parent d) in
  let a := ring_addr g o c in
  let a' := ring_addr g o (c + 1) in
  cur_log d m a FDB_SECTOR_STORE_USING start l -> l <> [] -> last_time d = last_entry_time l ->
  rollover d = true -> len data < 4294967296 - 16 ->
  free_space (sec_size g) l < LOG_IDX_DATA_SIZE + len data ->
  sector_in g a' -> sector_at m a' (sec_size g) st' start' l' ->
  a + sec_size g <= a' \/ a' + sec_size g <= a ->
  (forall d' m', cur_log d' m' a' FDB_SECTOR_STORE_EMPTY 0 [] ->
     ts_config d' = ts_config d -> last_time d' = last_time d ->
     (if decide (st' = FDB_SECTOR_STORE_EMPTY)
      then m' = closed m a l /\ oldest_addr (parent d') = oldest_addr (parent d)
      else same_outside (closed m a l) m' a' (sec_size g) /\ oldest_addr (parent d') = ring_addr g o (c + 2)) ->
     wp (open_sector t) Q d') ->
  wp (update_sec_status (blob_of data) t) Q d.
Proof.
  intros g a a' Hc Hne Hlast Hroll Hln Hfull Hs' Hat' Hdisj HQ. pose proof (Hc) as [Hm Hs _ _ Hmem].
  destruct (Hs) as [Hg (Ha & _ & He) _]. fold g in Ha, He, Hg. pose proof (holds_len _ _ _ Hm) as Hlm. fold g in Hlm.
  eapply wp_close_current; [done..|]. intros i d2 Hi.
  apply (wp_move_to_next d2 (closed m a l) o c st' start' l'); try done; [by apply Hmem|].
  change (sector_at (closed m a l) a' (sec_size g) st' start' l').
  eapply (sector_at_frame m); [|destruct Hg; unfold SECTOR_HDR_DATA_SIZE; lia|exact Hat'].
  destruct Hs' as [_ (Ha' & _ & He') _]. intros b k Hb Hk Hbk.
  apply closed_other; destruct Hg; unfold SECTOR_HDR_DATA_SIZE; lia.
Qed.

Lemma same_outside_trans m1 m2 m3 a n :
  same_outside m1 m2 a n -> same_outside m2 m3 a n -> same_outside m1 m3 a n.
Proof. intros H1 H2 b k Hb Hk Hout. rewrite H2 by done. by apply H1. Qed.

(** An append to a current sector without room. *)
Lemma wp_tsl_append_full d m o c start l st' start' l' t data Q :
  let g := geo (parent d) in
  let a := ring_addr g o c in
  let a' := ring_addr g o (c + 1) in
  let e := Entry FDB_TSL_WRITE t data in
  cur_log d m a FDB_SECTOR_STORE_USING start l -> l <> [] -> last_time d = last_entry_time l ->
  rollover d = true -> entry_ok e -> last_time d < t -> len data <= max_len d ->
  free_space (sec_size g) (l ++ [e]) < 0 -> 0 <= free_space (sec_size g) [e] ->
  sector_in g a' -> sector_at m a' (sec_size g) st' start' l' ->
  a + sec_size g <= a' \/ a' + sec_size g <= a ->
  (forall d' m', cur_log d' m' a' FDB_SECTOR_STORE_USING t [e] ->
     ts_config d' = ts_config d -> last_time d' = t ->
     oldest_addr (parent d') =
       (if decide (st' = FDB_SECTOR_STORE_EMPTY) then oldest_addr (parent d) else ring_addr g o (c + 2)) ->
     same_outside (closed m a l) m' a' (sec_size g) -> Q FDB_NO_ERR d') ->
  wp (tsl_append (blob_of data) (Some t)) Q d.
Proof.
  intros g a a' e Hc Hne Hlast Hroll Hok Hlt Hml Hfull Hfit Hs' Hat' Hdisj HQ.
  destruct (Hok) as [_ Htm Hbd Hln]. change (e_data e) with data in *. change (e_time e) with t in *.
  rewrite free_space_snoc in Hfull. change (e_data e) with data in Hfull.
  assert (len data <= sec_size g) as Hsz by (revert Hfit; cbn; unfold free_space; ts_unfold; cbn; lia).
  pose proof (cl_sector _ _ _ _ _ _ Hc) as [Hg _ _]. fold g in Hg. destruct (Hg) as [H64 Hdv H2 H32].
  unfold tsl_append. apply wp_bind, wp_ret, wp_bind, wp_gets, wp_bind, wp_gets. cbn [blob_of size].
  rewrite (proj2 (Z.ltb_ge _ _)), (proj2 (Z.leb_gt _ _)) by lia.
  apply wp_bind. eapply (wp_full_sector d m o c start l st' start' l'); try done; [fold g; lia|fold g; lia|].
  intros d1 m1 Hc1 Hcf1 Hl1 Hcase.
  assert (geo (parent d1) = g) as Eg by (unfold g; by injection Hcf1).
  eapply (wp_open_sector d1 m1 a' FDB_SECTOR_STORE_EMPTY 0 []); [done|done|].
  intros d2 m2 start2 Hc2 -> Hcf2 Ho2 Hl2 Hout2. rewrite decide_True by done.
  pose proof (ts_config_size _ _ Hcf2) as Es2. pose proof (ts_config_size _ _ Hcf1) as Es1.
  change (ts_sec_size d) with (sec_size g) in Es1. rewrite Es1 in *.
  eapply (wp_write_entry d2 m2 a' t []); [done|done|by rewrite Es2|].
  intros d' m' Hc' Hcf' Ho' Hl' Hout'. rewrite Es2 in Hout'.
  pose proof (same_outside_trans _ _ _ _ _ Hout2 Hout') as Hout.
  apply (HQ d' m'); [done|congruence|done| |].
  - rewrite Ho', Ho2. by destruct (decide _); apply Hcase.
  - destruct (decide _); destruct Hcase as [H1 _]; [by subst m1|]. by eapply same_outside_trans.
Qed.
End ring.
