(* ===== verification/TsDb.v ===== *)
(** Time-series database: the database as a ring of logs.

    [ts_state d m o c secs]: the database [d] on the medium [m] holds the
    sectors [secs], in ring order from the oldest one (index [o] on the
    medium); the [c]-th is the current one.  [ts_push] is the abstract
    append. *)
From S2P Require Import Prelude FdbDef Status FlashIO FlashSpec KvRing.
From S2P Require Import TsDef TsOps TsApi TsSpec TsRead TsAppend TsIter TsRing TsLog TsStore.

(** ** The abstract ring *)

(** All entries, oldest first. *)
Definition entries (secs : list sector_state) : list entry := concat (map ss_log secs).

(** Appending [e] to sectors of [n] bytes: to the current sector when it fits;
    otherwise the current sector is closed and the next empty one is used, or,
    when there is none, the oldest one, whose entries are lost. *)
Definition ts_push (n count : Z) (e : entry) (o : Z) (c : nat) (secs : list sector_state)
    : Z * nat * list sector_state :=
  match secs !! c with
  | None => (o, c, secs)
  | Some s =>
      if 0 <=? free_space n (ss_log s ++ [e]) then
        let start := if decide (ss_status s = FDB_SECTOR_STORE_EMPTY) then e_time e else ss_start s in
        (o, c, <[c := SecState FDB_SECTOR_STORE_USING start (ss_log s ++ [e])]> secs)
      else
        let secs1 := <[c := SecState FDB_SECTOR_STORE_FULL (ss_start s) (ss_log s)]> secs in
        let new := SecState FDB_SECTOR_STORE_USING (e_time e) [e] in
        if (S c <? length secs)%nat then (o, S c, <[S c := new]> secs1)
        else ((o + 1) mod count, c, tail secs1 ++ [new])
  end.

(** The number of entries that are lost. *)
Definition ts_lost (n : Z) (e : entry) (c : nat) (secs : list sector_state) : nat :=
  match secs !! c, secs with
  | Some s, s0 :: _ =>
      if (0 <=? free_space n (ss_log s ++ [e])) || (S c <? length secs)%nat then 0 else length (ss_log s0)
  | _, _ => 0
  end.

Lemma entries_app l k : entries (l ++ k) = entries l ++ entries k.
Proof. unfold entries. by rewrite map_app, concat_app. Qed.

Lemma entries_until secs c s :
  secs !! c = Some s -> (forall k x, secs !! k = Some x -> (c < k)%nat -> ss_log x = []) ->
  entries secs = entries (take c secs) ++ ss_log s.
Proof.
  intros Hc He. rewrite <- (take_drop_middle secs c s Hc) at 1. rewrite entries_app. f_equal.
  cbn. rewrite <- (app_nil_r (ss_log s)) at 2. f_equal.
  apply concat_nil_Forall, Forall_map, Forall_lookup. intros k x Hx. rewrite lookup_drop in Hx.
  apply (He (S c + k)%nat); [done|lia].
Qed.

(** The abstract append on the list of entries. *)
Lemma push_entries n count e o c secs s :
  secs !! c = Some s -> (forall k x, secs !! k = Some x -> (c < k)%nat -> ss_log x = []) ->
  let '(_, _, secs') := ts_push n count e o c secs in
  entries secs' = drop (ts_lost n e c secs) (entries secs) ++ [e].
Proof.
  intros Hc He. pose proof (lookup_lt_Some _ _ _ Hc) as Hl. unfold ts_push, ts_lost. rewrite Hc.
  assert (forall s', (forall k x, <[c := s']> secs !! k = Some x -> (c < k)%nat -> ss_log x = [])) as He'.
  { intros s' k x Hx Hk. rewrite list_lookup_insert_ne in Hx by lia. by eapply He. }
  destruct secs as [|s0 rest] eqn:Es; [done|]. rewrite <- Es in *.
  destruct (0 <=? _); cbn [orb].
  - rewrite (entries_until _ c (SecState _ _ _) ltac:(by apply list_lookup_insert_eq) (He' _)).
    rewrite take_insert_ge by lia. cbn [ss_log]. rewrite (entries_until _ c s Hc He). by rewrite app_assoc.
  - set (s1 := SecState FDB_SECTOR_STORE_FULL _ _). destruct (Nat.ltb_spec (S c) (length secs)) as [Hn|Hn].
    + rewrite (entries_until _ (S c) (SecState FDB_SECTOR_STORE_USING (e_time e) [e])).
      * cbn [ss_log drop]. f_equal. rewrite take_insert_ge by lia.
        rewrite (take_S_r _ c s1) by (by apply list_lookup_insert_eq).
        rewrite take_insert_ge, entries_app by lia. rewrite (entries_until _ c s Hc He).
        cbn. by rewrite app_nil_r.
      * apply list_lookup_insert_eq. by rewrite length_insert.
      * intros k x Hx Hk. rewrite !list_lookup_insert_ne in Hx by lia. apply (He k); [done|lia].
    + rewrite entries_app. f_equal.
      assert (entries (<[c := s1]> secs) = entries secs) as E.
      { rewrite (entries_until _ c s1 ltac:(by apply list_lookup_insert_eq) (He' _)).
        rewrite take_insert_ge by lia. by rewrite (entries_until _ c s Hc He). }
      rewrite <- E. rewrite Es in *. destruct c as [|c]; cbn [insert list_insert tail].
      * injection Hc as ->. unfold entries. cbn. by rewrite drop_app_length.
      * change (list_insert c s1 rest) with (<[c := s1]> rest). unfold entries. cbn [map concat].
        by rewrite drop_app_length.
Qed.

(** ** Sectors of the ring that change *)

Section db.
Context {W} {ST : Storage W} {SL : StorageLaws W} {IN : Indeterminate} {CL : Clock W}.
Implicit Type d : fdb_tsdb W.

Lemma sec_size_hdr g : geom_ok g -> SECTOR_HDR_DATA_SIZE <= sec_size g.
Proof. intros []. unfold SECTOR_HDR_DATA_SIZE. lia. Qed.

(** The sectors on the medium. *)
Record ring_at (g : geom) (m : list Z) (o : Z) (secs : list sector_state) : Prop := {
  ra_geom : geom_ok g;
  ra_len : len m = max_size g;
  ra_mult : sec_size g mod LOG_IDX_DATA_SIZE = 0;
  ra_count : Z.of_nat (length secs) = sector_count g;
  ra_first : 0 <= o < sector_count g;
  ra_secs : forall k s, secs !! k = Some s ->
    sector_at m (ring_addr g o (Z.of_nat k)) (sec_size g) (ss_status s) (ss_start s) (ss_log s);
}.

Lemma ring_log_at d m o secs : ring_log d m o secs -> ring_at (geo (parent d)) m o secs.
Proof.
  intros [H1 H2 H3 H4 H5]. split; try done; [by eapply holds_geom|by eapply holds_len|].
  intros k s Hk. by apply (H5 k s).
Qed.

Lemma ring_at_update g m m' o secs c s' :
  ring_at g m o secs -> (c < length secs)%nat -> len m' = len m ->
  let a := ring_addr g o (Z.of_nat c) in
  same_outside m m' a (sec_size g) ->
  sector_at m' a (sec_size g) (ss_status s') (ss_start s') (ss_log s') ->
  ring_at g m' o (<[c := s']> secs).
Proof.
  intros [H1 Hl H2 H3 H4 H5] Hc Hlm a Hout Hat.
  split; [done|congruence|done|by rewrite length_insert|done|].
  intros k s Hk. destruct (decide (k = c)) as [->|Hne].
  - rewrite list_lookup_insert_eq in Hk by done. by injection Hk as <-.
  - rewrite list_lookup_insert_ne in Hk by done. pose proof (lookup_lt_Some _ _ _ Hk).
    eapply sector_at_frame; [|by apply sec_size_hdr|by apply H5]. intros b n Hb Hn Hbn.
    pose proof (ring_addr_end g o (Z.of_nat k) H1).
    apply Hout; [lia|done|].
    destruct (ring_addr_disjoint g o (Z.of_nat k) (Z.of_nat c) H1); unfold a; lia.
Qed.

Lemma ring_addr_shift g o x :
  geom_ok g -> ring_addr g ((o + 1) mod sector_count g) x = ring_addr g o (x + 1).
Proof.
  intros Hg. pose proof (sector_count_two _ Hg). unfold ring_addr. rewrite Zplus_mod_idemp_l.
  f_equal. f_equal. lia.
Qed.

Lemma ring_addr_turn g o x : geom_ok g -> ring_addr g o (x + sector_count g) = ring_addr g o x.
Proof.
  intros Hg. pose proof (sector_count_two _ Hg). unfold ring_addr.
  replace (o + (x + sector_count g)) with (o + x + 1 * sector_count g) by lia. by rewrite Z.mod_add by lia.
Qed.

(** The oldest sector becomes the newest. *)
Lemma ring_at_rotate g m o s secs :
  ring_at g m o (s :: secs) -> ring_at g m ((o + 1) mod sector_count g) (secs ++ [s]).
Proof.
  intros [H1 Hl H2 H3 H4 H5]. pose proof (sector_count_two _ H1) as Hn. cbn [length] in H3.
  split; [done|done|done| |apply Z.mod_pos_bound; lia|].
  { rewrite length_app. cbn [length]. lia. }
  intros k x Hk. rewrite ring_addr_shift by done. apply lookup_app_Some in Hk as [Hk|[Hlt Hk]].
  - replace (Z.of_nat k + 1) with (Z.of_nat (S k)) by lia. by apply (H5 (S k)).
  - destruct (k - length secs)%nat as [|j] eqn:E; [|by destruct j]. injection Hk as <-.
    replace (Z.of_nat k + 1) with (Z.of_nat 0 + sector_count g) by lia.
    rewrite ring_addr_turn by done. by apply (H5 0%nat).
Qed.

(** ** The state of a database *)

Record ts_state d (m : list Z) (o : Z) (c : nat) (secs : list sector_state) : Prop := {
  tt_ring : ring_log d m o secs;
  tt_shape : ring_shape secs c;
  tt_oldest : oldest_addr (parent d) = ring_addr (geo (parent d)) o 0;
  tt_cur : forall s, secs !! c = Some s ->
    sec_log (cur_sec d) (ring_addr (geo (parent d)) o (Z.of_nat c)) (ts_sec_size d)
            (ss_status s) (ss_start s) (ss_log s);
  tt_last : forall s, secs !! c = Some s -> ss_log s <> [] -> last_time d = last_entry_time (ss_log s);
}.

Lemma ts_state_cur d m o c secs s :
  ts_state d m o c secs -> secs !! c = Some s ->
  cur_log d m (ring_addr (geo (parent d)) o (Z.of_nat c)) (ss_status s) (ss_start s) (ss_log s).
Proof.
  intros [Hr Hs Ho Hc Hl] Hk. destruct (rl_secs _ _ _ _ Hr c s Hk) as [Hat _].
  destruct (rs_cur _ _ Hs) as (s' & Hk' & Hst). rewrite Hk in Hk'. injection Hk' as <-.
  split; [apply Hr|by apply (ring_sector d m o secs)|done|done|by apply Hc].
Qed.

(** The state after an append. *)
Lemma ts_state_intro d m o c secs s :
  ring_at (geo (parent d)) m o secs -> ring_shape secs c ->
  secs !! c = Some s -> ss_status s = FDB_SECTOR_STORE_USING -> ss_log s <> [] ->
  cur_log d m (ring_addr (geo (parent d)) o (Z.of_nat c)) FDB_SECTOR_STORE_USING (ss_start s) (ss_log s) ->
  oldest_addr (parent d) = ring_addr (geo (parent d)) o 0 ->
  last_time d = last_entry_time (ss_log s) -> ts_state d m o c secs.
Proof.
  intros [A1 Al A2 A3 A4 A5] Hs Hk Hst Hne [C1 C2 C3 C4 C5] Ho Hl. split; try done.
  - split; try done. intros k x Hx a. split; [by apply A5|]. intros Hu.
    destruct (Nat.lt_trichotomy k c) as [|[->|]].
    + rewrite (rs_full _ _ Hs k x) in Hu by done. done.
    + rewrite Hk in Hx. injection Hx as <-. done.
    + rewrite (rs_empty _ _ Hs k x) in Hu by done. done.
  - intros x Hx. rewrite Hk in Hx. injection Hx as <-. by rewrite Hst.
  - intros x Hx _. rewrite Hk in Hx. by injection Hx as <-.
Qed.

Lemma ts_state_geo d d' m o c secs :
  ts_state d m o c secs -> ts_holds d' m -> geo (parent d') = geo (parent d) -> cur_sec d' = cur_sec d ->
  oldest_addr (parent d') = oldest_addr (parent d) -> last_time d' = last_time d ->
  ts_state d' m o c secs.
Proof.
  intros [H1 H2 H3 H4 H5] Hm Hg Hc Ho Hl.
  assert (ts_sec_size d' = ts_sec_size d) as Hsz by (unfold ts_sec_size; by rewrite Hg).
  split; rewrite ?Hg, ?Hc, ?Ho, ?Hl, ?Hsz; try done. by apply (ring_log_same d).
Qed.

Lemma ts_state_same d d' m o c secs :
  ts_state d m o c secs -> ts_holds d' m -> ts_config d' = ts_config d -> cur_sec d' = cur_sec d ->
  oldest_addr (parent d') = oldest_addr (parent d) -> last_time d' = last_time d ->
  ts_state d' m o c secs.
Proof. intros H Hm Hcf%ts_config_geo. by apply (ts_state_geo d). Qed.

Lemma ts_state_kept d d' m o c secs : ts_state d m o c secs -> kept d m d' -> ts_state d' m o c secs.
Proof. intros H []. by apply (ts_state_same d). Qed.

Lemma ring_shape_insert secs c s' :
  ring_shape secs c ->
  ss_status s' = FDB_SECTOR_STORE_EMPTY \/ ss_status s' = FDB_SECTOR_STORE_USING ->
  ring_shape (<[c := s']> secs) c.
Proof.
  intros [H1 (s & H2 & _) H3] Hs. pose proof (lookup_lt_Some _ _ _ H2). split.
  - intros k x Hx Hk. rewrite list_lookup_insert_ne in Hx by lia. by eapply H1.
  - exists s'. by rewrite list_lookup_insert_eq.
  - intros k x Hx Hk. rewrite list_lookup_insert_ne in Hx by lia. by eapply H3.
Qed.

(** The shape when the next sector becomes the current one. *)
Lemma ring_shape_next secs c s s' :
  ring_shape secs c -> (S c < length secs)%nat ->
  ss_status s = FDB_SECTOR_STORE_FULL -> ss_status s' = FDB_SECTOR_STORE_USING ->
  ring_shape (<[S c := s']> (<[c := s]> secs)) (S c).
Proof.
  intros [H1 _ H3] Hlt Hs Hs'. split.
  - intros k x Hx Hk. rewrite list_lookup_insert_ne in Hx by lia. destruct (decide (k = c)) as [->|].
    + rewrite list_lookup_insert_eq in Hx by lia. by injection Hx as <-.
    + rewrite list_lookup_insert_ne in Hx by lia. apply (H1 k); [done|lia].
  - exists s'. split; [|by right]. rewrite list_lookup_insert_eq; [done|]. rewrite length_insert. lia.
  - intros k x Hx Hk. rewrite !list_lookup_insert_ne in Hx by lia. apply (H3 k); [done|lia].
Qed.

(** The shape when the ring turns: every sector is full but the new one. *)
Lemma ring_shape_turn secs s :
  (forall k x, secs !! k = Some x -> ss_status x = FDB_SECTOR_STORE_FULL) ->
  ss_status s = FDB_SECTOR_STORE_USING -> ring_shape (secs ++ [s]) (length secs).
Proof.
  intros H Hs. split.
  - intros k x Hx Hk. rewrite lookup_app_l in Hx by done. by apply (H k).
  - exists s. split; [|by right]. by rewrite lookup_app_r, Nat.sub_diag.
  - intros k x Hx Hk. apply lookup_lt_Some in Hx. rewrite length_app in Hx. cbn in Hx. lia.
Qed.

(** ** The refinement *)

(** What an append of [e] promises: the database moves to the state that
    [ts_push] gives. *)
Definition pushed d (e : entry) (st : Z * nat * list sector_state) (r : fdb_err_t) (d' : fdb_tsdb W) : Prop :=
  r = FDB_NO_ERR /\ last_time d' = e_time e /\ ts_config d' = ts_config d /\
  exists m', let '(o, c, secs) := st in ts_state d' m' o c secs.

Lemma cur_log_len d d' m m' a a' st st' start start' l l' :
  cur_log d m a st start l -> cur_log d' m' a' st' start' l' -> ts_config d' = ts_config d -> len m' = len m.
Proof.
  intros H H' Hc. pose proof (ts_config_geo _ _ Hc) as Hg.
  rewrite (holds_len _ _ _ (cl_holds _ _ _ _ _ _ H)), (holds_len _ _ _ (cl_holds _ _ _ _ _ _ H')). by rewrite Hg.
Qed.

Lemma push_room d m o c secs s t data :
  let e := Entry FDB_TSL_WRITE t data in
  ts_state d m o c secs -> secs !! c = Some s -> entry_ok e -> last_time d < t -> len data <= max_len d ->
  0 <= free_space (ts_sec_size d) (ss_log s ++ [e]) ->
  wp (tsl_append (blob_of data) (Some t))
     (pushed d e (o, c, <[c := SecState FDB_SECTOR_STORE_USING
        (if decide (ss_status s = FDB_SECTOR_STORE_EMPTY) then t else ss_start s) (ss_log s ++ [e])]> secs)) d.
Proof.
  intros e H Hc Hok Hlt Hml Hfit. pose proof (ts_state_cur d m o c secs s H Hc) as Hcur.
  pose proof (lookup_lt_Some _ _ _ Hc) as Hlen.
  eapply (wp_tsl_append d m); [exact Hcur|done..|]. intros d' m' start' Hc' -> Hcf Ho Hl Hout.
  pose proof (ts_config_geo _ _ Hcf) as Hg. split; [done|]. split; [done|]. split; [done|]. exists m'.
  set (s' := SecState _ _ _). eapply (ts_state_intro d' m' o c _ s').
  - rewrite Hg. eapply (ring_at_update _ m); [apply ring_log_at, H|done|by eapply cur_log_len|exact Hout|].
    pose proof (cl_at _ _ _ _ _ _ Hc') as Hat. by rewrite (ts_config_size _ _ Hcf) in Hat.
  - apply ring_shape_insert; [apply H|by right].
  - by rewrite list_lookup_insert_eq.
  - done.
  - by destruct (ss_log s).
  - by rewrite Hg.
  - rewrite Ho, Hg. apply H.
  - rewrite Hl. unfold last_entry_time. cbn [ss_log s']. by rewrite last_snoc.
Qed.

Lemma same_outside_closed m a l n :
  0 <= a -> a + n <= len m -> SECTOR_HDR_DATA_SIZE <= n -> same_outside m (closed m a l) a n.
Proof.
  intros Ha Hm Hn b k Hb Hk Hout. apply closed_other; unfold SECTOR_HDR_DATA_SIZE in *; lia.
Qed.

Lemma ring_at_closed g m o secs c s :
  ring_at g m o secs -> secs !! c = Some s -> ss_status s = FDB_SECTOR_STORE_USING -> ss_log s <> [] ->
  let a := ring_addr g o (Z.of_nat c) in
  ring_at g (closed m a (ss_log s)) o (<[c := SecState FDB_SECTOR_STORE_FULL (ss_start s) (ss_log s)]> secs).
Proof.
  intros H Hc Hu Hne a. pose proof (ra_geom _ _ _ _ H) as Hg. pose proof (sec_size_hdr _ Hg) as Hsz.
  pose proof (ra_secs _ _ _ _ H c s Hc) as Hat. rewrite Hu in Hat.
  pose proof (sector_count_two _ Hg). pose proof (ra_len _ _ _ _ H) as Hl.
  destruct (sector_addr_range _ Hg ((o + Z.of_nat c) mod sector_count g)) as (H1 & H2 & _).
  { apply Z.mod_pos_bound. lia. }
  assert (0 <= a) by (apply ring_addr_end; done).
  assert (a + sec_size g <= len m) by (rewrite Hl; unfold a, ring_addr; lia).
  apply (ring_at_update g m); [done|by apply lookup_lt_Some in Hc| |by apply same_outside_closed|].
  - unfold closed, end_saved. by rewrite !len_splice.
  - by apply sector_at_closed.
Qed.

(** The current sector has no room: it is in use, and what
    [wp_tsl_append_full] needs holds. *)
Lemma push_full d m o c secs s s2 p t data Q :
  let e := Entry FDB_TSL_WRITE t data in
  let g := geo (parent d) in
  let a' := ring_addr g o (Z.of_nat c + 1) in
  ts_state d m o c secs -> secs !! c = Some s -> rollover d = true ->
  entry_ok e -> last_time d < t -> len data <= max_len d ->
  free_space (ts_sec_size d) (ss_log s ++ [e]) < 0 -> 0 <= free_space (ts_sec_size d) [e] ->
  secs !! p = Some s2 -> p <> c -> a' = ring_addr g o (Z.of_nat p) ->
  (ss_status s = FDB_SECTOR_STORE_USING -> ss_log s <> [] -> forall d' m',
     cur_log d' m' a' FDB_SECTOR_STORE_USING t [e] ->
     ts_config d' = ts_config d -> last_time d' = t -> len m' = len m ->
     oldest_addr (parent d') =
       (if decide (ss_status s2 = FDB_SECTOR_STORE_EMPTY) then oldest_addr (parent d)
        else ring_addr g o (Z.of_nat c + 2)) ->
     same_outside (closed m (ring_addr g o (Z.of_nat c)) (ss_log s)) m' a' (sec_size g) -> Q FDB_NO_ERR d') ->
  wp (tsl_append (blob_of data) (Some t)) Q d.
Proof.
  intros e g a' H Hc Hroll Hok Hlt Hml Hfull Hfit Hp Hpc Ea HQ.
  pose proof (ts_state_cur d m o c secs s H Hc) as Hcur. fold g in Hcur.
  pose proof (ring_log_at _ _ _ _ (tt_ring _ _ _ _ _ H)) as Hra. fold g in Hra.
  pose proof (ra_geom _ _ _ _ Hra) as Hg. pose proof (ra_count _ _ _ _ Hra) as Hcount.
  pose proof (lookup_lt_Some _ _ _ Hc) as Hcl. pose proof (lookup_lt_Some _ _ _ Hp) as Hpl.
  assert (ss_status s = FDB_SECTOR_STORE_USING /\ ss_log s <> []) as [Hu Hne].
  { destruct (rl_secs _ _ _ _ (tt_ring _ _ _ _ _ H) c s Hc) as [Hat Huse].
    destruct (cl_open _ _ _ _ _ _ Hcur) as [Hst|Hst]; [|split; [done|by apply Huse]].
    destruct (sa_empty _ _ _ _ _ _ Hat Hst) as [El _]. rewrite El in Hfull. cbn [app] in Hfull. lia. }
  rewrite Hu in Hcur.
  eapply (wp_tsl_append_full d m o (Z.of_nat c) (ss_start s) (ss_log s) (ss_status s2) (ss_start s2) (ss_log s2));
    try done; fold g; fold a'; fold e.
  - apply (tt_last _ _ _ _ _ H s Hc Hne).
  - rewrite Ea. by apply (ring_sector d m o secs (Z.of_nat p)), H.
  - rewrite Ea. by apply (ra_secs _ _ _ _ Hra).
  - rewrite Ea. apply ring_addr_disjoint; [done|lia..].
  - intros d' m' Hc' Hcf Hl Ho Hout. eapply (HQ Hu Hne d' m'); try done. by eapply cur_log_len.
Qed.

Lemma push_next d m o c secs s t data :
  let e := Entry FDB_TSL_WRITE t data in
  ts_state d m o c secs -> secs !! c = Some s -> rollover d = true ->
  entry_ok e -> last_time d < t -> len data <= max_len d ->
  free_space (ts_sec_size d) (ss_log s ++ [e]) < 0 -> 0 <= free_space (ts_sec_size d) [e] ->
  (S c < length secs)%nat ->
  wp (tsl_append (blob_of data) (Some t))
     (pushed d e (o, S c, <[S c := SecState FDB_SECTOR_STORE_USING t [e]]>
        (<[c := SecState FDB_SECTOR_STORE_FULL (ss_start s) (ss_log s)]> secs))) d.
Proof.
  intros e H Hc Hroll Hok Hlt Hml Hfull Hfit Hn. set (g := geo (parent d)).
  assert (ring_addr g o (Z.of_nat c + 1) = ring_addr g o (Z.of_nat (S c))) as Ea by (f_equal; lia).
  destruct (lookup_lt_is_Some_2 secs (S c) Hn) as [s2 Hs2].
  assert (ss_status s2 = FDB_SECTOR_STORE_EMPTY) as Hst2
    by (apply (rs_empty _ _ (tt_shape _ _ _ _ _ H) (S c)); [done|lia]).
  pose proof (ring_log_at _ _ _ _ (tt_ring _ _ _ _ _ H)) as Hra. fold g in Hra.
  eapply (push_full d m o c secs s s2 (S c)); try done.
  intros Hu Hne d' m' Hc' Hcf Hl Hlen Ho Hout. rewrite decide_True in Ho by done.
  fold g in Hc', Ho, Hout |- *. rewrite Ea in Hc', Hout. pose proof (ts_config_geo _ _ Hcf) as Hg.
  pose proof (cl_at _ _ _ _ _ _ Hc') as Hat. rewrite (ts_config_size _ _ Hcf) in Hat.
  pose proof (ring_at_closed _ _ _ _ _ _ Hra Hc Hu Hne) as Hra1.
  split; [done|]. split; [done|]. split; [done|]. exists m'.
  eapply (ts_state_intro d' m' o (S c) _ (SecState FDB_SECTOR_STORE_USING t [e])); rewrite ?Hg; fold g; try done.
  - eapply (ring_at_update g _ m' o _ (S c)); [exact Hra1|by rewrite length_insert| |exact Hout|exact Hat].
    rewrite Hlen, (ra_len _ _ _ _ Hra1). apply (ra_len _ _ _ _ Hra).
  - apply ring_shape_next; [apply H|done..].
  - rewrite list_lookup_insert_eq; [done|by rewrite length_insert].
  - rewrite Ho. apply H.
Qed.

Lemma push_turn d m o c secs s t data :
  let e := Entry FDB_TSL_WRITE t data in
  let g := geo (parent d) in
  ts_state d m o c secs -> secs !! c = Some s -> rollover d = true ->
  entry_ok e -> last_time d < t -> len data <= max_len d ->
  free_space (ts_sec_size d) (ss_log s ++ [e]) < 0 -> 0 <= free_space (ts_sec_size d) [e] ->
  (S c = length secs)%nat ->
  wp (tsl_append (blob_of data) (Some t))
     (pushed d e ((o + 1) mod sector_count g, c,
        tail (<[c := SecState FDB_SECTOR_STORE_FULL (ss_start s) (ss_log s)]> secs) ++
        [SecState FDB_SECTOR_STORE_USING t [e]])) d.
Proof.
  intros e g H Hc Hroll Hok Hlt Hml Hfull Hfit Hn.
  pose proof (ring_log_at _ _ _ _ (tt_ring _ _ _ _ _ H)) as Hra. fold g in Hra.
  pose proof (ra_geom _ _ _ _ Hra) as Hg. pose proof (sector_count_two _ Hg) as Hn2.
  pose proof (ra_count _ _ _ _ Hra) as Hcount.
  assert (ring_addr g o (Z.of_nat c + 1) = ring_addr g o (Z.of_nat 0)) as Ea.
  { rewrite <- (ring_addr_turn g o (Z.of_nat 0)) by done. f_equal. lia. }
  assert (ring_addr g o (Z.of_nat c + 1) =
          ring_addr g ((o + 1) mod sector_count g) (Z.of_nat c)) as Ea1 by (by rewrite ring_addr_shift).
  destruct secs as [|s2 secs]; [done|]. cbn [length] in Hn, Hcount.
  destruct c as [|c]; [lia|].
  assert (ss_status s2 = FDB_SECTOR_STORE_FULL) as Hst2
    by (apply (rs_full _ _ (tt_shape _ _ _ _ _ H) 0%nat); [done|lia]).
  eapply (push_full d m o (S c) (s2 :: secs) s s2 0); try done.
  intros Hu Hne d' m' Hc' Hcf Hl Hlen Ho Hout. rewrite decide_False in Ho by congruence.
  fold g in Hc', Ho, Hout |- *. rewrite Ea1 in Hc', Hout. pose proof (ts_config_geo _ _ Hcf) as Hg'. fold g in Hg'.
  pose proof (cl_at _ _ _ _ _ _ Hc') as Hat. rewrite (ts_config_size _ _ Hcf) in Hat.
  pose proof (ring_at_closed _ _ _ _ _ _ Hra Hc Hu Hne) as Hra1.
  change (<[S c := ?x]> (s2 :: secs)) with (s2 :: <[c := x]> secs) in Hra1 |- *. cbn [tail].
  set (secs1 := <[c := _]> secs) in *. pose proof (ring_at_rotate _ _ _ _ _ Hra1) as Hra2.
  assert (length secs1 = S c) as Hl1 by (unfold secs1; rewrite length_insert; lia).
  split; [done|]. split; [done|]. split; [done|]. exists m'. set (new := SecState _ t [e]).
  eapply (ts_state_intro d' m' _ (S c) _ new); rewrite ?Hg'; try done.
  - replace (secs1 ++ [new]) with (<[S c := new]> (secs1 ++ [s2])).
    + eapply (ring_at_update g _ m' _ _ (S c)); [exact Hra2|rewrite length_app; cbn; lia| |exact Hout|exact Hat].
      rewrite Hlen, (ra_len _ _ _ _ Hra2). apply (ra_len _ _ _ _ Hra).
    + rewrite insert_app_r_alt by lia. rewrite Hl1, Nat.sub_diag. done.
  - rewrite <- Hl1. apply ring_shape_turn; [|done]. intros k x Hx. destruct (decide (k = c)) as [->|Hne'].
    + unfold secs1 in Hx. rewrite list_lookup_insert_eq in Hx by (unfold secs1 in Hl1; rewrite length_insert in Hl1; lia).
      by injection Hx as <-.
    + unfold secs1 in Hx. pose proof (lookup_lt_Some _ _ _ Hx) as Hk. fold secs1 in Hk.
      rewrite list_lookup_insert_ne in Hx by done.
      apply (rs_full _ _ (tt_shape _ _ _ _ _ H) (S k)); [done|]. unfold secs1 in Hk, Hl1. lia.
  - rewrite lookup_app_r by lia. by rewrite Hl1, Nat.sub_diag.
  - rewrite Ho, ring_addr_shift by done. rewrite <- (ring_addr_turn g o (0 + 1)) by done. f_equal. lia.
Qed.

(** The public function, in all cases. *)
Lemma wp_append d m o c secs s t data :
  let e := Entry FDB_TSL_WRITE t data in
  let n := ts_sec_size d in
  ts_state d m o c secs -> secs !! c = Some s -> init_ok (parent d) = true -> rollover d = true ->
  entry_ok e -> last_time d < t -> len data <= max_len d -> 0 <= free_space n [e] ->
  wp (fdb_tsl_append_with_ts (blob_of data) t) (fun r d' =>
    pushed d e (ts_push n (sector_count (geo (parent d))) e o c secs) r d' /\
    let '(_, _, secs') := ts_push n (sector_count (geo (parent d))) e o c secs in
    entries secs' = drop (ts_lost n e c secs) (entries secs) ++ [e]) d.
Proof.
  intros e n H Hc Hinit Hroll Hok Hlt Hml Hfit.
  eapply (wp_mono _ (pushed d e (ts_push n (sector_count (geo (parent d))) e o c secs))).
  2:{ intros r d' Hp. split; [exact Hp|]. apply push_entries with s; [done|]. intros k x Hx Hk.
      destruct (rl_secs _ _ _ _ (tt_ring _ _ _ _ _ H) k x Hx) as [Hat _].
      by apply (sa_empty _ _ _ _ _ _ Hat), (rs_empty _ _ (tt_shape _ _ _ _ _ H) k). }
  unfold fdb_tsl_append_with_ts. apply wp_bind, wp_gets. unfold db_init_ok. rewrite Hinit. cbn [negb].
  unfold locked. apply wp_bind. apply (locked_parent _ _ m); [apply H|].
  intros d1 H1 Hcf Hcs Ho Hl. pose proof (ts_state_same _ _ _ _ _ _ H H1 Hcf Hcs Ho Hl) as Hs1.
  pose proof (ts_config_geo _ _ Hcf) as Hg. pose proof (ts_config_size _ _ Hcf) as Hsz. fold n in Hsz.
  assert (rollover d1 = true /\ len data <= max_len d1 /\ last_time d1 < t) as (Hroll1 & Hml1 & Hlt1).
  { rewrite Hl. unfold ts_config in Hcf. injection Hcf as _ _ _ _ -> ->. done. }
  apply wp_bind. eapply (wp_mono _ (pushed d1 e (ts_push n (sector_count (geo (parent d))) e o c secs))).
  - unfold ts_push. rewrite Hc. rewrite <- Hsz, <- Hg in *.
    destruct (Z.leb_spec 0 (free_space (ts_sec_size d1) (ss_log s ++ [e]))).
    + by eapply push_room.
    + destruct (Nat.ltb_spec (S c) (length secs)).
      * by eapply push_next.
      * eapply push_turn; try done. apply lookup_lt_Some in Hc. lia.
  - intros r d2 (-> & Hl2 & Hcf2 & m' & Hs2). apply wp_bind.
    destruct (ts_push _ _ _ _ _ _) as [[o' c'] secs'].
    apply (locked_parent _ _ m'); [apply Hs2|]. intros d3 H3 Hcf3 Hcs3 Ho3 Hl3. apply wp_ret.
    split; [done|]. split; [congruence|]. split; [congruence|]. exists m'. by eapply ts_state_same.
Qed.

(** C3: Appending refines the abstract ring of logs.  On a database in the state
    [(o, c, secs)], appending an entry that is newer than the last one and
    that an empty sector can hold succeeds, and the database is then in the
    state [ts_push] gives: the entry is added to the current sector, or to the
    next sector of the ring when it does not fit.  The list of all entries
    becomes the old one, less the entries of the oldest sector when that one
    had to be reused, followed by the new entry. *)
Theorem append_refines d m o c secs s t data :
  let e := Entry FDB_TSL_WRITE t data in
  let n := ts_sec_size d in
  ts_state d m o c secs -> secs !! c = Some s -> init_ok (parent d) = true -> rollover d = true ->
  entry_ok e -> last_time d < t -> len data <= max_len d -> 0 <= free_space n [e] ->
  wp (fdb_tsl_append_with_ts (blob_of data) t) (fun r d' =>
    pushed d e (ts_push n (sector_count (geo (parent d))) e o c secs) r d' /\
    let '(_, _, secs') := ts_push n (sector_count (geo (parent d))) e o c secs in
    entries secs' = drop (ts_lost n e c secs) (entries secs) ++ [e]) d.
Proof. exact (wp_append d m o c secs s t data). Qed.
End db.
