(* ===== verification/TsInit.v ===== *)
(** Time-series database: initialisation.

    [fdb_tsdb_init] reads the headers of all sectors and finds out which sector
    was in use and which is the oldest; on the medium of a database it comes
    back to the database's state. *)
From S2P Require Import Prelude FdbDef Status FlashIO FlashSpec Mount KvRing.
From S2P Require Import TsDef TsOps TsApi TsSpec TsRead TsAppend TsIter TsRing TsLog TsStore TsDb.

Section init.
Context {W} {ST : Storage W} {SL : StorageLaws W} {IN : Indeterminate} {CL : Clock W}.
Implicit Type d : fdb_tsdb W.

(** ** Iterating over the sectors in the order of their addresses *)

(** [Inv i d arg]: before the turn of the [i]-th sector; [P i s]: what the last
    read of that sector gives; [End d arg]: the callback has stopped the
    iteration. *)
Lemma wp_sectors_until {A} g (Inv : nat -> fdb_tsdb W -> A -> Prop) (End : fdb_tsdb W -> A -> Prop)
    (P : nat -> tsdb_sec_info -> Prop)
    (cb : tsdb_sec_info -> A -> M (fdb_tsdb W) (bool * A)) traversal s arg d :
  geom_ok g -> let N := Z.to_nat (sector_count g) in
  let at_ i := Z.of_nat i * sec_size g in
  (forall i d arg, Inv i d arg -> geo (parent d) = g) ->
  (forall i d arg x t, (i < N)%nat -> Inv i d arg ->
     wp (read_sector_info (at_ i) x t) (fun r d' => Inv i d' arg /\ addr (snd r) = at_ i /\
       (t = traversal -> P i (snd r))) d) ->
  (forall i d arg x, (i < N)%nat -> Inv i d arg -> addr x = at_ i -> P i x ->
     wp (cb x arg) (fun c d' => if fst c then End d' (snd c) else Inv (S i) d' (snd c)) d) ->
  Inv 0%nat d arg -> addr s = 0 ->
  wp (sector_iterator s FDB_SECTOR_STORE_UNUSED arg (Some cb) traversal)
     (fun r d' => Inv N d' (snd r) \/ End d' (snd r)) d.
Proof.
  intros Hg N at_ Hgeo Hread Hcb H0 Hs. pose proof (sector_count_two _ Hg) as Hn.
  unfold sector_iterator. apply wp_bind, wp_gets.
  eapply (wp_loop
    (fun '(a, trav, x, arg) d => exists i, (i < N)%nat /\ a = at_ i /\ trav = at_ i /\ Inv i d arg)
    (fun '(a, trav, x, arg) _ => N - Z.to_nat (trav / sec_size g))%nat).
  2:{ exists 0%nat. split; [lia|]. unfold at_. by rewrite Hs, Z.mul_0_l. }
  2:{ unfold sector_fuel, ts_max_size, ts_sec_size. rewrite (Hgeo _ _ _ H0).
      fold (sector_count g). rewrite Z.div_0_l by (destruct Hg; lia). fold N. lia. }
  clear d arg s H0 Hs. intros [[[a trav] x] arg] d (i & Hi & -> & -> & HI).
  apply wp_bind. eapply wp_mono; [by apply Hread|]. intros r d1 (HI1 & Ha1 & HP1).
  apply wp_bind. rewrite bool_decide_eq_true_2 by done. cbn [orb].
  apply wp_bind. eapply (wp_mono _ (fun y d' => Inv i d' arg /\ addr y = at_ i /\ P i y)).
  { destruct traversal; [|apply wp_ret; auto].
    apply wp_bind. eapply wp_mono; [by apply Hread|]. intros r' d2 (HI2 & Ha2 & HP2). apply wp_ret. auto. }
  intros y d2 (HI2 & Ha2 & HP2). apply wp_bind. eapply wp_mono; [by apply Hcb|].
  intros [stop arg'] d3 HI3. cbn [fst snd] in *. apply wp_ret.
  destruct stop; [apply wp_ret; by right|].
  apply wp_bind, wp_gets. cbn [id]. pose proof (Hgeo _ _ _ HI3) as Hg3.
  assert (u32 (at_ i + ts_sec_size d3) = at_ (S i)) as Et.
  { unfold at_, ts_sec_size. rewrite Hg3.
    destruct (ring_next _ Hg (Z.of_nat i) 0 ltac:(lia) ltac:(lia)) as (_ & _ & ->). lia. }
  assert (ts_sec_size d3 = sec_size g) as Es by (unfold ts_sec_size; by rewrite Hg3).
  pose proof (ts_next_sector_addr d3 y (Z.of_nat i) (Z.of_nat (S i))) as En.
  rewrite Es, Hg3 in En. specialize (En Hg Ha2 ltac:(lia) ltac:(lia)). fold (at_ (S i)) in En.
  pose proof (ts_index_not_failed d3 (Z.of_nat (S i))) as Ef. rewrite Es, Hg3 in Ef. fold (at_ (S i)) in Ef.
  rewrite Et, En. destruct (Z.ltb_spec (Z.of_nat (S i)) (sector_count g)).
  - unfold next_index. rewrite (proj2 (Z.ltb_lt _ _)) by lia.
    replace (Z.of_nat i + 1) with (Z.of_nat (S i)) by lia. fold (at_ (S i)). rewrite Ef by (done || lia).
    apply wp_ret. split.
    + exists (S i). split; [lia|]. done.
    + unfold at_. destruct Hg. rewrite !Z.div_mul by lia. lia.
  - rewrite Z.eqb_refl. apply wp_ret. cbn [snd]. left. by replace N with (S i) by lia.
Qed.

(** The same when the callback does not stop. *)
Lemma wp_all_sectors {A} g (Inv : nat -> fdb_tsdb W -> A -> Prop) (P : nat -> tsdb_sec_info -> Prop)
    (cb : tsdb_sec_info -> A -> M (fdb_tsdb W) (bool * A)) traversal s arg d :
  geom_ok g -> let N := Z.to_nat (sector_count g) in
  let at_ i := Z.of_nat i * sec_size g in
  (forall i d arg, Inv i d arg -> geo (parent d) = g) ->
  (forall i d arg x t, (i < N)%nat -> Inv i d arg ->
     wp (read_sector_info (at_ i) x t) (fun r d' => Inv i d' arg /\ addr (snd r) = at_ i /\
       (t = traversal -> P i (snd r))) d) ->
  (forall i d arg x, (i < N)%nat -> Inv i d arg -> addr x = at_ i -> P i x ->
     wp (cb x arg) (fun c d' => fst c = false /\ Inv (S i) d' (snd c)) d) ->
  Inv 0%nat d arg -> addr s = 0 ->
  wp (sector_iterator s FDB_SECTOR_STORE_UNUSED arg (Some cb) traversal)
     (fun r d' => Inv N d' (snd r)) d.
Proof.
  intros Hg N at_ Hgeo Hread Hcb H0 Hs. eapply wp_mono.
  - apply (wp_sectors_until g Inv (fun _ _ => False) P cb); [done..| |done|done].
    intros i d1 arg1 x Hi HI Ha HP. eapply wp_mono; [by apply Hcb|]. intros c d2 [-> H]. exact H.
  - by intros r d1 [H|[]].
Qed.

(** ** The medium in the order of the addresses *)

(** The position in the ring of the sector with index [i]. *)
Definition ring_pos (g : geom) (o : Z) (i : nat) : nat := Z.to_nat ((Z.of_nat i - o) mod sector_count g).

Lemma ring_pos_addr g o i :
  geom_ok g -> (i < Z.to_nat (sector_count g))%nat ->
  (ring_pos g o i < Z.to_nat (sector_count g))%nat /\
  ring_addr g o (Z.of_nat (ring_pos g o i)) = Z.of_nat i * sec_size g.
Proof.
  intros Hg Hi. pose proof (sector_count_two _ Hg). unfold ring_pos, ring_addr.
  pose proof (Z.mod_pos_bound (Z.of_nat i - o) (sector_count g) ltac:(lia)). split; [lia|].
  rewrite Z2Nat.id by lia. rewrite Zplus_mod_idemp_r. replace (o + (Z.of_nat i - o)) with (Z.of_nat i) by lia.
  by rewrite Z.mod_small by lia.
Qed.

Lemma ring_pos_inj g o i j :
  geom_ok g -> (i < Z.to_nat (sector_count g))%nat -> (j < Z.to_nat (sector_count g))%nat ->
  ring_pos g o i = ring_pos g o j -> i = j.
Proof.
  intros Hg Hi Hj E. destruct (ring_pos_addr g o i Hg Hi) as [_ Ei]. destruct (ring_pos_addr g o j Hg Hj) as [_ Ej].
  rewrite E, Ej in Ei. destruct Hg. nia.
Qed.

(** The sectors are used in the order of their addresses the first time
    round; afterwards there are no empty sectors behind the current one. *)
Definition in_order (o : Z) (c : nat) (secs : list sector_state) : Prop := o = 0 \/ S c = length secs.

(** The index of the current sector. *)
Definition cur_index (g : geom) (o : Z) (c : nat) : nat := Z.to_nat ((o + Z.of_nat c) mod sector_count g).

Lemma cur_index_pos g m o c secs :
  ring_at g m o secs -> (c < length secs)%nat ->
  (cur_index g o c < Z.to_nat (sector_count g))%nat /\ ring_pos g o (cur_index g o c) = c /\
  Z.of_nat (cur_index g o c) * sec_size g = ring_addr g o (Z.of_nat c).
Proof.
  intros [Hg Hl _ Hn Ho _] Hc. pose proof (sector_count_two _ Hg). unfold cur_index, ring_pos, ring_addr.
  pose proof (Z.mod_pos_bound (o + Z.of_nat c) (sector_count g) ltac:(lia)). rewrite !Z2Nat.id by lia.
  split; [lia|]. split; [|done].
  rewrite Zminus_mod_idemp_l. replace (o + Z.of_nat c - o) with (Z.of_nat c) by lia. rewrite Z.mod_small by lia. lia.
Qed.

(** The states of the sectors in the order of their addresses. *)
Lemma scan_status g m o c secs i s :
  ring_at g m o secs -> ring_shape secs c -> in_order o c secs ->
  (i < Z.to_nat (sector_count g))%nat -> secs !! ring_pos g o i = Some s ->
  ((i < cur_index g o c)%nat -> ss_status s = FDB_SECTOR_STORE_FULL) /\
  ((cur_index g o c < i)%nat ->
     ss_status s = if decide (S c = length secs) then FDB_SECTOR_STORE_FULL else FDB_SECTOR_STORE_EMPTY).
Proof.
  intros H Hs Hio Hi Hk. pose proof (ra_geom _ _ _ _ H) as Hg. pose proof (ra_count _ _ _ _ H) as Hn.
  destruct (rs_cur _ _ Hs) as (sc & Hc & _). apply lookup_lt_Some in Hc.
  destruct (cur_index_pos g m o c secs H Hc) as (Hic & Hpc & _).
  pose proof (lookup_lt_Some _ _ _ Hk) as Hlt.
  assert (i <> cur_index g o c -> ring_pos g o i <> c) as Hne
    by (intros Hne E; apply Hne; rewrite <- Hpc in E; by apply (ring_pos_inj g o)).
  destruct (decide (S c = length secs)) as [E|E].
  - split; intros Hlt'; apply (rs_full _ _ Hs _ _ Hk); specialize (Hne ltac:(lia)); lia.
  - destruct Hio as [-> | ?]; [|done]. assert (cur_index g 0 c = c) as Ec.
    { unfold cur_index. rewrite Z.add_0_l, Z.mod_small by lia. lia. }
    assert (ring_pos g 0 i = i) as Ei by (unfold ring_pos; rewrite Z.sub_0_r, Z.mod_small by lia; lia).
    rewrite Ec, Ei in *. split; intros; [by apply (rs_full _ _ Hs i)|by apply (rs_empty _ _ Hs i)].
Qed.

(** ** Finding the current sector *)

Lemma tstores_read_hdr d m a st start l s0 t :
  ts_holds d m -> sector_in (geo (parent d)) a -> sector_at m a (ts_sec_size d) st start l ->
  tstores (read_sector_info a s0 t) d m
    (fun r => check_ok (snd r) = true /\ status (snd r) = st /\ addr (snd r) = a).
Proof.
  intros Hm Hs Hat. eapply tstores_mono; [by apply (tstores_read_sector d m a st start l)|].
  intros r [H1 H2].
  destruct (decide (st = FDB_SECTOR_STORE_USING)) as [E|E]; [destruct t|].
  - destruct (H1 E eq_refl) as [_ H]. by destruct H.
  - destruct (H2 (or_intror eq_refl)) as (_ & H & _). by destruct H.
  - destruct (H2 (or_introl E)) as (_ & H & _). by destruct H.
Qed.

Lemma ring_at_sector g m o secs i :
  ring_at g m o secs -> (i < Z.to_nat (sector_count g))%nat -> sector_in g (Z.of_nat i * sec_size g).
Proof.
  intros H Hi. pose proof (ra_geom _ _ _ _ H) as Hg.
  destruct (sector_addr_range _ Hg (Z.of_nat i) ltac:(lia)) as (H1 & H2 & H3). by split; [|split|apply H].
Qed.

Section scan.
Context (g : geom) (m : list Z) (o : Z) (c : nat) (secs : list sector_state).
Context (Hring : ring_at g m o secs) (Hshape : ring_shape secs c) (Horder : in_order o c secs).
Notation ic := (cur_index g o c).
Notation at_ i := (Z.of_nat i * sec_size g).

(** The sector after which the oldest one is looked for. *)
Definition latest (arg : check_sec_hdr_cb_args) : Z := if 0 <? empty_num arg then empty_addr arg else at_ ic.

(** Before the turn of the [i]-th sector. *)
Record scanning (cf : geom * bool * bool * bool * Z * bool) (lt : Z) (i : nat) d
    (arg : check_sec_hdr_cb_args) : Prop := {
  sc_holds : ts_holds d m;
  sc_geo : geo (parent d) = g;
  sc_config : ts_config d = cf;
  sc_last : last_time d = lt;
  sc_before : (i <= ic)%nat -> addr (cur_sec d) = FDB_DATA_UNUSED /\ arg = CheckSecArgs false 0 0;
  sc_after : (ic < i)%nat ->
    addr (cur_sec d) = at_ ic /\ check_failed arg = false /\ 0 <= empty_num arg <= Z.of_nat i /\
    latest arg = if decide (S c = length secs) then at_ ic else at_ (i - 1)%nat;
}.

Lemma scanning_io cf lt i d arg j : scanning cf lt i d arg -> ts_holds (ts_io j d) m -> scanning cf lt i (ts_io j d) arg.
Proof. intros [H1 H2 H3 H4 H5 H6] Hj. by split. Qed.

(** One call of the callback. *)
Lemma wp_check_sec_hdr cf lt i d arg x s :
  (i < Z.to_nat (sector_count g))%nat -> scanning cf lt i d arg ->
  secs !! ring_pos g o i = Some s -> check_ok x = true -> status x = ss_status s -> addr x = at_ i ->
  wp (check_sec_hdr_cb x arg) (fun r d' => fst r = false /\ scanning cf lt (S i) d' (snd r)) d.
Proof.
  intros Hi [H1 H2 H3 H4 H5 H6] Hk Hok Hst Ha. pose proof (ra_geom _ _ _ _ Hring) as Hg.
  destruct (scan_status g m o c secs i s Hring Hshape Horder Hi Hk) as [Hlo Hhi].
  pose proof (sector_addr_range _ Hg (Z.of_nat i) ltac:(lia)) as (R1 & R2 & _).
  destruct Hg as [G1 G2 G3 G4].
  unfold check_sec_hdr_cb. apply wp_bind, wp_gets. rewrite Hok. cbn [negb]. rewrite Hst.
  destruct (Nat.lt_trichotomy i ic) as [Hlt|[E|Hgt]].
  - rewrite (Hlo Hlt). destruct (H5 ltac:(lia)) as [E1 E2]. apply wp_ret. split; [done|].
    split; try done; intros; lia.
  - destruct (H5 ltac:(lia)) as [E1 ->]. rewrite E1.
    assert (s = s /\ (ss_status s = FDB_SECTOR_STORE_EMPTY \/ ss_status s = FDB_SECTOR_STORE_USING)) as [_ Hcur].
    { split; [done|]. destruct (rs_cur _ _ Hshape) as (s' & Hc & Hst').
      destruct (cur_index_pos g m o c secs Hring (lookup_lt_Some _ _ _ Hc)) as (_ & Hpc & _).
      rewrite E, Hpc, Hc in Hk. by injection Hk as <-. }
    destruct Hcur as [-> | ->].
    + cbn [empty_num check_failed]. change (u64 (0 + 1)) with 1. rewrite !Z.eqb_refl. cbn [andb].
      apply wp_bind, wp_modify, wp_ret. split; [done|]. cbn [snd].
      split; try done; [intros; lia|]. intros _. cbn [cur_sec set_cur_sec]. rewrite Ha, E.
      split; [done|]. split; [done|]. split; [cbn [empty_num]; lia|].
      replace (S ic - 1)%nat with ic by lia. by destruct (decide _).
    + rewrite Z.eqb_refl. apply wp_bind, wp_modify, wp_ret. split; [done|]. cbn [snd].
      split; try done; [intros; lia|]. intros _. cbn [cur_sec set_cur_sec]. rewrite Ha, E.
      split; [done|]. split; [done|]. split; [cbn [empty_num]; lia|].
      replace (S ic - 1)%nat with ic by lia. by destruct (decide _).
  - destruct (H6 ltac:(lia)) as (E1 & E2 & E3 & E4). rewrite (Hhi Hgt). destruct (decide (S c = length secs)) as [E|E].
    + apply wp_ret. split; [done|]. split; try done; [intros; lia|]. intros _. cbn [snd].
      split_and!; try done; [lia..|]. by rewrite decide_True.
    + cbn [empty_num]. rewrite E1.
      assert (at_ ic < max_size g) as Hc.
      { assert (Z.of_nat ic * sec_size g <= Z.of_nat i * sec_size g) by nia. lia. }
      rewrite (proj2 (Z.eqb_neq (at_ ic) _)), andb_false_r by (unfold FDB_DATA_UNUSED; lia).
      apply wp_bind, wp_ret, wp_ret. split; [done|]. split; try done; [intros; lia|]. intros _. cbn [snd check_failed empty_num].
      assert (Z.of_nat i < 4294967296) by nia. wrap_small.
      split_and!; try done; [lia..|]. rewrite decide_False by done. unfold latest. cbn [empty_num empty_addr].
      rewrite (proj2 (Z.ltb_lt _ _)) by lia. rewrite Ha. do 2 f_equal. lia.
Qed.

(** The whole iteration. *)
Lemma wp_scan cf lt d :
  scanning cf lt 0 d (CheckSecArgs false 0 0) ->
  wp (sector_iterator (sec_set_addr 0 indet_sec) FDB_SECTOR_STORE_UNUSED (CheckSecArgs false 0 0)
        (Some check_sec_hdr_cb) true)
     (fun r d' => scanning cf lt (Z.to_nat (sector_count g)) d' (snd r)) d.
Proof.
  intros H0. pose proof (ra_geom _ _ _ _ Hring) as Hg. pose proof (ra_count _ _ _ _ Hring) as Hn.
  apply (wp_all_sectors g (scanning cf lt) (fun i x => forall s, secs !! ring_pos g o i = Some s ->
    check_ok x = true /\ status x = ss_status s)); try done.
  - intros i d1 arg H. by apply H.
  - intros i d1 arg x t Hi H. destruct (ring_pos_addr g o i Hg Hi) as [Hp Ep].
    destruct (lookup_lt_is_Some_2 secs (ring_pos g o i) ltac:(lia)) as [s Hs].
    pose proof (ra_secs _ _ _ _ Hring _ _ Hs) as Hat. rewrite Ep in Hat.
    pose proof (sc_geo _ _ _ _ _ H) as Hgeo.
    eapply wp_tstores.
    { apply (tstores_read_hdr d1 m _ (ss_status s) (ss_start s) (ss_log s) x t); [apply H| |].
      - rewrite Hgeo. by apply (ring_at_sector g m o secs).
      - unfold ts_sec_size. by rewrite Hgeo. }
    intros r j (Hok & Hst & Ha) Hj. split; [by apply scanning_io|]. split; [done|].
    intros _ s' Hs'. rewrite Hs in Hs'. by injection Hs' as <-.
  - intros i d1 arg x Hi H Ha HP. destruct (ring_pos_addr g o i Hg Hi) as [Hp _].
    destruct (lookup_lt_is_Some_2 secs (ring_pos g o i) ltac:(lia)) as [s Hs].
    destruct (HP s Hs). by apply (wp_check_sec_hdr cf lt i d1 arg x s).
Qed.

(** The oldest sector is found again. *)
Lemma wp_set_oldest cf lt d arg Q :
  scanning cf lt (Z.to_nat (sector_count g)) d arg -> rollover d = true ->
  (forall d', d' = set_oldest (ring_addr g o 0) d -> Q tt d') ->
  wp (set_oldest_from arg) Q d.
Proof.
  intros H Hroll HQ. pose proof (ra_geom _ _ _ _ Hring) as Hg. pose proof (sector_count_two _ Hg) as Hn2.
  pose proof (ra_count _ _ _ _ Hring) as Hn. pose proof (ra_first _ _ _ _ Hring) as Ho.
  destruct (rs_cur _ _ Hshape) as (sc & Hc & _). apply lookup_lt_Some in Hc.
  destruct (cur_index_pos g m o c secs Hring Hc) as (Hic & _ & _).
  destruct (sc_after _ _ _ _ _ H Hic) as (Ea & _ & _ & El). pose proof (sc_geo _ _ _ _ _ H) as Hgeo.
  unfold set_oldest_from. apply wp_bind, wp_gets, wp_bind, wp_gets, wp_bind, wp_gets, wp_bind, wp_gets.
  apply wp_bind. rewrite Hroll, Ea.
  assert (forall k, (k < Z.to_nat (sector_count g))%nat -> (Z.of_nat k + 1) mod sector_count g = o ->
    (if max_size g <=? u32 (at_ k + sec_size g) then 0 else u32 (at_ k + sec_size g)) = ring_addr g o 0) as Hnext.
  { intros k Hk Ek. destruct (ring_next g Hg (Z.of_nat k) 0 ltac:(lia) ltac:(lia)) as (_ & E2 & E3).
    unfold ring_addr. rewrite Z.add_0_r. rewrite <- Ek. destruct Hg.
    rewrite (Z.leb_antisym (u32 (at_ k + sec_size g))), E2. rewrite E3.
    destruct (Z.ltb_spec (Z.of_nat k + 1) (sector_count g)); cbn [negb].
    - by rewrite !Z.mod_small by (rewrite ?Z.mod_small; lia).
    - replace (Z.of_nat k + 1) with (sector_count g) by lia. rewrite Z.mod_same by lia. by rewrite Z.mod_0_l by lia. }
  assert (exists k, (k < Z.to_nat (sector_count g))%nat /\ latest arg = at_ k /\ (Z.of_nat k + 1) mod sector_count g = o)
    as (k & Hk & Ek & Ek').
  { rewrite El. destruct (decide (S c = length secs)) as [E|E].
    - exists ic. split; [done|]. split; [done|]. unfold cur_index.
      pose proof (Z.mod_pos_bound (o + Z.of_nat c) (sector_count g) ltac:(lia)).
      rewrite Z2Nat.id by lia. rewrite Zplus_mod_idemp_l.
      replace (o + Z.of_nat c + 1) with (o + 1 * sector_count g) by lia. rewrite Z.mod_add by lia.
      by apply Z.mod_small.
    - destruct Horder as [-> | ?]; [|done]. eexists. split; [|split; [done|]]; [lia|].
      replace (Z.of_nat (Z.to_nat (sector_count g) - 1) + 1) with (sector_count g) by lia. by apply Z.mod_same; lia. }
  unfold latest in Ek. unfold ts_sec_size, ts_max_size. rewrite Hgeo.
  assert (wp (if 0 <? empty_num arg then mret (empty_addr arg) else mret (at_ ic))
    (fun a (d' : fdb_tsdb W) => d' = d /\ a = at_ k) d) as Hl
    by (rewrite <- Ek; by destruct (0 <? empty_num arg)).
  eapply wp_mono; [exact Hl|]. intros a d' [-> ->]. apply wp_modify, HQ. f_equal. by apply Hnext.
Qed.

(** The last timestamp is that of the last entry, if there is one. *)
Definition loaded_time (t : Z) : Z := from_option e_time t (last (entries secs)).

Lemma loaded_time_app t l k : entries secs = l ++ k -> k <> [] -> loaded_time t = last_entry_time k.
Proof.
  intros E Hk. unfold loaded_time, last_entry_time. rewrite E, last_app. destruct (last k) eqn:El; [done|].
  by apply last_None in El.
Qed.

Lemma entries_to_cur s : secs !! c = Some s -> entries secs = entries (take c secs) ++ ss_log s.
Proof.
  intros Hc. apply entries_until; [done|]. intros k x Hx Hk.
  by apply (sa_empty _ _ _ _ _ _ (ra_secs _ _ _ _ Hring k x Hx)), (rs_empty _ _ Hshape k).
Qed.

(** The sector before the current one. *)
Lemma ring_addr_before k :
  geom_ok g -> let a := ring_addr g o (k + 1) in
  (if a =? 0 then u32 (max_size g - sec_size g) else u32 (a - sec_size g)) = ring_addr g o k.
Proof.
  intros Hg. unfold ring_addr. cbv zeta. pose proof (max_size_eq g Hg) as Hmax.
  pose proof (sector_count_two g Hg). pose proof (Z.mod_pos_bound (o + k) (sector_count g) ltac:(lia)) as Hb.
  rewrite <- next_index_mod by lia. unfold next_index. destruct Hg.
  destruct (Z.ltb_spec ((o + k) mod sector_count g + 1) (sector_count g)).
  - rewrite (proj2 (Z.eqb_neq _ _)) by nia.
    assert (((o + k) mod sector_count g + 1) * sec_size g - sec_size g = (o + k) mod sector_count g * sec_size g) as -> by lia.
    apply Z.mod_small. nia.
  - rewrite Z.mul_0_l, Z.eqb_refl. wrap_small. rewrite Hmax. nia.
Qed.

Lemma ring_in k : (k < length secs)%nat -> sector_in g (ring_addr g o (Z.of_nat k)).
Proof.
  intros Hk. destruct (cur_index_pos g m o k secs Hring Hk) as (Hi & _ & <-). by apply (ring_at_sector g m o secs).
Qed.

(** With the current sector's structure the state is complete. *)
Lemma loaded_state d i x t s :
  geo (parent d) = g -> oldest_addr (parent d) = ring_addr g o 0 -> secs !! c = Some s ->
  (forall k s, secs !! k = Some s -> ss_status s = FDB_SECTOR_STORE_USING -> ss_log s <> []) ->
  sec_log x (ring_addr g o (Z.of_nat c)) (sec_size g) (ss_status s) (ss_start s) (ss_log s) ->
  ts_holds (ts_io i d) m -> (ss_log s <> [] -> t = last_entry_time (ss_log s)) ->
  ts_state (set_last_time t (set_cur_sec x (ts_io i d))) m o c secs.
Proof.
  intros Hgeo Ho Hc Hne Hx Hi Ht. destruct Hring as [A1 A2 A3 A4 A5 A6]. split; unfold ts_sec_size; cbn; rewrite ?Hgeo; try done.
  - split; unfold ts_sec_size; cbn; rewrite ?Hgeo; try done. intros k y Hy. split; [by apply A6|].
    intros Hu. split; [by apply (Hne k)|]. assert (k = c) as ->.
    { destruct (Nat.lt_trichotomy k c) as [|[|]]; [|done|].
      - by rewrite (rs_full _ _ Hshape k y) in Hu.
      - by rewrite (rs_empty _ _ Hshape k y) in Hu. }
    rewrite Hc in Hy. injection Hy as <-. by rewrite <- Hu.
  - intros y Hy. rewrite Hc in Hy. by injection Hy as <-.
  - intros y Hy. rewrite Hc in Hy. by injection Hy as <-.
Qed.

(** When the current sector is empty, the last entry is in the one before. *)
Lemma loaded_time_before s p t :
  secs !! c = Some s -> ss_log s = [] -> (0 < c)%nat -> secs !! (c - 1)%nat = Some p ->
  ss_status p = FDB_SECTOR_STORE_FULL -> loaded_time t = last_entry_time (ss_log p).
Proof.
  intros Hc El Hc0 Hp Hpf. pose proof (ra_secs _ _ _ _ Hring _ _ Hp) as Hpat. rewrite Hpf in Hpat.
  apply loaded_time_app with (entries (take (c - 1) secs)); [|by apply (sa_full _ _ _ _ _ _ Hpat)].
  rewrite (entries_to_cur s Hc), El, app_nil_r. replace c with (S (c - 1)) at 1 by lia. rewrite (take_S_r _ _ _ Hp), entries_app.
  unfold entries at 2. cbn. by rewrite app_nil_r.
Qed.

Lemma wp_load_last d Q :
  ts_holds d m -> geo (parent d) = g -> addr (cur_sec d) = ring_addr g o (Z.of_nat c) ->
  oldest_addr (parent d) = ring_addr g o 0 ->
  (forall k s, secs !! k = Some s -> ss_status s = FDB_SECTOR_STORE_USING -> ss_log s <> []) ->
  (forall d', ts_state d' m o c secs -> ts_config d' = ts_config d ->
     last_time d' = loaded_time (last_time d) -> Q tt d') ->
  wp load_last_time Q d.
Proof.
  intros Hm Hgeo Ha Ho Hne HQ. destruct (rs_cur _ _ Hshape) as (s & Hc & Hst).
  pose proof (ra_geom _ _ _ _ Hring) as Hg. pose proof (ra_secs _ _ _ _ Hring c s Hc) as Hat.
  pose proof (lookup_lt_Some _ _ _ Hc) as Hlc. pose proof (ra_count _ _ _ _ Hring) as Hcount.
  pose proof (fun i x t => loaded_state d i x t s Hgeo Ho Hc Hne) as Hstate.
  unfold load_last_time. apply wp_bind, wp_gets, wp_bind. eapply wp_tstores.
  { apply (tstores_read_sector d m (addr (cur_sec d)) (ss_status s) (ss_start s) (ss_log s) _ true Hm);
      unfold ts_sec_size; rewrite Hgeo, Ha; [by apply ring_in|done]. }
  intros [e x] i [H1 H2] Hi. cbn [fst snd] in *. apply wp_bind, wp_modify, wp_bind, wp_gets.
  unfold ts_sec_size in H1, H2. rewrite Hgeo, Ha in H1, H2.
  destruct Hst as [Hst|Hst]; rewrite Hst in *.
  - (* empty *)
    destruct (sa_empty _ _ _ _ _ _ Hat eq_refl) as [El _]. destruct H2 as (_ & Hx & _); [by left|]. rewrite El in Hstate.
    rewrite (sl_status _ _ _ _ _ _ Hx), (sl_addr _ _ _ _ _ _ Hx), decide_False, bool_decide_eq_true_2 by done. cbn [andb].
    change (db_oldest_addr (set_cur_sec x (ts_io i d))) with (oldest_addr (parent d)). rewrite Ho.
    destruct (decide (c = 0%nat)) as [Ec|Hc0].
    + replace (Z.of_nat c) with 0 by lia. rewrite Z.eqb_refl. cbn [negb]. apply wp_ret.
      apply HQ; [by apply (Hstate i x (last_time d))|done|]. unfold loaded_time. by rewrite (entries_to_cur s Hc), El, app_nil_r, Ec.
    + rewrite (proj2 (Z.eqb_neq _ _)) by (destruct (ring_addr_disjoint g o 0 (Z.of_nat c) Hg); destruct Hg; lia).
      cbn [negb]. apply wp_bind, wp_gets, wp_bind, wp_gets.
      unfold ts_sec_size, ts_max_size. cbn [set_cur_sec parent]. change (geo (parent (ts_io i d))) with (geo (parent d)). rewrite Hgeo.
      replace (Z.of_nat c) with (Z.of_nat (c - 1) + 1) by lia. rewrite (ring_addr_before _ Hg).
      destruct (lookup_lt_is_Some_2 secs (c - 1) ltac:(lia)) as [p Hp].
      assert (ss_status p = FDB_SECTOR_STORE_FULL) as Hpf by (apply (rs_full _ _ Hshape (c - 1)); [done|lia]).
      pose proof (ra_secs _ _ _ _ Hring _ _ Hp) as Hpat. rewrite Hpf in Hpat. apply wp_bind. eapply wp_tstores.
      { apply (tstores_read_sector (set_cur_sec x (ts_io i d)) m _ FDB_SECTOR_STORE_FULL (ss_start p) (ss_log p) _ false Hi);
          unfold ts_sec_size; cbn [set_cur_sec parent]; change (geo (parent (ts_io i d))) with (geo (parent d));
          rewrite Hgeo; [apply ring_in; lia|done]. }
      intros r j [_ Hr] Hj. destruct (Hr (or_intror eq_refl)) as (_ & _ & Hend). destruct (Hend eq_refl) as [-> _].
      apply wp_modify. change (ts_io j (set_cur_sec x (ts_io i d))) with (set_cur_sec x (ts_io j d)).
      apply HQ; [by apply Hstate|done|]. symmetry. by apply (loaded_time_before s); [| |lia| |].
  - (* in use *)
    destruct (H1 eq_refl eq_refl) as [_ Hx]. destruct (sl_end _ _ _ _ _ _ Hx (Hne c s Hc Hst)) as [Et _].
    rewrite (sl_status _ _ _ _ _ _ Hx), decide_True by done. rewrite Et. apply wp_modify.
    apply HQ; [by apply Hstate|done|]. symmetry.
    by apply loaded_time_app with (entries (take c secs)); [apply entries_to_cur|apply (Hne c)].
Qed.
End scan.

(** ** Initialisation *)

(** The calls of the user's lock function, with one more if it is set. *)
Definition locked_trace (db : fdb_db W) : list lock_event :=
  if lock db then lock_trace db ++ [LockCall] else lock_trace db.

(** The beginning of [fdb_tsdb_init], up to the iteration over the sectors. *)
Lemma wp_tsdb_init nm path u max d db m Q :
  opens nm path FDB_DB_TYPE_TS u (parent d) db m -> max < sec_size (geo db) ->
  (forall d1, ts_holds d1 m -> geo (parent d1) = geo db ->
     max_len d1 = max -> rollover d1 = true -> last_time d1 = last_time d ->
     not_formatable (parent d1) = not_formatable (parent d) -> addr (cur_sec d1) = FDB_DATA_UNUSED ->
     init_ok (parent d1) = false -> lock_trace (parent d1) = locked_trace (parent d) ->
     wp (r ← sector_iterator (sec_set_addr 0 indet_sec) FDB_SECTOR_STORE_UNUSED (CheckSecArgs false 0 0)
               (Some check_sec_hdr_cb) true;
         let arg := snd r in
         not_fmt ← gets (fun d => not_formatable (parent d));
         if check_failed arg && not_fmt then mret FDB_READ_ERR
         else (if check_failed arg then tsl_format_all else set_oldest_from arg);;
              load_last_time;; up db_unlock;; mret FDB_NO_ERR)
        (fun r d' => wp (up (_fdb_init_finish r)) (fun _ => Q r) d') d1) ->
  wp (fdb_tsdb_init nm path true max u) Q d.
Proof.
  intros Hmt Hmax HQ. unfold fdb_tsdb_init. apply wp_bind, wp_assert; [done|].
  apply wp_bind, wp_zoom. eapply wp_opens; [exact Hmt|]. rewrite decide_True by done.
  apply wp_bind, wp_bind, wp_zoom, wp_modify. pose proof (os_holds _ _ _ _ _ _ _ Hmt) as Hm.
  pose proof (os_user _ _ _ _ _ _ _ Hmt) as Hu. unfold user_part in Hu. rewrite (os_closed _ _ _ _ _ _ _ Hmt) in Hu.
  injection Hu as Hnf0 Hi0 Hl0 Ht0. set (p := if lock _ then _ else _).
  assert ((geo p, dbio p, not_formatable p, init_ok p, lock_trace p) =
          (geo db, dbio db, not_formatable (parent d), false, locked_trace (parent d))) as Hp.
  { unfold p, locked_trace. cbn [parent set_parent]. rewrite <- Hnf0, <- Hi0, <- Hl0, <- Ht0. by destruct (lock db). }
  injection Hp as Hg Hi Hnf Hini Htr. assert (db_holds p m) as Hpm by (unfold db_holds; by rewrite Hg, Hi).
  clearbody p. apply wp_bind, wp_modify, wp_bind, wp_gets, wp_bind.
  set (d2 := set_cur_sec _ _). assert (ts_sec_size d2 = sec_size (geo db)) as Es.
  { unfold ts_sec_size. change (geo (parent d2)) with (geo p). by rewrite Hg. }
  apply wp_assert; [by apply Z.ltb_lt; rewrite Es|].
  eapply wp_mono; [apply (HQ d2); done|]. intros r d' Hr. apply wp_bind. eapply wp_mono; [exact Hr|].
  intros ? d'' HQ'. by apply wp_ret.
Qed.

(** The iteration over the sectors finds everything again. *)
Lemma wp_init_recovers nm path u max d db m o c secs :
  let g := geo db in
  opens nm path FDB_DB_TYPE_TS u (parent d) db m -> max < sec_size g ->
  ring_at g m o secs -> ring_shape secs c -> in_order o c secs ->
  (forall k s, secs !! k = Some s -> ss_status s = FDB_SECTOR_STORE_USING -> ss_log s <> []) ->
  wp (fdb_tsdb_init nm path true max u) (fun r d' =>
    r = FDB_NO_ERR /\ ts_state d' m o c secs /\ last_time d' = loaded_time secs (last_time d) /\
    geo (parent d') = g /\ init_ok (parent d') = true /\ max_len d' = max /\ rollover d' = true) d.
Proof.
  intros g Hmt Hmax Hring Hshape Hio Hne. eapply wp_tsdb_init; [exact Hmt|done|].
  intros d1 Hm1 Hg1 Hml Hroll Hl1 _ Ha _ _. apply wp_bind. eapply wp_mono.
  { apply (wp_scan g m o c secs Hring Hshape Hio (ts_config d1) (last_time d1)). split; try done; intros; lia. }
  intros [x arg] d2 H2. cbn [snd] in *.
  destruct (rs_cur _ _ Hshape) as (sc & Hc & _). apply lookup_lt_Some in Hc.
  destruct (cur_index_pos g m o c secs Hring Hc) as (Hic & _ & Ec).
  destruct (sc_after _ _ _ _ _ _ _ _ _ _ H2 Hic) as (Ea & Ef & _).
  pose proof (sc_config _ _ _ _ _ _ _ _ _ _ H2) as Hcf. pose proof (sc_geo _ _ _ _ _ _ _ _ _ _ H2) as Hg2.
  assert (max_len d2 = max /\ rollover d2 = true) as [Hml2 Hroll2].
  { unfold ts_config in Hcf. injection Hcf as _ _ _ _ -> ->. done. }
  apply wp_bind, wp_gets. rewrite Ef. cbn [andb].
  apply wp_bind. apply (wp_set_oldest g m o c secs Hring Hshape Hio _ _ _ arg _ H2 Hroll2). intros d3 ->.
  apply wp_bind. apply (wp_load_last g m o c secs Hring Hshape); try done.
  { exact (sc_holds _ _ _ _ _ _ _ _ _ _ H2). }
  { by rewrite <- Ec. }
  intros d4 H4 Hcf4 Hl4. apply wp_bind. apply (locked_parent _ _ m); [apply H4|].
  intros d5 H5 Hcf5 Hc5 Ho5 Hl5. apply wp_ret. unfold _fdb_init_finish. rewrite decide_True by done.
  assert (ts_config d5 = ts_config (set_oldest (ring_addr g o 0) d2)) as Hcf' by congruence.
  unfold ts_config in Hcf'. injection Hcf' as Hg5 _ _ _ Hml5 Hroll5.
  apply wp_zoom, wp_modify. split; [done|]. split; [|split; [|split_and!]].
  - eapply ts_state_geo; [exact H4|exact H5|exact (ts_config_geo _ _ Hcf5)|done..].
  - rewrite <- Hl1. cbn [last_time set_parent]. rewrite Hl5, Hl4. cbn [last_time set_oldest set_parent].
    by rewrite (sc_last _ _ _ _ _ _ _ _ _ _ H2).
  - rewrite <- Hg2. exact Hg5.
  - done.
  - by rewrite <- Hml2, <- Hml5.
  - by rewrite <- Hroll2, <- Hroll5.
Qed.

(** C8: Mounting recovers the database from its medium alone: on a medium that
    holds the sectors [secs], written in the order of the ring, [fdb_tsdb_init]
    finds the current sector, the oldest sector and the last timestamp again,
    whatever the structure contained before. *)
Theorem init_recovers nm path u max d db m o c secs :
  let g := geo db in
  opens nm path FDB_DB_TYPE_TS u (parent d) db m -> max < sec_size g ->
  ring_at g m o secs -> ring_shape secs c -> in_order o c secs ->
  (forall k s, secs !! k = Some s -> ss_status s = FDB_SECTOR_STORE_USING -> ss_log s <> []) ->
  wp (fdb_tsdb_init nm path true max u) (fun r d' =>
    r = FDB_NO_ERR /\ ts_state d' m o c secs /\ last_time d' = loaded_time secs (last_time d) /\
    geo (parent d') = g /\ init_ok (parent d') = true /\ max_len d' = max /\ rollover d' = true) d.
Proof. exact (wp_init_recovers nm path u max d db m o c secs). Qed.
End init.
