(* ===== verification/TsFormat.v ===== *)
(** Time-series database: formatting.

    [tsl_format_all] makes the empty database out of any medium whose sectors
    can be read; [fdb_tsl_clean] is that, under the lock, and [fdb_tsdb_init]
    does it when it finds a medium that is not a database, unless it may not
    format. *)
From S2P Require Import Prelude FdbDef Status FlashIO FlashSpec Mount KvRing.
From S2P Require Import TsDef TsOps TsApi TsSpec TsRead TsAppend TsIter TsRing TsLog TsStore TsDb TsInit.

Section format_all.
Context {W} {ST : Storage W} {SL : StorageLaws W} {IN : Indeterminate} {CL : Clock W}.
Implicit Type d : fdb_tsdb W.

(** ** Formatting the sectors *)

(** A sector that can be read: one without the magic word, or a sector of a
    database. *)
Definition blank (m : list Z) (a : Z) : Prop :=
  le_value (slice m (a + SECTOR_MAGIC_OFFSET) 4) <> SECTOR_MAGIC_WORD.
Definition legible (m : list Z) (a n : Z) : Prop := blank m a \/ exists st start l, sector_at m a n st start l.

Lemma legible_frame m m' a n :
  same_bytes m m' a n -> SECTOR_HDR_DATA_SIZE <= n -> legible m a n -> legible m' a n.
Proof.
  intros Hs Hn [Hb|(st & start & l & Hat)].
  - left. unfold blank. hdr_unfold. by rewrite Hs by lia.
  - right. exists st, start, l. by apply (sector_at_frame m).
Qed.

Lemma tstores_read_blank d m a x t :
  ts_holds d m -> sector_in (geo (parent d)) a -> blank m a ->
  tstores (read_sector_info a x t) d m (fun r => check_ok (snd r) = false /\ addr (snd r) = a).
Proof.
  intros Hm Hs Hb. destruct (Hs) as [Hg (Ha & _ & He) _]. destruct Hg.
  unfold read_sector_info. apply tstores_gets. eapply tstores_bind.
  { apply tstores_read; [exact Hm|]. rewrite len_indet_buf by (unfold SECTOR_HDR_DATA_SIZE; lia).
    eapply sector_in_part; [exact Hs|unfold SECTOR_HDR_DATA_SIZE; lia..]. }
  cbn beta. rewrite len_indet_buf by (unfold SECTOR_HDR_DATA_SIZE; lia).
  intros [err b] j [-> _] Hj. cbn [snd]. rewrite (proj2 (Z.eqb_neq _ _)).
  - by apply tstores_ret.
  - unfold dec_sector_hdr, le32_at. cbn [sh_magic]. rewrite slice_slice by (hdr_unfold; lia). exact Hb.
Qed.

Lemma tstores_read_legible d m a x t :
  ts_holds d m -> sector_in (geo (parent d)) a -> legible m a (ts_sec_size d) ->
  tstores (read_sector_info a x t) d m (fun r => addr (snd r) = a).
Proof.
  intros Hm Hs [Hb|(st & start & l & Hat)].
  - eapply tstores_mono; [by apply tstores_read_blank|]. by intros r [_ H].
  - eapply tstores_mono; [by apply (tstores_read_hdr d m a st start l)|]. by intros r (_ & _ & H).
Qed.

(** The empty database. *)
Definition empty_secs (g : geom) : list sector_state :=
  replicate (Z.to_nat (sector_count g)) (SecState FDB_SECTOR_STORE_EMPTY 0 []).

Lemma empty_secs_shape g : geom_ok g -> ring_shape (empty_secs g) 0.
Proof.
  intros Hg. pose proof (sector_count_two _ Hg). split.
  - intros; lia.
  - eexists. split; [apply lookup_replicate_2; lia|by left].
  - intros k s Hk _. apply lookup_replicate_1 in Hk as [-> _]. done.
Qed.

Lemma entries_empty g : entries (empty_secs g) = [].
Proof. unfold entries, empty_secs. induction (Z.to_nat (sector_count g)); [done|]. done. Qed.

Section format.
Context (g : geom) (Hg : geom_ok g) (Hmult : sec_size g mod LOG_IDX_DATA_SIZE = 0).
Notation at_ i := (Z.of_nat i * sec_size g).

Lemma sector_in_at i : (i < Z.to_nat (sector_count g))%nat -> sector_in g (at_ i).
Proof. intros Hi. by destruct (sector_addr_range _ Hg (Z.of_nat i) ltac:(lia)) as (H1 & H2 & H3). Qed.

(** The first [i] sectors are formatted. *)
Record formatting (cf : geom * bool * bool * bool * Z * bool) (i : nat) d (arg : unit) : Prop := {
  fo_geo : geo (parent d) = g;
  fo_config : ts_config d = cf;
  fo_medium : exists m, ts_holds d m /\
    (forall j, (j < i)%nat -> (j < Z.to_nat (sector_count g))%nat ->
       sector_at m (at_ j) (sec_size g) FDB_SECTOR_STORE_EMPTY 0 []) /\
    (forall j, (j < Z.to_nat (sector_count g))%nat -> legible m (at_ j) (sec_size g));
}.

Lemma wp_format_one cf i d x :
  (i < Z.to_nat (sector_count g))%nat -> formatting cf i d tt -> addr x = at_ i ->
  wp (format_all_cb x tt) (fun r d' => fst r = false /\ formatting cf (S i) d' (snd r)) d.
Proof.
  intros Hi [H1 H2 (m & Hm & Hdone & Hleg)] Ha. unfold format_all_cb. apply wp_bind. rewrite Ha.
  pose proof (sector_in_at i Hi) as Hs. pose proof (holds_len _ _ _ Hm) as Hlen. rewrite H1 in Hlen.
  pose proof (sec_size_hdr g Hg) as Hhdr. destruct (Hs) as [_ (R1 & _ & R2) _].
  eapply wp_tstores; [apply (tstores_format d m); [done|by rewrite H1]|]. intros r j _ Hj.
  unfold ts_sec_size in Hj. rewrite H1 in Hj. apply wp_ret. split; [done|]. split; [done|done|].
  eexists. split; [exact Hj|].
  pose proof (sector_at_formatted m (at_ i) (sec_size g) 0 ltac:(lia) ltac:(lia) Hhdr) as Hnew.
  assert (forall k, (k < Z.to_nat (sector_count g))%nat -> k <> i ->
    same_bytes m (formatted m (at_ i) (sec_size g)) (at_ k) (sec_size g)) as Hfr.
  { intros k Hk Hne b n Hb Hn Hbn. destruct Hg. apply formatted_other; try lia.
    destruct (Nat.lt_gt_cases k i) as [Hc _]. destruct (Hc Hne); [left|right]; nia. }
  split.
  - intros k Hk Hkn. destruct (decide (k = i)) as [->|]; [done|].
    apply (sector_at_frame m); [by apply Hfr|done|]. apply Hdone; [lia|done].
  - intros k Hkn. destruct (decide (k = i)) as [->|]; [right; eauto|].
    apply (legible_frame m); [by apply Hfr|done|]. by apply Hleg.
Qed.

Lemma wp_format_all d m Q :
  geo (parent d) = g -> ts_holds d m ->
  (forall i, (i < Z.to_nat (sector_count g))%nat -> legible m (at_ i) (sec_size g)) ->
  (forall d' m', ts_state d' m' 0 0 (empty_secs g) -> ts_config d' = ts_config d -> last_time d' = 0 -> Q tt d') ->
  wp tsl_format_all Q d.
Proof.
  intros Hgeo Hm Hleg HQ. pose proof (sector_count_two _ Hg) as Hn. unfold tsl_format_all. apply wp_bind.
  eapply wp_mono.
  { apply (wp_all_sectors g (formatting (ts_config d)) (fun _ _ => True)); try done.
    - intros i d1 arg H. by apply H.
    - intros i d1 arg x t Hi [H1 H2 (m1 & Hm1 & Hd1 & Hl1)]. eapply wp_tstores.
      { apply (tstores_read_legible d1 m1 _ x t Hm1); unfold ts_sec_size; rewrite H1; [by apply sector_in_at|by apply Hl1]. }
      intros r j Ha Hj. split; [|done]. split; [done|done|]. by exists m1.
    - intros i d1 [] x Hi H Ha _. by apply wp_format_one.
    - split; [done|done|]. exists m. split; [done|]. split; [|done]. intros; lia. }
  intros r d1 [H1 H2 (m1 & Hm1 & Hd1 & _)]. cbn [snd] in *.
  assert (forall k, 0 <= k < sector_count g -> ring_addr g 0 k = k * sec_size g) as Hra
    by (intros k Hk; unfold ring_addr; by rewrite Z.mod_small by lia).
  apply wp_bind, wp_modify, wp_bind, wp_gets. cbn [cur_sec set_last_time set_cur_sec]. cbn [addr sec_set_addr].
  apply wp_bind. set (d2 := set_last_time _ _). assert (ts_holds d2 m1) as Hm2 by done.
  assert (geo (parent d2) = g) as Hg2 by done.
  pose proof (Hd1 0%nat ltac:(lia) ltac:(lia)) as Hat. rewrite Z.mul_0_l in Hat.
  eapply wp_tstores.
  { apply (tstores_read_sector d2 m1 0 FDB_SECTOR_STORE_EMPTY 0 [] _ false Hm2); unfold ts_sec_size; rewrite Hg2; [|done].
    apply (sector_in_at 0). lia. }
  intros [e x] i [_ Hx] Hi. destruct (Hx (or_intror eq_refl)) as (_ & Hsl & _). cbn [snd] in *.
  unfold ts_sec_size in Hsl. rewrite Hg2 in Hsl. apply wp_modify.
  apply (HQ _ m1); [|done..]. split; unfold ts_sec_size; cbn [parent set_cur_sec]; change (geo (parent (ts_io i d2))) with (geo (parent d2)); rewrite ?Hg2.
  - split; unfold ts_sec_size; cbn [parent set_cur_sec]; change (geo (parent (ts_io i d2))) with (geo (parent d2)); rewrite ?Hg2; try done.
    + unfold empty_secs. rewrite length_replicate. lia.
    + lia.
    + intros k s Hk. apply lookup_replicate_1 in Hk as [-> Hk]. rewrite Hra by lia. split; [|done].
      by apply Hd1.
  - by apply empty_secs_shape.
  - rewrite Hra by lia. done.
  - intros s Hs. apply lookup_replicate_1 in Hs as [-> _]. rewrite Hra by lia. exact Hsl.
  - intros s Hs Hne. by apply lookup_replicate_1 in Hs as [-> _].
Qed.
End format.

(** ** The operations *)

(** Every sector of the medium can be read. *)
Definition all_legible (g : geom) (m : list Z) : Prop :=
  forall i, (i < Z.to_nat (sector_count g))%nat -> legible m (Z.of_nat i * sec_size g) (sec_size g).

(** Those of a ring can. *)
Lemma ring_legible g m o secs : ring_at g m o secs -> all_legible g m.
Proof.
  intros H i Hi. destruct (ring_pos_addr g o i (ra_geom _ _ _ _ H) Hi) as [Hp Ei]. pose proof (ra_count _ _ _ _ H).
  destruct (lookup_lt_is_Some_2 secs (ring_pos g o i) ltac:(lia)) as [s Hs]. rewrite <- Ei. right.
  eexists _, _, _. by apply (ra_secs _ _ _ _ H).
Qed.

(** [fdb_tsl_clean] makes the empty database: whatever the log was, all
    sectors are empty and formatted afterwards, the first one is the oldest and
    the current one, and any timestamp can be appended again. *)
Lemma clean_empties d m :
  let g := geo (parent d) in
  ts_holds d m -> sec_size g mod LOG_IDX_DATA_SIZE = 0 -> all_legible g m ->
  wp fdb_tsl_clean (fun _ d' => exists m',
    ts_state d' m' 0 0 (empty_secs g) /\ entries (empty_secs g) = [] /\ last_time d' = 0 /\
    ts_config d' = ts_config d) d.
Proof.
  intros g Hm Hmult Hleg. pose proof (holds_geom _ _ _ Hm) as Hg. unfold fdb_tsl_clean, locked.
  apply wp_bind. apply (locked_parent _ _ m Hm). intros d1 H1 Hcf1 Hc1 Ho1 Hl1.
  pose proof (ts_config_geo _ _ Hcf1) as Hg1. apply wp_bind.
  apply (wp_format_all g Hg Hmult d1 m); [done|done|done|]. intros d2 m2 H2 Hcf2 Hl2.
  apply wp_bind. apply (locked_parent _ _ m2); [apply H2|]. intros d3 H3 Hcf3 Hc3 Ho3 Hl3.
  apply wp_ret. exists m2. split; [by apply (ts_state_same d2)|]. split; [apply entries_empty|].
  split; [by rewrite Hl3|]. congruence.
Qed.

(** Some sector has no magic word. *)
Definition unformatted (g : geom) (m : list Z) : Prop :=
  exists k, (k < Z.to_nat (sector_count g))%nat /\ blank m (Z.of_nat k * sec_size g).

(** The iteration over the sectors ends at such a sector, if not before. *)
Lemma wp_scan_unformatted d m Q :
  let g := geo (parent d) in
  ts_holds d m -> sec_size g mod LOG_IDX_DATA_SIZE = 0 -> unformatted g m -> all_legible g m ->
  (forall s x i arg, ts_holds (set_cur_sec x (ts_io i d)) m -> check_failed arg = true ->
     Q (s, arg) (set_cur_sec x (ts_io i d))) ->
  wp (sector_iterator (sec_set_addr 0 indet_sec) FDB_SECTOR_STORE_UNUSED (CheckSecArgs false 0 0)
        (Some check_sec_hdr_cb) true) Q d.
Proof.
  intros g Hm Hmult (k & Hk & Hb) Hleg HQ. pose proof (holds_geom _ _ _ Hm) as Hg.
  set (Here (d' : fdb_tsdb W) := (exists x i, d' = set_cur_sec x (ts_io i d)) /\ ts_holds d' m).
  eapply wp_mono.
  { apply (wp_sectors_until g (fun i d' arg => Here d' /\ check_failed arg = false /\ (i <= k)%nat)
             (fun d' arg => Here d' /\ check_failed arg = true) (fun i x => i = k -> check_ok x = false)); [done|..].
    - by intros i d' arg [[(x & j & ->) _] _].
    - intros i d' arg x t Hi [[(y & j & ->) Hj] Hrest].
      eapply (wp_tstores _ _ m (fun r => addr (snd r) = Z.of_nat i * sec_size g /\ (i = k -> check_ok (snd r) = false))).
      { pose proof (sector_in_at g Hg Hmult i Hi) as Hs. destruct (decide (i = k)) as [->|].
        - eapply tstores_mono; [by apply (tstores_read_blank _ m)|]. by intros r [].
        - eapply tstores_mono; [apply (tstores_read_legible _ m _ x t Hj Hs); by apply Hleg|]. by intros r. }
      intros r j' [Ha Hr] Hj'. split; [split; [split; [by exists y, j'|done]|done]|done].
    - intros i d' arg x Hi [[(y & j & ->) Hj] [Hf Hle]] Ha Hx. unfold check_sec_hdr_cb. apply wp_bind, wp_gets.
      assert (forall z, Here (set_cur_sec z (set_cur_sec y (ts_io j d)))) as Hset by (intros z; split; [by exists z, j|done]).
      assert (Here (set_cur_sec y (ts_io j d))) as Hsame by (split; [by exists y, j|done]).
      destruct (check_ok x); cbn [negb]; [|by apply wp_ret]. assert (S i <= k)%nat as HS.
      { destruct (decide (i = k)) as [->|]; [by specialize (Hx eq_refl)|lia]. }
      destruct (status x); try by apply wp_ret.
      + apply wp_bind. case_match; [by apply wp_modify, wp_ret|by do 2 apply wp_ret].
      + case_match; [by apply wp_bind, wp_modify, wp_ret|by apply wp_ret].
    - split; [|split; [done|lia]]. split; [|done]. exists (cur_sec d), (dbio (parent d)). by destruct d as [[]].
    - done. }
  intros [s arg] d' [[_ [_ Hle]]|[[(x & i & ->) Hi] Hf]]; [lia|by apply HQ].
Qed.

(** The medium is formatted, and the database starts empty. *)
Lemma wp_init_formats nm path u max d db m :
  let g := geo db in
  opens nm path FDB_DB_TYPE_TS u (parent d) db m -> max < sec_size g ->
  sec_size g mod LOG_IDX_DATA_SIZE = 0 -> unformatted g m -> all_legible g m ->
  not_formatable (parent d) = false ->
  wp (fdb_tsdb_init nm path true max u) (fun r d' =>
    r = FDB_NO_ERR /\ (exists m', ts_state d' m' 0 0 (empty_secs g)) /\ last_time d' = 0 /\
    geo (parent d') = g /\ init_ok (parent d') = true /\ max_len d' = max /\ rollover d' = true) d.
Proof.
  intros g Hmt Hmax Hmult Hb Hleg Hnf. eapply wp_tsdb_init; [exact Hmt|done|].
  intros d1 Hm1 Hg1 Hml Hroll _ Hnf1 _ _ _. apply wp_bind.
  apply (wp_scan_unformatted d1 m); rewrite ?Hg1; [done..|]. intros x y i arg Hi Hf. cbn [snd]. rewrite Hf.
  apply wp_bind, wp_gets.
  change (not_formatable (parent (set_cur_sec y (ts_io i d1)))) with (not_formatable (parent d1)). rewrite Hnf1, Hnf. cbn [andb].
  pose proof (holds_geom _ _ _ Hm1) as Hg. rewrite Hg1 in Hg.
  apply wp_bind. apply (wp_format_all g Hg Hmult (set_cur_sec y (ts_io i d1)) m); [done|done|done|].
  intros d2 m2 H2 Hcf2 Hl2. apply wp_bind.
  pose proof (ring_log_at _ _ _ _ (tt_ring _ _ _ _ _ H2)) as Hring. pose proof (ts_config_geo _ _ Hcf2) as Hg2.
  change (geo (parent (set_cur_sec y (ts_io i d1)))) with (geo (parent d1)) in Hg2. rewrite Hg1 in Hg2. fold g in Hg2. rewrite Hg2 in Hring.
  pose proof (sector_count_two _ Hg) as Hn. change (2 <= sector_count g) in Hn.
  assert (empty_secs g !! 0%nat = Some (SecState FDB_SECTOR_STORE_EMPTY 0 [])) as Hfirst
    by (apply lookup_replicate_2; lia).
  apply (wp_load_last g m2 0 0 (empty_secs g) Hring (empty_secs_shape g Hg)); try done.
  { apply H2. }
  { rewrite <- Hg2. by apply (sl_addr _ _ _ _ _ _ (tt_cur _ _ _ _ _ H2 _ Hfirst)). }
  { rewrite <- Hg2. apply H2. }
  { intros k s Hk. by apply lookup_replicate_1 in Hk as [-> _]. }
  intros d3 H3 Hcf3 Hl3. apply wp_bind. apply (locked_parent _ _ m2); [apply H3|].
  intros d4 H4 Hcf4 Hc4 Ho4 Hl4. apply wp_ret. unfold _fdb_init_finish. rewrite decide_True by done.
  apply wp_zoom, wp_modify. assert (ts_config d4 = ts_config d1) as Hcf by (rewrite Hcf4, Hcf3; exact Hcf2).
  unfold ts_config in Hcf. injection Hcf as Hg4 _ _ _ Hml4 Hroll4.
  split; [done|]. split; [|split_and!].
  - exists m2. eapply ts_state_geo; [exact H3|exact H4|exact (ts_config_geo _ _ Hcf4)|done..].
  - cbn [last_time set_parent]. rewrite Hl4, Hl3. unfold loaded_time. by rewrite entries_empty.
  - unfold g. by rewrite <- Hg1, <- Hg4.
  - done.
  - by rewrite <- Hml, <- Hml4.
  - by rewrite <- Hroll, <- Hroll4.
Qed.

(** C29: Initialising a database on a medium that is not one, such as erased
    flash, formats it: the result is the empty database, ready for use. *)
Theorem init_formats nm path u max d db m :
  let g := geo db in
  opens nm path FDB_DB_TYPE_TS u (parent d) db m -> max < sec_size g ->
  sec_size g mod LOG_IDX_DATA_SIZE = 0 -> unformatted g m -> all_legible g m ->
  not_formatable (parent d) = false ->
  wp (fdb_tsdb_init nm path true max u) (fun r d' =>
    r = FDB_NO_ERR /\ (exists m', ts_state d' m' 0 0 (empty_secs g)) /\ last_time d' = 0 /\
    geo (parent d') = g /\ init_ok (parent d') = true /\ max_len d' = max /\ rollover d' = true) d.
Proof. exact (wp_init_formats nm path u max d db m). Qed.

(** C30: A database that may not be formatted is left alone: when the medium is
    not a database, [fdb_tsdb_init] fails with [FDB_READ_ERR], does not write,
    and the database stays uninitialised.  The user's lock function was
    called, and the unlock function is not. *)
Theorem init_refuses nm path u max d db m :
  let g := geo db in
  opens nm path FDB_DB_TYPE_TS u (parent d) db m -> max < sec_size g ->
  sec_size g mod LOG_IDX_DATA_SIZE = 0 -> unformatted g m -> all_legible g m ->
  not_formatable (parent d) = true ->
  wp (fdb_tsdb_init nm path true max u) (fun r d' =>
    r = FDB_READ_ERR /\ ts_holds d' m /\ init_ok (parent d') = false /\
    lock_trace (parent d') = locked_trace (parent d)) d.
Proof.
  intros g Hmt Hmax Hmult Hb Hleg Hnf. eapply wp_tsdb_init; [exact Hmt|done|].
  intros d1 Hm1 Hg1 _ _ _ Hnf1 _ Hini Htr. apply wp_bind.
  apply (wp_scan_unformatted d1 m); rewrite ?Hg1; [done..|]. intros x y i arg Hi Hf. cbn [snd]. rewrite Hf.
  apply wp_bind, wp_gets.
  change (not_formatable (parent (set_cur_sec y (ts_io i d1)))) with (not_formatable (parent d1)). rewrite Hnf1, Hnf. cbn [andb].
  apply wp_ret. unfold _fdb_init_finish. rewrite decide_False by done. by apply wp_zoom, wp_ret.
Qed.

End format_all.
