(* ===== verification/TsCalls.v ===== *)
(** Time-series database: refused appends, the status of an entry, reading an
    entry's data. *)
From S2P Require Import Prelude FdbDef Status FlashIO FlashSpec KvRing.
From S2P Require Import TsDef TsOps TsApi TsSpec TsRead TsAppend TsIter TsRing TsLog TsStore TsDb.

Section calls.
Context {W} {ST : Storage W} {SL : StorageLaws W} {IN : Indeterminate} {CL : Clock W}.
Implicit Type d : fdb_tsdb W.

(** ** Refused appends *)

(** The calls of the user's functions for one locked call. *)
Definition lock_unlock (db : fdb_db W) : list lock_event :=
  (if lock db then [LockCall] else []) ++ (if unlock db then [UnlockCall] else []).

Lemma wp_locked_pure {A} (p : M (fdb_tsdb W) A) (a : A) d :
  (forall d', ts_config d' = ts_config d -> last_time d' = last_time d -> cur_sec d' = cur_sec d -> p d' = Done (a, d')) ->
  wp (locked p) (fun r d' => r = a /\
    d' = set_parent (set_lock_trace (lock_trace (parent d) ++ lock_unlock (parent d)) (parent d)) d) d.
Proof.
  intros Hp. unfold locked, wp, mbind, M_bind, up, zoom, db_lock, db_unlock, modify, lock_unlock.
  rewrite Hp by (by destruct (lock (parent d))).
  split; [done|]. destruct d as [db]. destruct db as [? ? ? ? ? ? lk ul tr ?]. cbn.
  destruct lk; cbn; destruct ul; cbn; by rewrite <- ?app_assoc, ?app_nil_r.
Qed.

(** An append is refused before anything is written: [FDB_INIT_FAILED] when
    the database is not initialised, [FDB_WRITE_ERR] when the blob is longer
    than [max_len] or the timestamp is not after the last one.  The call changes
    nothing, apart from the calls of the lock functions. *)
Lemma append_rejects d blob t :
  init_ok (parent d) = false \/ max_len d < size blob \/ t <= last_time d ->
  wp (fdb_tsl_append_with_ts blob t) (fun r d' =>
    if init_ok (parent d)
    then r = FDB_WRITE_ERR /\
         d' = set_parent (set_lock_trace (lock_trace (parent d) ++ lock_unlock (parent d)) (parent d)) d
    else r = FDB_INIT_FAILED /\ d' = d) d.
Proof.
  intros H. unfold fdb_tsl_append_with_ts. apply wp_bind, wp_gets. unfold db_init_ok.
  destruct (init_ok (parent d)) eqn:E; cbn [negb]; [|by apply wp_ret].
  apply wp_locked_pure. intros d' Hcf Hl _. unfold ts_config in Hcf. injection Hcf as _ _ _ _ Hm _.
  unfold tsl_append, mbind, M_bind, gets, mret, M_ret. rewrite Hm, Hl.
  destruct H as [H|[H|H]]; [done|by rewrite (proj2 (Z.ltb_lt _ _) H)|].
  rewrite (proj2 (Z.leb_le _ _) H). by destruct (max_len d <? size blob).
Qed.

(** ** A database without rollover *)

(** A full current sector accepts nothing. *)
Lemma append_closed d m blob t :
  ts_holds d m -> init_ok (parent d) = true -> status (cur_sec d) = FDB_SECTOR_STORE_FULL ->
  wp (fdb_tsl_append_with_ts blob t) (fun r d' => (r = FDB_WRITE_ERR \/ r = FDB_SAVED_FULL) /\ kept d m d') d.
Proof.
  intros Hm Hi Hf. unfold fdb_tsl_append_with_ts. apply wp_bind, wp_gets. unfold db_init_ok. rewrite Hi. cbn [negb].
  eapply wp_mono.
  { apply (wp_locked_pure _ (if (max_len d <? size blob) || (t <=? last_time d) then FDB_WRITE_ERR else FDB_SAVED_FULL)).
    intros d' Hcf Hl Hc. unfold ts_config in Hcf. injection Hcf as _ _ _ _ Hml _.
    unfold tsl_append, mbind, M_bind, gets, mret, M_ret. rewrite Hml, Hl.
    destruct (max_len d <? size blob), (t <=? last_time d); try done. cbn [orb].
    unfold update_sec_status, mbind, M_bind, gets, mret, M_ret. by rewrite Hc, Hf. }
  intros r d' [-> ->]. split; [destruct (_ || _); auto|by apply kept_lock_trace].
Qed.

Lemma entries_close c s st start secs :
  secs !! c = Some s -> entries (<[c := SecState st start (ss_log s)]> secs) = entries secs.
Proof.
  intros Hc. unfold entries. f_equal. apply list_eq. intros k. change (@map sector_state _ ss_log) with (@fmap list _ _ _ ss_log).
  rewrite !list_lookup_fmap. destruct (decide (k = c)) as [->|].
  - rewrite list_lookup_insert_eq by (by eapply lookup_lt_Some). by rewrite Hc.
  - by rewrite list_lookup_insert_ne.
Qed.

(** The ring with its current sector closed. *)
Lemma ring_log_closed d d' m o c secs s :
  ts_state d m o c secs -> secs !! c = Some s -> ss_status s = FDB_SECTOR_STORE_USING -> ss_log s <> [] ->
  geo (parent d') = geo (parent d) -> ts_holds d' (closed m (ring_addr (geo (parent d)) o (Z.of_nat c)) (ss_log s)) ->
  ring_log d' (closed m (ring_addr (geo (parent d)) o (Z.of_nat c)) (ss_log s)) o
    (<[c := SecState FDB_SECTOR_STORE_FULL (ss_start s) (ss_log s)]> secs).
Proof.
  intros H Hc Hu Hne Hg Hm. destruct (ring_at_closed _ _ _ _ _ _ (ring_log_at _ _ _ _ (tt_ring _ _ _ _ _ H)) Hc Hu Hne) as [A1 A2 A3 A4 A5 A6].
  pose proof (lookup_lt_Some _ _ _ Hc). split; unfold ts_sec_size; rewrite ?Hg; try done.
  intros k x Hx. split; [by apply A6|]. destruct (decide (k = c)) as [->|Hk].
  - rewrite list_lookup_insert_eq in Hx by done. by injection Hx as <-.
  - rewrite list_lookup_insert_ne in Hx by done. destruct (Nat.lt_gt_cases k c) as [Hlt _]. destruct (Hlt Hk).
    + by rewrite (rs_full _ _ (tt_shape _ _ _ _ _ H) k x).
    + by rewrite (rs_empty _ _ (tt_shape _ _ _ _ _ H) k x).
Qed.

(** The current sector is the last one of the medium, has entries, and no room
    for the data. *)
Record at_the_end d (m : list Z) (o : Z) (c : nat) (secs : list sector_state) (s : sector_state) (data : list Z) : Prop := {
  ae_state : ts_state d m o c secs;
  ae_cur : secs !! c = Some s;
  ae_log : ss_log s <> [];
  ae_last : ring_addr (geo (parent d)) o (Z.of_nat c) + ts_sec_size d = ts_max_size d;
  ae_full : free_space (ts_sec_size d) (ss_log s) < LOG_IDX_DATA_SIZE + len data;
}.

Lemma at_the_end_using d m o c secs s data : at_the_end d m o c secs s data -> ss_status s = FDB_SECTOR_STORE_USING.
Proof.
  intros [H Hc Hne _ _]. destruct (rs_cur _ _ (tt_shape _ _ _ _ _ H)) as (s' & Hc' & Hst). rewrite Hc in Hc'. injection Hc' as <-.
  destruct Hst as [He|]; [|done]. destruct (rl_secs _ _ _ _ (tt_ring _ _ _ _ _ H) c s Hc) as [Hat _].
  by destruct (sa_empty _ _ _ _ _ _ Hat He).
Qed.

Lemma wp_append_closes d m o c secs s t data Q :
  at_the_end d m o c secs s data -> rollover d = false -> last_time d < t -> len data <= max_len d -> max_len d < ts_sec_size d ->
  (forall d', ts_holds d' (closed m (ring_addr (geo (parent d)) o (Z.of_nat c)) (ss_log s)) -> ts_config d' = ts_config d ->
     oldest_addr (parent d') = oldest_addr (parent d) -> last_time d' = last_time d ->
     status (cur_sec d') = FDB_SECTOR_STORE_FULL -> Q FDB_SAVED_FULL d') ->
  wp (tsl_append (blob_of data) (Some t)) Q d.
Proof.
  intros Hae Hroll Hlt Hml Hmax HQ. pose proof (at_the_end_using _ _ _ _ _ _ _ Hae) as Hu. destruct Hae as [H Hc Hne Hend Hfull].
  pose proof (ts_state_cur d m o c secs s H Hc) as Hcur. rewrite Hu in Hcur.
  pose proof (holds_geom _ _ _ (rl_holds _ _ _ _ (tt_ring _ _ _ _ _ H))) as Hg. destruct (Hg) as [G1 G2 G3 G4].
  unfold ts_sec_size, ts_max_size in *. pose proof (len_nonneg data).
  unfold tsl_append. apply wp_bind, wp_ret, wp_bind, wp_gets, wp_bind, wp_gets. cbn [blob_of size].
  rewrite (proj2 (Z.ltb_ge _ _)), (proj2 (Z.leb_gt _ _)) by lia.
  apply wp_bind. eapply (wp_close_current d m); [exact Hcur|done|by apply (tt_last _ _ _ _ _ H s)|lia|done|].
  intros i d' Hi. unfold move_to_next_sector. do 4 apply wp_bind, wp_gets. change (rollover d') with (rollover d). rewrite Hroll.
  change (addr (cur_sec d')) with (addr (cur_sec d)). rewrite (sl_addr _ _ _ _ _ _ (cl_mem _ _ _ _ _ _ Hcur)).
  change (ts_sec_size d') with (sec_size (geo (parent d))). change (ts_max_size d') with (max_size (geo (parent d))).
  rewrite Hend, u32_small, Z.ltb_irrefl by lia. by apply wp_ret, wp_ret, wp_ret, HQ.
Qed.

(** C27: Without rollover the log is never overwritten: when the entry does not
    fit in the last sector of the medium, the append answers [FDB_SAVED_FULL].
    The sector is closed, all entries stay, and from then on every append, even
    of an entry that would have had room, is refused and changes nothing. *)
Theorem append_full d m o c secs s t data :
  at_the_end d m o c secs s data -> init_ok (parent d) = true -> rollover d = false ->
  last_time d < t -> len data <= max_len d -> max_len d < ts_sec_size d ->
  wp (fdb_tsl_append_with_ts (blob_of data) t) (fun r d' => r = FDB_SAVED_FULL /\
    ts_config d' = ts_config d /\ last_time d' = last_time d /\
    exists m' secs', ring_log d' m' o secs' /\ oldest_addr (parent d') = ring_addr (geo (parent d)) o 0 /\
      entries secs' = entries secs /\
      forall blob u, wp (fdb_tsl_append_with_ts blob u)
        (fun r d'' => (r = FDB_WRITE_ERR \/ r = FDB_SAVED_FULL) /\ kept d' m' d'') d') d.
Proof.
  intros Hae Hinit Hroll Hlt Hml Hmax. pose proof (at_the_end_using _ _ _ _ _ _ _ Hae) as Hu. pose proof Hae as [H Hc Hne Hend Hfull].
  unfold fdb_tsl_append_with_ts at 1. apply wp_bind, wp_gets. unfold db_init_ok. rewrite Hinit. cbn [negb].
  unfold locked at 1. apply wp_bind, (locked_parent _ _ m); [apply H|]. intros d1 H1 Hcf1 Hcs1 Ho1 Hl1.
  pose proof (ts_state_same _ _ _ _ _ _ H H1 Hcf1 Hcs1 Ho1 Hl1) as Hs1. pose proof (ts_config_geo _ _ Hcf1) as Hg1.
  assert (at_the_end d1 m o c secs s data) as Hae1 by (split; unfold ts_sec_size, ts_max_size in *; rewrite ?Hg1; done).
  assert (rollover d1 = false /\ max_len d1 = max_len d) as [Hroll1 Hml1] by (unfold ts_config in Hcf1; by injection Hcf1 as _ _ _ _ -> ->).
  apply wp_bind, (wp_append_closes d1 m o c secs s t data); [done|done|lia|lia|by unfold ts_sec_size in *; rewrite Hg1, Hml1|].
  rewrite Hg1. intros d2 H2 Hcf2 Ho2 Hl2 Hfull2. apply wp_bind, (locked_parent _ _ _ H2). intros d3 H3 Hcf3 Hcs3 Ho3 Hl3. apply wp_ret.
  assert (ts_config d3 = ts_config d) as Hcf by congruence. pose proof (ts_config_geo _ _ Hcf) as Hg3.
  split; [done|]. split; [done|]. split; [congruence|]. eexists _, _. split; [by apply (ring_log_closed d d3 m o c secs s)|].
  split; [rewrite Ho3, Ho2, Ho1; apply H|]. split; [by apply entries_close|].
  intros blob u. apply append_closed; [done| |by rewrite Hcs3]. unfold ts_config in Hcf. injection Hcf as _ Hi _ _ _ _. congruence.
Qed.

(** ** The status of an entry *)

Lemma last_entry_time_status l j st : last_entry_time (alter (set_entry_status st) j l) = last_entry_time l.
Proof.
  unfold last_entry_time. rewrite !last_lookup, length_alter, list_lookup_alter.
  destruct (decide _) as [<-|]; [|done]. by destruct (l !! j).
Qed.

Lemma data_size_status l j st : data_size (alter (set_entry_status st) j l) = data_size l.
Proof.
  pose proof (data_size_set_status j st l (length l)) as E.
  rewrite !take_ge in E by (rewrite ?length_alter; lia). done.
Qed.

Lemma alter_nil l j st : alter (set_entry_status st) j l = [] <-> l = [].
Proof. by destruct l, j. Qed.

Lemma sector_at_set_status m a n st start l j s :
  0 <= a -> a + n <= len m -> sector_at m a n st start l -> (j < length l)%nat ->
  s <> FDB_TSL_UNUSED -> s <> FDB_TSL_PRE_WRITE ->
  sector_at (splice m (node_addr a j) [status_byte (enum_val s)]) a n st start
            (alter (set_entry_status s) j l).
Proof.
  intros Ha Hm [H1 H2 H3 H4 H5 H6 H7 H8] Hj Hs1 Hs2.
  destruct (node_range a n l j (la_fits _ _ _ _ H3) Hj) as (R1 & R2 & R3). pose proof (data_size_nonneg l).
  pose proof (la_fits _ _ _ _ H3). hdr_unfold. unfold LOG_IDX_DATA_SIZE in *.
  assert (forall b k, 0 <= b -> 0 <= k -> b + k <= a + 32 ->
    slice (splice m (node_addr a j) [status_byte (enum_val s)]) b k = slice m b k) as Hs
    by (intros; apply slice_splice_other; len_simpl; lia).
  split; unfold filled in *; hdr_unfold; rewrite ?Hs by lia; try done.
  - by apply log_at_set_status.
  - intros Hst. destruct (H5 Hst) as [-> ?]. done.
  - intros Hst. destruct (H8 Hst) as (Hne & ? & ? & ?). rewrite last_entry_time_status. unfold last_node in *.
    rewrite length_alter, alter_nil. done.
Qed.

Lemma sec_log_set_status x a n st start l j s :
  sec_log x a n st start l -> sec_log x a n st start (alter (set_entry_status s) j l).
Proof.
  intros [S1 S2 S3 S4 S5 S6 S7 S8 S9].
  split; unfold free_space, last_node in *; rewrite ?length_alter, ?data_size_status, ?last_entry_time_status; try done.
  intros Hne. apply S8. by rewrite alter_nil in Hne.
Qed.

(** The sector with the entry's status changed. *)
Definition sector_set_status (s : fdb_tsl_status) (j : nat) (x : sector_state) : sector_state :=
  SecState (ss_status x) (ss_start x) (alter (set_entry_status s) j (ss_log x)).

(** The ring's structure does not depend on the statuses of entries. *)
Lemma ring_shape_status secs c k j s :
  ring_shape secs c -> ring_shape (alter (sector_set_status s j) k secs) c.
Proof.
  assert (forall q y, alter (sector_set_status s j) k secs !! q = Some y ->
    exists z, secs !! q = Some z /\ ss_status y = ss_status z) as Hq.
  { intros q y. rewrite list_lookup_alter. destruct (decide (k = q)) as [->|]; [|eauto].
    destruct (secs !! q) as [z|] eqn:E; [|done]. intros [= <-]. by exists z. }
  intros [F1 (sc & F2 & F3) F4]. split.
  - intros q y Hy Hlt. destruct (Hq q y Hy) as (z & Hz & ->). by apply (F1 q).
  - destruct (lookup_lt_is_Some_2 (alter (sector_set_status s j) k secs) c) as [y Hy].
    { rewrite length_alter. by apply lookup_lt_Some in F2. }
    exists y. split; [done|]. destruct (Hq c y Hy) as (z & Hz & ->). rewrite F2 in Hz. by injection Hz as <-.
  - intros q y Hy Hlt. destruct (Hq q y Hy) as (z & Hz & ->). by apply (F4 q).
Qed.

Lemma ts_state_status d i m m' o c secs k j s :
  ts_state d m o c secs -> ts_holds (ts_io i d) m' ->
  ring_at (geo (parent d)) m' o (alter (sector_set_status s j) k secs) ->
  ts_state (ts_io i d) m' o c (alter (sector_set_status s j) k secs).
Proof.
  intros [Hr Hsh Ho Hc Hl] Hm [A1 A2 A3 A4 A5 A6].
  assert (forall q y, alter (sector_set_status s j) k secs !! q = Some y -> exists z, secs !! q = Some z /\
    (y = z \/ y = sector_set_status s j z)) as Hq.
  { intros q y. rewrite list_lookup_alter. destruct (decide (k = q)) as [->|]; [|eauto].
    destruct (secs !! q) as [z|] eqn:E; [|done]. intros [= <-]. exists z. auto. }
  split; try done; [|by apply ring_shape_status|..].
  - split; try done. intros q y Hy a'. split; [by apply A6|]. destruct (Hq q y Hy) as (z & Hz & Hyz).
    destruct (rl_secs _ _ _ _ Hr q z Hz) as [_ Huse]. destruct Hyz as [-> | ->]; [done|].
    intros Hus. destruct (Huse Hus) as [Hne Hsl]. cbn [ss_log ss_start sector_set_status].
    split; [by rewrite alter_nil|]. by apply sec_log_set_status.
  - intros y Hy. destruct (Hq c y Hy) as (z & Hz & [-> | ->]); [by apply Hc|].
    apply (sec_log_set_status _ _ _ _ _ _ j s). exact (Hc z Hz).
  - intros y Hy Hne. destruct (Hq c y Hy) as (z & Hz & [-> | ->]); [by apply (Hl z)|].
    cbn [ss_log sector_set_status] in *. rewrite last_entry_time_status. apply (Hl z Hz). by rewrite alter_nil in Hne.
Qed.

Lemma alter_insert_eq {A} (f : A -> A) (l : list A) k x : l !! k = Some x -> alter f k l = <[k := f x]> l.
Proof.
  intros Hk. pose proof (lookup_lt_Some _ _ _ Hk). apply list_eq. intros q. rewrite list_lookup_alter.
  destruct (decide (k = q)) as [<-|]; [by rewrite Hk, list_lookup_insert_eq|by rewrite list_lookup_insert_ne].
Qed.

(** The status is programmed over the one on the medium. *)
Lemma wp_set_status d m o c secs k x j e s :
  ts_state d m o c secs -> secs !! k = Some x -> ss_log x !! j = Some e ->
  enum_val (e_status e) <= enum_val s ->
  let t := tsl_of (ring_addr (geo (parent d)) o (Z.of_nat k)) (ts_sec_size d) (ss_log x) j e in
  wp (fdb_tsl_set_status t s) (fun r d' =>
    r = FDB_NO_ERR /\ (exists m', ts_state d' m' o c (alter (sector_set_status s j) k secs)) /\
    last_time d' = last_time d /\ ts_config d' = ts_config d) d.
Proof.
  intros H Hk Hj Hst t. pose proof (tt_ring _ _ _ _ _ H) as Hr. pose proof (ring_log_at _ _ _ _ Hr) as Hra.
  pose proof (ring_sector d m o secs (Z.of_nat k) Hr) as Hs. pose proof (rl_holds _ _ _ _ Hr) as Hm.
  pose proof (ra_secs _ _ _ _ Hra k x Hk) as Hat. pose proof (sa_log _ _ _ _ _ _ Hat) as Hlog.
  pose proof (lookup_lt_Some _ _ _ Hj) as Hjl. pose proof (lookup_lt_Some _ _ _ Hk) as Hkl.
  destruct (node_range (ring_addr (geo (parent d)) o (Z.of_nat k)) _ _ j (la_fits _ _ _ _ Hlog) Hjl) as (R1 & R2 & R3).
  pose proof (data_size_nonneg (ss_log x)). pose proof (la_fits _ _ _ _ Hlog).
  destruct (la_nodes _ _ _ _ Hlog j e Hj) as (N1 & _ & _).
  destruct (Forall_lookup_1 _ _ _ _ (la_ok _ _ _ _ Hlog) Hj) as [[Hs1 Hs2] _ _ _].
  assert (s <> FDB_TSL_UNUSED /\ s <> FDB_TSL_PRE_WRITE /\ 0 < enum_val s < 6 /\ 0 <= enum_val (e_status e))
    as (Hu & Hp & Hrange & Hpos) by (destruct (e_status e), s; cbn in *; repeat split; lia || done).
  set (a := ring_addr (geo (parent d)) o (Z.of_nat k)) in *. unfold ts_sec_size in *.
  pose proof (holds_len _ _ _ Hm) as Hlen. destruct (Hs) as [Hg (Ha & _ & He) _].
  unfold LOG_IDX_DATA_SIZE, SECTOR_HDR_DATA_SIZE in *.
  eapply wp_tstores.
  { apply (tstores_write_status d m (node_addr a j) FDB_TSL_STATUS_NUM (enum_val s)
             (status_byte (enum_val (e_status e))) true Hm); try done.
    - eapply sector_in_part; [exact Hs|lia..].
    - apply status_byte_clears; lia. }
  intros r i -> Hi. split; [done|]. split; [|done]. eexists. apply (ts_state_status d i m); [done|exact Hi|].
  rewrite (alter_insert_eq _ _ _ _ Hk). apply (ring_at_update _ m _ o secs k _ Hra Hkl).
  - by rewrite len_splice.
  - intros b n Hb Hn Hout. apply slice_splice_other; len_simpl; lia.
  - exact (sector_at_set_status m a (sec_size (geo (parent d))) (ss_status x) (ss_start x) _ j s Ha ltac:(lia) Hat Hjl Hu Hp).
Qed.

(** C28: [fdb_tsl_set_status] with a later status changes the status of that one
    entry, and nothing else: the other entries, the entry's time and data, the
    current sector and the last timestamp are as before. *)
Theorem set_status_refines d m o c secs k x j e s :
  ts_state d m o c secs -> secs !! k = Some x -> ss_log x !! j = Some e ->
  enum_val (e_status e) <= enum_val s ->
  let t := tsl_of (ring_addr (geo (parent d)) o (Z.of_nat k)) (ts_sec_size d) (ss_log x) j e in
  wp (fdb_tsl_set_status t s) (fun r d' =>
    r = FDB_NO_ERR /\ (exists m', ts_state d' m' o c (alter (sector_set_status s j) k secs)) /\
    last_time d' = last_time d /\ ts_config d' = ts_config d) d.
Proof. exact (wp_set_status d m o c secs k x j e s). Qed.

(** ** Reading an entry *)

(** The sector and the place in its log of the [i]-th entry. *)
Fixpoint locate (i : nat) (secs : list sector_state) : option (nat * nat) :=
  match secs with
  | [] => None
  | s :: secs =>
      if (i <? length (ss_log s))%nat then Some (0%nat, i)
      else kj ← locate (i - length (ss_log s)) secs; Some (S (fst kj), snd kj)
  end.

Lemma locate_entry g o secs i :
  match locate i secs with
  | Some (k, j) => exists s e, secs !! k = Some s /\ ss_log s !! j = Some e /\ entries secs !! i = Some e /\
      ring_tsls g o secs !! i = Some (tsl_of (ring_addr g o (Z.of_nat k)) (sec_size g) (ss_log s) j e)
  | None => entries secs !! i = None /\ ring_tsls g o secs !! i = None
  end.
Proof.
  unfold ring_tsls, entries.
  assert (forall b, let objs := concat (imap (fun k s => sector_tsls (ring_addr g o (Z.of_nat (b + k))) (sec_size g) (ss_log s)) secs) in
    match locate i secs with
    | Some (k, j) => exists s e, secs !! k = Some s /\ ss_log s !! j = Some e /\ concat (map ss_log secs) !! i = Some e /\
        objs !! i = Some (tsl_of (ring_addr g o (Z.of_nat (b + k))) (sec_size g) (ss_log s) j e)
    | None => concat (map ss_log secs) !! i = None /\ objs !! i = None
    end) as H; [|exact (H 0%nat)].
  revert i. induction secs as [|s secs IH]; intros i b; [done|]. cbn zeta. rewrite imap_cons. cbn [map concat locate].
  assert (length (sector_tsls (ring_addr g o (Z.of_nat (b + 0))) (sec_size g) (ss_log s)) = length (ss_log s)) as El
    by (unfold sector_tsls; apply length_imap).
  destruct (Nat.ltb_spec i (length (ss_log s))) as [Hi|Hi].
  - destruct (lookup_lt_is_Some_2 _ _ Hi) as [e He]. exists s, e. split; [done|]. split; [done|].
    split; [by apply lookup_app_l_Some|]. rewrite lookup_app_l by lia. unfold sector_tsls. by rewrite list_lookup_imap, He.
  - rewrite !lookup_app_r, El by lia.
    replace (imap _ secs) with (imap (fun k s => sector_tsls (ring_addr g o (Z.of_nat (S b + k))) (sec_size g) (ss_log s)) secs)
      by (apply imap_ext; intros; cbn; do 4 f_equal; lia).
    specialize (IH (i - length (ss_log s))%nat (S b)). destruct (locate _ secs) as [[k j]|]; cbn [mbind option_bind fst snd]; [|exact IH].
    destruct IH as (x & e & H1 & H2 & H3 & H4). exists x, e. split_and!; try done. rewrite H4. do 4 f_equal. lia.
Qed.

(** An object of the log and its entry. *)
Lemma ring_tsls_entry g o secs i t :
  ring_tsls g o secs !! i = Some t ->
  exists k x j e, secs !! k = Some x /\ ss_log x !! j = Some e /\ entries secs !! i = Some e /\
    t = tsl_of (ring_addr g o (Z.of_nat k)) (sec_size g) (ss_log x) j e.
Proof.
  intros Ht. pose proof (locate_entry g o secs i) as H. destruct (locate i secs) as [[k j]|].
  - destruct H as (x & e & H1 & H2 & H3 & H4). rewrite Ht in H4. injection H4 as ->. by exists k, x, j, e.
  - destruct H as [_ H]. congruence.
Qed.

(** Every object of the log describes its entry, and its blob reads the
    entry's data: [fdb_blob_read] on what [fdb_tsl_to_blob] gives stores the
    data, cut to the buffer's size, at the start of the buffer, and returns how
    many bytes that is. *)
Lemma read_back d m o secs i t e blob b n :
  ring_log d m o secs -> ring_tsls (geo (parent d)) o secs !! i = Some t -> entries secs !! i = Some e ->
  e_data e <> [] -> 0 <= n <= len b ->
  tsl_time t = e_time e /\ tsl_status t = e_status e /\ tsl_log_len t = len (e_data e) /\
  wp (up (fdb_blob_read (fdb_tsl_to_blob t (fdb_blob_make blob (Some b) n)))) (fun r d' =>
    fst r = Z.min n (len (e_data e)) /\
    buf (snd r) = Some (splice b 0 (slice (e_data e) 0 (Z.min n (len (e_data e))))) /\
    kept d m d') d.
Proof.
  intros H Ht He Hne Hn. destruct (ring_tsls_entry _ _ _ _ _ Ht) as (k & x & j & e' & Hk & Hj & He' & ->).
  rewrite He in He'. injection He' as <-. split; [done|]. split; [done|]. split; [done|].
  pose proof (ring_sector d m o secs (Z.of_nat k) H) as Hs.
  destruct (rl_secs _ _ _ _ H k x Hk) as [Hat _]. pose proof (sa_log _ _ _ _ _ _ Hat) as Hlog.
  destruct (data_range (ring_addr (geo (parent d)) o (Z.of_nat k)) _ _ j e (la_fits _ _ _ _ Hlog) Hj) as (D1 & D2).
  destruct (la_nodes _ _ _ _ Hlog j e Hj) as (_ & _ & N3). pose proof (rl_holds _ _ _ _ H) as Hm.
  pose proof (la_fits _ _ _ _ Hlog). unfold ts_sec_size in *.
  set (a := ring_addr (geo (parent d)) o (Z.of_nat k)) in *. set (da := data_addr a _ _ _) in *.
  pose proof (len_nonneg (e_data e)). unfold fdb_blob_read, fdb_tsl_to_blob, fdb_blob_make.
  cbn [tsl_of buf size saved_len saved_addr saved_meta_addr tsl_log_len tsl_log tsl_index].
  assert ((if len (e_data e) <? n then len (e_data e) else n) = Z.min n (len (e_data e))) as ->
    by (destruct (Z.ltb_spec (len (e_data e)) n); lia).
  set (q := Z.min n (len (e_data e))). assert (0 <= q <= len b /\ q <= len (e_data e)) as [Hq Hq'] by (unfold q; lia).
  apply wp_zoom, wp_bind. eapply wp_mono.
  - apply (read_law _ m); [exact Hm|]. rewrite len_slice by lia.
    destruct (Hs) as [Hg (Ha & _ & Hae) _]. assert (0 < len (e_data e)) by (destruct (e_data e); [done|rewrite len_cons; pose proof (len_nonneg l); lia]).
    eapply sector_in_part; [exact Hs|..]; ts_unfold; lia.
  - rewrite len_slice by lia. intros r db' (i' & -> & Hi' & Hr & Hok). apply wp_ret. cbn [fst snd buf].
    rewrite Hr. split; [|split].
    + destruct (decide (0 < q)) as [Hpos|Hz]; [by rewrite decide_True by auto|]. replace q with 0 by lia. by destruct (decide _).
    + destruct (Hs) as [_ (Ha & _ & _) _]. assert (0 <= da) by (ts_unfold; lia).
      do 2 f_equal. rewrite <- N3. by rewrite slice_slice, Z.add_0_r by lia.
    + by split.
Qed.
End calls.
