(* ===== verification/TsSearch.v ===== *)
(** Time-series database: the binary search in the index of a sector.

    [search_start_tsl_addr] works on the addresses of the nodes as [int]s; on a
    log with increasing timestamps it finds the first entry that is not before
    [from] when it is called for a query forwards. *)
From S2P Require Import Prelude FdbDef Status FlashIO FlashSpec KvRing.
From S2P Require Import TsDef TsOps TsApi TsSpec TsRead TsAppend TsIter.

(** ** Logs with increasing timestamps *)

Definition increasing (l : list entry) : Prop :=
  forall i j ei ej, (i < j)%nat -> l !! i = Some ei -> l !! j = Some ej -> e_time ei < e_time ej.

(** The first [k] entries, and no others, are before [t]. *)
Definition splits (t : Z) (l : list entry) (k : nat) : Prop :=
  (k <= length l)%nat /\ forall i e, l !! i = Some e -> ((i < k)%nat <-> e_time e < t).

Lemma filter_drop {B} (P : B -> bool) (l : list B) k :
  (forall i x, l !! i = Some x -> P x = (k <=? i)%nat) -> List.filter P l = drop k l.
Proof.
  revert k. induction l as [|x l IH]; intros k HP; [by rewrite drop_nil|]. cbn [List.filter].
  rewrite (HP 0%nat x eq_refl). destruct k as [|k]; cbn [Nat.leb drop].
  - f_equal. rewrite (IH 0%nat); [done|]. intros i y Hy. by rewrite (HP (S i) y Hy).
  - apply IH. intros i y Hy. by rewrite (HP (S i) y Hy).
Qed.

Lemma filter_take {B} (P : B -> bool) (l : list B) k :
  (forall i x, l !! i = Some x -> P x = (i <? k)%nat) -> List.filter P l = take k l.
Proof.
  revert k. induction l as [|x l IH]; intros k HP; [by rewrite take_nil|]. cbn [List.filter].
  rewrite (HP 0%nat x eq_refl). destruct k as [|k]; cbn [Nat.ltb Nat.leb take].
  - rewrite (IH 0%nat); [done|]. intros i y Hy. by rewrite (HP (S i) y Hy).
  - f_equal. apply IH. intros i y Hy. by rewrite (HP (S i) y Hy).
Qed.

Section search.
Context {W} {ST : Storage W} {SL : StorageLaws W} {IN : Indeterminate} {CL : Clock W}.
Implicit Type d : fdb_tsdb W.

(** The address between two nodes, as computed. *)
Lemma mid_node a i j :
  0 <= a -> (i <= j)%nat -> node_addr a j < 2147483648 ->
  exists k, (i <= k <= j)%nat /\
    u32 (node_addr a i + FDB_ALIGN (u64 (Z.quot (i32 (node_addr a j - node_addr a i)) 2)) LOG_IDX_DATA_SIZE)
      = node_addr a k.
Proof.
  intros Ha Hij H31. exists (i + (j - i + 1) / 2)%nat.
  assert ((j - i + 1) / 2 <= j - i)%nat as Hh.
  { destruct (j - i)%nat as [|q]; [done|]. pose proof (Nat.div_lt_upper_bound (S q + 1) 2 (S q + 1)). 
    apply Nat.lt_succ_r. apply Nat.div_lt_upper_bound; lia. }
  split; [lia|]. set (q := (j - i)%nat) in *.
  assert (node_addr a j - node_addr a i = 16 * Z.of_nat q) as -> by (ts_unfold; lia).
  assert (node_addr a j = node_addr a i + 16 * Z.of_nat q) as Ej by (ts_unfold; lia).
  assert (0 <= node_addr a i) by (ts_unfold; lia).
  rewrite i32_small by lia. rewrite Z.quot_div_nonneg by lia.
  replace (16 * Z.of_nat q) with (8 * Z.of_nat q * 2) by lia. rewrite Z.div_mul by lia.
  unfold FDB_ALIGN, LOG_IDX_DATA_SIZE. wrap_small.
  assert (Z.of_nat ((q + 1) / 2) = (Z.of_nat q + 1) / 2) as Eq by (rewrite Nat2Z.inj_div; f_equal; lia).
  assert ((8 * Z.of_nat q + 16 - 1) - (8 * Z.of_nat q + 16 - 1) mod 16 = 16 * ((Z.of_nat q + 1) / 2)) as ->.
  { pose proof (Z.div_mod (8 * Z.of_nat q + 16 - 1) 16 ltac:(lia)).
    assert ((8 * Z.of_nat q + 16 - 1) / 16 = (Z.of_nat q + 1) / 2); [|lia].
    pose proof (Z.div_mod (Z.of_nat q + 1) 2 ltac:(lia)). pose proof (Z.mod_pos_bound (Z.of_nat q + 1) 2 ltac:(lia)).
    apply (div_mod_eq _ 16 _ (8 * ((Z.of_nat q + 1) mod 2) + 7)); lia. }
  pose proof (Z.div_mod (Z.of_nat q + 1) 2 ltac:(lia)). pose proof (Z.mod_pos_bound (Z.of_nat q + 1) 2 ltac:(lia)).
  assert (0 <= (Z.of_nat q + 1) / 2 <= Z.of_nat q) by lia.
  wrap_small. unfold node_addr, LOG_IDX_DATA_SIZE in *. lia.
Qed.

(** The addresses of a sector's nodes as [int]s. *)
Lemma node_i32 g a l i :
  sector_in g a -> 0 <= free_space (sec_size g) l -> max_size g < 2147483648 -> (i <= length l)%nat ->
  0 <= a /\ 16 <= node_addr a i /\ node_addr a i < 2147483648.
Proof.
  intros [Hg (Ha & _ & He) _] Hf H31 Hi. pose proof (data_size_nonneg l). ts_unfold. lia.
Qed.

(** The loop's variables: the nodes [i] to [j] are left. *)
Definition searching (from : Z) (a : Z) (l : list entry) (v : Z * Z) (i j : nat) : Prop :=
  v = (node_addr a i, node_addr a j) /\ (i <= j < length l)%nat /\
  (forall k e, l !! k = Some e -> (k < i)%nat -> e_time e < from) /\
  (forall k e, l !! k = Some e -> (j < k)%nat -> from < e_time e).

(** What the search returns. *)
Definition search_result (a : Z) (l : list entry) (from to r : Z) : Prop :=
  if to <? from
  then exists k, splits (from + 1) l k /\
    (r = node_addr a k - LOG_IDX_DATA_SIZE \/ (k = length l /\ r = node_addr a k))
  else exists k, splits from l k /\ r = node_addr a k.

(** No entry has the time [from] itself. *)
Lemma tstores_search_end d m a l from to k t0 :
  ts_holds d m -> sector_in (geo (parent d)) a -> log_at m a (ts_sec_size d) l ->
  max_size (geo (parent d)) < 2147483648 -> (to < from -> 0 < free_space (ts_sec_size d) l) ->
  (k <= length l)%nat ->
  (forall i e, l !! i = Some e -> (i < k)%nat -> e_time e < from) ->
  (forall i e, l !! i = Some e -> (k <= i)%nat -> from < e_time e) ->
  tstores (if to <? from then
             tsl ← read_tsl (tsl_set_index (u32 (node_addr a k)) t0);
             mret (inr (if from <? tsl_time tsl then i32 (node_addr a k - LOG_IDX_DATA_SIZE) else node_addr a k))
           else mret (inr (node_addr a k))) d m
    (fun r => exists x, r = (inr x : Z * Z + Z) /\ search_result a l from to x).
Proof.
  intros Hm Hs Hl H31 Hroom Hk Hlo Hhi. pose proof (la_fits _ _ _ _ Hl) as Hfit. unfold search_result.
  destruct (node_i32 (geo (parent d)) a l k Hs Hfit H31 Hk) as (B1 & B2 & B3).
  destruct (Z.ltb_spec to from) as [Hrev|Hfwd].
  2:{ apply tstores_ret; [done|]. eexists. split; [done|]. exists k. split; [|done]. split; [done|].
      intros i e Hi. destruct (decide (i < k)%nat) as [Hik|Hik].
      - split; [intros _; by apply (Hlo i)|done].
      - pose proof (Hhi i e Hi ltac:(lia)). lia. }
  assert (splits (from + 1) l k) as Hsp.
  { split; [done|]. intros i e Hi. destruct (decide (i < k)%nat) as [Hik|Hik].
    - pose proof (Hlo i e Hi Hik). lia.
    - pose proof (Hhi i e Hi ltac:(lia)). lia. }
  wrap_small. rewrite i32_small by (unfold LOG_IDX_DATA_SIZE; lia).
  eapply (tstores_bind _ _ d m m (fun t => (k < length l)%nat -> from < tsl_time t)).
  - destruct (decide (k = length l)) as [->|].
    + eapply tstores_mono; [apply (tstores_read_unused d m a l); auto|]. intros; lia.
    + destruct (lookup_lt_is_Some_2 l k ltac:(lia)) as [e He].
      eapply tstores_mono; [by apply (tstores_read_tsl d m a l k e)|]. intros t -> _. by apply (Hhi k).
  - intros t i Ht Hi. apply tstores_ret; [done|]. eexists. split; [done|]. exists k. split; [done|].
    destruct (Z.ltb_spec from (tsl_time t)); [by left|]. right. split; [|done].
    destruct (decide (k = length l)); [done|]. specialize (Ht ltac:(lia)). lia.
Qed.

(** An entry has the time [from]. *)
Lemma search_found a l from to q e :
  increasing l -> l !! q = Some e -> e_time e = from -> search_result a l from to (node_addr a q).
Proof.
  intros Hinc He Heq. pose proof (lookup_lt_Some _ _ _ He).
  assert (forall k e', l !! k = Some e' -> ((k < q)%nat -> e_time e' < from) /\ (k = q -> e_time e' = from) /\
    ((q < k)%nat -> from < e_time e')) as Hcmp.
  { intros k e' Hk. split_and!; intros Hkq.
    - rewrite <- Heq. by apply (Hinc k q).
    - subst k. rewrite He in Hk. by injection Hk as <-.
    - rewrite <- Heq. by apply (Hinc q k). }
  unfold search_result. destruct (to <? from).
  - exists (S q). split; [|left; ts_unfold; lia]. split; [lia|]. intros k e' Hk.
    pose proof (Hcmp k e' Hk). destruct (Nat.lt_trichotomy k q) as [|[|]]; lia.
  - exists q. split; [|done]. split; [lia|]. intros k e' Hk.
    pose proof (Hcmp k e' Hk). destruct (Nat.lt_trichotomy k q) as [|[|]]; lia.
Qed.

Lemma node_diff a i j : (node_addr a j - node_addr a i) / LOG_IDX_DATA_SIZE = Z.of_nat j - Z.of_nat i.
Proof.
  replace (node_addr a j - node_addr a i) with ((Z.of_nat j - Z.of_nat i) * LOG_IDX_DATA_SIZE) by (ts_unfold; lia).
  by apply Z.div_mul.
Qed.

(** The search ends at the place where [from] belongs; to query backwards, at
    the entry before it. *)
Section search_loop.
Context d m a l from to (Hm : ts_holds d m) (Hs : sector_in (geo (parent d)) a)
  (Hl : log_at m a (ts_sec_size d) l) (Hinc : increasing l) (H31 : max_size (geo (parent d)) < 2147483648)
  (Hroom : to < from -> 0 < free_space (ts_sec_size d) l).

Lemma node_bounds i : (i <= length l)%nat -> 0 <= a /\ 16 <= node_addr a i /\ node_addr a i < 2147483648.
Proof. intros Hi. apply (node_i32 (geo (parent d)) a l); [done|by destruct Hl|done|done]. Qed.

(** The end of a turn that has looked at entry [q] of [i] to [j]. *)
Definition search_next (t : fdb_tsl) (q i j : nat) : M (fdb_tsdb W) (Z * Z + Z) :=
  let start := if tsl_time t <? from then i32 (node_addr a q + LOG_IDX_DATA_SIZE) else node_addr a i in
  let end_ := if tsl_time t <? from then node_addr a j else i32 (node_addr a q - LOG_IDX_DATA_SIZE) in
  if end_ <? start then
    if to <? from then
      tsl ← read_tsl (tsl_set_index (u32 start) t);
      mret (inr (if from <? tsl_time tsl then i32 (start - LOG_IDX_DATA_SIZE) else start))
    else mret (inr start)
  else mret (inl (start, end_)).

Definition search_post (i j : nat) (r : Z * Z + Z) : Prop :=
  match r with
  | inl v => exists i' j', searching from a l v i' j' /\ (j' - i' < j - i)%nat
  | inr x => search_result a l from to x
  end.

Lemma tstores_search_up io t q i j e :
  ts_holds (ts_io io d) m -> searching from a l (node_addr a i, node_addr a j) i j -> (i <= q <= j)%nat ->
  l !! q = Some e -> tsl_time t = e_time e -> e_time e < from ->
  tstores (search_next t q i j) (ts_io io d) m (search_post i j).
Proof.
  intros Hio (_ & Hij & Hlo & Hhi) Hq He Ht Hlt. pose proof (node_bounds (S q) ltac:(lia)) as B.
  assert (node_addr a q + LOG_IDX_DATA_SIZE = node_addr a (S q)) as HS by (ts_unfold; lia).
  assert (forall k e', l !! k = Some e' -> (k < S q)%nat -> e_time e' < from) as Hbefore.
  { intros k e' Hk Hkq. destruct (decide (k = q)) as [->|]; [rewrite He in Hk; injection Hk as <-; lia|].
    pose proof (Hinc k q e' e ltac:(lia) Hk He). lia. }
  unfold search_next. rewrite Ht, (proj2 (Z.ltb_lt _ _) Hlt), HS, (i32_small (node_addr a (S q))) by lia.
  destruct (decide (q = j)) as [->|Hqj].
  - rewrite (proj2 (Z.ltb_lt _ _)) by (ts_unfold; lia). eapply tstores_mono.
    { apply (tstores_search_end (ts_io io d) m a l from to (S j)); try done; lia. }
    by intros r (x & -> & Hx).
  - rewrite (proj2 (Z.ltb_ge _ _)) by (ts_unfold; lia). apply tstores_ret; [done|].
    exists (S q), j. split; [|lia]. split; [done|]. split; [lia|]. by split.
Qed.

Lemma tstores_search_down io t q i j e :
  ts_holds (ts_io io d) m -> searching from a l (node_addr a i, node_addr a j) i j -> (i <= q <= j)%nat ->
  l !! q = Some e -> tsl_time t = e_time e -> from < e_time e ->
  tstores (search_next t q i j) (ts_io io d) m (search_post i j).
Proof.
  intros Hio (_ & Hij & Hlo & Hhi) Hq He Ht Hgt. pose proof (node_bounds q ltac:(lia)) as B.
  assert (forall k e', l !! k = Some e' -> (q <= k)%nat -> from < e_time e') as Hafter.
  { intros k e' Hk Hkq. destruct (decide (k = q)) as [->|]; [rewrite He in Hk; injection Hk as <-; lia|].
    pose proof (Hinc q k e e' ltac:(lia) He Hk). lia. }
  unfold search_next. rewrite Ht, (proj2 (Z.ltb_ge (e_time e) from)) by lia.
  assert (i32 (node_addr a q - LOG_IDX_DATA_SIZE) = node_addr a q - 16) as ->
    by (apply i32_small; unfold LOG_IDX_DATA_SIZE; lia).
  destruct (decide (q = i)) as [->|Hqi].
  - rewrite (proj2 (Z.ltb_lt _ _)) by (ts_unfold; lia). eapply tstores_mono.
    { apply (tstores_search_end (ts_io io d) m a l from to i); try done; lia. }
    by intros r (x & -> & Hx).
  - assert (node_addr a q - 16 = node_addr a (q - 1)) as -> by (ts_unfold; lia).
    rewrite (proj2 (Z.ltb_ge _ _)) by (ts_unfold; lia). apply tstores_ret; [done|].
    exists i, (q - 1)%nat. split; [|lia]. split; [done|]. split; [lia|]. split; [done|].
    intros k e' Hk Hkq. apply (Hafter k); [done|lia].
Qed.

Lemma tstores_search :
  l <> [] -> tstores (search_start_tsl_addr (node_addr a 0) (last_node a l) from to) d m (search_result a l from to).
Proof.
  intros Hne. assert (0 < length l)%nat as Hlen by (destruct l; [done|cbn; lia]).
  unfold search_start_tsl_addr, last_node, tstores.
  pose proof (node_bounds 0 ltac:(lia)). pose proof (node_bounds (length l - 1) ltac:(lia)). rewrite !i32_small by lia.
  eapply (wp_loop
    (fun v d' => exists io i j, d' = ts_io io d /\ ts_holds d' m /\ searching from a l v i j)
    (fun v _ => Z.to_nat ((snd v - fst v) / LOG_IDX_DATA_SIZE))).
  2:{ exists (dbio (parent d)), 0%nat, (length l - 1)%nat. rewrite ts_io_id. split; [done|]. split; [done|].
      split; [done|]. split; [lia|]. split; [intros; lia|]. intros k e Hk. apply lookup_lt_Some in Hk. lia. }
  2:{ cbn [fst snd]. lia. }
  intros v d' (io & i & j & -> & Hio & Hv). destruct (Hv) as (-> & Hij & _).
  pose proof (node_bounds j ltac:(lia)).
  destruct (mid_node a i j) as (q & Hq & ->); [lia..|]. pose proof (node_bounds q ltac:(lia)).
  destruct (lookup_lt_is_Some_2 l q ltac:(lia)) as [e He]. apply wp_bind. eapply wp_tstores.
  { by apply (tstores_read_tsl (ts_io io d) m a l q e). }
  intros t io2 -> Hio2. change (ts_io io2 (ts_io io d)) with (ts_io io2 d) in *.
  set (t := tsl_of a (ts_sec_size (ts_io io d)) l q e). rewrite (i32_small (node_addr a q)) by lia.
  destruct (Z.eqb_spec (tsl_time t) from) as [Heq|Hneq].
  { apply wp_ret. exists io2. split; [done|]. split; [done|]. by apply search_found with e. }
  eapply (wp_tstores (search_next t q i j) (ts_io io2 d) m (search_post i j)).
  { change (tsl_time t) with (e_time e) in Hneq.
    destruct (Z.lt_trichotomy (e_time e) from) as [|[|]]; [by eapply tstores_search_up|done|by eapply tstores_search_down]. }
  intros [v|x] io3 Hr Hio3; [|by exists io3]. destruct Hr as (i' & j' & Hv' & Hlt). split; [by exists io3, i', j'|].
  destruct Hv' as (-> & ? & _). cbn [fst snd]. rewrite !node_diff. lia.
Qed.
End search_loop.
End search.
