(* ===== verification/TsQuery.v ===== *)
(** Time-series database: queries by time.

    [fdb_tsl_iter_by_time] visits the entries whose timestamps lie in the
    interval, forwards when [from <= to] and backwards otherwise: it looks for
    the first sector that reaches [from], searches its index, and goes on until
    it leaves the interval. *)
From S2P Require Import Prelude FdbDef Status FlashIO FlashSpec KvRing.
From S2P Require Import TsDef TsOps TsApi TsSpec TsRead TsAppend TsIter TsRing TsLog TsStore TsDb TsCalls TsSearch.
From Stdlib Require Import Sorted.

(** ** The interval *)

(** The entry lies in the interval, as the code decides it. *)
Definition inside (from to : Z) (t : fdb_tsl) : bool :=
  ((from <=? to) && (from <=? tsl_time t) && (tsl_time t <=? to))
  || ((to <? from) && (tsl_time t <=? from) && (to <=? tsl_time t)).

(** The entry is not on the near side of the interval. *)
Definition past (from to : Z) (t : fdb_tsl) : bool :=
  if from <=? to then from <=? tsl_time t else tsl_time t <=? from.

(** What the iteration over the interval does with a node: it ends behind the
    interval, and skips a node that is not in use. *)
Definition within {A} (from to : Z) (f : fdb_tsl -> A -> bool * A) (t : fdb_tsl) (a : A) : bool * A :=
  if decide (tsl_status t = FDB_TSL_UNUSED) then (false, a)
  else if inside from to t then f t a else (true, a).

(** The order in which the entries are visited. *)
Definition goes (from to : Z) (t t' : fdb_tsl) : Prop :=
  if from <=? to then tsl_time t < tsl_time t' else tsl_time t' < tsl_time t.

Lemma inside_past from to t : inside from to t = true -> past from to t = true.
Proof.
  unfold inside, past. destruct (Z.leb_spec from to), (Z.ltb_spec to from); try lia; cbn [andb orb];
    rewrite ?orb_false_r, ?andb_true_iff; tauto.
Qed.

Lemma goes_past from to t t' : goes from to t t' -> past from to t = true -> past from to t' = true.
Proof.
  unfold goes, past. destruct (from <=? to); rewrite !Z.leb_le; lia.
Qed.

(** Behind the interval there is no way back. *)
Lemma goes_outside from to t t' :
  goes from to t t' -> past from to t = true -> inside from to t = false -> inside from to t' = false.
Proof.
  unfold goes, past, inside. destruct (Z.leb_spec from to), (Z.ltb_spec to from); try lia; cbn [andb orb];
    rewrite ?orb_false_r, !andb_false_iff, !Z.leb_le, !Z.leb_gt; lia.
Qed.

(** Visiting the entries past [from] until the interval ends is visiting the
    entries of the interval. *)
Lemma visit_within {A} from to (f : fdb_tsl -> A -> bool * A) l a :
  StronglySorted (goes from to) l -> Forall (fun t => tsl_status t <> FDB_TSL_UNUSED) l ->
  snd (visit (within from to f) (List.filter (past from to) l) a) = snd (visit f (List.filter (inside from to) l) a).
Proof.
  intros Hl Hu. revert a. induction Hl as [|t l Hl IH Ht]; intros a; [done|].
  apply Forall_cons in Hu as [Hut Hu]. specialize (IH Hu). cbn [List.filter].
  destruct (past from to t) eqn:Ep.
  - assert (within from to f t a = if inside from to t then f t a else (true, a)) as Ew
      by (unfold within; by rewrite decide_False).
    cbn [visit]. rewrite Ew. destruct (inside from to t) eqn:Ei.
    + cbn [visit]. destruct (f t a) as [[] b]; cbn [fst snd]; [done|apply IH].
    + cbn [fst snd]. assert (List.filter (inside from to) l = []) as ->; [|done].
      clear IH Hl Hu. induction l as [|t' l IHl]; [done|]. apply Forall_cons in Ht as [Ht' Ht].
      cbn [List.filter]. rewrite (goes_outside _ _ _ _ Ht' Ep Ei). by apply IHl.
  - destruct (inside from to t) eqn:Ei; [by rewrite (inside_past _ _ _ Ei) in Ep|]. apply IH.
Qed.

(** ** Increasing logs *)

Lemma entries_lookup secs k s j e :
  secs !! k = Some s -> ss_log s !! j = Some e ->
  entries secs !! (length (entries (take k secs)) + j)%nat = Some e.
Proof.
  intros Hk Hj. replace (entries secs) with (entries (take k secs) ++ entries (s :: drop (S k) secs))
    by (rewrite <- entries_app; by rewrite take_drop_middle).
  rewrite lookup_app_r by lia. replace (_ + j - _)%nat with j by lia.
  unfold entries at 1. cbn [map concat]. by apply lookup_app_l_Some.
Qed.

Lemma increasing_part secs k s : increasing (entries secs) -> secs !! k = Some s -> increasing (ss_log s).
Proof.
  intros H Hk i j ei ej Hij Hi Hj.
  apply (H (length (entries (take k secs)) + i) (length (entries (take k secs)) + j))%nat; [lia|..];
    by eapply entries_lookup.
Qed.

Lemma increasing_parts secs k k' s s' e e' :
  increasing (entries secs) -> secs !! k = Some s -> secs !! k' = Some s' -> (k < k')%nat ->
  In e (ss_log s) -> In e' (ss_log s') -> e_time e < e_time e'.
Proof.
  intros H Hk Hk' Hlt He He'. apply list_elem_of_In, list_elem_of_lookup in He as [j He].
  apply list_elem_of_In, list_elem_of_lookup in He' as [j' He'].
  apply (H (length (entries (take k secs)) + j) (length (entries (take k' secs)) + j'))%nat;
    [|by eapply entries_lookup..].
  apply lookup_lt_Some in He. pose proof (take_drop (S k) (take k' secs)) as E.
  rewrite take_take, Nat.min_l in E by lia. rewrite <- E. rewrite (take_S_r _ _ _ Hk), !entries_app, !length_app.
  unfold entries at 3. cbn. rewrite app_nil_r. lia.
Qed.

Lemma sorted_lookup {B} (R : B -> B -> Prop) (l : list B) :
  (forall i j x y, (i < j)%nat -> l !! i = Some x -> l !! j = Some y -> R x y) -> StronglySorted R l.
Proof.
  induction l as [|x l IH]; intros H; constructor.
  - apply IH. intros i j y z Hij Hi Hj. apply (H (S i) (S j)); [lia|done..].
  - apply Forall_lookup. intros i y Hy. apply (H 0%nat (S i)); [lia|done..].
Qed.

Lemma sorted_rev {B} (R : B -> B -> Prop) (l : list B) :
  StronglySorted R l -> StronglySorted (fun x y => R y x) (rev l).
Proof.
  induction 1 as [|x l Hl IH Hx]; [constructor|]. cbn [rev].
  clear Hl. assert (Forall (R x) (rev l)) as Hr by (apply Forall_rev; done). clear Hx.
  induction IH as [|y k Hk IHk Hy]; cbn [app]; [by repeat constructor|].
  apply Forall_cons in Hr as [Hxy Hr]. constructor; [by apply IHk|].
  apply Forall_app. split; [done|by repeat constructor].
Qed.

Section query.
Context {W} {ST : Storage W} {SL : StorageLaws W} {IN : Indeterminate} {CL : Clock W}.
Implicit Type d : fdb_tsdb W.

(** ** One sector *)

(** The callback [iterate_interval] passes on. *)
Definition interval_cb {A} (from to : Z) (cb : fdb_tsl -> A -> M (fdb_tsdb W) (bool * A)) (tsl : fdb_tsl) (arg : A)
    : M (fdb_tsdb W) (bool * A) :=
  if decide (tsl_status tsl = FDB_TSL_UNUSED) then mret (false, arg)
  else if ((from <=? to) && (from <=? tsl_time tsl) && (tsl_time tsl <=? to))
          || ((to <? from) && (tsl_time tsl <=? from) && (to <=? tsl_time tsl))
  then cb tsl arg
  else mret (true, arg).

Lemma computes_within {A} from to cb (f : fdb_tsl -> A -> bool * A) m :
  computes cb f m -> computes (interval_cb from to cb) (within from to f) m.
Proof.
  intros H t a d Hd. unfold interval_cb, within. destruct (decide _); [by apply tstores_ret|].
  fold (inside from to t). destruct (inside from to t); [by apply H|by apply tstores_ret].
Qed.

(** The entries of a sector, in the order of the query. *)
Definition ordered (from to : Z) (l : list fdb_tsl) : list fdb_tsl := if from <=? to then l else rev l.

(** The end of the search is the place where the query begins. *)
Lemma past_drop from to a n l k :
  from <= to -> splits from l k -> List.filter (past from to) (sector_tsls a n l) = drop k (sector_tsls a n l).
Proof.
  intros Hft [_ Hk]. apply filter_drop. intros i t Ht. unfold sector_tsls in Ht.
  rewrite list_lookup_imap in Ht. apply fmap_Some in Ht as (e & He & ->).
  unfold past. rewrite (proj2 (Z.leb_le _ _) Hft). cbn [tsl_of tsl_time]. specialize (Hk i e He).
  destruct (Nat.leb_spec k i); [apply Z.leb_le|apply Z.leb_gt]; lia.
Qed.

Lemma past_take from to a n l k :
  to < from -> splits (from + 1) l k ->
  List.filter (past from to) (rev (sector_tsls a n l)) = rev (take k (sector_tsls a n l)).
Proof.
  intros Hft [_ Hk]. rewrite filter_rev. f_equal. apply filter_take. intros i t Ht. unfold sector_tsls in Ht.
  rewrite list_lookup_imap in Ht. apply fmap_Some in Ht as (e & He & ->).
  unfold past. rewrite (proj2 (Z.leb_gt _ _) Hft). cbn [tsl_of tsl_time]. specialize (Hk i e He).
  destruct (Nat.ltb_spec i k); [apply Z.leb_le|apply Z.leb_gt]; lia.
Qed.

(** Going backwards from the place behind the last entry. *)
Lemma tstores_behind {A} d m a l cb (f : fdb_tsl -> A -> bool * A) from to s tsl arg :
  ts_holds d m -> sector_in (geo (parent d)) a -> log_at m a (ts_sec_size d) l -> l <> [] ->
  0 < free_space (ts_sec_size d) l ->
  computes cb f m -> status s <> FDB_SECTOR_STORE_EMPTY -> addr s = a ->
  tstores (iterate_interval (backward_fuel s (node_addr a (length l))) get_last_tsl_addr from to cb s
             (tsl_set_index (node_addr a (length l)) tsl) arg) d m
    (fun r => let v := visit (within from to f) (rev (sector_tsls a (ts_sec_size d) l)) arg in
              fst (fst r) = fst v /\ snd r = snd v).
Proof.
  intros Hm Hs Hl Hne Hfree Hcb Hst Ea. assert (0 < length l)%nat by (destruct l; [done|cbn; lia]).
  destruct (node_bound _ _ _ (length l) Hs (la_fits _ _ _ _ Hl) ltac:(lia)) as (Ha & Hb & H32).
  assert (backward_fuel s (node_addr a (length l)) = S (backward_fuel s (node_addr a (length l - 1)))) as ->.
  { unfold backward_fuel. rewrite Ea.
    replace (node_addr a (length l) - a) with (Z.of_nat (length l + 2) * LOG_IDX_DATA_SIZE) by (ts_unfold; lia).
    replace (node_addr a (length l - 1) - a) with (Z.of_nat (length l + 1) * LOG_IDX_DATA_SIZE) by (ts_unfold; lia).
    rewrite !Z.div_mul by done. lia. }
  unfold iterate_interval. cbn [loop].
  eapply (tstores_bind _ _ d m m (fun r => exists t, r = inl (tsl_set_index (node_addr a (length l - 1)) t, arg))).
  - eapply tstores_bind; [by apply (tstores_read_unused d m a l)|]. intros t i [Ht Hti] Hi.
    rewrite decide_True by done. eapply (tstores_bind _ _ _ m m (fun it => it = (false, arg))); [by apply tstores_ret|].
    intros it j -> Hj. cbn [fst snd].
    assert (get_last_tsl_addr s t = node_addr a (length l - 1)) as ->.
    { unfold get_last_tsl_addr. rewrite decide_False, Hti, Ea by done. cbn [tsl_set_index tsl_index].
      rewrite (proj2 (Z.leb_le _ _)) by (ts_unfold; lia). unfold FAILED_ADDR in H32. ts_unfold. wrap_small. lia. }
    rewrite (proj2 (Z.eqb_neq _ _)) by (ts_unfold; lia). apply tstores_ret; [done|]. by eexists.
  - intros r i (t & ->) Hi. cbn [loop].
    rewrite <- (take_ge (sector_tsls _ _ _) (S (length l - 1))) by (rewrite length_sector_tsls; lia).
    apply (tstores_nodes_backward (ts_io i d) m a l (interval_cb from to cb) (within from to f)); try done; [lia|].
    by apply computes_within.
Qed.

(** The search in a sector that reaches [from], and the iteration from there. *)
Lemma tstores_sector_query {A} d m a l cb (f : fdb_tsl -> A -> bool * A) from to x tsl arg :
  ts_holds d m -> sector_in (geo (parent d)) a -> log_at m a (ts_sec_size d) l -> increasing l ->
  max_size (geo (parent d)) < 2147483648 -> (to < from -> 0 < free_space (ts_sec_size d) l) ->
  computes cb f m -> status x <> FDB_SECTOR_STORE_EMPTY -> addr x = a -> end_idx x = last_node a l ->
  let part := List.filter (past from to) (ordered from to (sector_tsls a (ts_sec_size d) l)) in
  part <> [] ->
  tstores (index ← search_start_tsl_addr (u32 (addr x + SECTOR_HDR_DATA_SIZE)) (end_idx x) from to;
           let index := u32 index in
           iterate_interval
             (if from <=? to then forward_fuel x index else backward_fuel x index)
             (if from <=? to then get_next_tsl_addr else get_last_tsl_addr) from to cb x
             (tsl_set_index index tsl) arg) d m
    (fun r => let v := visit (within from to f) part arg in fst (fst r) = fst v /\ snd r = snd v).
Proof.
  intros Hm Hs Hl Hinc H31 Hroom Hcb Hst Ea Ee part Hne.
  assert (l <> []) as Hln by (intros ->; apply Hne; unfold part, ordered; by destruct (from <=? to)).
  assert (forall i, (i <= length l)%nat -> u32 (node_addr a i) = node_addr a i /\ 0 <= a) as Hnode.
  { intros i Hi. destruct (node_bounds d m a l Hs Hl H31 i Hi) as (? & ? & ?). split; [|done].
    apply u32_small. lia. }
  assert (0 < length l)%nat as Hpos by (destruct l; [done|cbn; lia]).
  destruct (Hnode 0%nat ltac:(lia)) as [Hn0 Ha]. rewrite Ea, Ee.
  assert (a + SECTOR_HDR_DATA_SIZE = node_addr a 0) as -> by (ts_unfold; lia). rewrite Hn0.
  eapply tstores_bind; [by apply (tstores_search d m a l from to)|]. intros r i Hr Hi. cbv zeta.
  unfold search_result in Hr. unfold part, ordered in *. pose proof (computes_within from to cb f m Hcb) as Hw.
  destruct (Z.leb_spec from to) as [Hft|Hft].
  - rewrite (proj2 (Z.ltb_ge _ _)) in Hr by lia. destruct Hr as (k & Hk & ->).
    rewrite (past_drop from to a (ts_sec_size d) l k) in * by done.
    assert (k < length l)%nat as Hkl.
    { destruct (decide (k < length l)%nat); [done|]. by rewrite drop_ge in Hne by (rewrite length_sector_tsls; lia). }
    destruct (Hnode k ltac:(lia)) as [-> _].
    by apply (tstores_nodes_forward (ts_io i d) m a l (interval_cb from to cb)).
  - rewrite (proj2 (Z.ltb_lt _ _)) in Hr by lia. destruct Hr as (k & Hk & Hr).
    rewrite (past_take from to a (ts_sec_size d) l k) in * by done.
    assert (0 < k)%nat as Hk0 by (destruct k; [done|lia]). destruct (Hk) as [Hkl _].
    destruct Hr as [-> | [-> ->]].
    + assert (node_addr a k - LOG_IDX_DATA_SIZE = node_addr a (k - 1)) as -> by (ts_unfold; lia).
      destruct (Hnode (k - 1)%nat ltac:(lia)) as [-> _].
      replace (take k (sector_tsls a (ts_sec_size d) l)) with (take (S (k - 1)) (sector_tsls a (ts_sec_size d) l)) by (f_equal; lia).
      apply (tstores_nodes_backward (ts_io i d) m a l (interval_cb from to cb)); try done. lia.
    + destruct (Hnode (length l) ltac:(lia)) as [-> _]. rewrite take_ge by (rewrite length_sector_tsls; lia).
      apply (tstores_behind (ts_io i d) m a l); try done. by apply Hroom.
Qed.

(** ** One turn *)

(** Whether the query looks into a sector, as the code decides it. *)
Definition in_range (from to : Z) (found at_start : bool) (x : tsdb_sec_info) : bool :=
  found ||
  ((from <=? to) && ((at_start && (from <=? start_time x)) || (from <=? end_time x))) ||
  (negb (from <=? to) && ((at_start && (end_time x <=? from)) || (start_time x <=? from))).

Lemma in_ordered from to l t : In t (ordered from to l) <-> In t l.
Proof. unfold ordered. destruct (from <=? to); [done|]. by rewrite <- in_rev. Qed.

Lemma in_sector_tsls a n l t :
  In t (sector_tsls a n l) -> exists i e, l !! i = Some e /\ tsl_time t = e_time e /\ tsl_status t = e_status e.
Proof.
  intros Ht. apply list_elem_of_In, list_elem_of_lookup in Ht as [i Ht]. unfold sector_tsls in Ht.
  rewrite list_lookup_imap in Ht. apply fmap_Some in Ht as (e & He & ->). by exists i, e.
Qed.

Lemma sector_tsls_in a n l i e : l !! i = Some e -> exists t, In t (sector_tsls a n l) /\ tsl_time t = e_time e.
Proof.
  intros He. exists (tsl_of a n l i e). split; [|done]. apply list_elem_of_In, (list_elem_of_lookup_2 _ i).
  unfold sector_tsls. by rewrite list_lookup_imap, He.
Qed.

(** It does so exactly when the sector has entries that are past [from]. *)
Lemma in_range_iff from to found at_start s a n x :
  sector_ready s a x -> increasing (ss_log s) ->
  (forall e, ss_log s !! 0%nat = Some e -> ss_start s = e_time e) ->
  (found = true -> forall t, In t (sector_tsls a n (ss_log s)) -> past from to t = true) ->
  let part := List.filter (past from to) (ordered from to (sector_tsls a n (ss_log s))) in
  if in_range from to found at_start x then part <> [] else part = [].
Proof.
  intros [Hne _ _ Hst Het _] Hinc Hfirst Hfound part. unfold in_range. rewrite Hst, Het.
  assert (0 < length (ss_log s))%nat as Hlen by (destruct (ss_log s); [done|cbn; lia]).
  destruct (lookup_lt_is_Some_2 (ss_log s) 0 Hlen) as [e0 H0]. rewrite (Hfirst e0 H0).
  assert (exists el, ss_log s !! (length (ss_log s) - 1)%nat = Some el /\ last_entry_time (ss_log s) = e_time el)
    as (el & Hl & ->).
  { destruct (lookup_lt_is_Some_2 (ss_log s) (length (ss_log s) - 1) ltac:(lia)) as [el Hl].
    exists el. split; [done|]. unfold last_entry_time. rewrite last_lookup.
    replace (pred (length (ss_log s))) with (length (ss_log s) - 1)%nat by lia. by rewrite Hl. }
  assert (forall i e, ss_log s !! i = Some e -> e_time e0 <= e_time e <= e_time el) as Hb.
  { intros i e He. pose proof (lookup_lt_Some _ _ _ He). split.
    - destruct (decide (i = 0)%nat) as [->|]; [rewrite H0 in He; injection He as <-; lia|].
      pose proof (Hinc 0%nat i e0 e ltac:(lia) H0 He). lia.
    - destruct (decide (i = length (ss_log s) - 1)%nat) as [->|]; [rewrite Hl in He; injection He as <-; lia|].
      pose proof (Hinc i (length (ss_log s) - 1)%nat e el ltac:(lia) He Hl). lia. }
  assert (forall i e, ss_log s !! i = Some e -> (if from <=? to then from <= e_time e else e_time e <= from) -> part <> []) as Hsome.
  { intros i e He Hp E. destruct (sector_tsls_in a n _ i e He) as (t & Ht & Htt).
    assert (In t part) as Hin; [|rewrite E in Hin; destruct Hin].
    apply filter_In. split; [by rewrite in_ordered|]. unfold past. rewrite Htt. destruct (from <=? to); by apply Z.leb_le. }
  assert ((forall i e, ss_log s !! i = Some e -> ~ (if from <=? to then from <= e_time e else e_time e <= from)) -> part = []) as Hnone.
  { intros Hn. destruct part as [|t part'] eqn:Ep; [done|exfalso].
    assert (In t part) as Hin by (rewrite Ep; by left). apply filter_In in Hin as [Hin Hp].
    rewrite in_ordered in Hin. apply in_sector_tsls in Hin as (i & e & He & Htt & _). apply (Hn i e He).
    unfold past in Hp. rewrite Htt in Hp. destruct (from <=? to); by apply Z.leb_le. }
  pose proof (Hb _ _ H0). pose proof (Hb _ _ Hl).
  destruct found; cbn [orb].
  { destruct (sector_tsls_in a n _ _ _ H0) as (t & Ht & Htt). apply (Hsome 0%nat e0 H0).
    specialize (Hfound eq_refl t Ht). unfold past in Hfound. rewrite Htt in Hfound.
    destruct (from <=? to); by apply Z.leb_le. }
  destruct (from <=? to); cbn [andb orb negb]; rewrite ?orb_false_r.
  - destruct (Z.leb_spec from (e_time el)).
    + rewrite orb_true_r. by apply (Hsome _ el Hl).
    + rewrite (proj2 (Z.leb_gt _ _)) by lia. rewrite andb_false_r. apply Hnone. intros i e He ?. specialize (Hb i e He). lia.
  - destruct (Z.leb_spec (e_time e0) from).
    + rewrite orb_true_r. by apply (Hsome _ e0 H0).
    + rewrite (proj2 (Z.leb_gt (e_time el) _)) by lia. rewrite andb_false_r. apply Hnone. intros i e He ?. specialize (Hb i e He). lia.
Qed.

(** The position in the ring of the [k]-th sector of the query, the address it
    is read at, and what its turn does. *)
Definition query_pos (from to : Z) (n c k : nat) : nat := if from <=? to then k else back_pos n c k.
Definition query_addr (g : geom) (o from to : Z) (c k : nat) : Z :=
  ring_addr g o (if from <=? to then Z.of_nat k else Z.of_nat c - Z.of_nat k).
Definition query_part (g : geom) (o from to : Z) (secs : list sector_state) (c k : nat) : list fdb_tsl :=
  ordered from to (part_at g o secs (query_pos from to (length secs) c k)).
Definition query_ends (from to : Z) (secs : list sector_state) (c k : nat) : bool :=
  match secs !! query_pos from to (length secs) c k with
  | Some s => bool_decide (ss_status s = FDB_SECTOR_STORE_EMPTY)
  | None => true
  end.
Definition query_turn {A} (g : geom) (o from to : Z) (secs : list sector_state) (c : nat)
    (f : fdb_tsl -> A -> bool * A) (k : nat) (a : A) : bool * A :=
  if query_ends from to secs c k then (true, a)
  else visit (within from to f) (List.filter (past from to) (query_part g o from to secs c k)) a.

Lemma query_addr_pos d m o secs c from to k :
  ring_log d m o secs -> (c < length secs)%nat -> (k < length secs)%nat ->
  (query_pos from to (length secs) c k < length secs)%nat /\
  query_addr (geo (parent d)) o from to c k =
    ring_addr (geo (parent d)) o (Z.of_nat (query_pos from to (length secs) c k)).
Proof.
  intros H Hc Hk. unfold query_addr, query_pos. destruct (from <=? to); [done|]. by apply (ring_addr_back d m).
Qed.

(** The next sector of the query. *)
Lemma query_next d sector m o secs c from to k :
  ring_log d m o secs -> (k < length secs)%nat ->
  addr sector = query_addr (geo (parent d)) o from to c k ->
  let trav := u32 (Z.of_nat k * ts_sec_size d + ts_sec_size d) in
  trav = Z.of_nat (S k) * ts_sec_size d /\
  (if from <=? to then get_next_sector_addr d sector trav else get_last_sector_addr d sector trav) =
    (if (S k <? length secs)%nat then query_addr (geo (parent d)) o from to c (S k) else FAILED_ADDR) /\
  (query_addr (geo (parent d)) o from to c (S k) =? FAILED_ADDR) = false.
Proof.
  intros H Hk Ha. unfold query_addr in *. destruct (from <=? to).
  - by apply (ring_next_turn d sector m o secs k).
  - by apply (ring_last_turn d sector m o secs c k).
Qed.

(** What a query needs of the log: timestamps increase, a sector's start time
    is that of its first entry, and backwards no sector is exactly full. *)
Record queryable (g : geom) (from to : Z) (secs : list sector_state) : Prop := {
  qy_increasing : increasing (entries secs);
  qy_start : forall k s e, secs !! k = Some s -> ss_log s !! 0%nat = Some e -> ss_start s = e_time e;
  qy_room : to < from -> forall k s, secs !! k = Some s -> 0 < free_space (sec_size g) (ss_log s);
  qy_int : max_size g < 2147483648;
}.

Lemma tstores_query_turn {A} d m o secs c k from to cb (f : fdb_tsl -> A -> bool * A) start sector tsl found a :
  ring_log d m o secs -> queryable (geo (parent d)) from to secs -> computes cb f m ->
  (k < length secs)%nat -> (c < length secs)%nat ->
  let g := geo (parent d) in
  (found = true -> forall t, In t (query_part g o from to secs c k) -> past from to t = true) ->
  let t := query_turn g o from to secs c f k a in
  tstores (by_time_turn from to start cb (query_addr g o from to c k, Z.of_nat k * sec_size g, sector, tsl, (found, a)))
    d m (fun r =>
    match r with
    | inl (sec_addr, trav, _, _, (found', a')) =>
        fst t = false /\ (S k < length secs)%nat /\ sec_addr = query_addr g o from to c (S k) /\
        trav = Z.of_nat (S k) * sec_size g /\ a' = snd t /\
        (found' = true -> found = true \/
           exists t0, In t0 (query_part g o from to secs c k) /\ past from to t0 = true)
    | inr a' => a' = snd t /\ (fst t = true \/ S k = length secs)
    end).
Proof.
  intros H1 Hq Hcb Hk Hc g Hfound t. unfold by_time_turn.
  destruct (query_addr_pos d m o secs c from to k H1 Hc Hk) as [Hp Ep].
  subst t. unfold query_turn, query_ends, query_part, part_at in *.
  set (p := query_pos from to (length secs) c k) in *.
  destruct (lookup_lt_is_Some_2 secs p Hp) as [s Hs]. rewrite Hs in *. cbn [from_option] in *.
  destruct (rl_secs _ _ _ _ H1 p s Hs) as [Hat _]. apply tstores_gets. fold g in Ep.
  set (at_start := query_addr g o from to c k =? start). rewrite Ep.
  eapply (tstores_ring_sector d m o secs p s); [done..|]. cbv zeta. intros i r H2 He Ha Hv.
  turn_fold r d. fold (in_range from to found at_start (turn_sector r (cur_sec d))).
  set (x := turn_sector r (cur_sec d)) in *. set (part := List.filter _ _). set (t := if bool_decide _ then _ else _).
  pose proof (increasing_part _ _ _ (qy_increasing _ _ _ _ Hq) Hs) as Hinc.
  assert (visited r = true -> if in_range from to found at_start x then part <> [] else part = []) as Hpart.
  { intros Hvis. rewrite Hvis in Hv. apply (in_range_iff from to found at_start s (ring_addr g o (Z.of_nat p))); try done.
    - apply Hv.
    - intros e Hse. by apply (qy_start _ _ _ _ Hq p s e).
    - intros Hf t' Ht'. apply (Hfound Hf). by apply in_ordered. }
  eapply tstores_bind with (m1 := m) (R1 := fun it => fst (fst it) = fst t /\ snd it = snd t).
  { unfold t. destruct (visited r) eqn:Evis; cbn [andb].
    - destruct Hv as [Hne Hv]. rewrite (bool_decide_eq_false_2 (ss_status s = FDB_SECTOR_STORE_EMPTY)) by done. specialize (Hpart eq_refl).
      destruct (in_range from to found at_start x).
      + apply (tstores_sector_query (ts_io i d) m (ring_addr g o (Z.of_nat p)) (ss_log s) cb f); try done;
          try apply Hv; [apply H2|exact (ring_sector d m o secs (Z.of_nat p) H1)|apply Hat|apply Hq|].
        intros Hft. by apply (qy_room _ _ _ _ Hq Hft p).
      + rewrite Hpart. apply tstores_ret; [apply H2|]. cbn [fst snd visit]. split; [|done].
        rewrite (bool_decide_eq_false_2 (status (snd r) = FDB_SECTOR_STORE_EMPTY)); [by rewrite andb_false_r|].
        unfold visited in Evis. intros E. rewrite E in Evis. by rewrite andb_false_r in Evis.
    - destruct Hv as (Hem & _ & Hst). rewrite (bool_decide_eq_true_2 (ss_status s = FDB_SECTOR_STORE_EMPTY)) by done. apply tstores_ret; [apply H2|].
      cbn [fst snd]. by rewrite He, Hst. }
  intros [[stop tsl'] a'] j [Hst Ha'] Hj. cbn [fst snd] in *. subst stop a'.
  destruct (fst t) eqn:Ev; [apply tstores_ret; auto|].
  apply tstores_gets. change (@id (fdb_tsdb W) (ts_io j (ts_io i d))) with (ts_io j (ts_io i d)).
  destruct (query_next (ts_io j (ts_io i d)) x m o secs c from to k) as (Et & En & Ef);
    [by apply ring_log_io|done|by rewrite Ha; symmetry|].
  change (ts_sec_size (ts_io j (ts_io i d))) with (sec_size g) in Et, En.
  change (ts_sec_size d) with (sec_size g). rewrite En.
  destruct (Nat.ltb_spec (S k) (length secs)); [rewrite Ef|rewrite Z.eqb_refl]; apply tstores_ret; auto.
  2:{ split; [done|]. right. lia. }
  split; [done|]. split; [done|]. split; [done|]. split; [done|]. split; [done|].
  intros Hf. apply orb_true_iff in Hf as [Hf|Hf]; [by left|]. right. apply andb_true_iff in Hf as [Hvis Hr].
  specialize (Hpart Hvis). rewrite Hr in Hpart. destruct part as [|t0 part'] eqn:Epart; [done|].
  exists t0. apply filter_In. fold part. rewrite Epart. by left.
Qed.

(** ** The whole query *)

Lemma filter_concat_map {B} (P : fdb_tsl -> bool) (p : B -> list fdb_tsl) ks :
  List.filter P (concat (map p ks)) = concat (map (fun k => List.filter P (p k)) ks).
Proof. induction ks as [|k ks IH]; [done|]. cbn. by rewrite List.filter_app, IH. Qed.

(** A sweep that ends at a place behind which there is nothing. *)
Lemma sweep_stop {A} (g : fdb_tsl -> A -> bool * A) (ends : nat -> bool) (part : nat -> list fdb_tsl) n k a :
  (forall j i, (k <= j <= i)%nat -> (i < k + n)%nat -> ends j = true -> part i = []) ->
  sweep (fun j a => if ends j then (true, a) else visit g (part j) a) n k a =
  snd (visit g (concat (map part (seq k n))) a).
Proof.
  revert k a. induction n as [|n IH]; intros k a H; [done|]. cbn [sweep seq map concat].
  destruct (ends k) eqn:E; cbn [fst snd].
  - assert (part k ++ concat (map part (seq (S k) n)) = []) as ->; [|done].
    rewrite (H k k) by (done || lia). apply concat_nil_Forall, Forall_map, Forall_forall.
    intros i Hi%elem_of_seq. apply (H k i); [lia..|done].
  - rewrite visit_app, IH by (intros j i ? ?; apply H; lia). by destruct (fst (visit g (part k) a)).
Qed.

Section whole.
Context d (m : list Z) (o : Z) (secs : list sector_state) (c : nat) (from to : Z).
Context (H : ring_log d m o secs) (Hshape : ring_shape secs c) (Hq : queryable (geo (parent d)) from to secs).
Context (Huse : to < from -> exists s, secs !! c = Some s /\ ss_status s = FDB_SECTOR_STORE_USING).
Notation g := (geo (parent d)).
Notation part := (query_part g o from to secs c).

Lemma query_pos_before k j :
  (k < j < length secs)%nat -> (c < length secs)%nat -> part j <> [] ->
  if from <=? to then (query_pos from to (length secs) c k < query_pos from to (length secs) c j)%nat
  else (query_pos from to (length secs) c j < query_pos from to (length secs) c k)%nat.
Proof.
  intros Hkj Hc Hne. unfold query_part, query_pos, ordered in *. destruct (from <=? to); [lia|].
  assert (j <= c)%nat as Hj.
  { destruct (decide (j <= c)%nat); [done|]. exfalso. apply Hne. unfold back_pos. rewrite (proj2 (Nat.leb_gt _ _)) by lia.
    rewrite (part_at_empty m g o secs c); [done| |done|lia]. intros q x Hx. by destruct (rl_secs _ _ _ _ H q x Hx). }
  unfold back_pos. rewrite !(proj2 (Nat.leb_le _ _)) by lia. lia.
Qed.

Lemma in_part k t :
  In t (part k) -> exists p s e, p = query_pos from to (length secs) c k /\ secs !! p = Some s /\ In e (ss_log s) /\
    tsl_time t = e_time e.
Proof.
  unfold query_part. rewrite in_ordered. unfold part_at. intros Ht.
  destruct (secs !! query_pos from to (length secs) c k) as [s|] eqn:Es; [|destruct Ht].
  apply in_sector_tsls in Ht as (i & e & He & Htt & _). exists (query_pos from to (length secs) c k), s, e.
  split_and!; try done. by apply list_elem_of_In, (list_elem_of_lookup_2 _ i).
Qed.

Lemma query_goes k j t t' :
  (k < j < length secs)%nat -> (c < length secs)%nat -> In t (part k) -> In t' (part j) -> goes from to t t'.
Proof.
  intros Hkj Hc Ht Ht'. assert (part j <> []) as Hne by (intros E; by rewrite E in Ht').
  pose proof (query_pos_before k j Hkj Hc Hne) as Hpos.
  destruct (in_part k t Ht) as (p & s & e & -> & Hs & He & Et). destruct (in_part j t' Ht') as (p' & s' & e' & -> & Hs' & He' & Et').
  unfold goes. rewrite Et, Et'. destruct (from <=? to).
  - by apply (increasing_parts secs _ _ s s' e e' (qy_increasing _ _ _ _ Hq) Hs Hs').
  - by apply (increasing_parts secs _ _ s' s e' e (qy_increasing _ _ _ _ Hq) Hs' Hs).
Qed.

Lemma query_concat : (c < length secs)%nat ->
  concat (map part (seq 0 (length secs))) = ordered from to (ring_tsls g o secs).
Proof.
  intros Hc. unfold query_part, query_pos, ordered. destruct (from <=? to); [by rewrite ring_tsls_parts|].
  rewrite (ring_tsls_used d m o secs c H Hshape), rev_parts.
  assert (seq 0 (length secs) = seq 0 (S c) ++ seq (S c) (length secs - S c)) as ->
    by (rewrite <- seq_app; f_equal; lia).
  rewrite map_app, concat_app. rewrite <- app_nil_r. f_equal.
  - f_equal. apply map_ext_in. intros j Hj%in_seq. unfold back_pos. by rewrite (proj2 (Nat.leb_le _ _)) by lia.
  - apply concat_nil_Forall, Forall_map, Forall_forall. intros j Hj%elem_of_seq. unfold compose, back_pos.
    rewrite (proj2 (Nat.leb_gt _ _)) by lia.
    rewrite (part_at_empty m g o secs c); [done| |done|lia]. intros q x Hx. by destruct (rl_secs _ _ _ _ H q x Hx).
Qed.

Lemma query_ends_empty j i : (c < length secs)%nat -> (j <= i < length secs)%nat ->
  query_ends from to secs c j = true -> part i = [].
Proof.
  intros Hc Hji Hends. pose proof (fun p => part_at_empty m g o secs c p (fun q x Hx => proj1 (rl_secs _ _ _ _ H q x Hx)) Hshape) as Hnil.
  unfold query_ends in Hends.
  destruct (query_addr_pos d m o secs c from to j H Hc ltac:(lia)) as [Hpj _].
  destruct (lookup_lt_is_Some_2 secs _ Hpj) as [s Hs]. rewrite Hs in Hends. apply bool_decide_eq_true_1 in Hends.
  assert (part_at g o secs (query_pos from to (length secs) c j) = []) as Hj.
  { unfold part_at. rewrite Hs. cbn [from_option]. destruct (rl_secs _ _ _ _ H _ s Hs) as [Hat _].
    destruct (sa_empty _ _ _ _ _ _ Hat Hends) as [El _]. unfold ring_part, sector_tsls. by rewrite El. }
  assert (query_pos from to (length secs) c i = query_pos from to (length secs) c j \/
          (c < query_pos from to (length secs) c i)%nat) as [E|Hlt].
  2:{ unfold query_part. rewrite E, Hj. unfold ordered. by destruct (from <=? to). }
  2:{ unfold query_part. rewrite Hnil by done. unfold ordered. by destruct (from <=? to). }
  destruct (decide (i = j)) as [->|Hne]; [by left|]. right.
  assert (c <= query_pos from to (length secs) c j)%nat as Hcj.
  { destruct (decide (c <= query_pos from to (length secs) c j)%nat); [done|].
    rewrite (rs_full _ _ Hshape _ s Hs) in Hends by lia. done. }
  unfold query_pos in *. destruct (Z.leb_spec from to); [lia|]. unfold back_pos in *.
  destruct (Nat.leb_spec j c).
  - assert (j = 0%nat) as -> by lia. rewrite Nat.sub_0_r in Hs. destruct (Huse ltac:(lia)) as (s' & Hs' & Hu).
    rewrite Hs in Hs'. injection Hs' as <-. by rewrite Hu in Hends.
  - rewrite (proj2 (Nat.leb_gt i c)) by lia. lia.
Qed.

(** The turns together visit the entries of the interval. *)
Lemma query_sweep {A} (f : fdb_tsl -> A -> bool * A) arg :
  (c < length secs)%nat ->
  sweep (query_turn g o from to secs c f) (length secs) 0 arg =
  snd (visit f (List.filter (inside from to) (ordered from to (ring_tsls g o secs))) arg).
Proof.
  intros Hc. unfold query_turn.
  rewrite (sweep_stop (within from to f) (query_ends from to secs c) (fun k => List.filter (past from to) (part k))).
  2:{ intros j i Hji Hi Hends. by rewrite (query_ends_empty j i) by (done || lia). }
  rewrite <- filter_concat_map, query_concat by done. apply visit_within.
  - assert (StronglySorted (fun t t' => tsl_time t < tsl_time t') (ring_tsls g o secs)) as Hsort.
    { apply sorted_lookup. intros i j t t' Hij Ht Ht'.
      destruct (ring_tsls_entry _ _ _ _ _ Ht) as (? & ? & ? & e & _ & _ & He & ->).
      destruct (ring_tsls_entry _ _ _ _ _ Ht') as (? & ? & ? & e' & _ & _ & He' & ->).
      cbn [tsl_of tsl_time]. by apply (qy_increasing _ _ _ _ Hq i j). }
    unfold ordered, goes. destruct (from <=? to); [done|]. by apply (sorted_rev (fun t t' => tsl_time t < tsl_time t')).
  - apply List.Forall_forall. intros t. rewrite in_ordered. intros Ht.
    apply list_elem_of_In, list_elem_of_lookup in Ht as [i Ht].
    destruct (ring_tsls_entry _ _ _ _ _ Ht) as (k & x & j & e & Hk & Hj & _ & ->). cbn [tsl_of tsl_status].
    destruct (rl_secs _ _ _ _ H k x Hk) as [Hat _].
    by destruct (Forall_lookup_1 _ _ _ _ (la_ok _ _ _ _ (sa_log _ _ _ _ _ _ Hat)) Hj) as [[? _] _ _ _].
Qed.
End whole.

Lemma wp_query {A} d m o secs c from to cb (f : fdb_tsl -> A -> bool * A) arg :
  ring_log d m o secs -> ring_shape secs c -> oldest_addr (parent d) = ring_addr (geo (parent d)) o 0 ->
  queryable (geo (parent d)) from to secs ->
  (to < from -> exists s, secs !! c = Some s /\ ss_status s = FDB_SECTOR_STORE_USING) ->
  computes cb f m ->
  wp (fdb_tsl_iter_by_time from to (Some cb) arg) (fun r d' =>
    r = snd (visit f (List.filter (inside from to) (ordered from to (ring_tsls (geo (parent d)) o secs))) arg) /\
    kept d m d') d.
Proof.
  intros H Hs Ho Hq Huse Hcb. destruct (rs_cur _ _ Hs) as (sc & Hsc & _). apply lookup_lt_Some in Hsc.
  unfold fdb_tsl_iter_by_time. apply wp_bind, wp_gets.
  rewrite <- (query_sweep d m o secs c from to H Hs Hq Huse f arg Hsc).
  apply (wp_locked_loop d m o secs _ _ H). intros d1 fuel H1 Hg1 Hc1 Hf.
  assert ((if from <=? to then db_oldest_addr (id d) else addr (cur_sec (id d))) =
          query_addr (geo (parent d1)) o from to c 0) as ->.
  { unfold query_addr, db_oldest_addr. cbn [id]. rewrite Hg1. destruct (Z.leb_spec from to); [done|].
    destruct (Huse ltac:(lia)) as (s & Hk & Hu). destruct (rl_secs _ _ _ _ H c s Hk) as [_ Hcur].
    destruct (Hcur Hu) as [_ Hcs]. rewrite (sl_addr _ _ _ _ _ _ Hcs). by rewrite Z.sub_0_r. }
  rewrite <- Hg1. destruct (length secs) as [|n] eqn:El; [lia|].
  eapply (tstores_sweep m _
    (fun '(sec_addr, trav, _, _, (found, a)) k b =>
       sec_addr = query_addr (geo (parent d1)) o from to c k /\ trav = Z.of_nat k * sec_size (geo (parent d1)) /\ a = b /\
       (found = true -> forall j, (k <= j < S n)%nat -> forall t,
          In t (query_part (geo (parent d1)) o from to secs c j) -> past from to t = true))
    _ id (same_log d1 m o secs) (S n) (fun i d' => same_log_io d1 m o secs i d')); [|done| |lia|lia].
  2:{ by split_and!. }
  intros d2 [[[[sec_addr trav] sector] tsl] [found a']] k a (H2 & Hg2 & Hc2) (-> & -> & -> & Hfound) Hk.
  rewrite <- Hg2 in *. rewrite <- Hg1 in Hq. eapply tstores_mono.
  { apply (tstores_query_turn d2 m o secs c k from to cb f); try done; [lia..|].
    intros Hft t. apply (Hfound Hft k). lia. }
  intros [[[[[? ?] ?] ?] [found' ?]]|b] Hr; [|by rewrite El in Hr]. rewrite El in Hr.
  destruct Hr as (? & ? & -> & -> & -> & Hf'). split; [done|]. split; [done|]. split; [done|]. split; [done|]. split; [done|].
  intros E j Hj t1 Ht. destruct (Hf' E) as [E'|(t0 & Ht0 & Hp0)]; [apply (Hfound E' j); [lia|done]|].
  apply (goes_past from to t0 t1); [|done].
  apply (query_goes d2 m o secs c from to H2 Hs Hq k j); [lia|lia|done|done].
Qed.

(** C18: [fdb_tsl_iter_by_time] visits exactly the entries with timestamps in the
    interval: oldest first when [from <= to], newest first when [to < from];
    each once, until the callback returns [true].  It changes neither the
    medium nor the database.  Backwards, this is for a current sector in use and no
    exactly full sector. *)
Theorem query_log {A} d m o secs c from to cb (f : fdb_tsl -> A -> bool * A) arg :
  ring_log d m o secs -> ring_shape secs c -> oldest_addr (parent d) = ring_addr (geo (parent d)) o 0 ->
  queryable (geo (parent d)) from to secs ->
  (to < from -> exists s, secs !! c = Some s /\ ss_status s = FDB_SECTOR_STORE_USING) ->
  computes cb f m ->
  wp (fdb_tsl_iter_by_time from to (Some cb) arg) (fun r d' =>
    r = snd (visit f (List.filter (inside from to) (ordered from to (ring_tsls (geo (parent d)) o secs))) arg) /\
    kept d m d') d.
Proof. by apply wp_query. Qed.

(** ** Counting *)

(** The entry has the status and lies in the interval. *)
Definition counted (from to : Z) (st : fdb_tsl_status) (t : Z) (s : fdb_tsl_status) : bool :=
  (((from <=? to) && (from <=? t) && (t <=? to)) || ((to <? from) && (t <=? from) && (to <=? t)))
  && bool_decide (s = st).

Lemma visit_count st l n :
  0 <= n -> n + Z.of_nat (length l) < 18446744073709551616 ->
  snd (visit (fun tsl count => (false, if decide (tsl_status tsl = st) then u64 (count + 1) else count)) l n) =
  n + Z.of_nat (length (List.filter (fun t => bool_decide (tsl_status t = st)) l)).
Proof.
  revert n. induction l as [|t l IH]; intros n H0 Hn; cbn [visit fst snd length List.filter] in *; [lia|].
  destruct (decide (tsl_status t = st)) as [E|E].
  - rewrite bool_decide_eq_true_2 by done. wrap_small. rewrite IH by lia. cbn [length]. lia.
  - rewrite bool_decide_eq_false_2 by done. rewrite IH by lia. lia.
Qed.

Lemma filter_filter {B} (P Q : B -> bool) l :
  List.filter P (List.filter Q l) = List.filter (fun x => Q x && P x) l.
Proof.
  induction l as [|x l IH]; [done|]. cbn [List.filter]. destruct (Q x); cbn [List.filter andb]; [|done].
  by rewrite IH.
Qed.

(** Counting objects is counting entries. *)
Lemma count_imap (P : Z -> fdb_tsl_status -> bool) (f : nat -> entry -> fdb_tsl) l :
  (forall i e, tsl_time (f i e) = e_time e /\ tsl_status (f i e) = e_status e) ->
  length (List.filter (fun t => P (tsl_time t) (tsl_status t)) (imap f l)) =
  length (List.filter (fun e => P (e_time e) (e_status e)) l).
Proof.
  revert f. induction l as [|e l IH]; intros f Hf; [done|]. rewrite imap_cons. cbn [List.filter].
  destruct (Hf 0%nat e) as [-> ->]. specialize (IH (f ∘ S) (fun i e => Hf (S i) e)).
  destruct (P _ _); cbn [length]; lia.
Qed.

Lemma count_tsls (P : Z -> fdb_tsl_status -> bool) g o secs :
  length (List.filter (fun t => P (tsl_time t) (tsl_status t)) (ring_tsls g o secs)) =
  length (List.filter (fun e => P (e_time e) (e_status e)) (entries secs)).
Proof.
  rewrite ring_tsls_parts. unfold entries.
  assert (forall l k, (forall j, secs !! (k + j)%nat = l !! j) ->
    length (List.filter (fun t => P (tsl_time t) (tsl_status t)) (concat (map (part_at g o secs) (seq k (length l))))) =
    length (List.filter (fun e => P (e_time e) (e_status e)) (concat (map ss_log l)))) as H.
  2:{ by apply (H secs 0%nat). }
  intros l. induction l as [|s l IH]; intros k Hl; [done|].
  cbn [length seq map concat]. rewrite !List.filter_app, !length_app. rewrite (IH (S k)).
  2:{ intros j. rewrite Nat.add_succ_comm. apply (Hl (S j)). }
  f_equal. unfold part_at. pose proof (Hl 0%nat) as H0. rewrite Nat.add_0_r in H0. rewrite H0.
  by apply count_imap.
Qed.

(** A ring of sectors cannot hold too many entries to count. *)
Lemma length_entries g m o secs : ring_at g m o secs -> Z.of_nat (length (entries secs)) <= max_size g.
Proof.
  intros [Hg Hl _ Hn Ho Hs]. pose proof (max_size_eq g Hg) as Hmax.
  assert (Forall (fun s => Z.of_nat (length (ss_log s)) <= sec_size g) secs) as HF.
  { apply Forall_lookup. intros k s Hk. pose proof (la_fits _ _ _ _ (sa_log _ _ _ _ _ _ (Hs k s Hk))) as Hf.
    pose proof (data_size_nonneg (ss_log s)). ts_unfold. lia. }
  rewrite Hmax, <- Hn. clear -HF. unfold entries. induction HF as [|s secs Hs HF IH]; [done|].
  cbn [map concat length]. rewrite length_app. lia.
Qed.

(** [fdb_tsl_query_count] returns the number of entries in the interval that
    have the given status. *)
Lemma query_count_log d m o secs c from to st :
  ring_log d m o secs -> ring_shape secs c -> oldest_addr (parent d) = ring_addr (geo (parent d)) o 0 ->
  queryable (geo (parent d)) from to secs ->
  (to < from -> exists s, secs !! c = Some s /\ ss_status s = FDB_SECTOR_STORE_USING) ->
  init_ok (parent d) = true ->
  wp (fdb_tsl_query_count from to st) (fun r d' =>
    r = Z.of_nat (length (List.filter (fun e => counted from to st (e_time e) (e_status e)) (entries secs))) /\
    kept d m d') d.
Proof.
  intros H Hs Ho Hq Huse Hinit. unfold fdb_tsl_query_count. apply wp_bind, wp_gets. unfold db_init_ok.
  rewrite Hinit. cbn [negb]. eapply wp_mono.
  { apply (wp_query d m o secs c from to (query_count_cb st)
             (fun tsl count => (false, if decide (tsl_status tsl = st) then u64 (count + 1) else count)) 0); try done.
    intros t a d1 H1. by apply tstores_ret. }
  intros r d' [-> Hr]. split; [|done].
  assert (forall l, length (List.filter (fun t => bool_decide (tsl_status t = st)) (List.filter (inside from to) l)) =
    length (List.filter (fun t => counted from to st (tsl_time t) (tsl_status t)) l)) as Hc
    by (intros l; by rewrite filter_filter).
  set (l := List.filter (inside from to) _).
  assert (length (List.filter (fun t => bool_decide (tsl_status t = st)) l) =
    length (List.filter (fun e => counted from to st (e_time e) (e_status e)) (entries secs))) as El.
  { unfold l, ordered. rewrite Hc, <- (count_tsls (counted from to st) (geo (parent d)) o secs).
    destruct (from <=? to); [done|]. by rewrite filter_rev, length_rev. }
  rewrite visit_count; [by rewrite El|done|].
  pose proof (length_entries _ _ _ _ (ring_log_at _ _ _ _ H)) as Hle.
  assert (length l <= length (entries secs))%nat as Hll.
  { unfold l. etransitivity; [apply filter_length_le|]. unfold ordered.
    assert (length (ring_tsls (geo (parent d)) o secs) = length (entries secs)) as Elen.
    { pose proof (count_tsls (fun _ _ => true) (geo (parent d)) o secs) as E.
      rewrite !filter_true in E. exact E. }
    destruct (from <=? to); rewrite ?length_rev; lia. }
  destruct (holds_geom _ _ _ (rl_holds _ _ _ _ H)). lia.
Qed.
End query.
