(* ===== verification/TsThm.v ===== *)
(** Time-series database: a concrete database.

    Two sectors of 128 bytes in files, the first one full with two entries, the
    second one in use with one entry: the hypotheses of the theorems hold on
    it.  The examples at the end show what the code does where those
    hypotheses fail. *)
From S2P Require Import Prelude FdbDef Status FlashIO FlashSpec FileIO FileSpec Disk Mount KvRing.
From S2P Require Import TsDef TsOps TsApi TsSpec TsRead TsAppend TsIter TsRing TsLog TsStore TsDb TsInit TsFormat TsCalls.
From S2P Require Import TsSearch TsQuery.

#[local] Instance ts_zeros : Indeterminate := fun _ => 0.
#[local] Instance ts_clock : Clock libc := mret 0.

(** ** The database *)

Definition tgeom : geom := Geom "log" (storage_dir "/d") 128 256 true.
Definition tentry1 : entry := Entry FDB_TSL_WRITE 10 [1; 2; 3].
Definition tentry2 : entry := Entry FDB_TSL_WRITE 20 (replicate 60 7).
Definition tentry3 : entry := Entry FDB_TSL_WRITE 30 [4; 5].
Definition tblank : list Z := replicate 256 255.
Definition tmedium : list Z :=
  let m := formatted (formatted tblank 0 128) 128 128 in
  let m := append_bytes (opened m 0 10) 0 128 [] tentry1 in
  let m := closed (append_bytes m 0 128 [tentry1] tentry2) 0 [tentry1; tentry2] in
  append_bytes (opened m 128 30) 128 128 [] tentry3.
Definition tsecs : list sector_state :=
  [SecState FDB_SECTOR_STORE_FULL 10 [tentry1; tentry2]; SecState FDB_SECTOR_STORE_USING 30 [tentry3]].
Definition tcur : tsdb_sec_info :=
  TsSec true FDB_SECTOR_STORE_USING 128 SECTOR_MAGIC_WORD 30 30 160 (FDB_TSL_UNUSED, FDB_TSL_UNUSED) 78 176 254.
Definition tdb_on (m : list Z) (init not_fmt : bool) : fdb_tsdb libc :=
  FdbTsdb (FdbDb tgeom (disk_io tgeom "/d" m) FDB_DB_TYPE_TS 0 init not_fmt true true [] 0) tcur 30 70 true.
Definition tdb : fdb_tsdb libc := tdb_on tmedium true false.

Lemma tgeom_file : geom_file tgeom "/d".
Proof. split; [split; simpl; (lia || done)|done|done|done|simpl; unfold DB_PATH_MAX; lia]. Qed.

Lemma tdb_on_holds m b b' : len m = 256 -> bytes m -> ts_holds (tdb_on m b b') m.
Proof. intros. apply (disk_holds tgeom "/d" m); [apply tgeom_file|done|done]. Qed.

Lemma tdb_holds : ts_holds tdb tmedium.
Proof. apply tdb_on_holds; [vm_compute; reflexivity|apply bytes_check; vm_compute; reflexivity]. Qed.

Lemma tentries_ok : Forall entry_ok [tentry1; tentry2; tentry3].
Proof. repeat constructor; try (by apply bytes_check); try done; simpl; lia. Qed.

(** Decides the equations of a concrete sector. *)
Ltac concrete_log :=
  split; [| |vm_compute; discriminate|vm_compute; reflexivity];
  [|intros [|[|[|]]] e [= <-]; split_and!; vm_compute; reflexivity].
Ltac concrete_sector :=
  split; [vm_compute; reflexivity|vm_compute; reflexivity|concrete_log|done|done
         |intros _; split; [lia|vm_compute; reflexivity]| |].

Lemma tsector0 : sector_at tmedium 0 128 FDB_SECTOR_STORE_FULL 10 [tentry1; tentry2].
Proof.
  pose proof tentries_ok as He. rewrite !Forall_cons in He.
  concrete_sector; [rewrite !Forall_cons; tauto|done|].
  intros _. split; [done|]. split_and!; vm_compute; reflexivity.
Qed.

Lemma tsector1 : sector_at tmedium 128 128 FDB_SECTOR_STORE_USING 30 [tentry3].
Proof.
  pose proof tentries_ok as He. rewrite !Forall_cons in He.
  concrete_sector; [rewrite !Forall_cons; tauto|intros _; vm_compute; reflexivity|done].
Qed.

Lemma tring : ring_at tgeom tmedium 0 tsecs.
Proof.
  split; [apply tgeom_file|vm_compute; reflexivity|reflexivity|reflexivity|vm_compute; split; [discriminate|reflexivity]|].
  intros [|[|]] s [= <-]; [exact tsector0|exact tsector1].
Qed.

Lemma tshape : ring_shape tsecs 1.
Proof.
  split.
  - intros [|[|]] s [= <-] Hk; [done|lia].
  - eexists. split; [reflexivity|by right].
  - intros [|[|]] s [= <-] Hk; lia.
Qed.

Lemma tlog : sec_log tcur 128 128 FDB_SECTOR_STORE_USING 30 [tentry3].
Proof. split; try done; try (by split). Qed.

Lemma tstate : ts_state tdb tmedium 0 1 tsecs.
Proof.
  apply ts_state_intro with (SecState FDB_SECTOR_STORE_USING 30 [tentry3]);
    [exact tring|exact tshape|done|done|done| |done|done].
  split; [exact tdb_holds|split; [apply tgeom_file|vm_compute; intuition discriminate|done]|by right|exact tsector1|exact tlog].
Qed.

Lemma tqueryable from to : queryable tgeom from to tsecs.
Proof.
  split; [| |intros _|done].
  - intros i j ei ej Hij Hi Hj. destruct i as [|[|[|]]]; try done; destruct j as [|[|[|]]]; try done; try lia;
      injection Hi as <-; injection Hj as <-; cbn; lia.
  - intros [|[|]] s e [= <-] [= <-]; done.
  - intros [|[|]] s [= <-]; vm_compute; reflexivity.
Qed.

(** ** The theorems on it *)

(** An entry that fits only in another sector: the oldest one is reused. *)
Definition tentry4 : entry := Entry FDB_TSL_WRITE 40 (replicate 70 9).

Lemma append_refines_witness :
  wp (fdb_tsl_append_with_ts (blob_of (replicate 70 9)) 40) (fun r d' =>
    pushed tdb tentry4 (ts_push 128 2 tentry4 0 1 tsecs) r d' /\
    let '(_, _, secs') := ts_push 128 2 tentry4 0 1 tsecs in
    entries secs' = drop (ts_lost 128 tentry4 1 tsecs) (entries tsecs) ++ [tentry4]) tdb.
Proof.
  apply (append_refines tdb tmedium 0 1 tsecs (SecState FDB_SECTOR_STORE_USING 30 [tentry3]) 40 (replicate 70 9));
    [exact tstate|reflexivity|reflexivity|reflexivity| |reflexivity|vm_compute; discriminate|vm_compute; discriminate].
  split; [done|vm_compute; intuition discriminate|by apply bytes_check|reflexivity].
Defined.

Example append_reuses_oldest :
  ts_push 128 2 tentry4 0 1 tsecs =
    (1, 1%nat, [SecState FDB_SECTOR_STORE_FULL 30 [tentry3]; SecState FDB_SECTOR_STORE_USING 40 [tentry4]]) /\
  ts_lost 128 tentry4 1 tsecs = 2%nat.
Proof. vm_compute. done. Qed.

Lemma iter_log_witness :
  wp (fdb_tsl_iter (Some (fun t (a : list Z) => mret (false, a ++ [tsl_time t]))) []) (fun r d' =>
    r = snd (visit (fun t a => (false, a ++ [tsl_time t])) (ring_tsls tgeom 0 tsecs) []) /\
    kept tdb tmedium d') tdb.
Proof.
  apply (iter_log tdb tmedium 0 tsecs _ (fun t a => (false, a ++ [tsl_time t])) []);
    [apply tstate|reflexivity|apply (computes_pure (fun t a => (false, a ++ [tsl_time t])))].
Defined.

Lemma iter_reverse_log_witness :
  wp (fdb_tsl_iter_reverse (Some (fun t (a : list Z) => mret (false, a ++ [tsl_time t]))) []) (fun r d' =>
    r = snd (visit (fun t a => (false, a ++ [tsl_time t])) (rev (ring_tsls tgeom 0 tsecs)) []) /\
    kept tdb tmedium d') tdb.
Proof.
  apply (iter_reverse_log tdb tmedium 0 tsecs 1 (SecState FDB_SECTOR_STORE_USING 30 [tentry3]) _
           (fun t a => (false, a ++ [tsl_time t])) []);
    [apply tstate|apply tshape|reflexivity|reflexivity|apply (computes_pure (fun t a => (false, a ++ [tsl_time t])))].
Defined.

Lemma query_log_witness :
  wp (fdb_tsl_iter_by_time 35 15 (Some (fun t (a : list Z) => mret (false, a ++ [tsl_time t]))) []) (fun r d' =>
    r = snd (visit (fun t a => (false, a ++ [tsl_time t]))
               (List.filter (inside 35 15) (ordered 35 15 (ring_tsls tgeom 0 tsecs))) []) /\
    kept tdb tmedium d') tdb.
Proof.
  apply (query_log tdb tmedium 0 tsecs 1 35 15 _ (fun t a => (false, a ++ [tsl_time t])) []);
    [apply tstate|apply tshape|reflexivity|apply tqueryable| |apply (computes_pure (fun t a => (false, a ++ [tsl_time t])))].
  intros _. exists (SecState FDB_SECTOR_STORE_USING 30 [tentry3]). split; reflexivity.
Defined.

Lemma query_count_log_witness :
  wp (fdb_tsl_query_count 15 35 FDB_TSL_WRITE) (fun r d' =>
    r = Z.of_nat (length (List.filter (fun e => counted 15 35 FDB_TSL_WRITE (e_time e) (e_status e)) (entries tsecs))) /\
    kept tdb tmedium d') tdb.
Proof.
  apply (query_count_log tdb tmedium 0 tsecs 1 15 35 FDB_TSL_WRITE);
    [apply tstate|apply tshape|reflexivity|apply tqueryable| |reflexivity].
  lia.
Defined.

Lemma append_rejects_witness :
  wp (fdb_tsl_append_with_ts (blob_of [1]) 30) (fun r d' =>
    r = FDB_WRITE_ERR /\ d' = set_parent (set_lock_trace [LockCall; UnlockCall] (parent tdb)) tdb) tdb.
Proof. apply (append_rejects tdb (blob_of [1]) 30). right. right. vm_compute. discriminate. Defined.

(** The database without rollover; its current sector is the last one. *)
Definition tdb_once : fdb_tsdb libc := set_rollover false tdb.

Lemma append_full_witness :
  wp (fdb_tsl_append_with_ts (blob_of (replicate 65 9)) 40) (fun r d' => r = FDB_SAVED_FULL /\
    ts_config d' = ts_config tdb_once /\ last_time d' = 30 /\
    exists m' secs', ring_log d' m' 0 secs' /\ oldest_addr (parent d') = 0 /\
      entries secs' = entries tsecs /\
      forall blob u, wp (fdb_tsl_append_with_ts blob u)
        (fun r d'' => (r = FDB_WRITE_ERR \/ r = FDB_SAVED_FULL) /\ kept d' m' d'') d') tdb_once.
Proof.
  apply (append_full tdb_once tmedium 0 1 tsecs (SecState FDB_SECTOR_STORE_USING 30 [tentry3]) 40 (replicate 65 9));
    [|reflexivity|reflexivity|reflexivity|vm_compute; discriminate|reflexivity].
  split; [|reflexivity|discriminate|reflexivity|vm_compute; reflexivity]. by apply (ts_state_geo tdb tdb_once tmedium 0 1 tsecs tstate tdb_holds).
Defined.

Lemma set_status_refines_witness :
  wp (fdb_tsl_set_status (tsl_of 0 128 [tentry1; tentry2] 1 tentry2) FDB_TSL_DELETED) (fun r d' =>
    r = FDB_NO_ERR /\ (exists m', ts_state d' m' 0 1 (alter (sector_set_status FDB_TSL_DELETED 1) 0%nat tsecs)) /\
    last_time d' = 30 /\ ts_config d' = ts_config tdb) tdb.
Proof.
  apply (set_status_refines tdb tmedium 0 1 tsecs 0 (SecState FDB_SECTOR_STORE_FULL 10 [tentry1; tentry2]) 1 tentry2
           FDB_TSL_DELETED); [exact tstate|reflexivity|reflexivity|vm_compute; discriminate].
Defined.

Lemma read_back_witness :
  let t := tsl_of 128 128 [tentry3] 0 tentry3 in
  tsl_time t = 30 /\ tsl_status t = FDB_TSL_WRITE /\ tsl_log_len t = 2 /\
  wp (up (fdb_blob_read (fdb_tsl_to_blob t (fdb_blob_make (FdbBlob None 0 0 0 0) (Some [0; 0; 0; 0]) 4)))) (fun r d' =>
    fst r = 2 /\ buf (snd r) = Some [4; 5; 0; 0] /\ kept tdb tmedium d') tdb.
Proof.
  apply (read_back tdb tmedium 0 tsecs 2 (tsl_of 128 128 [tentry3] 0 tentry3) tentry3 (FdbBlob None 0 0 0 0) [0; 0; 0; 0] 4);
    [apply tstate|reflexivity|reflexivity|discriminate|vm_compute; intuition discriminate].
Defined.

Lemma tmountable m b : len m = 256 -> bytes m ->
  let db := parent (tdb_on m false b) in opens "log" "/d" FDB_DB_TYPE_TS 0 db (mounted "log" "/d" FDB_DB_TYPE_TS 0 db) m.
Proof.
  intros Hl Hb db. apply mountable_opens. split; try done. apply (disk_holds tgeom "/d" m); [apply tgeom_file|done|done].
Qed.

Lemma init_recovers_witness :
  wp (fdb_tsdb_init "log" "/d" true 70 0) (fun r d' =>
    r = FDB_NO_ERR /\ ts_state d' tmedium 0 1 tsecs /\ last_time d' = loaded_time tsecs 30 /\
    geo (parent d') = tgeom /\ init_ok (parent d') = true /\ max_len d' = 70 /\ rollover d' = true) (tdb_on tmedium false false).
Proof.
  apply (init_recovers "log" "/d" 0 70 (tdb_on tmedium false false) (mounted "log" "/d" FDB_DB_TYPE_TS 0 (parent (tdb_on tmedium false false))) tmedium 0 1 tsecs);
    [|reflexivity|exact tring|exact tshape|left; reflexivity|].
  - apply tmountable; [vm_compute; reflexivity|apply bytes_check; vm_compute; reflexivity].
  - intros [|[|]] s [= <-]; done.
Defined.

Lemma tblank_legible m : blank m 0 -> blank m 128 -> all_legible tgeom m.
Proof. intros H0 H1 [|[|i]] Hi; [by left|by left|]. change (Z.to_nat (sector_count tgeom)) with 2%nat in Hi. lia. Qed.

(** The second sector lost its header. *)
Definition ttorn_hdr : list Z := splice tmedium 128 (erased_sector tgeom).

Lemma init_refuses_witness :
  wp (fdb_tsdb_init "log" "/d" true 70 0) (fun r d' =>
    r = FDB_READ_ERR /\ ts_holds d' ttorn_hdr /\ init_ok (parent d') = false /\
    lock_trace (parent d') = [LockCall]) (tdb_on ttorn_hdr false true).
Proof.
  apply (init_refuses "log" "/d" 0 70 (tdb_on ttorn_hdr false true) (mounted "log" "/d" FDB_DB_TYPE_TS 0 (parent (tdb_on ttorn_hdr false true))) ttorn_hdr);
    [|reflexivity|reflexivity| | |reflexivity].
  - apply tmountable; [vm_compute; reflexivity|apply bytes_check; vm_compute; reflexivity].
  - exists 1%nat. split; [vm_compute; lia|vm_compute; discriminate].
  - intros [|[|i]] Hi; [|left; vm_compute; discriminate|vm_compute in Hi; lia].
    right. exists FDB_SECTOR_STORE_FULL, 10, [tentry1; tentry2]. apply (sector_at_frame tmedium); [|vm_compute; discriminate|exact tsector0].
    intros b k Hb Hk Hbk. change (b + k <= 128) in Hbk. change (0 <= b) in Hb. apply slice_splice_other; [done|vm_compute; discriminate|lia|lia|by left].
Defined.

Lemma clean_empties_witness :
  wp fdb_tsl_clean (fun _ d' => exists m',
    ts_state d' m' 0 0 (empty_secs tgeom) /\ entries (empty_secs tgeom) = [] /\ last_time d' = 0 /\
    ts_config d' = ts_config tdb) tdb.
Proof.
  apply (clean_empties tdb tmedium); [exact tdb_holds|reflexivity|].
  intros [|[|i]] Hi; [right; exists FDB_SECTOR_STORE_FULL, 10, [tentry1; tentry2]; exact tsector0
                     |right; exists FDB_SECTOR_STORE_USING, 30, [tentry3]; exact tsector1|].
  vm_compute in Hi. lia.
Defined.

(** ** Where the hypotheses fail *)

(** A new database, and an append of [n] bytes [b] at time [t]. *)
Definition tnew : fdb_tsdb libc := tdb_on tblank false false.
Definition tinit : M (fdb_tsdb libc) fdb_err_t := fdb_tsdb_init "log" "/d" true 100 0.
Definition tput (t : Z) (n : nat) (b : Z) : M (fdb_tsdb libc) fdb_err_t :=
  fdb_tsl_append_with_ts (blob_of (replicate n b)) t.
Definition tobserve (t : fdb_tsl) (a : list (Z * Z)) : M (fdb_tsdb libc) (bool * list (Z * Z)) :=
  mret (false, a ++ [(tsl_time t, tsl_log_len t)]).



(** The database when the power fails while the last sector is closed: both
    sectors are full, and no sector is formatted yet. *)
Definition tpower_loss : fdb_tsdb libc := tdb_on (closed tmedium 128 [tentry3]) false false.

(** A database without rollover whose sectors are filled; the answers of the
    last append and of an iteration. *)
Definition tfill : M (fdb_tsdb libc) (fdb_err_t * list (Z * Z)) :=
  tinit;; fdb_tsdb_control (FDB_TSDB_CTRL_SET_ROLLOVER false);; tput 10 61 0;; tput 20 61 1;;
  full ← tput 30 61 2; log ← fdb_tsl_iter (Some tobserve) []; mret (full, log).


(** Without rollover an append still overwrites old entries when the ring has
    turned before: the code looks at the end of the medium, not at the oldest
    sector. *)
Example rollover_off_overwrites :
  result (tinit;; tput 10 61 0;; tput 20 61 1;; tput 30 61 2;; fdb_tsdb_control (FDB_TSDB_CTRL_SET_ROLLOVER false);;
          before ← fdb_tsl_iter (Some tobserve) []; r ← tput 40 61 3; after ← fdb_tsl_iter (Some tobserve) [];
          mret (before, r, after)) tnew =
  Some ([(20, 61); (30, 61)], FDB_NO_ERR, [(30, 61); (40, 61)]).
Proof. vm_compute. reflexivity. Qed.
