(* ===== verification/KvState.v ===== *)
(** Key-value database: the abstract state and its representation.

    The database is a list of sectors, each with its dirty status and the list
    of its records; the bytes of the medium are determined by it.  What a user
    sees is the finite map of the records whose status is written. *)
From S2P Require Import Prelude FdbDef Status FlashIO FlashSpec KvDef KvRead KvWrite KvRing KvSpec.

Record krec := KRec { kr_st : fdb_kv_status; kr_key : list Z; kr_val : list Z }.
Record ksec := KSec { ks_dirty : fdb_sector_dirty_status; ks_recs : list krec }.

#[export] Instance krec_eq_dec : EqDecision krec.
Proof. solve_decision. Defined.

(** ** Sizes *)

Definition kr_len (r : krec) : Z := rec_len (kr_key r) (kr_val r).
Definition kr_set (st : fdb_kv_status) (r : krec) : krec := KRec st (kr_key r) (kr_val r).

Fixpoint recs_len (rs : list krec) : Z :=
  match rs with
  | [] => 0
  | r :: rs => kr_len r + recs_len rs
  end.

(** The offset of the free space of a sector. *)
Definition ks_end (s : ksec) : Z := SECTOR_HDR_DATA_SIZE + recs_len (ks_recs s).

(** A sector without records is empty; no sector is ever full (see
    [KvAlloc]). *)
Definition ks_store (s : ksec) : fdb_sector_store_status :=
  match ks_recs s with [] => FDB_SECTOR_STORE_EMPTY | _ => FDB_SECTOR_STORE_USING end.

Lemma kr_len_pos r : KV_HDR_DATA_SIZE <= kr_len r.
Proof.
  unfold kr_len, rec_len. pose proof (len_nonneg (kr_key r)). pose proof (len_nonneg (kr_val r)). lia.
Qed.

Lemma recs_len_nonneg rs : 0 <= recs_len rs.
Proof.
  induction rs as [|r rs IH]; simpl; [lia|]. pose proof (kr_len_pos r).
  unfold KV_HDR_DATA_SIZE in *. lia.
Qed.

Lemma recs_len_app rs rs' : recs_len (rs ++ rs') = recs_len rs + recs_len rs'.
Proof. induction rs as [|r rs IH]; simpl; lia. Qed.

Lemma recs_len_count rs : KV_HDR_DATA_SIZE * Z.of_nat (length rs) <= recs_len rs.
Proof.
  induction rs as [|r rs IH]; simpl; [lia|]. pose proof (kr_len_pos r).
  unfold KV_HDR_DATA_SIZE in *. lia.
Qed.

Lemma kr_len_set st r : kr_len (kr_set st r) = kr_len r.
Proof. done. Qed.

(** ** Sectors on the medium *)

Definition krec_at (m : list Z) (a : Z) (r : krec) : Prop :=
  rec_at m a (kr_st r) (kr_key r) (kr_val r).

Fixpoint recs_at (m : list Z) (a : Z) (rs : list krec) : Prop :=
  match rs with
  | [] => True
  | r :: rs => krec_at m a r /\ recs_at m (a + kr_len r) rs
  end.

(** The sector of [n] bytes at [a]. *)
Record sec_at (n : Z) (m : list Z) (a : Z) (s : ksec) : Prop := {
  sa_store : slice m a 1 = [status_byte (enum_val (ks_store s))];
  sa_dirty : slice m (a + SECTOR_DIRTY_OFFSET) 1 = [status_byte (enum_val (ks_dirty s))];
  sa_magic : slice m (a + SECTOR_MAGIC_OFFSET) 4 = le_bytes 4 SECTOR_MAGIC_WORD;
  sa_combined : slice m (a + 8) 4 = le_bytes 4 SECTOR_NOT_COMBINED;
  sa_recs : recs_at m (a + SECTOR_HDR_DATA_SIZE) (ks_recs s);
  sa_free : filled m (a + ks_end s) (n - ks_end s) FDB_BYTE_ERASED;
}.

(** What holds of the sectors whatever the medium: the keys belong to [keys],
    and the space that the allocation keeps free is there. *)
Definition krec_ok (keys : list Z -> Prop) (r : krec) : Prop :=
  keys (kr_key r) /\ rec_ok (kr_key r) (kr_val r).

Record ksec_ok (keys : list Z -> Prop) (n : Z) (s : ksec) : Prop := {
  so_recs : Forall (krec_ok keys) (ks_recs s);
  so_room : ks_recs s <> [] -> ks_end s + FDB_SEC_REMAIN_THRESHOLD < n;
}.

Lemma ks_end_range keys n s :
  64 <= n -> ksec_ok keys n s -> SECTOR_HDR_DATA_SIZE <= ks_end s <= n.
Proof.
  intros Hn [_ H]. pose proof (recs_len_nonneg (ks_recs s)).
  unfold ks_end, FDB_SEC_REMAIN_THRESHOLD, KV_HDR_DATA_SIZE, FDB_KV_NAME_MAX, SECTOR_HDR_DATA_SIZE in *.
  destruct (ks_recs s) as [|r rs]; [simpl; lia|]. specialize (H ltac:(done)). lia.
Qed.

(** *** Parts of the medium that are the same *)

Lemma slice_sub_eq m m' a n b k :
  0 <= a -> slice m' a n = slice m a n -> a <= b -> 0 <= k -> b + k <= a + n ->
  slice m' b k = slice m b k.
Proof.
  intros Ha H Hb Hk Hbk. replace b with (a + (b - a)) by lia.
  rewrite <- (slice_slice m' a n), <- (slice_slice m a n) by lia. by rewrite H.
Qed.

Lemma krec_at_eq m m' a r :
  0 <= a -> slice m' a (kr_len r) = slice m a (kr_len r) -> krec_at m a r -> krec_at m' a r.
Proof.
  intros Ha H. unfold krec_at, rec_at, kr_len, rec_len, KV_HDR_DATA_SIZE, KV_MAGIC_OFFSET in *.
  pose proof (len_nonneg (kr_key r)). pose proof (len_nonneg (kr_val r)).
  rewrite !(slice_sub_eq m m' a _ _ _ Ha H) by lia. done.
Qed.

Lemma recs_at_eq m m' a rs :
  0 <= a -> slice m' a (recs_len rs) = slice m a (recs_len rs) -> recs_at m a rs -> recs_at m' a rs.
Proof.
  revert a. induction rs as [|r rs IH]; intros a Ha H; simpl; [done|]. intros [H1 H2].
  pose proof (kr_len_pos r). pose proof (recs_len_nonneg rs). unfold KV_HDR_DATA_SIZE in *. simpl in H.
  split; [apply (krec_at_eq m); [done| |done]|apply IH; [lia| |done]];
    eapply slice_sub_eq; try exact H; lia.
Qed.

Lemma recs_at_app m a rs rs' :
  recs_at m a (rs ++ rs') <-> recs_at m a rs /\ recs_at m (a + recs_len rs) rs'.
Proof.
  revert a. induction rs as [|r rs IH]; intros a; simpl; [by rewrite Z.add_0_r; intuition|].
  rewrite IH, Z.add_assoc. intuition.
Qed.

(** Unfolds the layout of sectors and records. *)
Ltac ks_consts :=
  unfold FDB_SEC_REMAIN_THRESHOLD in *;
  unfold SECTOR_HDR_DATA_SIZE, SECTOR_DIRTY_OFFSET, SECTOR_MAGIC_OFFSET, KV_HDR_DATA_SIZE,
    KV_MAGIC_OFFSET, FDB_KV_NAME_MAX in *.
Ltac ks_unfold := unfold ks_end, kr_len, rec_len in *; ks_consts.

Lemma sec_at_eq n m m' a s :
  0 <= a -> SECTOR_HDR_DATA_SIZE <= ks_end s <= n -> slice m' a n = slice m a n ->
  sec_at n m a s -> sec_at n m' a s.
Proof.
  intros Ha Hn H [H1 H2 H3 H4 H5 H6]. pose proof (recs_len_nonneg (ks_recs s)). ks_unfold.
  split; unfold filled in *; ks_unfold;
    rewrite ?(slice_sub_eq m m' a _ _ _ Ha H) by lia; try done.
  eapply recs_at_eq; [lia| |exact H5]. eapply slice_sub_eq; try exact H; lia.
Qed.

(** *** Writing to a sector *)

Section writes.
Context (n : Z) (m : list Z) (a : Z) (s : ksec).
Context (Ha : 0 <= a) (Hn : SECTOR_HDR_DATA_SIZE <= ks_end s <= n) (Hm : a + n <= len m).
Context (Hs : sec_at n m a s).

(** The status of a record is changed. *)
Lemma sec_at_set_status pre r post st :
  ks_recs s = pre ++ r :: post ->
  sec_at n (splice m (a + SECTOR_HDR_DATA_SIZE + recs_len pre) [status_byte (enum_val st)]) a
    (KSec (ks_dirty s) (pre ++ kr_set st r :: post)).
Proof.
  intros E. pose proof (recs_len_nonneg pre). pose proof (recs_len_nonneg post).
  pose proof (kr_len_pos r) as Hr.
  assert (ks_end s = SECTOR_HDR_DATA_SIZE + recs_len pre + kr_len r + recs_len post) as Eend
    by (unfold ks_end; rewrite E, recs_len_app; simpl; lia).
  destruct Hs as [H1 H2 H3 H4 H5 H6]. rewrite E in H5. apply recs_at_app in H5 as [H5 [Hrec Hpost]].
  set (p := a + SECTOR_HDR_DATA_SIZE + recs_len pre) in *.
  assert (forall b k, 0 <= b -> 0 <= k -> b + k <= p \/ p + 1 <= b ->
    slice (splice m p [status_byte (enum_val st)]) b k = slice m b k) as Ho.
  { intros. apply slice_splice_other; change (len [_]) with 1; unfold p; ks_unfold; lia. }
  assert (ks_store (KSec (ks_dirty s) (pre ++ kr_set st r :: post)) = ks_store s) as Est
    by (unfold ks_store; rewrite E; by destruct pre).
  assert (ks_end (KSec (ks_dirty s) (pre ++ kr_set st r :: post)) = ks_end s) as Eend'
    by (unfold ks_end; cbn [ks_recs]; rewrite E, !recs_len_app; done).
  split; rewrite ?Est; cbn [ks_dirty ks_recs]; unfold filled; rewrite ?Eend';
    try (rewrite Ho; [done|unfold p; ks_unfold; lia..]).
  apply recs_at_app. split; [|split].
  - eapply recs_at_eq; [ks_unfold; lia| |exact H5]. apply Ho; unfold p; ks_unfold; lia.
  - destruct Hrec as (R1 & R2 & R3 & R4). fold p. unfold krec_at, rec_at. cbn [kr_set kr_st kr_key kr_val].
    pose proof (len_nonneg (kr_key r)). pose proof (len_nonneg (kr_val r)).
    fold p in R2, R3, R4.
    split_and!; [|by (rewrite Ho; [|unfold p; ks_unfold; lia..])..].
    apply (slice_splice_same m p [_]); [unfold p; ks_unfold; lia|].
    change (len [_]) with 1. unfold p; ks_unfold; lia.
  - fold p in Hpost |- *. rewrite kr_len_set. eapply recs_at_eq; [unfold p; ks_unfold; lia| |exact Hpost].
    apply Ho; unfold p; ks_unfold; lia.
Qed.

(** The dirty status is changed. *)
Lemma sec_at_set_dirty dt :
  sec_at n (splice m (a + SECTOR_DIRTY_OFFSET) [status_byte (enum_val dt)]) a (KSec dt (ks_recs s)).
Proof.
  destruct Hs as [H1 H2 H3 H4 H5 H6]. pose proof (recs_len_nonneg (ks_recs s)).
  assert (forall b k, 0 <= b -> 0 <= k -> b + k <= a + 1 \/ a + 2 <= b ->
    slice (splice m (a + SECTOR_DIRTY_OFFSET) [status_byte (enum_val dt)]) b k = slice m b k) as Ho.
  { intros. apply slice_splice_other; change (len [_]) with 1; ks_unfold; lia. }
  split; cbn [ks_dirty ks_recs]; unfold filled; change (ks_store (KSec dt (ks_recs s))) with (ks_store s);
    change (ks_end (KSec dt (ks_recs s))) with (ks_end s);
    try (rewrite Ho; [done|ks_unfold; lia..]).
  - apply (slice_splice_same m _ [_]); change (len [_]) with 1; ks_unfold; lia.
  - eapply recs_at_eq; [ks_unfold; lia| |exact H5]. apply Ho; ks_unfold; lia.
Qed.

(** A record is appended; the sector is in use. *)
Lemma sec_at_append r :
  kr_st r = FDB_KV_WRITE -> ks_end s + kr_len r <= n ->
  sec_at n (splice (splice m a [status_byte (enum_val FDB_SECTOR_STORE_USING)])
                   (a + ks_end s) (rec_bytes (kr_key r) (kr_val r))) a
    (KSec (ks_dirty s) (ks_recs s ++ [r])).
Proof.
  intros Est Hr. destruct Hs as [H1 H2 H3 H4 H5 H6]. pose proof (recs_len_nonneg (ks_recs s)).
  pose proof (kr_len_pos r) as Hpos.
  set (m1 := splice m a _). assert (len m1 = len m) as Hl by apply len_splice.
  pose proof (len_rec_bytes (kr_key r) (kr_val r)) as Hlr. fold (kr_len r) in Hlr.
  assert (forall b k, a + 1 <= b -> 0 <= k -> b + k <= a + ks_end s \/ a + ks_end s + kr_len r <= b ->
    slice (splice m1 (a + ks_end s) (rec_bytes (kr_key r) (kr_val r))) b k = slice m b k) as Ho.
  { intros. rewrite slice_splice_other; [|rewrite ?Hl, ?Hlr; ks_unfold; lia..].
    apply slice_splice_other; change (len [_]) with 1; ks_unfold; lia. }
  assert (ks_end (KSec (ks_dirty s) (ks_recs s ++ [r])) = ks_end s + kr_len r) as Eend
    by (unfold ks_end; cbn [ks_recs]; rewrite recs_len_app; simpl; lia).
  assert (ks_store (KSec (ks_dirty s) (ks_recs s ++ [r])) = FDB_SECTOR_STORE_USING) as Es
    by (unfold ks_store; cbn [ks_recs]; by destruct (ks_recs s)).
  split; rewrite ?Es; cbn [ks_dirty ks_recs]; unfold filled; rewrite ?Eend;
    try (rewrite Ho; [done|ks_unfold; lia..]).
  - rewrite slice_splice_other by (rewrite ?Hl, ?Hlr; ks_unfold; lia).
    apply (slice_splice_same m a [_]); change (len [_]) with 1; ks_unfold; lia.
  - apply recs_at_app. split; [|split; [|done]].
    + eapply recs_at_eq; [ks_unfold; lia| |exact H5]. apply Ho; ks_unfold; lia.
    + unfold krec_at. rewrite Est, <- Z.add_assoc. fold (ks_end s).
      apply rec_at_stored; fold (kr_len r); rewrite ?Hl; ks_unfold; lia.
  - rewrite Ho by (ks_unfold; lia). apply (filled_sub m _ _ _ _ _ H6); ks_unfold; lia.
Qed.
End writes.

(** The header [format_sector] writes. *)
Definition fresh_hdr : list Z :=
  [status_byte (enum_val FDB_SECTOR_STORE_EMPTY); status_byte (enum_val FDB_SECTOR_DIRTY_FALSE)] ++
  [FDB_BYTE_ERASED; FDB_BYTE_ERASED] ++ le_bytes 4 SECTOR_MAGIC_WORD ++
  le_bytes 4 SECTOR_NOT_COMBINED ++ le_bytes 4 FDB_DATA_UNUSED.

Definition fresh_sec : ksec := KSec FDB_SECTOR_DIRTY_FALSE [].

Lemma sec_at_fresh n m a e :
  0 <= a -> 64 <= n -> a + n <= len m -> e = replicate (Z.to_nat n) FDB_BYTE_ERASED ->
  sec_at n (splice (splice m a e) a fresh_hdr) a fresh_sec.
Proof.
  intros Ha Hn Hm ->. set (e := replicate _ _). assert (len e = n) as He by (unfold e; rewrite len_replicate; lia).
  assert (forall b k, 0 <= b -> 0 <= k -> b + k <= 16 ->
    slice (splice (splice m a e) a fresh_hdr) (a + b) k = slice fresh_hdr b k) as Hh.
  { intros b k Hb Hk Hbk. rewrite <- (slice_slice _ a 16) by lia. f_equal.
    apply (slice_splice_same _ a fresh_hdr); change (len fresh_hdr) with 16; rewrite ?len_splice; lia. }
  split; cbn [ks_dirty ks_recs fresh_sec]; ks_unfold; try (by rewrite Hh by lia).
  - pose proof (Hh 0 1) as H0. rewrite Z.add_0_r in H0. by rewrite H0 by lia.
  - done.
  - cbn [recs_len ks_recs fresh_sec]. unfold filled.
    rewrite slice_splice_other by (change (len fresh_hdr) with 16; rewrite ?len_splice; lia).
    apply (filled_sub _ a n); [|lia..]. unfold filled. pose proof (slice_splice_same m a e) as E.
    rewrite He in E. apply E; lia.
Qed.

(** ** The medium *)

Definition secs_at (n : Z) (m : list Z) (secs : list ksec) : Prop :=
  forall k s, secs !! k = Some s -> sec_at n m (Z.of_nat k * n) s.

(** What lies inside one sector does not touch the others. *)
Lemma other_sector n m (k j : nat) off d :
  0 < n -> j <> k -> 0 <= off -> off + len d <= n -> (Z.of_nat k + 1) * n <= len m ->
  slice (splice m (Z.of_nat k * n + off) d) (Z.of_nat j * n) n = slice m (Z.of_nat j * n) n.
Proof.
  intros Hn Hj Ho Hd Hk. apply slice_splice_other; [nia..|].
  assert (Z.of_nat j < Z.of_nat k \/ Z.of_nat k < Z.of_nat j) as [|] by lia; nia.
Qed.

Lemma secs_at_update keys n m m' secs k s' :
  64 <= n -> Forall (ksec_ok keys n) secs -> secs_at n m secs ->
  (forall j : nat, j <> k -> slice m' (Z.of_nat j * n) n = slice m (Z.of_nat j * n) n) ->
  sec_at n m' (Z.of_nat k * n) s' -> secs_at n m' (<[k := s']> secs).
Proof.
  intros Hn Hok Hm Ho Hs j s Hj. destruct (decide (j = k)) as [->|Hne].
  - apply list_lookup_insert_Some in Hj as [(_ & <- & _)|[]]; [done|done].
  - rewrite list_lookup_insert_ne in Hj by done. eapply sec_at_eq; [lia| |by apply Ho|by apply Hm].
    eapply ks_end_range; [done|]. by eapply Forall_lookup_1.
Qed.

(** ** Positions of records

    The [i]-th record of the [k]-th sector. *)

Definition raddr (n : Z) (k : nat) (rs : list krec) (i : nat) : Z :=
  Z.of_nat k * n + SECTOR_HDR_DATA_SIZE + recs_len (take i rs).

Definition set_rec (k i : nat) (st : fdb_kv_status) (secs : list ksec) : list ksec :=
  alter (fun s => KSec (ks_dirty s) (alter (kr_set st) i (ks_recs s))) k secs.
Definition set_dirty (k : nat) (dt : fdb_sector_dirty_status) (secs : list ksec) : list ksec :=
  alter (fun s => KSec dt (ks_recs s)) k secs.
Definition append_rec (k : nat) (r : krec) (secs : list ksec) : list ksec :=
  alter (fun s => KSec (ks_dirty s) (ks_recs s ++ [r])) k secs.

Lemma recs_len_take_S rs i r :
  rs !! i = Some r -> recs_len (take (S i) rs) = recs_len (take i rs) + kr_len r.
Proof. intros H. rewrite (take_S_r _ _ _ H), recs_len_app. simpl. lia. Qed.

Lemma recs_len_take_le rs i : recs_len (take i rs) <= recs_len rs.
Proof.
  rewrite <- (take_drop i rs) at 2. rewrite recs_len_app. pose proof (recs_len_nonneg (drop i rs)). lia.
Qed.

Lemma recs_len_middle rs i r :
  rs !! i = Some r -> recs_len rs = recs_len (take i rs) + kr_len r + recs_len (drop (S i) rs).
Proof.
  intros H. rewrite <- (take_drop_middle _ _ _ H) at 1. rewrite recs_len_app. simpl. lia.
Qed.

(** A record is determined by its offset. *)
Lemma recs_len_take_inj rs i j :
  (i <= length rs)%nat -> (j <= length rs)%nat ->
  recs_len (take i rs) = recs_len (take j rs) -> i = j.
Proof.
  assert (forall i j, (i < j <= length rs)%nat -> recs_len (take i rs) < recs_len (take j rs)) as H.
  { intros i0 j0 Hij. destruct (lookup_lt_is_Some_2 rs i0 ltac:(lia)) as [r Hr].
    assert (take j0 rs = take i0 rs ++ take (j0 - i0) (drop i0 rs)) as ->
      by (rewrite take_take_drop; f_equal; lia).
    rewrite recs_len_app.
    rewrite (drop_S _ _ _ Hr). replace (j0 - i0)%nat with (S (j0 - i0 - 1)) by lia. simpl.
    pose proof (kr_len_pos r). pose proof (recs_len_nonneg (take (j0 - i0 - 1) (drop (S i0) rs))).
    unfold KV_HDR_DATA_SIZE in *. lia. }
  intros Hi Hj E. destruct (Nat.lt_trichotomy i j) as [|[|]]; [|done|].
  - specialize (H i j ltac:(lia)). lia.
  - specialize (H j i ltac:(lia)). lia.
Qed.

Lemma recs_at_lookup m a rs i r :
  recs_at m a rs -> rs !! i = Some r -> krec_at m (a + recs_len (take i rs)) r.
Proof.
  intros H Hi. rewrite <- (take_drop_middle _ _ _ Hi) in H. apply recs_at_app in H as [_ [H _]]. done.
Qed.

Lemma alter_insert {A} (f : A -> A) i (l : list A) x : l !! i = Some x -> alter f i l = <[i := f x]> l.
Proof.
  intros Hi. pose proof (lookup_lt_Some _ _ _ Hi). apply list_eq. intros j.
  rewrite list_lookup_alter, list_lookup_insert. repeat case_decide; try tauto. by rewrite Hi.
Qed.

Lemma alter_set_split rs i r st :
  rs !! i = Some r -> alter (kr_set st) i rs = take i rs ++ kr_set st r :: drop (S i) rs.
Proof.
  intros Hi. rewrite <- insert_take_drop by (by eapply lookup_lt_Some). by apply alter_insert.
Qed.

Lemma recs_len_alter rs i st : recs_len (alter (kr_set st) i rs) = recs_len rs.
Proof.
  destruct (rs !! i) as [r|] eqn:E.
  - rewrite (alter_set_split _ _ _ _ E), (recs_len_middle _ _ _ E), recs_len_app. simpl.
    rewrite kr_len_set. lia.
  - f_equal. apply list_eq. intros j. rewrite list_lookup_alter. case_decide; subst; by rewrite ?E.
Qed.

Lemma recs_len_take_alter rs i j st : recs_len (take j (alter (kr_set st) i rs)) = recs_len (take j rs).
Proof.
  revert i j. induction rs as [|r rs IH]; intros [|i] [|j]; try done.
  change (alter (kr_set st) (S i) (r :: rs)) with (r :: alter (kr_set st) i rs). simpl. by rewrite IH.
Qed.

(** ** What a user sees *)

Definition all_recs (secs : list ksec) : list krec := secs ≫= ks_recs.

Definition live_rec (r : krec) : option (list Z * list Z) :=
  if decide (kr_st r = FDB_KV_WRITE) then Some (kr_key r, kr_val r) else None.
Definition live_recs (secs : list ksec) : list (list Z * list Z) := omap live_rec (all_recs secs).

Definition kv_map (secs : list ksec) : gmap (list Z) (list Z) := list_to_map (live_recs secs).

(** No key has two written records. *)
Definition keys_unique (secs : list ksec) : Prop := NoDup (live_recs secs).*1.

Lemma all_recs_insert secs k s :
  secs !! k = Some s ->
  exists l1 l2, all_recs secs = l1 ++ ks_recs s ++ l2 /\
    forall s', all_recs (<[k := s']> secs) = l1 ++ ks_recs s' ++ l2.
Proof.
  intros Hk. exists (all_recs (take k secs)), (all_recs (drop (S k) secs)). split.
  - rewrite <- (take_drop_middle _ _ _ Hk) at 1. unfold all_recs. by rewrite bind_app.
  - intros s'. rewrite insert_take_drop by (by eapply lookup_lt_Some). unfold all_recs.
    by rewrite bind_app.
Qed.

Lemma elem_of_all_recs secs r :
  r ∈ all_recs secs <-> exists k s i, secs !! k = Some s /\ ks_recs s !! i = Some r.
Proof.
  unfold all_recs. rewrite list_elem_of_bind. split.
  - intros (s & Hr & Hs). apply list_elem_of_lookup in Hr as [i Hi].
    apply list_elem_of_lookup in Hs as [k Hk]. eauto.
  - intros (k & s & i & Hk & Hi). exists s. split; by eapply list_elem_of_lookup_2.
Qed.

Lemma kv_map_lookup secs key v :
  keys_unique secs -> kv_map secs !! key = Some v <-> KRec FDB_KV_WRITE key v ∈ all_recs secs.
Proof.
  intros Hu. unfold kv_map. rewrite <- elem_of_list_to_map by done. unfold live_recs.
  rewrite list_elem_of_omap. unfold live_rec. split.
  - intros ([st k w] & Hr & E). case_decide as Hst; [|done]. cbn in *. by simplify_eq.
  - intros Hr. by exists (KRec FDB_KV_WRITE key v).
Qed.

Lemma kv_map_perm secs secs' :
  live_recs secs ≡ₚ live_recs secs' -> keys_unique secs ->
  keys_unique secs' /\ kv_map secs' = kv_map secs.
Proof.
  intros Hp Hu. assert (keys_unique secs') as Hu' by (unfold keys_unique in *; by rewrite <- Hp).
  split; [done|]. unfold kv_map. symmetry. by apply list_to_map_proper.
Qed.

(** One record of the list is replaced, added or removed. *)
Lemma live_recs_set_rec secs k i st s r :
  secs !! k = Some s -> ks_recs s !! i = Some r ->
  exists l1 l2, live_recs secs = l1 ++ option_list (live_rec r) ++ l2 /\
                live_recs (set_rec k i st secs) = l1 ++ option_list (live_rec (kr_set st r)) ++ l2.
Proof.
  intros Hk Hi. destruct (all_recs_insert secs k s Hk) as (l1 & l2 & E1 & E2).
  exists (omap live_rec (l1 ++ take i (ks_recs s))), (omap live_rec (drop (S i) (ks_recs s) ++ l2)).
  unfold live_recs, set_rec. rewrite (alter_insert _ _ _ _ Hk), E1, E2. cbn [ks_recs].
  rewrite (alter_set_split _ _ _ _ Hi). rewrite <- (take_drop_middle _ _ _ Hi) at 1.
  rewrite !omap_app. cbn. split.
  - destruct (live_rec r); cbn; by rewrite <- !app_assoc.
  - destruct (live_rec (kr_set st r)); cbn; by rewrite <- !app_assoc.
Qed.

Lemma live_recs_append secs k r s :
  secs !! k = Some s -> live_rec r = Some (kr_key r, kr_val r) ->
  live_recs (append_rec k r secs) ≡ₚ (kr_key r, kr_val r) :: live_recs secs.
Proof.
  intros Hk Hr. destruct (all_recs_insert secs k s Hk) as (l1 & l2 & E1 & E2).
  unfold live_recs, append_rec. rewrite (alter_insert _ _ _ _ Hk), E1, E2. cbn [ks_recs].
  rewrite !omap_app. cbn. rewrite Hr. solve_Permutation.
Qed.

Lemma live_recs_set_dirty secs k dt : live_recs (set_dirty k dt secs) = live_recs secs.
Proof.
  unfold live_recs. f_equal. unfold set_dirty. destruct (secs !! k) as [s|] eqn:Hk.
  - destruct (all_recs_insert secs k s Hk) as (l1 & l2 & E1 & E2).
    by rewrite (alter_insert _ _ _ _ Hk), E1, E2.
  - f_equal. apply list_eq. intros j. rewrite list_lookup_alter. case_decide; subst; by rewrite ?Hk.
Qed.

(** Only records that are not live go when a sector is formatted. *)
Lemma live_recs_fresh secs k s :
  secs !! k = Some s -> Forall (fun r => kr_st r <> FDB_KV_WRITE) (ks_recs s) ->
  live_recs (<[k := fresh_sec]> secs) = live_recs secs.
Proof.
  intros Hk Hs. destruct (all_recs_insert secs k s Hk) as (l1 & l2 & E1 & E2).
  unfold live_recs. rewrite E1, E2, !omap_app. cbn.
  replace (omap live_rec (ks_recs s)) with (@nil (list Z * list Z)); [done|].
  clear - Hs. induction Hs as [|r rs Hr _ IH]; [done|].
  assert (live_rec r = None) as E by (unfold live_rec; by rewrite decide_False). cbn. by rewrite E.
Qed.
