(* ===== verification/KvTriple.v ===== *)
(** Key-value database: Hoare triples over abstract states.

    [rep d σ]: the database [d] (its medium, its caches and its flags)
    represents the abstract state [σ].  [triple σ p Q]: started in any database
    that represents [σ], [p] finishes with a result [r] in a database that
    represents some [σ'] with [Q r σ'].  The rules are lemmas about [wp]. *)
From S2P Require Import Prelude FdbDef Crc32 Status FlashIO FlashSpec KvDef KvRead KvWrite KvRing KvCacheSpec.
From S2P Require Import KvSpec KvState.

(** The abstract state: the sectors, the index of the oldest one, the flags,
    the key whose cache entry may be out of date because its record is being
    replaced, and [db->cur_sector]. *)
Record kst := Kst {
  k_secs : list ksec;
  k_old : nat;
  k_gc : bool;
  k_rec : bool;
  k_last : bool;
  k_pend : option (list Z);
  k_cur : kvdb_sec_info;
}.

Definition with_secs (secs : list ksec) (σ : kst) : kst :=
  Kst secs (k_old σ) (k_gc σ) (k_rec σ) (k_last σ) (k_pend σ) (k_cur σ).
Definition with_old (o : nat) (σ : kst) : kst :=
  Kst (k_secs σ) o (k_gc σ) (k_rec σ) (k_last σ) (k_pend σ) (k_cur σ).
Definition with_gc (b : bool) (σ : kst) : kst :=
  Kst (k_secs σ) (k_old σ) b (k_rec σ) (k_last σ) (k_pend σ) (k_cur σ).
Definition with_rec (b : bool) (σ : kst) : kst :=
  Kst (k_secs σ) (k_old σ) (k_gc σ) b (k_last σ) (k_pend σ) (k_cur σ).
Definition with_last (b : bool) (σ : kst) : kst :=
  Kst (k_secs σ) (k_old σ) (k_gc σ) (k_rec σ) b (k_pend σ) (k_cur σ).
Definition with_pend (o : option (list Z)) (σ : kst) : kst :=
  Kst (k_secs σ) (k_old σ) (k_gc σ) (k_rec σ) (k_last σ) o (k_cur σ).
Definition with_cur (x : kvdb_sec_info) (σ : kst) : kst :=
  Kst (k_secs σ) (k_old σ) (k_gc σ) (k_rec σ) (k_last σ) (k_pend σ) x.

(** The keys of a database: non-empty names that fit the name buffer with
    their terminator, such that no two of them are confused by the cache of
    records (see [KvLimits.cache_prefix_match]). *)
Record key_set (keys : list Z -> Prop) : Prop := {
  ks_bytes : forall key, keys key -> Forall (fun b => 0 < b < 256) key;
  ks_short : forall key, keys key -> 0 < len key < FDB_KV_NAME_MAX;
  ks_prefix : forall key rest, keys key -> keys (key ++ rest) ->
    kv_name_crc key = kv_name_crc (key ++ rest) -> rest = [];
}.

Section rep.
Context (G : geom) (keys : list Z -> Prop).

Notation ss := (sec_size G).
Definition nsec : nat := Z.to_nat (sector_count G).

(** The record at address [a]. *)
Definition rec_loc (secs : list ksec) (a : Z) (k i : nat) (s : ksec) (r : krec) : Prop :=
  secs !! k = Some s /\ ks_recs s !! i = Some r /\ a = raddr ss k (ks_recs s) i.

(** ** The sector cache *)

(** The cache does not learn that a collection of the sector has begun. *)
Definition dirty_like (dt x : fdb_sector_dirty_status) : Prop :=
  x = dt \/ dt = FDB_SECTOR_DIRTY_GC /\ x = FDB_SECTOR_DIRTY_TRUE.

(** [x] describes the [k]-th sector [s]. *)
Record info_at (k : nat) (s : ksec) (x : kvdb_sec_info) : Prop := {
  in_ok : check_ok x = true;
  in_addr : addr x = Z.of_nat k * ss;
  in_store : store x = ks_store s;
  in_dirty : dirty_like (ks_dirty s) (dirty x);
  in_combined : combined x = SECTOR_NOT_COMBINED;
}.

(** The free space is known. *)
Definition space_at (s : ksec) (x : kvdb_sec_info) : Prop :=
  empty_kv x = addr x + ks_end s /\ remain x = ss - ks_end s.

Definition cached (secs : list ksec) (x : kvdb_sec_info) : Prop :=
  exists k s, secs !! k = Some s /\ info_at k s x /\ (empty_kv x = FAILED_ADDR \/ space_at s x).

Definition scache_ok (secs : list ksec) (t : list kvdb_sec_info) : Prop :=
  sectors_unique t /\ Forall (fun x => addr x <> FDB_DATA_UNUSED -> cached secs x) t.

(** ** The record cache *)

(** A node in use leads to a record with its checksum, written or (for the key
    [pend]) about to be replaced; no node before it has the checksum. *)
Definition node_ok (secs : list ksec) (pend : option (list Z)) (n : kv_cache_node) : Prop :=
  exists k i s r, rec_loc secs (kc_addr n) k i s r /\ kv_name_crc (kr_key r) = kc_name_crc n /\
    (kr_st r = FDB_KV_WRITE \/ pend = Some (kr_key r)).

Definition kcache_first (t : list kv_cache_node) : Prop :=
  forall i j x y, (i < j)%nat -> t !! i = Some x -> t !! j = Some y ->
    kc_addr y <> FDB_DATA_UNUSED -> kc_name_crc x <> kc_name_crc y.

Record kcache_ok (secs : list ksec) (pend : option (list Z)) (t : list kv_cache_node) : Prop := {
  ko_len : length t = 64%nat;
  ko_active : Forall active_ok t;
  ko_first : kcache_first t;
  ko_nodes : Forall (fun n => kc_addr n <> FDB_DATA_UNUSED -> node_ok secs pend n) t;
}.

(** ** The representation *)

Record swf (σ : kst) : Prop := {
  sw_len : length (k_secs σ) = nsec;
  sw_ok : Forall (ksec_ok keys ss) (k_secs σ);
  sw_old : (k_old σ < nsec)%nat;
}.

Context {W} {ST : Storage W} {SL : StorageLaws W}.

Record rep (d : fdb_kvdb W) (σ : kst) : Prop := {
  rp_geo : geo (parent d) = G;
  rp_wf : swf σ;
  rp_medium : exists m, kv_holds d m /\ secs_at ss m (k_secs σ);
  rp_old : oldest_addr (parent d) = Z.of_nat (k_old σ) * ss;
  rp_gc : gc_request d = k_gc σ;
  rp_rec : in_recovery_check d = k_rec σ;
  rp_last : last_is_complete_del d = k_last σ;
  rp_cur : cur_sector d = k_cur σ;
  rp_kv : length (kv_name (cur_kv d)) = 64%nat;
  rp_scache : scache_ok (k_secs σ) (sector_cache_table d);
  rp_kcache : kcache_ok (k_secs σ) (k_pend σ) (kv_cache_table d);
}.

Definition triple {A} (σ : kst) (p : M (fdb_kvdb W) A) (Q : A -> kst -> Prop) : Prop :=
  forall d, rep d σ -> wp p (fun r d' => exists σ', rep d' σ' /\ Q r σ') d.

(** ** Rules *)

Lemma triple_ret {A} σ (a : A) (Q : A -> kst -> Prop) : Q a σ -> triple σ (mret a) Q.
Proof. intros HQ d Hd. apply wp_ret. eauto. Qed.

Lemma triple_bind {A B} σ (p : M (fdb_kvdb W) A) (k : A -> M (fdb_kvdb W) B) Q R :
  triple σ p R -> (forall a σ', R a σ' -> triple σ' (k a) Q) -> triple σ (p ≫= k) Q.
Proof.
  intros Hp Hk d Hd. apply wp_bind. eapply wp_mono; [by apply Hp|].
  intros a d' (σ' & Hd' & HR). by eapply Hk.
Qed.

Lemma triple_mono {A} σ (p : M (fdb_kvdb W) A) (Q R : A -> kst -> Prop) :
  triple σ p R -> (forall a σ', R a σ' -> Q a σ') -> triple σ p Q.
Proof.
  intros Hp HQ d Hd. eapply wp_mono; [by apply Hp|]. intros a d' (σ' & Hd' & HR). eauto.
Qed.

Lemma triple_ext {A} σ (p q : M (fdb_kvdb W) A) Q : (forall d, p d = q d) -> triple σ p Q -> triple σ q Q.
Proof. intros E Hp d Hd. unfold wp. rewrite <- E. by apply Hp. Qed.

(** A pure fact about the state may be used. *)
Lemma triple_wf {A} σ (p : M (fdb_kvdb W) A) Q : (swf σ -> triple σ p Q) -> triple σ p Q.
Proof. intros H d Hd. by apply H; [apply Hd|]. Qed.

Lemma triple_gets {A B} σ (f : fdb_kvdb W -> A) a (k : A -> M (fdb_kvdb W) B) Q :
  (forall d, rep d σ -> f d = a) -> triple σ (k a) Q -> triple σ (gets f ≫= k) Q.
Proof. intros Hf Hk d Hd. apply wp_bind, wp_gets. rewrite (Hf d Hd). by apply Hk. Qed.

(** A value read from the state of which something is known. *)
Lemma triple_gets_some {A B} σ (f : fdb_kvdb W -> A) (P : A -> Prop) (k : A -> M (fdb_kvdb W) B) Q :
  (forall d, rep d σ -> P (f d)) -> (forall a, P a -> triple σ (k a) Q) ->
  triple σ (gets f ≫= k) Q.
Proof. intros Hf Hk d Hd. apply wp_bind, wp_gets. by apply Hk; [apply Hf|]. Qed.

Lemma triple_modify σ σ' (f : fdb_kvdb W -> fdb_kvdb W) (Q : unit -> kst -> Prop) :
  (forall d, rep d σ -> rep (f d) σ') -> Q tt σ' -> triple σ (modify f) Q.
Proof. intros Hf HQ d Hd. apply wp_modify. eauto. Qed.

Lemma triple_assert σ b (Q : unit -> kst -> Prop) : b = true -> Q tt σ -> triple σ (fdb_assert b) Q.
Proof. intros -> HQ. by apply triple_ret. Qed.

Lemma triple_loop {X R} (Inv : X -> kst -> Prop) (measure : X -> kst -> nat) fuel
    (body : X -> M (fdb_kvdb W) (X + R)) x σ (Q : R -> kst -> Prop) :
  (forall x σ, Inv x σ -> triple σ (body x) (fun r σ' =>
     match r with inl x' => Inv x' σ' /\ (measure x' σ' < measure x σ)%nat | inr r => Q r σ' end)) ->
  Inv x σ -> (measure x σ < fuel)%nat -> triple σ (loop fuel body x) Q.
Proof.
  intros Hb. revert x σ. induction fuel as [|fuel IH]; intros x σ Hx Hm; [lia|]. cbn [loop].
  eapply triple_bind; [by apply Hb|]. intros [y|r] σ' Hr; [|by apply triple_ret].
  destruct Hr. apply IH; [done|lia].
Qed.

(** *** Storage *)

Lemma rep_io d σ i m : rep d σ -> kv_holds (kv_io i d) m -> secs_at ss m (k_secs σ) ->
  rep (kv_io i d) σ.
Proof. intros [] Hi Hm. split; try done. eauto. Qed.

(** What leaves the medium as it is leaves the state as it is. *)
Lemma triple_stores {A} σ (p : M (fdb_kvdb W) A) (R : A -> Prop) :
  (forall d m, rep d σ -> kv_holds d m -> secs_at ss m (k_secs σ) -> stores p d m R) ->
  triple σ p (fun r σ' => σ' = σ /\ R r).
Proof.
  intros Hp d Hd. destruct (rp_medium _ _ Hd) as (m & Hm & Hs). eapply wp_stores; [by eapply Hp|].
  intros r i HR Hi. exists σ. split; [|done]. by eapply rep_io.
Qed.

(** One sector is rewritten, and the table of sectors with it. *)
Lemma rep_sec d σ k s s' i m m' t' pend' :
  rep d σ -> kv_holds d m -> secs_at ss m (k_secs σ) -> k_secs σ !! k = Some s ->
  kv_holds (kv_io i d) m' -> sec_at ss m' (Z.of_nat k * ss) s' ->
  (forall j : nat, j <> k -> slice m' (Z.of_nat j * ss) ss = slice m (Z.of_nat j * ss) ss) ->
  ksec_ok keys ss s' -> scache_ok (<[k := s']> (k_secs σ)) t' ->
  kcache_ok (<[k := s']> (k_secs σ)) pend' (kv_cache_table d) ->
  rep (set_sector_cache_table t' (kv_io i d)) (with_pend pend' (with_secs (<[k := s']> (k_secs σ)) σ)).
Proof.
  intros Hd Hm Hs Hk Hi Hs' Ho Hok Hsc Hkc.
  pose proof (holds_geom _ _ _ Hm) as Hg. rewrite (rp_geo _ _ Hd) in Hg.
  destruct Hd as [H1 [W1 W2 W3] H3 H4 H5 H6 H7 H8 H9 H10 H11]. split; cbn; try done.
  - split; cbn; [by rewrite length_insert| |done]. by apply Forall_insert.
  - exists m'. split; [done|]. eapply secs_at_update; [by destruct Hg|exact W2|exact Hs|done|done].
Qed.

Lemma set_sct_id (d : fdb_kvdb W) : set_sector_cache_table (sector_cache_table d) d = d.
Proof. by destruct d. Qed.

Lemma triple_stores_sec {A} σ k s s' pend' (p : M (fdb_kvdb W) A) (R : A -> Prop) (Q : A -> kst -> Prop) :
  k_secs σ !! k = Some s ->
  (forall d m, rep d σ -> kv_holds d m -> sec_at ss m (Z.of_nat k * ss) s ->
     exists m', stores p d m' R /\ sec_at ss m' (Z.of_nat k * ss) s' /\
       forall j : nat, j <> k -> slice m' (Z.of_nat j * ss) ss = slice m (Z.of_nat j * ss) ss) ->
  ksec_ok keys ss s' ->
  (forall t, scache_ok (k_secs σ) t -> scache_ok (<[k := s']> (k_secs σ)) t) ->
  (forall t, kcache_ok (k_secs σ) (k_pend σ) t -> kcache_ok (<[k := s']> (k_secs σ)) pend' t) ->
  (forall r, R r -> Q r (with_pend pend' (with_secs (<[k := s']> (k_secs σ)) σ))) ->
  triple σ p Q.
Proof.
  intros Hk Hp Hok Hsc Hkc HQ d Hd. destruct (rp_medium _ _ Hd) as (m & Hm & Hs).
  destruct (Hp d m Hd Hm (Hs k s Hk)) as (m' & Hst & Hs' & Ho).
  eapply wp_stores; [exact Hst|]. intros r i HR Hi. eexists. split; [|by apply HQ].
  pose proof (rep_sec d σ k s s' i m m' (sector_cache_table d) pend' Hd Hm Hs Hk Hi Hs' Ho Hok) as H.
  change (sector_cache_table d) with (sector_cache_table (kv_io i d)) in H at 2.
  rewrite set_sct_id in H. apply H; [by apply Hsc, Hd|by apply Hkc, Hd].
Qed.
End rep.
