(* ===== verification/KvBase.v ===== *)
(** Key-value database: positions of records, and how the caches follow changes
    of the sectors. *)
From S2P Require Import Prelude FdbDef Crc32 Status FlashIO FlashSpec KvDef KvRead KvWrite KvRing KvCacheSpec.
From S2P Require Import KvSpec KvState KvTriple.

Section base.
Context (G : geom) (HG : geom_ok G) (keys : list Z -> Prop).
Notation ss := (sec_size G).
Notation nsec := (nsec G).

(** ** Addresses *)

Lemma nsec_count : Z.of_nat nsec = sector_count G.
Proof. pose proof (sector_count_two G HG). unfold nsec. lia. Qed.

Lemma ss_range : 64 <= ss /\ 2 * ss <= max_size G /\ max_size G + ss < 4294967296.
Proof. destruct HG. lia. Qed.

Lemma sector_base (k : nat) : (k < nsec)%nat ->
  0 <= Z.of_nat k * ss /\ Z.of_nat k * ss + ss <= max_size G /\ (Z.of_nat k * ss) mod ss = 0.
Proof. intros Hk. apply sector_addr_range; [done|]. pose proof nsec_count. lia. Qed.

Lemma in_sector_off (k : nat) off n :
  (k < nsec)%nat -> 0 <= off < ss -> 0 <= n -> off + n <= ss -> in_sector G (Z.of_nat k * ss + off) n.
Proof.
  intros Hk Ho Hn Hon. destruct (sector_base k Hk) as (H1 & H2 & H3).
  destruct (div_mod_eq (Z.of_nat k * ss + off) ss (Z.of_nat k) off) as [_ E]; [lia|done|].
  unfold in_sector. rewrite E. lia.
Qed.

Lemma sector_base_inj (k j : nat) : Z.of_nat k * ss = Z.of_nat j * ss -> k = j.
Proof. pose proof ss_range. nia. Qed.

Lemma sector_base_used (k : nat) : (k < nsec)%nat ->
  Z.of_nat k * ss <> FDB_DATA_UNUSED /\ Z.of_nat k * ss <> FAILED_ADDR.
Proof.
  intros Hk. destruct (sector_base k Hk) as (H1 & H2 & _). pose proof ss_range.
  unfold FDB_DATA_UNUSED, FAILED_ADDR. lia.
Qed.

(** What lies in one sector lies before or after another. *)
Lemma other_range (k j : nat) x n :
  k <> j -> Z.of_nat k * ss <= x -> x + n <= Z.of_nat k * ss + ss ->
  x + n <= Z.of_nat j * ss \/ Z.of_nat j * ss + ss <= x.
Proof.
  intros Hkj Hx Hn. pose proof ss_range.
  destruct (decide (k < j)%nat); [left|right].
  - assert ((Z.of_nat k + 1) * ss <= Z.of_nat j * ss) by (apply Z.mul_le_mono_nonneg_r; lia). lia.
  - assert ((Z.of_nat j + 1) * ss <= Z.of_nat k * ss) by (apply Z.mul_le_mono_nonneg_r; lia). lia.
Qed.

(** ** Positions of records *)

Record rec_pos (σ : kst) (a : Z) (k i : nat) (s : ksec) (r : krec) : Prop := {
  po_loc : rec_loc G (k_secs σ) a k i s r;
  po_k : (k < nsec)%nat;
  po_sec : ksec_ok keys ss s;
  po_rec : krec_ok keys r;
  po_lo : Z.of_nat k * ss + SECTOR_HDR_DATA_SIZE <= a;
  po_hi : a + kr_len r <= Z.of_nat k * ss + ks_end s;
  po_end : ks_end s + FDB_SEC_REMAIN_THRESHOLD < ss;
}.

Lemma rec_pos_intro σ a k i s r :
  swf G keys σ -> rec_loc G (k_secs σ) a k i s r -> rec_pos σ a k i s r.
Proof.
  intros [W1 W2 W3] (Hk & Hi & ->). pose proof (Forall_lookup_1 _ _ _ _ W2 Hk) as Hok.
  pose proof (recs_len_middle _ _ _ Hi) as Hlen. pose proof (recs_len_nonneg (take i (ks_recs s))).
  pose proof (recs_len_nonneg (drop (S i) (ks_recs s))).
  split; unfold raddr, ks_end; try done; try lia.
  - rewrite <- W1. by eapply lookup_lt_Some.
  - destruct Hok as [Hr _]. by eapply Forall_lookup_1.
  - destruct Hok as [_ Hr]. apply Hr. by destruct (ks_recs s).
Qed.

Lemma rec_pos_off σ a k i s r : rec_pos σ a k i s r ->
  exists off, a = Z.of_nat k * ss + off /\ 0 <= off /\ off + kr_len r + FDB_SEC_REMAIN_THRESHOLD < ss.
Proof.
  intros []. exists (a - Z.of_nat k * ss). unfold SECTOR_HDR_DATA_SIZE in *. lia.
Qed.

(** Accesses inside a record, or to the bytes after it that are kept free. *)
Lemma rec_pos_in σ a k i s r b n : rec_pos σ a k i s r ->
  a <= b -> 0 <= n -> b + n <= a + kr_len r + FDB_SEC_REMAIN_THRESHOLD -> in_sector G b n.
Proof.
  intros Hp Hb Hn Hbn. destruct (rec_pos_off _ _ _ _ _ _ Hp) as (off & -> & Ho & Hoe).
  replace b with (Z.of_nat k * ss + (b - Z.of_nat k * ss)) by lia.
  apply in_sector_off; [apply Hp|lia..].
Qed.

Lemma rec_pos_range σ a k i s r : rec_pos σ a k i s r ->
  16 <= a /\ a + kr_len r + FDB_SEC_REMAIN_THRESHOLD < max_size G /\ KV_HDR_DATA_SIZE <= kr_len r.
Proof.
  intros []. destruct (sector_base k po_k0) as (H1 & H2 & _). pose proof (kr_len_pos r).
  unfold SECTOR_HDR_DATA_SIZE in *. lia.
Qed.

Lemma rec_pos_at σ m a k i s r :
  rec_pos σ a k i s r -> secs_at ss m (k_secs σ) -> krec_at m a r.
Proof.
  intros [(Hk & Hi & ->) _ _ _ _ _ _] Hm. destruct (Hm k s Hk) as [_ _ _ _ Hrs _].
  unfold raddr. by eapply recs_at_lookup.
Qed.

(** ** The caches *)

Lemma info_at_eq k s s' x :
  ks_store s' = ks_store s -> ks_dirty s' = ks_dirty s -> info_at G k s x -> info_at G k s' x.
Proof. intros E1 E2 []. split; by rewrite ?E1, ?E2. Qed.

Lemma cached_insert secs k s s' x :
  secs !! k = Some s -> ks_store s' = ks_store s -> ks_dirty s' = ks_dirty s -> ks_end s' = ks_end s ->
  cached G secs x -> cached G (<[k := s']> secs) x.
Proof.
  intros Hk E1 E2 E3 (j & z & Hj & Hi & He). destruct (decide (j = k)) as [->|].
  - exists k, s'. simplify_eq. split_and!.
    + apply list_lookup_insert_eq. by eapply lookup_lt_Some.
    + by eapply info_at_eq.
    + unfold space_at in *. by rewrite E3.
  - exists j, z. by rewrite list_lookup_insert_ne.
Qed.

Lemma cached_other secs k s' x :
  addr x <> Z.of_nat k * ss -> cached G secs x -> cached G (<[k := s']> secs) x.
Proof.
  intros Hx (j & z & Hj & Hi & He). exists j, z. rewrite list_lookup_insert_ne; [done|].
  intros <-. by destruct Hx, Hi.
Qed.

(** A change that does not concern the sector cache. *)
Lemma scache_insert secs k s s' t :
  secs !! k = Some s -> ks_store s' = ks_store s -> ks_dirty s' = ks_dirty s -> ks_end s' = ks_end s ->
  scache_ok G secs t -> scache_ok G (<[k := s']> secs) t.
Proof.
  intros Hk E1 E2 E3 [Hu Hf]. split; [done|]. eapply Forall_impl; [exact Hf|].
  intros x Hx Ha. eapply cached_insert; eauto.
Qed.

(** The entry of a sector that changed is replaced, if there is one. *)
Lemma scache_replace secs k s s' f t :
  secs !! k = Some s -> (k < nsec)%nat ->
  (forall x, addr (f x) = addr x) ->
  (forall x, info_at G k s x -> empty_kv x = FAILED_ADDR \/ space_at G s x ->
     info_at G k s' (f x) /\ (empty_kv (f x) = FAILED_ADDR \/ space_at G s' (f x))) ->
  scache_ok G secs t ->
  scache_ok G (<[k := s']> secs)
    (match list_find (fun x => addr x = Z.of_nat k * ss) t with
     | Some (i, x) => <[i := f x]> t
     | None => t
     end).
Proof.
  intros Hk Hlt Hfa Hf [Hu Ht]. destruct (sector_base_used k Hlt) as [Hused _].
  destruct (list_find _ t) as [[i x]|] eqn:E.
  - apply list_find_Some in E as (Hi & Hx & _). pose proof (Forall_lookup_1 _ _ _ _ Ht Hi) as Hc.
    split.
    + eapply insert_unique; [exact Hu|exact Hi|]. intros _ j z Hj Hz Ez. apply Hj.
      eapply Hu; [exact Hz|exact Hi|by rewrite Ez, Hfa|by rewrite Ez, Hfa, Hx].
    + apply Forall_lookup. intros j z Hz Hza.
      apply (insert_lookup t i (f x) x Hi) in Hz as [[-> ->]|[Hj Hz]].
      * destruct Hc as (k' & z' & Hk' & Hinfo & Hsp); [by rewrite <- Hfa|].
        assert (k' = k) as ->.
        { apply sector_base_inj. by rewrite <- Hx, (in_addr _ _ _ _ Hinfo). }
        simplify_eq. exists k, s'.
        rewrite list_lookup_insert_eq by (by eapply lookup_lt_Some). destruct (Hf x Hinfo Hsp). done.
      * apply cached_other; [|by eapply (Forall_lookup_1 _ _ _ _ Ht)].
        intros E. apply Hj. eapply Hu; [exact Hz|exact Hi|congruence|done].
  - apply list_find_None in E. split; [done|]. rewrite Forall_lookup in Ht, E |- *.
    intros j z Hz Hza. apply cached_other; [by eapply E|by eapply Ht].
Qed.

(** A node in use is still good if its record is. *)
Lemma kcache_mono secs secs' pend pend' t :
  (forall a k i s r, rec_loc G secs a k i s r -> kr_st r = FDB_KV_WRITE \/ pend = Some (kr_key r) ->
     exists k' i' s' r', rec_loc G secs' a k' i' s' r' /\ kr_key r' = kr_key r /\
       (kr_st r' = FDB_KV_WRITE \/ pend' = Some (kr_key r))) ->
  kcache_ok G secs pend t -> kcache_ok G secs' pend' t.
Proof.
  intros Hm [H1 H2 H3 H4]. split; try done. eapply Forall_impl; [exact H4|].
  intros n Hn Ha. destruct (Hn Ha) as (k & i & s & r & Hl & Hcrc & Hst).
  destruct (Hm _ _ _ _ _ Hl Hst) as (k' & i' & s' & r' & Hl' & Ek & Hst').
  exists k', i', s', r'. by rewrite Ek.
Qed.
End base.
