(* ===== verification/KvLook.v ===== *)
(** Key-value database: reading records and sectors of a database that
    represents an abstract state. *)
From S2P Require Import Prelude FdbDef Crc32 Status FlashIO FlashSpec KvDef KvRead KvWrite KvRing KvCacheSpec.
From S2P Require Import KvSpec KvState KvTriple KvBase.

(** ** The scan for the next record *)

Lemma find_magic_here buf start end_ :
  16 <= start -> start + 32 < end_ -> end_ < 4294967296 ->
  slice buf 4 4 = le_bytes 4 KV_MAGIC_WORD -> find_magic buf start start end_ 28 0 = Some start.
Proof.
  intros Hs He H32 Hb. cbn [find_magic Z.of_nat]. unfold KV_MAGIC_OFFSET.
  change (Z.of_nat 0) with 0. change (Z.of_nat 1) with 1. change (Z.of_nat 2) with 2.
  change (Z.of_nat 3) with 3. change (Z.of_nat 4) with 4.
  wrap_small. rewrite !(proj2 (Z.ltb_lt _ _)) by lia. wrap_small.
  rewrite (proj2 (Z.leb_gt _ (start + 0 - 4))), (proj2 (Z.leb_gt _ (start + 1 - 4))),
    (proj2 (Z.leb_gt _ (start + 2 - 4))), (proj2 (Z.leb_gt _ (start + 3 - 4))) by lia.
  rewrite !andb_false_r. rewrite (proj2 (Z.leb_le _ (start + 4 - 4))) by lia.
  assert (word_at buf 4 = KV_MAGIC_WORD) as ->.
  { assert (forall j x, le_bytes 4 KV_MAGIC_WORD !! j = Some x -> nth (4 + j) buf 0 = x) as H.
    { intros j x Hj. rewrite <- Hb in Hj. rewrite (slice_lookup buf 4 4) in Hj.
      - by apply nth_lookup_Some.
      - lia.
      - lia.
      - apply lookup_lt_Some in Hj. unfold slice in Hj. rewrite length_take in Hj. lia. }
    unfold word_at. rewrite (H 0%nat _ eq_refl : nth 4 buf 0 = _), (H 1%nat _ eq_refl), (H 2%nat _ eq_refl),
      (H 3%nat _ eq_refl). reflexivity. }
  rewrite Z.eqb_refl. cbn [andb]. f_equal. lia.
Qed.

Lemma find_magic_none buf cur start end_ n i :
  Forall (fun x => x = FDB_BYTE_ERASED) buf -> (i + n + 3 <= length buf)%nat ->
  find_magic buf cur start end_ n i = None.
Proof.
  intros Hb. revert i. induction n as [|n IH]; intros i Hi; cbn [find_magic]; [done|].
  destruct (_ <? end_); [|done].
  assert (forall j, (j < 4)%nat -> nth (i + j) buf 0 = FDB_BYTE_ERASED) as H.
  { intros j Hj. rewrite Forall_nth in Hb. apply Hb. lia. }
  unfold word_at. rewrite <- (Nat.add_0_r i) at 1. rewrite !H by lia. cbn. apply IH. lia.
Qed.

Lemma krec_at_magic m a r :
  0 <= a -> krec_at m a r -> slice m (a + 4) 4 = le_bytes 4 KV_MAGIC_WORD.
Proof.
  intros Ha (_ & H & _). unfold KV_MAGIC_OFFSET in H.
  rewrite <- (Z.add_0_r (a + 4)), <- (slice_slice m (a + 4) 20), H by lia. done.
Qed.

Section look.
Context (G : geom) (HG : geom_ok G) (keys : list Z -> Prop).
Context {W} {ST : Storage W} {SL : StorageLaws W} {IN : Indeterminate}.
Implicit Type d : fdb_kvdb W.
Notation ss := (sec_size G).
Notation triple := (triple (W:=W) G keys).
Notation nsec := (nsec G).

(** ** Records *)

Lemma triple_read_kv σ a k i s r kv :
  rec_pos G keys σ a k i s r -> length (kv_name kv) = 64%nat -> kv_start kv = a ->
  triple σ (read_kv kv) (fun res σ' => σ' = σ /\
    res = (FDB_NO_ERR, kv_of_rec kv (kr_st r) (kr_key r) (kr_val r))).
Proof.
  intros Hp Hn Hs. apply triple_stores. intros d m Hd Hm Hsecs.
  destruct (po_rec _ _ _ _ _ _ _ _ Hp) as [_ Hok]. apply stores_read_kv; try done.
  - rewrite Hs, (rp_geo _ _ _ _ Hd). fold (kr_len r). pose proof (kr_len_pos r).
    eapply (rec_pos_in G HG); [exact Hp|..]; unfold FDB_SEC_REMAIN_THRESHOLD, KV_HDR_DATA_SIZE, FDB_KV_NAME_MAX in *; lia.
  - rewrite Hs. by apply (rec_pos_at G keys σ m a k i s r).
Qed.

(** What [get_kv] and the callbacks read of a value. *)
Lemma triple_read_value σ a k i s r off b :
  rec_pos G keys σ a k i s r -> 0 <= off -> off + len b <= len (kr_val r) ->
  triple σ (up (_fdb_flash_read (a + KV_HDR_DATA_SIZE + len (kr_key r) + off) b))
    (fun res σ' => σ' = σ /\ snd res = slice (kr_val r) off (len b)).
Proof.
  intros Hp Ho Hob. apply triple_stores. intros d m Hd Hm Hsecs.
  pose proof (len_nonneg b). pose proof (len_nonneg (kr_key r)).
  destruct (rec_pos_range G HG _ _ _ _ _ _ _ Hp) as (Ha & _ & _).
  eapply stores_mono; [apply stores_read; [exact Hm|]|].
  - rewrite (rp_geo _ _ _ _ Hd). eapply (rec_pos_in G HG); [exact Hp|..]; ks_unfold; lia.
  - intros res [-> _]. destruct (rec_pos_at G keys _ _ _ _ _ _ _ Hp Hsecs) as (_ & _ & _ & Hv).
    rewrite <- Hv, slice_slice by (ks_unfold; lia). done.
Qed.

(** ** The cache of sectors *)

Lemma triple_get_sector σ a :
  a <> FDB_DATA_UNUSED ->
  triple σ (get_sector_from_cache a) (fun c σ' => σ' = σ /\
    match c with Some (_, x) => addr x = a /\ cached G (k_secs σ) x | None => True end).
Proof.
  intros Ha d Hd. apply wp_gets. exists σ. split; [done|]. split; [done|].
  destruct (list_find _ _) as [[i x]|] eqn:E; [|done].
  apply list_find_Some in E as (Hi & <- & _). split; [done|].
  destruct (rp_scache _ _ _ _ Hd) as [_ Hf]. by eapply (Forall_lookup_1 _ _ _ _ Hf).
Qed.

(** ** The next record *)

Definition next_addr (k : nat) (s : ksec) (i : nat) : Z :=
  if decide (S i < length (ks_recs s))%nat then raddr ss k (ks_recs s) (S i) else FAILED_ADDR.

Lemma raddr_S k rs i r : rs !! i = Some r -> raddr ss k rs (S i) = raddr ss k rs i + kr_len r.
Proof. intros Hi. unfold raddr. rewrite (recs_len_take_S _ _ _ Hi). lia. Qed.

(** The loop of [find_next_kv_addr], and the part of a sector that it reads. *)
Definition next_scan (start end_ : Z) : M (fdb_kvdb W) Z :=
  loop (Z.to_nat ((end_ - start) / 28) + 2)
    (fun '(cur, buf) =>
       if (cur <? end_) && (cur + 32 <? end_) then
         r ← up (_fdb_flash_read cur buf);
         if decide (fst r = FDB_NO_ERR) then
           match find_magic (snd r) cur start end_ 28 0 with
           | Some a => mret (inr a)
           | None => mret (inl (u32 (cur + 28), snd r))
           end
         else mret (inr FAILED_ADDR)
       else mret (inr FAILED_ADDR))
    (start, indet_buf 32).
Definition scan_end (k : nat) : Z := Z.of_nat k * ss + ss - 16.

Lemma scan_in d k cur :
  geo (parent d) = G -> (k < nsec)%nat -> Z.of_nat k * ss <= cur -> cur + 32 < scan_end k ->
  in_sector (geo (parent d)) cur 32.
Proof.
  intros -> Hk H1 H2. destruct (sector_base G HG k Hk) as (Hb1 & Hb2 & _). pose proof (ss_range G HG).
  replace cur with (Z.of_nat k * ss + (cur - Z.of_nat k * ss)) by lia.
  apply (in_sector_off G HG); unfold scan_end in *; lia.
Qed.

(** Another record is found at once. *)
Lemma stores_scan_record d m k s i r :
  kv_holds d m -> geo (parent d) = G -> (k < nsec)%nat -> sec_at ss m (Z.of_nat k * ss) s ->
  ksec_ok keys ss s -> ks_recs s !! i = Some r ->
  stores (next_scan (raddr ss k (ks_recs s) i) (scan_end k)) d m (fun n => n = raddr ss k (ks_recs s) i).
Proof.
  intros Hm Hgeo Hk Hs Hok Hi. destruct (sector_base G HG k Hk) as (Hb1 & Hb2 & _). pose proof (ss_range G HG) as Hss.
  pose proof (so_room _ _ _ Hok ltac:(by destruct (ks_recs s))) as Hroom.
  pose proof (recs_len_nonneg (take i (ks_recs s))) as Ht0. pose proof (holds_len _ _ _ Hm) as Hlen. rewrite Hgeo in Hlen.
  pose proof (recs_len_middle _ _ _ Hi) as Hmid. pose proof (kr_len_pos r). pose proof (recs_len_nonneg (drop (S i) (ks_recs s))).
  pose proof (recs_at_lookup _ _ _ _ _ (sa_recs _ _ _ _ Hs) Hi) as Hrec. fold (raddr ss k (ks_recs s) i) in Hrec.
  set (start := raddr ss k (ks_recs s) i) in *. set (end_ := scan_end k).
  assert (Z.of_nat k * ss <= start /\ 16 <= start /\ start + 32 < end_) as (Hs0 & Hs1 & Hs2)
    by (unfold start, raddr, end_, scan_end, ks_end in *; ks_unfold; lia).
  unfold next_scan. replace (Z.to_nat _ + 2)%nat with (S (Z.to_nat ((end_ - start) / 28) + 1)) by lia. cbn [loop].
  rewrite !(proj2 (Z.ltb_lt _ _)) by lia. cbn [andb].
  eapply stores_bind with (R1 := fun x => x = inr start); [|by intros x j -> Hj; apply stores_ret].
  assert (end_ = Z.of_nat k * ss + ss - 16) as Eend by done.
  eapply stores_bind; [apply stores_read; [exact Hm|]|].
  - rewrite len_indet_buf by lia. by apply (scan_in d k).
  - rewrite len_indet_buf by lia. intros [e b] j (Hbuf & He) Hj. cbn [fst snd] in *.
    rewrite decide_True by (apply He; lia). subst b.
    rewrite find_magic_here; [by apply stores_ret|lia|lia|lia|].
    rewrite slice_slice by lia. apply (krec_at_magic m start r); [lia|exact Hrec].
Qed.

(** In the free space behind the records nothing is found. *)
Lemma stores_scan_free d m k s :
  kv_holds d m -> geo (parent d) = G -> (k < nsec)%nat -> sec_at ss m (Z.of_nat k * ss) s ->
  16 <= ks_end s -> ks_end s + FDB_SEC_REMAIN_THRESHOLD <= ss ->
  stores (next_scan (Z.of_nat k * ss + ks_end s) (scan_end k)) d m (fun n => n = FAILED_ADDR).
Proof.
  intros Hm Hgeo Hk Hs He16 Hroom. destruct (sector_base G HG k Hk) as (Hb1 & Hb2 & _). pose proof (ss_range G HG) as Hss.
  set (start := Z.of_nat k * ss + ks_end s). unfold stores, next_scan. set (end_ := scan_end k).
  assert (end_ = Z.of_nat k * ss + ss - 16) as Eend by done. eapply (wp_loop
    (fun '(cur, buf) d' => exists j, d' = kv_io j d /\ kv_holds d' m /\ start <= cur /\
       cur <= end_ /\ length buf = 32%nat)
    (fun '(cur, buf) _ => Z.to_nat ((end_ - cur) / 28))).
  2:{ exists (dbio (parent d)). rewrite kv_io_id. split_and!; try done. unfold start. ks_unfold. lia. }
  2:{ lia. }
  intros [cur buf] d' (j & -> & Hj & Hc1 & Hc2 & Hbl).
  destruct (Z.ltb_spec cur end_), (Z.ltb_spec (cur + 32) end_); cbn [andb]; try (apply wp_ret; eauto).
  assert (len buf = 32) as Hbl' by (unfold len; lia).
  apply wp_bind. eapply wp_stores; [apply stores_read; [exact Hj|]|].
  { rewrite Hbl'. apply (scan_in _ k); [done|done|unfold start in *; lia|done]. }
  rewrite Hbl'. intros [e b] j' (Hbuf & He) Hj'. cbn [fst snd] in *.
  rewrite decide_True by (apply He; lia). rewrite kv_io_io in *.
  assert (b = replicate 32 FDB_BYTE_ERASED) as ->.
  { rewrite Hbuf. apply (filled_sub _ _ _ _ cur 32 (sa_free _ _ _ _ Hs)); unfold start in *; ks_unfold; lia. }
  rewrite find_magic_none; [|by apply Forall_replicate|rewrite length_replicate; lia].
  apply wp_ret. wrap_small. split; [exists j'; split_and!; (done || lia)|].
  replace (end_ - cur) with (end_ - (cur + 28) + 1 * 28) by lia. rewrite Z.div_add by lia.
  pose proof (Z.div_pos (end_ - (cur + 28)) 28). lia.
Qed.

(** From the end of a record the next one is found, if there is one. *)
Lemma stores_find_next d m k s i r :
  kv_holds d m -> geo (parent d) = G -> (k < nsec)%nat -> sec_at ss m (Z.of_nat k * ss) s ->
  ksec_ok keys ss s -> ks_recs s !! i = Some r ->
  stores (next_scan (raddr ss k (ks_recs s) (S i)) (scan_end k)) d m (fun n => n = next_addr k s i).
Proof.
  intros Hm Hgeo Hk Hs Hok Hi. unfold next_addr. case_decide as Hlast.
  - destruct (lookup_lt_is_Some_2 _ _ Hlast) as [r2 Hr2]. by apply (stores_scan_record d m k s (S i) r2).
  - assert (take (S i) (ks_recs s) = ks_recs s) as Eall by (apply take_ge; lia).
    assert (raddr ss k (ks_recs s) (S i) = Z.of_nat k * ss + ks_end s) as -> by (unfold raddr, ks_end; rewrite Eall; lia).
    apply stores_scan_free; try done.
    + pose proof (recs_len_nonneg (ks_recs s)). unfold ks_end. ks_unfold. lia.
    + pose proof (so_room _ _ _ Hok ltac:(by destruct (ks_recs s))). lia.
Qed.

Lemma align_down (k : nat) off :
  (k < nsec)%nat -> 0 <= off < ss -> FDB_ALIGN_DOWN (Z.of_nat k * ss + off) ss = Z.of_nat k * ss.
Proof.
  intros Hk Ho. unfold FDB_ALIGN_DOWN. destruct (sector_base G HG k Hk). pose proof (ss_range G HG).
  destruct (div_mod_eq (Z.of_nat k * ss + off) ss (Z.of_nat k) off ltac:(lia) Ho) as [-> _].
  apply u64_small. lia.
Qed.

(** A sector of the state. *)
Lemma sec_lookup σ k s : swf G keys σ -> k_secs σ !! k = Some s ->
  (k < nsec)%nat /\ ksec_ok keys ss s /\ SECTOR_HDR_DATA_SIZE <= ks_end s <= ss.
Proof.
  intros [W1 W2 _] Hk. pose proof (Forall_lookup_1 _ _ _ _ W2 Hk). split; [|split; [done|]].
  - rewrite <- W1. by eapply lookup_lt_Some.
  - eapply ks_end_range; [|done]. apply ss_range, HG.
Qed.

Lemma triple_sec_size {B} σ (p : Z -> M (fdb_kvdb W) B) Q :
  triple σ (p ss) Q -> triple σ (gets kv_sec_size ≫= p) Q.
Proof. apply triple_gets. intros d Hd. unfold kv_sec_size. by rewrite (rp_geo _ _ _ _ Hd). Qed.

Lemma next_addr_eq k s i r :
  ks_recs s !! i = Some r ->
  next_addr k s i = if decide (raddr ss k (ks_recs s) (S i) = Z.of_nat k * ss + ks_end s)
                    then FAILED_ADDR else raddr ss k (ks_recs s) (S i).
Proof.
  intros Hi. pose proof (lookup_lt_Some _ _ _ Hi). unfold next_addr, raddr, ks_end.
  repeat case_decide; try done.
  - assert (S i = length (ks_recs s)); [|lia].
    apply (recs_len_take_inj (ks_recs s)); [lia|done|]. rewrite (take_ge _ (length _)) by done. lia.
  - rewrite take_ge in * by lia. lia.
Qed.

Lemma triple_find_next σ k i s r :
  k_secs σ !! k = Some s -> ks_recs s !! i = Some r ->
  triple σ (find_next_kv_addr (raddr ss k (ks_recs s) (S i)) (Z.of_nat k * ss + ss - 16))
    (fun n σ' => σ' = σ /\ n = next_addr k s i).
Proof.
  intros Hk Hi. apply triple_wf. intros Hwf. destruct (sec_lookup _ _ _ Hwf Hk) as (Hlt & Hok & Hend).
  destruct (sector_base_used G HG k Hlt) as [Hu _].
  pose proof (rec_pos_intro G keys _ _ _ _ _ _ Hwf (conj Hk (conj Hi eq_refl))) as Hp.
  pose proof (rec_pos_range G HG _ _ _ _ _ _ _ Hp) as (Ha & Hr & _).
  pose proof (ss_range G HG). pose proof (recs_len_nonneg (take (S i) (ks_recs s))).
  pose proof (recs_len_take_le (ks_recs s) (S i)).
  assert (raddr ss k (ks_recs s) (S i) = Z.of_nat k * ss + (16 + recs_len (take (S i) (ks_recs s)))) as Eoff
    by (unfold raddr, SECTOR_HDR_DATA_SIZE; lia).
  pose proof (so_room _ _ _ Hok ltac:(by destruct (ks_recs s))) as Hroom.
  unfold find_next_kv_addr. apply triple_sec_size.
  rewrite Eoff, align_down, <- Eoff by (done || ks_unfold; lia).
  eapply triple_bind; [apply triple_get_sector; done|]. cbn beta. intros c σ' [-> Hc].
  assert (raddr ss k (ks_recs s) (S i) <> FAILED_ADDR) as Hnf.
  { pose proof (raddr_S k _ _ _ Hi). pose proof (kr_len_pos r). unfold FAILED_ADDR.
    ks_unfold. lia. }
  destruct (match c with Some (_, x) => _ | None => false end) eqn:Ec.
  - apply triple_ret. split; [done|]. destruct c as [[j x]|]; [|done]. apply Z.eqb_eq in Ec.
    destruct Hc as [Hx (k' & s' & Hk' & Hinfo & He)]. destruct He as [He|[He _]]; [congruence|].
    assert (k' = k) as -> by (apply (sector_base_inj G HG); by rewrite <- Hx, (in_addr _ _ _ _ Hinfo)).
    simplify_eq. rewrite (next_addr_eq _ _ _ _ Hi), decide_True by congruence. done.
  - apply triple_stores. intros d m Hd Hm Hs. eapply stores_find_next; try done; [apply Hd|by apply Hs].
Qed.

Lemma triple_get_next_at σ k i s r x kv :
  k_secs σ !! k = Some s -> ks_recs s !! i = Some r -> addr x = Z.of_nat k * ss -> store x <> FDB_SECTOR_STORE_EMPTY ->
  kv_start kv = raddr ss k (ks_recs s) i -> kv_crc_is_ok kv = true -> kv_len kv = kr_len r ->
  triple σ (get_next_kv_addr x kv) (fun n σ' => σ' = σ /\ n = next_addr k s i).
Proof.
  intros Hk Hi Hx Hxs Hst Hcrc Hlen. apply triple_wf. intros Hwf.
  destruct (sec_lookup _ _ _ Hwf Hk) as (Hlt & Hok & Hend).
  pose proof (rec_pos_intro G keys _ _ _ _ _ _ Hwf (conj Hk (conj Hi eq_refl))) as Hp.
  pose proof (rec_pos_range G HG _ _ _ _ _ _ _ Hp) as (Ha & Hr & Hl).
  destruct (sector_base G HG k Hlt) as (Hb1 & Hb2 & _). pose proof (ss_range G HG).
  unfold get_next_kv_addr. apply triple_sec_size. rewrite decide_False by done.
  destruct Hp as [_ _ _ _ Hlo Hhi Hend']. rewrite Hst, Hcrc, Hlen, Hx. ks_consts.
  unfold FAILED_ADDR at 1. rewrite (proj2 (Z.eqb_neq _ _)) by lia. wrap_small.
  rewrite (proj2 (Z.leb_le _ _)) by lia. rewrite <- (raddr_S k _ _ _ Hi).
  eapply triple_bind; [by eapply triple_find_next|]. cbn beta. intros n σ' [-> ->].
  assert (kr_len r =? 0 = false) as -> by (apply Z.eqb_neq; lia).
  pose proof (recs_len_take_le (ks_recs s) (S i)).
  unfold next_addr. case_decide.
  - rewrite (proj2 (Z.eqb_neq _ _)) by (unfold raddr, ks_end, FAILED_ADDR in *; ks_consts; lia).
    rewrite (proj2 (Z.ltb_ge _ _)) by (unfold raddr, ks_end in *; ks_consts; lia).
    by apply triple_ret.
  - rewrite Z.eqb_refl. by apply triple_ret.
Qed.

Lemma used_info k s x : info_at G k s x -> ks_recs s <> [] -> store x <> FDB_SECTOR_STORE_EMPTY.
Proof. intros Hx Hne. rewrite (in_store _ _ _ _ Hx). unfold ks_store. by destruct (ks_recs s). Qed.

Lemma triple_get_next σ k i s r x kv :
  k_secs σ !! k = Some s -> ks_recs s !! i = Some r -> info_at G k s x ->
  kv_start kv = raddr ss k (ks_recs s) i -> kv_crc_is_ok kv = true -> kv_len kv = kr_len r ->
  triple σ (get_next_kv_addr x kv) (fun n σ' => σ' = σ /\ n = next_addr k s i).
Proof.
  intros Hk Hi Hx. apply (triple_get_next_at σ k i s r); try done; [apply Hx|].
  eapply used_info; [exact Hx|]. by destruct (ks_recs s).
Qed.

(** The address of the first record. *)
Lemma raddr_0 k rs : raddr ss k rs 0 = Z.of_nat k * ss + SECTOR_HDR_DATA_SIZE.
Proof. unfold raddr. simpl. lia. Qed.
End look.
