(* ===== verification/KvSector.v ===== *)
(** Key-value database: reading the information about a sector, through the
    cache or from the medium. *)
From S2P Require Import Prelude FdbDef Crc32 Status FlashIO FlashSpec KvDef KvRead KvWrite KvRing KvCacheSpec.
From S2P Require Import KvSpec KvGetSpec KvState KvTriple KvBase KvLook.

Lemma trailing_ff_erased n : trailing_ff (replicate n FDB_BYTE_ERASED) = 0.
Proof. destruct n; [done|]. cbn [replicate trailing_ff]. rewrite decide_True; [done|].
  by apply (Forall_replicate _ (S n)).
Qed.

(** The entries after an update: the new one and old ones. *)
Lemma update_sector_table_elem x t z :
  z ∈ update_sector_table x t -> addr z <> FDB_DATA_UNUSED -> z = x \/ z ∈ t.
Proof.
  unfold update_sector_table. intros Hz Ha.
  assert (forall i, z ∈ <[i := x]> t -> z = x \/ z ∈ t) as Hins.
  { intros i Hi. apply list_elem_of_lookup in Hi as [j Hj].
    apply list_lookup_insert_Some in Hj as [(_ & -> & _)|[_ Hj]]; [by left|right].
    by eapply list_elem_of_lookup_2. }
  destruct (sector_slot t (addr x) 0 None) as [i|[i|]]; [destruct (check_ok x)|destruct (check_ok x)|];
    eauto.
  apply list_elem_of_lookup in Hz as [j Hj]. rewrite list_lookup_alter in Hj. case_decide; subst.
  - destruct (t !! j) as [y|]; [|done]. cbn in Hj. by simplify_eq.
  - right. by eapply list_elem_of_lookup_2.
Qed.

Section sector.
Context (G : geom) (HG : geom_ok G) (keys : list Z -> Prop).
Context {W} {ST : Storage W} {SL : StorageLaws W} {IN : Indeterminate}.
Implicit Type d : fdb_kvdb W.
Notation ss := (sec_size G).
Notation triple := (triple (W:=W) G keys).
Notation nsec := (nsec G).

Lemma info_at_space k s x a b : info_at G k s x -> info_at G k s (sec_set_space a b x).
Proof. by intros []. Qed.

Lemma triple_update_sector_cache σ k s x :
  k_secs σ !! k = Some s -> info_at G k s x -> empty_kv x = FAILED_ADDR \/ space_at G s x ->
  triple σ (update_sector_cache x) (fun _ σ' => σ' = σ).
Proof.
  intros Hk Hx He. apply triple_modify with σ; [|done]. intros d Hd.
  assert (addr x <> FDB_DATA_UNUSED) as Ha.
  { rewrite (in_addr _ _ _ _ Hx). apply (sector_base_used G HG).
    rewrite <- (sw_len _ _ _ (rp_wf _ _ _ _ Hd)). by eapply lookup_lt_Some. }
  destruct Hd as [H1 H2 H3 H4 H5 H6 H7 H8 H9 [Hu Hf] H11]. split; try done. cbn. split.
  - by apply update_sector_table_get.
  - apply Forall_forall. intros z Hz Hza. rewrite Forall_forall in Hf.
    apply update_sector_table_elem in Hz as [->|Hz]; [|by apply Hf|done].
    by exists k, s.
Qed.

(** ** The records of a sector *)

Lemma triple_read_sector_kvs σ k s x :
  k_secs σ !! k = Some s -> ks_recs s <> [] -> info_at G k s x ->
  empty_kv x = Z.of_nat k * ss + SECTOR_HDR_DATA_SIZE -> remain x = ss - SECTOR_HDR_DATA_SIZE ->
  triple σ (read_sector_kvs x) (fun res σ' => σ' = σ /\
    res = (FDB_NO_ERR, sec_set_space (ss - ks_end s) (Z.of_nat k * ss + ks_end s) x)).
Proof.
  intros Hk Hne Hx He Hr. apply triple_wf. intros Hwf.
  destruct (sec_lookup G HG keys _ _ _ Hwf Hk) as (Hlt & Hok & Hend).
  pose proof (recs_len_count (ks_recs s)) as Hcount. pose proof (ss_range G HG) as Hss.
  destruct (sector_base G HG k Hlt) as (Hb1 & Hb2 & _).
  unfold read_sector_kvs. apply triple_sec_size.
  eapply (triple_loop _ _
    (fun '(y, kv) σ' => σ' = σ /\ exists i r, ks_recs s !! i = Some r /\
       y = sec_set_space (ss - SECTOR_HDR_DATA_SIZE - recs_len (take i (ks_recs s)))
                         (raddr ss k (ks_recs s) i) x /\
       kv_start kv = raddr ss k (ks_recs s) i /\ length (kv_name kv) = 64%nat)
    (fun '(y, kv) _ => Z.to_nat (ss - (kv_start kv - Z.of_nat k * ss)))).
  - intros [y kv] σ' [-> (i & r & Hi & -> & Hkv & Hnm)].
    pose proof (rec_pos_intro G keys _ _ _ _ _ _ Hwf (conj Hk (conj Hi eq_refl))) as Hp.
    pose proof (rec_pos_range G HG _ _ _ _ _ _ _ Hp) as (Ha & Hm & Hl).
    eapply triple_bind; [by eapply triple_read_kv|]. cbn beta. intros ? ? [-> ->].
    cbn [snd kv_crc_is_ok kv_of_rec negb andb kv_len]. fold (kr_len r).
    cbn [sec_set_space remain empty_kv]. destruct (ks_recs s) as [|r0 rs] eqn:Ers; [done|]. rewrite <- Ers in *.
    pose proof (recs_len_middle _ _ _ Hi) as Hmid. pose proof (recs_len_nonneg (take i (ks_recs s))).
    pose proof (recs_len_nonneg (drop (S i) (ks_recs s))). pose proof (po_hi _ _ _ _ _ _ _ _ Hp) as Hhi.
    rewrite <- (raddr_S G k _ _ _ Hi). pose proof (raddr_S G k _ _ _ Hi) as HS.
    unfold ks_end in *. ks_consts.
    rewrite u64_small by lia. rewrite u32_small by lia.
    eapply triple_bind; [eapply triple_get_next; try done; by do 2 apply info_at_space|].
    cbn beta. intros nxt ? [-> ->]. unfold next_addr. case_decide as Hlast.
    + rewrite (proj2 (Z.eqb_neq _ _)) by (unfold FAILED_ADDR; lia).
      apply triple_ret. split; [split; [done|]|].
      * destruct (lookup_lt_is_Some_2 _ _ Hlast) as [r2 Hr2]. exists (S i), r2. split_and!; [done| |done|].
        -- unfold sec_set_space. cbn. f_equal. rewrite (recs_len_take_S _ _ _ Hi). ks_consts. lia.
        -- by rewrite <- (length_kv_name_of_rec kv (kr_st r) (kr_key r) (kr_val r) Hnm).
      * cbn [kv_start kv_set_start]. rewrite Hkv. unfold raddr in *. ks_consts. lia.
    + rewrite Z.eqb_refl. apply triple_ret. split; [done|]. f_equal. unfold sec_set_space. cbn.
      pose proof (lookup_lt_Some _ _ _ Hi).
      assert (recs_len (take (S i) (ks_recs s)) = recs_len (ks_recs s)) as Eall by (by rewrite take_ge by lia).
      pose proof (recs_len_take_S _ _ _ Hi). unfold raddr. rewrite Eall. unfold ks_end. ks_consts. f_equal; lia.
  - split; [done|]. destruct (ks_recs s) as [|r rs] eqn:E; [done|]. rewrite <- E in *.
    exists 0%nat, r. rewrite raddr_0, (in_addr _ _ _ _ Hx). ks_consts. wrap_small.
    split_and!; [by rewrite E| |done|by apply length_indet_buf].
    rewrite take_0. cbn [recs_len]. rewrite Z.sub_0_r, <- He, <- Hr. by destruct x.
  - cbn [kv_start kv_set_start]. rewrite (in_addr _ _ _ _ Hx). ks_consts. wrap_small. lia.
Qed.

(** ** The information about a sector *)

Lemma triple_continue_ff σ k s :
  k_secs σ !! k = Some s ->
  triple σ (up (_fdb_continue_ff_addr FDB_WRITE_GRAN (Z.of_nat k * ss + ks_end s) (Z.of_nat k * ss + ss)))
    (fun r σ' => σ' = σ /\ r = Z.of_nat k * ss + ks_end s).
Proof.
  intros Hk. apply triple_wf. intros Hwf. destruct (sec_lookup G HG keys _ _ _ Hwf Hk) as (Hlt & Hok & Hend).
  pose proof (ss_range G HG). apply triple_stores. intros d m Hd Hm Hs. apply stores_up.
  assert (Z.of_nat k * ss + ks_end s < Z.of_nat k * ss + ss) as Hlt'.
  { destruct Hok as [_ Hroom]. unfold ks_end in *. destruct (ks_recs s); [cbn; ks_consts; lia|].
    specialize (Hroom ltac:(done)). ks_consts. lia. }
  eapply wp_mono; [apply (continue_ff_spec _ m); [exact Hm|lia|]|].
  - rewrite (rp_geo _ _ _ _ Hd). apply (in_sector_off G HG); ks_consts; lia.
  - intros r db' (i & -> & Hi & ->). exists i. split_and!; try done.
    replace (Z.of_nat k * ss + ss - _) with (ss - ks_end s) by lia.
    rewrite (sa_free _ _ _ _ (Hs _ _ Hk)), trailing_ff_erased. lia.
Qed.

Lemma triple_traverse_sector σ k s x :
  k_secs σ !! k = Some s -> info_at G k s x ->
  triple σ (traverse_sector x) (fun res σ' => σ' = σ /\ fst res = FDB_NO_ERR /\
    info_at G k s (snd res) /\ space_at G s (snd res)).
Proof.
  intros Hk Hx. apply triple_wf. intros Hwf.
  destruct (sec_lookup G HG keys _ _ _ Hwf Hk) as (Hlt & Hok & Hend).
  destruct (sector_base G HG k Hlt) as (Hb1 & Hb2 & _). pose proof (ss_range G HG).
  pose proof (in_addr _ _ _ _ Hx) as Ha. unfold traverse_sector. apply triple_sec_size.
  set (x1 := sec_set_space 0 (u32 (addr x + SECTOR_HDR_DATA_SIZE)) x).
  eapply triple_bind with (R := fun res σ' => σ' = σ /\
    res = (FDB_NO_ERR, sec_set_space (ss - ks_end s) (Z.of_nat k * ss + ks_end s) x)).
  - change (store x1) with (store x). rewrite (in_store _ _ _ _ Hx). unfold ks_store.
    destruct (ks_recs s) as [|r rs] eqn:E.
    + apply triple_ret. split; [done|]. unfold ks_end, x1. rewrite E. cbn. rewrite Ha. unfold sec_set_space. cbn.
      ks_consts. wrap_small. do 2 f_equal; lia.
    + set (x2 := sec_set_space _ _ x1).
      assert (x2 = sec_set_space (ss - SECTOR_HDR_DATA_SIZE) (Z.of_nat k * ss + SECTOR_HDR_DATA_SIZE) x) as ->.
      { unfold x2, x1, sec_set_space. cbn. rewrite Ha. ks_consts. by wrap_small. }
      eapply triple_bind; [eapply (triple_read_sector_kvs σ k s); try done; [by rewrite E|by apply info_at_space]|].
      cbn beta. intros res σ' [-> ->]. cbn [fst snd empty_kv sec_set_space addr]. rewrite Ha. wrap_small.
      eapply triple_bind; [by apply triple_continue_ff|]. cbn beta. intros ff σ' [-> ->].
      rewrite Z.eqb_refl. by apply triple_ret.
  - cbn beta. intros res σ' [-> ->]. cbn [snd].
    assert (space_at G s (sec_set_space (ss - ks_end s) (Z.of_nat k * ss + ks_end s) x)) as Hsp
      by (unfold space_at; cbn; rewrite Ha; lia).
    eapply triple_bind; [eapply triple_update_sector_cache; [done|by apply info_at_space|by right]|].
    cbn beta. intros _ σ' ->. apply triple_ret. split_and!; try done; [by apply info_at_space|apply Hsp..].
Qed.

Lemma sector_status_of_byte (st : fdb_sector_store_status) :
  enum_of (_fdb_get_status FDB_WRITE_GRAN [status_byte (enum_val st)] FDB_SECTOR_STORE_STATUS_NUM) = st.
Proof. by destruct st. Qed.
Lemma dirty_status_of_byte (st : fdb_sector_dirty_status) :
  enum_of (_fdb_get_status FDB_WRITE_GRAN [status_byte (enum_val st)] FDB_SECTOR_DIRTY_STATUS_NUM) = st.
Proof. by destruct st. Qed.

(** The header of a sector, read back. *)
Lemma triple_read_hdr σ k s :
  k_secs σ !! k = Some s ->
  triple σ (up (_fdb_flash_read (Z.of_nat k * ss) (replicate (Z.to_nat SECTOR_HDR_DATA_SIZE) 0)))
    (fun r σ' => σ' = σ /\ let h := dec_sector_hdr (snd r) in
       sh_store h = status_byte (enum_val (ks_store s)) /\ sh_dirty h = status_byte (enum_val (ks_dirty s)) /\
       sh_magic h = SECTOR_MAGIC_WORD /\ sh_combined h = SECTOR_NOT_COMBINED).
Proof.
  intros Hk. apply triple_wf. intros Hwf. destruct (sec_lookup G HG keys _ _ _ Hwf Hk) as (Hlt & Hok & Hend).
  pose proof (ss_range G HG). apply triple_stores. intros d m Hd Hm Hs.
  destruct (Hs _ _ Hk) as [H1 H2 H3 H4 _ _]. destruct (sector_base G HG k Hlt) as (Hb1 & _ & _).
  eapply stores_mono; [apply stores_read; [exact Hm|]|].
  - rewrite (rp_geo _ _ _ _ Hd), <- (Z.add_0_r (Z.of_nat k * ss)).
    change (len (replicate _ _)) with 16. apply (in_sector_off G HG); ks_consts; lia.
  - change (len (replicate _ _)) with 16. intros r [-> _]. ks_consts. unfold dec_sector_hdr. cbn.
    set (h := slice m (Z.of_nat k * ss) 16).
    assert (forall b n, 0 <= b -> 0 <= n -> b + n <= 16 -> slice h b n = slice m (Z.of_nat k * ss + b) n) as Hh
      by (intros; by apply slice_slice).
    split_and!.
    + apply (slice_one h 0). rewrite Hh by lia. by rewrite Z.add_0_r.
    + apply (slice_one h 1). by rewrite Hh by lia.
    + unfold le32_at. by rewrite Hh, H3 by lia.
    + unfold le32_at. by rewrite Hh, H4 by lia.
Qed.

Lemma triple_read_sector_info σ k s x traversal :
  k_secs σ !! k = Some s ->
  triple σ (read_sector_info (Z.of_nat k * ss) x traversal) (fun res σ' => σ' = σ /\
    fst res = FDB_NO_ERR /\ info_at G k s (snd res) /\ (traversal = true -> space_at G s (snd res))).
Proof.
  intros Hk. apply triple_wf. intros Hwf. destruct (sec_lookup G HG keys _ _ _ Hwf Hk) as (Hlt & Hok & Hend).
  destruct (sector_base_used G HG k Hlt) as [Hu _]. destruct (sector_base G HG k Hlt) as (_ & _ & Hmod).
  pose proof (ss_range G HG). unfold read_sector_info. apply triple_sec_size.
  rewrite (proj2 (Z.eqb_neq ss 0)) by lia.
  eapply triple_bind; [apply triple_assert with (Q := fun _ σ' => σ' = σ); [by apply Z.eqb_eq|done]|].
  cbn beta. intros _ σ' ->. eapply triple_bind; [by apply triple_get_sector|]. cbn beta. intros c σ' [-> Hc].
  destruct (match c with Some _ => _ | None => None end) as [y|] eqn:Ec.
  - destruct c as [[i z]|]; [|done]. destruct (negb traversal || negb (empty_kv z =? FAILED_ADDR)) eqn:Et; [|done].
    injection Ec as ->. destruct Hc as [Hy (j & s' & Hj & Hinfo & He)].
    assert (j = k) as -> by (apply (sector_base_inj G HG); by rewrite <- (in_addr _ _ _ _ Hinfo)).
    simplify_eq. apply triple_ret. split_and!; try done. cbn [snd]. intros ->.
    cbn in Et. apply negb_true_iff, Z.eqb_neq in Et. by destruct He.
  - eapply triple_bind; [by apply triple_read_hdr|]. cbn beta. intros r σ' [-> (E1 & E2 & E3 & E4)].
    rewrite E1, E2, E3, E4, sector_status_of_byte, dirty_status_of_byte, !Z.eqb_refl. cbn [negb orb andb].
    set (y := KvSec _ _ _ _ _ _ _ _).
    assert (info_at G k s y) as Hy by (split; try done; by left).
    destruct traversal.
    + eapply triple_mono; [by apply triple_traverse_sector|]. cbn beta. intros res σ' (-> & ? & ? & ?). done.
    + eapply triple_bind; [by apply triple_get_sector|]. cbn beta. intros c' σ' [-> Hc'].
      destruct c'; [by apply triple_ret|].
      eapply triple_bind; [eapply triple_update_sector_cache; [done|by apply info_at_space|by left]|].
      cbn beta. intros _ σ' ->. apply triple_ret. split_and!; try done; by apply info_at_space.
Qed.
End sector.
