(* ===== verification/KvIter.v ===== *)
(** Key-value database: the iteration over the sectors and over the records. *)
From S2P Require Import Prelude FdbDef Crc32 Status FlashIO FlashSpec KvDef KvRead KvWrite KvRing KvCacheSpec.
From S2P Require Import KvSpec KvGetSpec KvState KvTriple KvBase KvLook KvSector.

(** ** The ring *)

(** The index of the sector visited at step [t], starting from [o]. *)
Definition ring_idx (n o t : nat) : nat := ((o + t) mod n)%nat.
Definition rotate_secs (o : nat) (secs : list ksec) : list ksec := drop o secs ++ take o secs.

Lemma ring_idx_lt n o t : (0 < n)%nat -> (ring_idx n o t < n)%nat.
Proof. intros. apply Nat.mod_upper_bound. lia. Qed.

Lemma ring_idx_0 n o : (o < n)%nat -> ring_idx n o 0 = o.
Proof. intros. unfold ring_idx. rewrite Nat.add_0_r. by apply Nat.mod_small. Qed.

Lemma ring_idx_S n o t : (0 < n)%nat ->
  Z.of_nat (ring_idx n o (S t)) = next_index (Z.of_nat n) (Z.of_nat (ring_idx n o t)).
Proof.
  intros Hn. unfold ring_idx, next_index. pose proof (Nat.mod_upper_bound (o + t) n ltac:(lia)).
  replace (o + S t)%nat with (o + t + 1)%nat by lia.
  rewrite <- (Nat.Div0.add_mod_idemp_l (o + t) 1 n). set (x := ((o + t) mod n)%nat) in *.
  destruct (Z.ltb_spec (Z.of_nat x + 1) (Z.of_nat n)).
  - rewrite Nat.mod_small by lia. lia.
  - replace (x + 1)%nat with (1 * n)%nat by lia. by rewrite Nat.Div0.mod_mul.
Qed.

Lemma length_rotate o secs : length (rotate_secs o secs) = length secs.
Proof. unfold rotate_secs. rewrite length_app, length_drop, length_take. lia. Qed.

Lemma rotate_lookup o secs t :
  (o < length secs)%nat -> (t < length secs)%nat ->
  rotate_secs o secs !! t = secs !! ring_idx (length secs) o t.
Proof.
  intros Ho Ht. unfold rotate_secs, ring_idx.
  destruct (decide (o + t < length secs)%nat).
  - rewrite lookup_app_l by (rewrite length_drop; lia). rewrite lookup_drop, Nat.mod_small by lia. done.
  - rewrite lookup_app_r by (rewrite length_drop; lia). rewrite length_drop.
    rewrite lookup_take_lt by lia.
    replace (o + t)%nat with (o + t - length secs + 1 * length secs)%nat by lia.
    rewrite Nat.Div0.mod_add, Nat.mod_small by lia. f_equal. lia.
Qed.

Lemma rotate_perm o secs : rotate_secs o secs ≡ₚ secs.
Proof. unfold rotate_secs. by rewrite Permutation_app_comm, take_drop. Qed.

Section iter.
Context (G : geom) (HG : geom_ok G) (keys : list Z -> Prop).
Context {W} {ST : Storage W} {SL : StorageLaws W} {IN : Indeterminate}.
Implicit Type d : fdb_kvdb W.
Notation ss := (sec_size G).
Notation triple := (triple (W:=W) G keys).
Notation nsec := (nsec G).

Lemma nsec_pos : (2 <= nsec)%nat.
Proof. pose proof (nsec_count G HG). pose proof (sector_count_two G HG). lia. Qed.

Lemma next_in_ring d x k t :
  geo (parent d) = G -> combined x = SECTOR_NOT_COMBINED -> addr x = Z.of_nat k * ss -> (k < nsec)%nat ->
  (t <= nsec)%nat ->
  get_next_sector_addr d x (Z.of_nat t * ss) =
    if decide (t < nsec)%nat then next_index (Z.of_nat nsec) (Z.of_nat k) * ss else FAILED_ADDR.
Proof.
  intros Hg Hc Ha Hk Ht. pose proof (nsec_count G HG) as Hn.
  pose proof (get_next_sector_addr_ring d x (Z.of_nat k) (Z.of_nat t)) as H.
  unfold kv_sec_size in H. rewrite Hg, <- Hn in H. rewrite H by (done || lia).
  destruct (Z.ltb_spec (Z.of_nat t) (Z.of_nat nsec)), (decide (t < nsec)%nat); (done || lia).
Qed.

Lemma sector_fuel_nsec d : geo (parent d) = G -> sector_fuel d = (nsec + 2)%nat.
Proof. intros Hg. unfold sector_fuel, kv_max_size, kv_sec_size. by rewrite Hg. Qed.

(** The step to the next sector, or the end. *)
Lemma triple_advance {B} σ x k o t (p : Z -> M (fdb_kvdb W) B) Q :
  addr x = Z.of_nat k * ss -> combined x = SECTOR_NOT_COMBINED -> k = ring_idx nsec o t ->
  (t < nsec)%nat -> ((S t < nsec)%nat -> triple σ (p (Z.of_nat (ring_idx nsec o (S t)) * ss)) Q) ->
  ((S t = nsec)%nat -> triple σ (p FAILED_ADDR) Q) ->
  triple σ (d ← gets id; p (get_next_sector_addr d x (Z.of_nat (S t) * ss))) Q.
Proof.
  intros Hx Hc -> Ht H1 H2. pose proof nsec_pos. pose proof (ring_idx_lt nsec o t ltac:(lia)).
  apply triple_gets_some with (P := fun d => geo (parent d) = G); [intros d Hd; apply Hd|].
  intros d Hg. rewrite (next_in_ring _ _ (ring_idx nsec o t)); [|done..|lia].
  case_decide; [|apply H2; lia]. rewrite <- ring_idx_S by lia. by apply H1.
Qed.

(** ** The sectors *)

Section sectors.
Context {A : Type} (σ : kst) (x0 : kvdb_sec_info) (status : fdb_sector_store_status) (arg0 : A).
Context (cb : kvdb_sec_info -> A -> M (fdb_kvdb W) (bool * A)) (traversal : bool).
Context (Inv : nat -> A -> kst -> Prop) (Q : kvdb_sec_info * A -> kst -> Prop).

Definition visits (s : ksec) : Prop := status = FDB_SECTOR_STORE_UNUSED \/ status = ks_store s.

Lemma triple_sector_iterator :
  Inv 0 arg0 σ ->
  (forall t arg σ' k s x, (t < nsec)%nat -> Inv t arg σ' -> k = ring_idx nsec (k_old σ) t ->
     k_secs σ' !! k = Some s -> info_at G k s x -> visits s ->
     (traversal = true -> space_at G s x) ->
     triple σ' (cb x arg) (fun c σ'' => if fst c then Q (x, snd c) σ'' else Inv (S t) (snd c) σ'')) ->
  (forall t arg σ' k s, (t < nsec)%nat -> Inv t arg σ' -> k = ring_idx nsec (k_old σ) t ->
     k_secs σ' !! k = Some s -> ~ visits s -> Inv (S t) arg σ') ->
  (forall x arg σ', Inv nsec arg σ' -> Q (x, arg) σ') ->
  triple σ (sector_iterator x0 status arg0 (Some cb) traversal) Q.
Proof.
  intros H0 Hcb Hskip Hend. apply triple_wf. intros Hwf. pose proof nsec_pos. pose proof (ss_range G HG).
  unfold sector_iterator. eapply triple_gets; [intros d Hd; apply Hd|].
  eapply triple_gets; [intros d Hd; apply sector_fuel_nsec, Hd|].
  eapply (triple_loop _ _
    (fun '(a, tr, x, arg) σ' => exists t, (t < nsec)%nat /\
       a = Z.of_nat (ring_idx nsec (k_old σ) t) * ss /\ tr = Z.of_nat t * ss /\ Inv t arg σ')
    (fun '(a, tr, x, arg) _ => (nsec - Z.to_nat (tr / ss))%nat)).
  - intros [[[a tr] x] arg] σ' (t & Ht & -> & -> & HI). apply triple_wf. intros Hwf'.
    set (k := ring_idx nsec (k_old σ) t) in *.
    assert (k < nsec)%nat as Hk by (apply ring_idx_lt; lia).
    destruct (lookup_lt_is_Some_2 (k_secs σ') k) as [s Hs]; [by rewrite (sw_len _ _ _ Hwf')|].
    apply triple_sec_size. eapply triple_bind; [by apply triple_read_sector_info|].
    cbn beta. intros res ? (-> & _ & Hinfo & _).
    rewrite (in_store _ _ _ _ Hinfo).
    assert (u32 (Z.of_nat t * ss + ss) = Z.of_nat (S t) * ss) as ->.
    { pose proof (sector_base G HG t Ht) as (? & ? & _). rewrite u32_small; lia. }
    assert (bool_decide (status = FDB_SECTOR_STORE_UNUSED) || bool_decide (status = ks_store s) =
            bool_decide (visits s)) as -> by (unfold visits; by rewrite bool_decide_or).
    eapply triple_bind with (R := fun '(stop, x', arg') σ'' =>
      addr x' = Z.of_nat k * ss /\ combined x' = SECTOR_NOT_COMBINED /\
      if (stop : bool) then Q (x', arg') σ'' else Inv (S t) arg' σ'').
    + case_bool_decide as Hv.
      * eapply triple_bind with (R := fun x' σ'' => σ'' = σ' /\ info_at G k s x' /\
          (traversal = true -> space_at G s x')).
        { destruct traversal; [|by apply triple_ret].
          eapply triple_bind; [by apply triple_read_sector_info|]. cbn beta. intros ? ? (-> & _ & ? & ?).
          by apply triple_ret. }
        cbn beta. intros x' ? (-> & Hx' & Hsp). eapply triple_bind; [by apply (Hcb t arg σ' k s x')|].
        cbn beta. intros [stop arg'] σ'' Hc. apply triple_ret. split_and!; [apply Hx'..|exact Hc].
      * apply triple_ret. split_and!; [apply Hinfo..|]. by eapply Hskip.
    + intros [[stop x'] arg'] σ'' (Hx' & Hcx & Hc). destruct stop; [by apply triple_ret|].
      eapply (triple_advance σ'' x' k (k_old σ) t (fun a => if a =? FAILED_ADDR then mret (inr (x', arg'))
        else mret (inl (a, Z.of_nat (S t) * ss, x', arg')))); [done..| |]; intros Hlt.
      * pose proof (ring_idx_lt nsec (k_old σ) (S t) ltac:(lia)) as Hlt'.
        destruct (sector_base_used G HG _ Hlt') as [_ Hnf].
        rewrite (proj2 (Z.eqb_neq _ _)) by done. apply triple_ret. split; [by exists (S t)|].
        rewrite !Z.div_mul, !Nat2Z.id by lia. lia.
      * rewrite Z.eqb_refl. apply triple_ret. apply Hend. by rewrite <- Hlt.
  - exists 0%nat. rewrite ring_idx_0 by apply Hwf. split_and!; (done || lia).
  - rewrite Z.div_0_l by lia. lia.
Qed.
End sectors.

(** ** The records *)

(** The records in the order of the iteration. *)
Definition ring_recs (secs : list ksec) (o : nat) : list krec := all_recs (rotate_secs o secs).

(** A walk over the records: the callback may append records and change the
    status of those that were visited.  [Inv t i]: the first [t] sectors were
    visited, and the first [i] records of the next one. *)
Section walk.
Context {A : Type} (o : nat) (cb : fdb_kv -> A -> M (fdb_kvdb W) (bool * A)).
Context (Inv : nat -> nat -> A -> kst -> Prop) (Q : fdb_kv * A -> kst -> Prop).

(** The places of the records of the [k]-th sector, up to the one after [i]. *)
Definition same_places (k i : nat) (rs : list krec) (σ : kst) : Prop :=
  exists s, k_secs σ !! k = Some s /\ forall j, (j <= i)%nat -> kr_len <$> ks_recs s !! j = kr_len <$> rs !! j.

Context (Hcb : forall t i arg σ k s r kv,
  (t < nsec)%nat -> Inv t i arg σ -> k = ring_idx nsec o t -> rec_pos G keys σ (raddr ss k (ks_recs s) i) k i s r ->
  length (kv_name kv) = 64%nat -> kv_start kv = raddr ss k (ks_recs s) i ->
  let kv' := kv_of_rec kv (kr_st r) (kr_key r) (kr_val r) in
  triple σ (cb kv' arg) (fun c σ' => if fst c then Q (kv', snd c) σ' else
    Inv t (S i) (snd c) σ' /\ same_places k i (ks_recs s) σ')).
Context (Hskip : forall t arg σ s, (t < nsec)%nat -> k_secs σ !! ring_idx nsec o t = Some s ->
  Inv t (length (ks_recs s)) arg σ -> Inv (S t) 0%nat arg σ).

Lemma raddr_same k i rs rs' :
  (forall j, (j < i)%nat -> kr_len <$> rs !! j = kr_len <$> rs' !! j) -> raddr ss k rs i = raddr ss k rs' i.
Proof.
  intros H. unfold raddr. f_equal. revert rs rs' H. induction i as [|i IH]; intros rs rs' H; [by rewrite !take_0|].
  pose proof (H 0%nat ltac:(lia)) as H0. destruct rs as [|r rs], rs' as [|r' rs']; cbn in *; try done. injection H0 as H0.
  rewrite H0, (IH rs rs'); [done|]. intros j Hj. apply (H (S j)). lia.
Qed.

Lemma triple_walk_sector t x kv arg k s σ :
  (t < nsec)%nat -> k = ring_idx nsec o t -> Inv t 0%nat arg σ ->
  k_secs σ !! k = Some s -> ks_recs s <> [] -> info_at G k s x -> length (kv_name kv) = 64%nat ->
  triple σ (iterate_sector cb x kv arg) (fun '(stop, kv', arg') σ' =>
    if (stop : bool) then Q (kv', arg') σ' else length (kv_name kv') = 64%nat /\ Inv (S t) 0%nat arg' σ').
Proof.
  intros Ht Ek HI Hk Hne Hx Hnm. apply triple_wf. intros Hwf. pose proof (used_info G k s x Hx Hne) as Hxs.
  pose proof (in_addr _ _ _ _ Hx) as Hxa.
  destruct (sec_lookup G HG keys _ _ _ Hwf Hk) as (Hlt & Hok & Hend).
  destruct (sector_base G HG k Hlt) as (Hb1 & Hb2 & _). pose proof (ss_range G HG) as Hss.
  unfold iterate_sector. apply triple_sec_size.
  eapply (triple_loop _ _
    (fun '(kv, arg) σ' => exists i s r, k_secs σ' !! k = Some s /\ ks_recs s !! i = Some r /\
       kv_start kv = raddr ss k (ks_recs s) i /\ length (kv_name kv) = 64%nat /\ Inv t i arg σ')
    (fun '(kv, arg) _ => Z.to_nat (ss - (kv_start kv - Z.of_nat k * ss)))).
  - intros [kv1 arg1] σ1 (i & s1 & r & Hk1 & Hi & Hkv & Hnm1 & HI1). apply triple_wf. intros Hwf1.
    pose proof (rec_pos_intro G keys _ _ _ _ _ _ Hwf1 (conj Hk1 (conj Hi eq_refl))) as Hp.
    pose proof (rec_pos_range G HG _ _ _ _ _ _ _ Hp) as (Ha & Hm & Hl).
    pose proof (length_kv_name_of_rec kv1 (kr_st r) (kr_key r) (kr_val r) Hnm1) as Hnm2.
    eapply triple_bind; [by eapply triple_read_kv|]. cbn beta. intros ? ? [-> ->]. cbn [snd].
    eapply triple_bind; [by apply (Hcb t i arg1 σ1 k s1 r kv1)|]. cbn beta. intros [stop arg2] σ2 H2. cbn [fst snd] in *.
    destruct stop; [by apply triple_ret|]. destruct H2 as (HI2 & s2 & Hk2 & Hpl).
    pose proof (Hpl i ltac:(lia)) as Hri. rewrite Hi in Hri. cbn in Hri.
    destruct (ks_recs s2 !! i) as [r2|] eqn:Hi2; [|done]. injection Hri as Hlen2.
    assert (raddr ss k (ks_recs s2) i = raddr ss k (ks_recs s1) i) as Era by (apply raddr_same; intros; apply Hpl; lia).
    eapply triple_bind.
    { apply (triple_get_next_at G HG keys σ2 k i s2 r2); try done; by rewrite ?Era, ?Hlen2. }
    cbn beta. intros nxt ? [-> ->].
    pose proof (raddr_S G k _ _ _ Hi2) as ES. pose proof (po_hi _ _ _ _ _ _ _ _ Hp) as Hhi.
    pose proof (po_end _ _ _ _ _ _ _ _ Hp). pose proof (kr_len_pos r). rewrite Hlen2 in ES.
    unfold next_addr. case_decide as Hlast.
    + rewrite (proj2 (Z.eqb_neq _ _)) by (unfold FAILED_ADDR; ks_consts; lia).
      apply triple_ret. split.
      * destruct (lookup_lt_is_Some_2 _ _ Hlast) as [r3 Hr3]. by exists (S i), s2, r3.
      * cbn [kv_start kv_set_start]. rewrite Hkv. ks_consts. lia.
    + rewrite Z.eqb_refl. apply triple_ret. split; [done|]. rewrite Ek in Hk2. apply (Hskip t arg2 σ2 s2 Ht Hk2).
      by replace (length (ks_recs s2)) with (S i) by (pose proof (lookup_lt_Some _ _ _ Hi2); lia).
  - destruct (ks_recs s) as [|r rs] eqn:E; [done|].
    exists 0%nat, s, r. rewrite raddr_0, Hxa. cbn. ks_consts. wrap_small. rewrite E. by split_and!.
  - cbn [kv_start kv_set_start]. rewrite Hxa. ks_consts. wrap_small. lia.
Qed.

Lemma triple_walk σ kv arg :
  k_old σ = o -> length (kv_name kv) = 64%nat -> Inv 0%nat 0%nat arg σ ->
  (forall kv arg σ, length (kv_name kv) = 64%nat -> Inv nsec 0%nat arg σ -> Q (kv, arg) σ) ->
  triple σ (kv_iterator kv arg (Some cb)) Q.
Proof.
  intros Ho Hnm HI Hend. apply triple_wf. intros Hwf. pose proof nsec_pos. pose proof (ss_range G HG).
  unfold kv_iterator. eapply triple_gets; [intros d Hd; apply Hd|].
  eapply triple_gets; [intros d Hd; apply sector_fuel_nsec, Hd|]. rewrite Ho.
  eapply (triple_loop _ _
    (fun '(a, tr, x, kv, arg) σ' => exists t, (t < nsec)%nat /\
       a = Z.of_nat (ring_idx nsec o t) * ss /\ tr = Z.of_nat t * ss /\
       length (kv_name kv) = 64%nat /\ Inv t 0%nat arg σ')
    (fun '(a, tr, x, kv, arg) _ => (nsec - Z.to_nat (tr / ss))%nat)).
  - intros [[[[a tr] x] kv1] arg1] σ1 (t & Ht & -> & -> & Hnm1 & HI1). apply triple_wf. intros Hwf1.
    set (k := ring_idx nsec o t) in *. assert (k < nsec)%nat as Hk by (apply ring_idx_lt; lia).
    destruct (lookup_lt_is_Some_2 (k_secs σ1) k) as [s Hs]; [by rewrite (sw_len _ _ _ Hwf1)|].
    apply triple_sec_size. eapply triple_bind; [by apply triple_read_sector_info|].
    cbn beta. intros res ? (-> & Hr & Hinfo & _). rewrite (in_store _ _ _ _ Hinfo), Hr.
    assert (u32 (Z.of_nat t * ss + ss) = Z.of_nat (S t) * ss) as ->.
    { pose proof (sector_base G HG t Ht) as (? & ? & _). rewrite u32_small; lia. }
    eapply triple_bind with (R := fun '(stop, kv', arg') σ' =>
      if (stop : bool) then Q (kv', arg') σ' else length (kv_name kv') = 64%nat /\ Inv (S t) 0%nat arg' σ').
    + rewrite bool_decide_eq_true_2 by done. cbn [andb]. unfold ks_store.
      destruct (ks_recs s) as [|r rs] eqn:E.
      * apply triple_ret. split; [done|]. apply (Hskip t arg1 σ1 s); try done. by rewrite E.
      * cbn [bool_decide orb]. apply (triple_walk_sector t _ kv1 arg1 k s); try done. by rewrite E.
    + intros [[stop kv2] arg2] σ2 Hc. destruct stop; [by apply triple_ret|]. destruct Hc as [Hnm2 HI2].
      eapply (triple_advance σ2 (snd res) k o t (fun a => if a =? FAILED_ADDR then mret (inr (kv2, arg2))
        else mret (inl (a, Z.of_nat (S t) * ss, snd res, kv2, arg2)))); [apply Hinfo|apply Hinfo|done|done| |]; intros Hlt.
      * pose proof (ring_idx_lt nsec o (S t) ltac:(lia)) as Hlt'.
        destruct (sector_base_used G HG _ Hlt') as [_ Hnf].
        rewrite (proj2 (Z.eqb_neq _ _)) by done. apply triple_ret. split; [by exists (S t)|].
        rewrite !Z.div_mul, !Nat2Z.id by lia. lia.
      * rewrite Z.eqb_refl. apply triple_ret. apply Hend; [done|]. by rewrite <- Hlt.
  - exists 0%nat. rewrite <- Ho, ring_idx_0 by apply Hwf. split_and!; (done || lia).
  - rewrite Z.div_0_l by lia. lia.
Qed.
End walk.

(** The callback leaves the state as it is. *)
Section records.
Context {A : Type} (σ : kst) (cb : fdb_kv -> A -> M (fdb_kvdb W) (bool * A)).
Context (Inv : list krec -> A -> Prop) (Q : fdb_kv * A -> Prop).
Context (Hcb : forall vs r rest a k i s kv arg,
  vs ++ r :: rest = ring_recs (k_secs σ) (k_old σ) -> rec_pos G keys σ a k i s r -> Inv vs arg ->
  length (kv_name kv) = 64%nat -> kv_start kv = a ->
  let kv' := kv_of_rec kv (kr_st r) (kr_key r) (kr_val r) in
  triple σ (cb kv' arg) (fun c σ' => σ' = σ /\
    if fst c then Q (kv', snd c) else Inv (vs ++ [r]) (snd c))).

(** The records visited before the [i]-th one of the [t]-th sector. *)
Definition visited (t i : nat) : list krec :=
  let rot := rotate_secs (k_old σ) (k_secs σ) in
  all_recs (take t rot) ++ take i (default [] (ks_recs <$> rot !! t)).

Lemma visited_sector t s : swf G keys σ -> (t < nsec)%nat -> k_secs σ !! ring_idx nsec (k_old σ) t = Some s ->
  rotate_secs (k_old σ) (k_secs σ) !! t = Some s.
Proof. intros [W1 W2 W3] Ht Hs. by rewrite rotate_lookup, W1 by lia. Qed.

Lemma triple_kv_iterator kv arg :
  length (kv_name kv) = 64%nat -> Inv [] arg ->
  (forall kv arg, length (kv_name kv) = 64%nat -> Inv (ring_recs (k_secs σ) (k_old σ)) arg -> Q (kv, arg)) ->
  triple σ (kv_iterator kv arg (Some cb)) (fun r σ' => σ' = σ /\ length (kv_name (fst r)) = 64%nat /\ Q r).
Proof.
  intros Hnm HI Hend. apply triple_wf. intros Hwf.
  apply (triple_walk (k_old σ) cb (fun t i arg σ' => σ' = σ /\ Inv (visited t i) arg)); try done.
  - intros t i arg1 ? k s r kv1 Ht [-> HI1] Ek Hp Hn1 Hs1 kv'.
    pose proof (po_loc _ _ _ _ _ _ _ _ Hp) as (Hk & Hi & _). rewrite Ek in Hk.
    pose proof (visited_sector t s Hwf Ht Hk) as Hrot.
    assert (visited t i ++ r :: drop (S i) (ks_recs s) ++ all_recs (drop (S t) (rotate_secs (k_old σ) (k_secs σ))) =
      ring_recs (k_secs σ) (k_old σ)) as Hring.
    { unfold ring_recs, visited. rewrite <- (take_drop_middle _ _ _ Hrot) at 4. rewrite Hrot. cbn [fmap option_fmap option_map default].
      unfold all_recs. rewrite bind_app. cbn [mbind list_bind]. rewrite <- (take_drop_middle _ _ _ Hi) at 3.
      by rewrite <- !app_assoc. }
    eapply triple_mono; [eapply (Hcb _ _ _ _ k i s kv1 arg1 Hring Hp); done|]. cbn beta. intros [stop arg2] σ' [-> H2].
    cbn [fst snd] in *. destruct stop; [by split_and!; [|apply length_kv_name_of_rec|]|]. split; [split; [done|]|].
    + unfold visited in *. rewrite Hrot in *. cbn in *. by rewrite (take_S_r _ _ _ Hi), app_assoc.
    + exists s. split; [by rewrite Ek|done].
  - intros t arg1 ? s Ht Hs [-> HI1]. split; [done|]. pose proof (visited_sector t s Hwf Ht Hs) as Hrot.
    unfold visited in *. rewrite Hrot in HI1. cbn in HI1. rewrite (take_S_r _ _ _ Hrot). unfold all_recs in *.
    by rewrite bind_app, take_0, app_nil_r; cbn; rewrite app_nil_r, <- (firstn_all (ks_recs s)).
  - intros kv1 arg1 σ' Hn1 [-> HI1]. split_and!; [done..|]. apply Hend; [done|]. unfold visited in HI1.
    rewrite (take_ge _ nsec) in HI1 by (rewrite length_rotate, (sw_len _ _ _ Hwf); lia).
    by rewrite take_0, app_nil_r in HI1.
Qed.
End records.
End iter.
