(* ===== verification/KvFind.v ===== *)
(** Key-value database: finding the record of a key, through the cache of
    records or by searching the sectors. *)
From S2P Require Import Prelude FdbDef Crc32 Status FlashIO FlashSpec KvDef KvRead KvWrite KvRing KvCacheSpec.
From S2P Require Import KvSpec KvGetSpec KvLimits KvState KvTriple KvBase KvLook KvSector KvIter.

(** ** The table of the record cache after an update *)

(** The node [x] is stored at [p]; the others keep their checksums and
    addresses. *)
Record node_stored (t t' : list kv_cache_node) (p : nat) (x : kv_cache_node) : Prop := {
  ns_len : length t' = length t;
  ns_new : t' !! p = Some x;
  ns_old : forall j y, j <> p -> t' !! j = Some y ->
    exists z, t !! j = Some z /\ kc_name_crc y = kc_name_crc z /\ kc_addr y = kc_addr z;
  ns_before : forall j z, (j < p)%nat -> t !! j = Some z -> kc_name_crc z <> kc_name_crc x;
  ns_slot : (exists z, t !! p = Some z /\ kc_name_crc z = kc_name_crc x) \/
            (forall j z, t !! j = Some z -> kc_name_crc z <> kc_name_crc x);
}.

Lemma aged_lookup t t' j y :
  Forall2 aged t t' -> t' !! j = Some y ->
  exists z, t !! j = Some z /\ kc_name_crc y = kc_name_crc z /\ kc_addr y = kc_addr z.
Proof.
  intros H Hy. destruct (Forall2_lookup_r _ _ _ _ _ H Hy) as (z & Hz & ? & ? & _). eauto.
Qed.

Lemma node_stored_middle l1 l1' l2 n x :
  Forall2 aged l1 l1' -> kc_name_crc n = kc_name_crc x ->
  Forall (fun z => kc_name_crc z <> kc_name_crc x) l1 ->
  node_stored (l1 ++ n :: l2) (l1' ++ x :: l2) (length l1) x.
Proof.
  intros Hag Hn Hl1. pose proof (Forall2_length _ _ _ Hag) as Hlen. split.
  - rewrite !length_app. cbn. lia.
  - rewrite lookup_app_r by lia. by rewrite Hlen, Nat.sub_diag.
  - intros j y Hj Hy. apply lookup_app_Some in Hy as [Hy|[Hge Hy]].
    + pose proof (lookup_lt_Some _ _ _ Hy). rewrite lookup_app_l by lia. by eapply aged_lookup.
    + rewrite lookup_app_r by lia. rewrite Hlen.
      destruct (j - length l1')%nat as [|q] eqn:E; [lia|]. cbn in *. eauto.
  - intros j z Hj Hz. rewrite lookup_app_l in Hz by lia. by apply (Forall_lookup_1 _ _ _ _ Hl1 Hz).
  - left. exists n. by rewrite lookup_app_r, Nat.sub_diag by lia.
Qed.

Lemma node_stored_slot t t' p x :
  Forall2 aged t t' -> (p < length t)%nat -> Forall (fun z => kc_name_crc z <> kc_name_crc x) t ->
  node_stored t (<[p := x]> t') p x.
Proof.
  intros Hag Hp Hf. pose proof (Forall2_length _ _ _ Hag) as Hlen. split.
  - by rewrite length_insert.
  - apply list_lookup_insert_eq. lia.
  - intros j y Hj Hy. rewrite list_lookup_insert_ne in Hy by done. by eapply aged_lookup.
  - intros j z _ Hz. by apply (Forall_lookup_1 _ _ _ _ Hf Hz).
  - right. intros j z Hz. by apply (Forall_lookup_1 _ _ _ _ Hf Hz).
Qed.

Lemma update_kv_table_stored crc a t :
  a <> FDB_DATA_UNUSED -> t <> [] -> Forall active_ok t ->
  exists p x, kc_name_crc x = crc /\ kc_addr x = a /\ node_stored t (update_kv_table crc a t) p x.
Proof.
  intros Ha Hne Hact. unfold update_kv_table.
  pose proof (kv_cache_scan_spec crc a t 0 None None 0xFFFF Ha) as H.
  destruct (kv_cache_scan crc a t 0 None None 0xFFFF) as [t1 [[e mi]|]].
  - destruct H as (Hag & Hcrc & He & Hmi & Hsome & _ & _).
    assert (forall i, (i < length t)%nat -> exists p x, kc_name_crc x = crc /\ kc_addr x = a /\
      node_stored t (<[i := KvCacheNode crc FDB_KV_CACHE_TABLE_SIZE a]> t1) p x) as Hins
      by (intros i Hi; eexists _, _; split_and!; [..|apply node_stored_slot; try done]; done).
    destruct e as [i|]; [|destruct mi as [i|]].
    + destruct He as [|(k & [= ->] & Hk)]; [done|]. apply Hins. lia.
    + destruct Hmi as [|(k & [= ->] & Hk)]; [done|]. apply Hins. lia.
    + by destruct (Hsome Hact eq_refl Hne).
  - destruct H as (l1 & n & l2 & l1' & -> & -> & Hag & Hc & Hcrc).
    eexists _, _. split_and!; [..|by apply node_stored_middle]; done.
Qed.

(** The removal of a checksum. *)
Lemma kv_cache_scan_clear crc t i :
  (exists l1 n l2, t = l1 ++ n :: l2 /\ kc_name_crc n = crc /\
     Forall (fun z => kc_name_crc z <> crc) l1 /\
     kv_cache_scan crc FDB_DATA_UNUSED t i None None 0xFFFF =
       (l1 ++ KvCacheNode crc 0 FDB_DATA_UNUSED :: l2, None)) \/
  (Forall (fun z => kc_name_crc z <> crc) t /\
   kv_cache_scan crc FDB_DATA_UNUSED t i None None 0xFFFF = (t, Some (None, None))).
Proof.
  revert i. induction t as [|n t IH]; intros i; cbn [kv_cache_scan].
  - by right.
  - rewrite Z.eqb_refl. cbn [negb]. destruct (Z.eqb_spec (kc_name_crc n) crc) as [E|E].
    + left. exists [], n, t. rewrite E. done.
    + destruct (IH (S i)) as [(l1 & x & l2 & -> & Hx & Hl1 & ->)|(Hf & ->)]; cbn [fst snd].
      * left. exists (n :: l1), x, l2. split_and!; try done. by constructor.
      * right. split; [by constructor|done].
Qed.

Lemma update_kv_table_clear crc t :
  (exists p x, kc_name_crc x = crc /\ kc_addr x = FDB_DATA_UNUSED /\
     node_stored t (update_kv_table crc FDB_DATA_UNUSED t) p x /\
     (Forall active_ok t -> Forall active_ok (update_kv_table crc FDB_DATA_UNUSED t))) \/
  (update_kv_table crc FDB_DATA_UNUSED t = t /\ Forall (fun z => kc_name_crc z <> crc) t).
Proof.
  unfold update_kv_table.
  destruct (kv_cache_scan_clear crc t 0) as [(l1 & n & l2 & -> & Hn & Hl1 & ->)|(Hf & ->)]; [left|by right].
  eexists _, _. split_and!; [..|apply node_stored_middle; [|done..]|]; try done.
  rewrite !Forall_app, !Forall_cons. intros (? & _ & ?). done.
Qed.

Section find.
Context (G : geom) (HG : geom_ok G) (keys : list Z -> Prop) (Hkeys : key_set keys).
Context {W} {ST : Storage W} {SL : StorageLaws W} {IN : Indeterminate}.
Implicit Type d : fdb_kvdb W.
Notation ss := (sec_size G).
Notation triple := (triple (W:=W) G keys).
Notation nsec := (nsec G).

(** After its key has been stored or removed, no node depends on [pend]. *)
Lemma kcache_stored secs key pend t t' p x :
  kcache_ok G secs pend t -> pend = None \/ pend = Some key -> Forall active_ok t' ->
  node_stored t t' p x -> kc_name_crc x = kv_name_crc key ->
  (kc_addr x <> FDB_DATA_UNUSED -> node_ok G secs None x) -> kcache_ok G secs None t'.
Proof.
  intros [H1 H2 H3 H4] Hpend Hact [N1 N2 N3 N4 N5] Hx Hnew. split; [by rewrite N1|done| |].
  - intros i j y z Hij Hy Hz Hza Hc.
    destruct (decide (j = p)) as [->|Hjp].
    + simplify_eq. destruct (N3 i y ltac:(lia) Hy) as (y' & Hy' & Ey & _).
      apply (N4 i y' Hij Hy'). congruence.
    + destruct (N3 j z Hjp Hz) as (z' & Hz' & Ez & Eza). destruct (decide (i = p)) as [->|Hip].
      * simplify_eq. destruct N5 as [(w & Hw & Ew)|Hnone]; [|by apply (Hnone j z'); congruence].
        apply (H3 p j w z' Hij Hw Hz'); congruence.
      * destruct (N3 i y Hip Hy) as (y' & Hy' & Ey & _).
        apply (H3 i j y' z' Hij Hy' Hz'); congruence.
  - apply Forall_lookup. intros j y Hy Hya. destruct (decide (j = p)) as [->|Hjp].
    { simplify_eq. by apply Hnew. }
    destruct (N3 j y Hjp Hy) as (z & Hz & Ez & Eza).
    destruct (Forall_lookup_1 _ _ _ _ H4 Hz) as (k & i & s & r & Hl & Hcrc & Hst); [congruence|].
    exists k, i, s, r. rewrite Eza, Ez. split_and!; [done..|]. left. destruct Hst as [|Hst]; [done|].
    exfalso. assert (kc_name_crc z = kc_name_crc x) as Ec by (destruct Hpend; congruence).
    destruct N5 as [(w & Hw & Ew)|Hnone]; [|by apply (Hnone j z)].
    destruct (Nat.lt_trichotomy j p) as [Hlt|[|Hgt]]; [by apply (N4 j z)|done|].
    apply (H3 p j w z Hgt Hw Hz); congruence.
Qed.

Lemma kcache_update secs key pend t a k i s r :
  kcache_ok G secs pend t -> pend = None \/ pend = Some key -> a <> FDB_DATA_UNUSED ->
  rec_loc G secs a k i s r -> kr_key r = key -> kr_st r = FDB_KV_WRITE ->
  kcache_ok G secs None (update_kv_table (kv_name_crc key) a t).
Proof.
  intros Ht Hp Ha Hl Hk Hst.
  assert (t <> []) as Hne by (intros ->; by destruct Ht).
  destruct (update_kv_table_found (kv_name_crc key) a t Ha Hne) as (_ & Hact & _); [apply Ht|].
  destruct (update_kv_table_stored (kv_name_crc key) a t Ha Hne) as (p & x & Hx & Hxa & Hs); [apply Ht|].
  eapply kcache_stored; try done. intros _. exists k, i, s, r. rewrite Hxa, Hx, Hk. auto.
Qed.

Lemma kcache_clear secs key pend t :
  kcache_ok G secs pend t -> pend = None \/ pend = Some key ->
  kcache_ok G secs None (update_kv_table (kv_name_crc key) FDB_DATA_UNUSED t).
Proof.
  intros Ht Hp. destruct (update_kv_table_clear (kv_name_crc key) t) as [(p & x & Hx & Hxa & Hs & Hact)|[-> Hf]].
  - eapply kcache_stored; try done. apply Hact, Ht.
  - destruct Ht as [H1 H2 H3 H4]. split; try done. rewrite Forall_lookup in H4, Hf |- *.
    intros j y Hy Hya. destruct (H4 j y Hy Hya) as (k & i & s & r & Hl & Hc & Hst).
    exists k, i, s, r. split_and!; [done..|]. left. destruct Hst as [|Hst]; [done|].
    exfalso. apply (Hf j y Hy). destruct Hp; congruence.
Qed.

(** ** The search of the cache *)

Lemma strncmp_saved key saved :
  Forall (fun b => 0 < b < 256) key -> (length key <= length saved)%nat ->
  strncmp_eq (length key) (key ++ [0]) saved = Some (bool_decide (take (length key) saved = key)).
Proof.
  intros Hk. revert saved. induction Hk as [|b key Hb Hk IH]; intros [|c saved] Hl; cbn in *; try done; try lia.
  destruct (Z.eqb_spec b c) as [<-|Hne].
  - rewrite (proj2 (Z.eqb_neq b 0)) by lia. rewrite IH by lia. f_equal.
    apply bool_decide_ext. split; [by intros ->|by intros [= ->]].
  - f_equal. symmetry. apply bool_decide_eq_false_2. by intros [= ->].
Qed.

(** The bytes where the name is stored begin with [key] exactly when the
    record is the one of [key]. *)
Lemma saved_name m a r key :
  0 <= a -> a + KV_HDR_DATA_SIZE + 64 <= len m -> krec_at m a r -> keys (kr_key r) -> keys key ->
  kv_name_crc (kr_key r) = kv_name_crc key ->
  take (length key) (slice m (a + KV_HDR_DATA_SIZE) 64) = key <-> kr_key r = key.
Proof.
  intros Ha Hm (_ & _ & Hname & _) Hr Hk Hcrc.
  destruct (ks_short _ Hkeys _ Hr) as [_ Hr64], (ks_short _ Hkeys _ Hk) as [_ Hk64]. ks_consts.
  pose proof (len_nonneg key). pose proof (len_nonneg (kr_key r)).
  assert (take (length key) (slice m (a + 24) 64) = slice m (a + 24) (len key)) as ->.
  { unfold slice, len in *. rewrite take_take. f_equal. lia. }
  split; [|by intros <-]. intros Hs. destruct (Z.le_gt_cases (len key) (len (kr_key r))) as [Hle|Hlt].
  - rewrite (slice_split m (a + 24) (len (kr_key r)) (len key)), Hs in Hname by lia.
    set (rest := slice m _ _) in Hname.
    assert (rest = []) as E by (apply (ks_prefix _ Hkeys key rest); [done|by rewrite Hname..]).
    by rewrite <- Hname, E, app_nil_r.
  - rewrite (slice_split m (a + 24) (len key) (len (kr_key r))), Hname in Hs by lia.
    set (rest := slice m _ _) in Hs.
    assert (rest = []) as E by (apply (ks_prefix _ Hkeys (kr_key r) rest); [done|by rewrite Hs..]).
    by rewrite <- Hs, E, app_nil_r.
Qed.

Lemma stores_saved_name d m σ a k i s r key :
  rep G keys d σ -> kv_holds d m -> secs_at ss m (k_secs σ) -> rec_pos G keys σ a k i s r ->
  keys key -> kv_name_crc (kr_key r) = kv_name_crc key ->
  stores (up (_fdb_flash_read (u32 (a + KV_HDR_DATA_SIZE)) (replicate (Z.to_nat FDB_KV_NAME_MAX) 0))) d m
    (fun res => strncmp_eq (length key) (key ++ [0]) (snd res) = Some (bool_decide (kr_key r = key))).
Proof.
  intros Hd Hm Hs Hp Hk Hcrc. destruct (rec_pos_range G HG _ _ _ _ _ _ _ Hp) as (Ha & Hr & Hl).
  pose proof (ss_range G HG). pose proof (holds_len _ _ _ Hm) as Hlen. rewrite (rp_geo _ _ _ _ Hd) in Hlen.
  destruct (ks_short _ Hkeys _ Hk) as [_ Hk64].
  eapply stores_mono; [apply stores_read; [exact Hm|]|].
  - rewrite (rp_geo _ _ _ _ Hd), u32_small by (ks_consts; lia). change (len (replicate _ _)) with 64.
    eapply (rec_pos_in G HG); [exact Hp|..]; ks_consts; lia.
  - intros res [-> _]. change (len (replicate _ _)) with 64. rewrite u32_small by (ks_consts; lia).
    rewrite strncmp_saved.
    + f_equal. apply bool_decide_ext. apply saved_name; try done; [lia|ks_consts; lia| | ].
      * by eapply rec_pos_at.
      * apply (po_rec _ _ _ _ _ _ _ _ Hp).
    + by apply (ks_bytes _ Hkeys).
    + rewrite slice_length by (ks_consts; lia). unfold len in Hk64. ks_consts. lia.
Qed.

(** The activity of a node changes nothing else. *)
Lemma kcache_active secs pend t i n b :
  kcache_ok G secs pend t -> t !! i = Some n -> 0 <= b <= 0xFFFF ->
  kcache_ok G secs pend (<[i := KvCacheNode (kc_name_crc n) b (kc_addr n)]> t).
Proof.
  intros [H1 H2 H3 H4] Hi Hb. set (x := KvCacheNode _ _ _). pose proof (lookup_lt_Some _ _ _ Hi) as Hlt.
  assert (forall j y, <[i := x]> t !! j = Some y ->
    exists z, t !! j = Some z /\ kc_name_crc y = kc_name_crc z /\ kc_addr y = kc_addr z) as Hold.
  { intros j y Hy. destruct (decide (j = i)) as [->|Hne].
    - rewrite list_lookup_insert_eq in Hy by done. simplify_eq. by exists n.
    - rewrite list_lookup_insert_ne in Hy by done. by exists y. }
  split.
  - by rewrite length_insert.
  - by apply Forall_insert.
  - intros j j' y y' Hj Hy Hy' Ha. destruct (Hold _ _ Hy) as (z & Hz & -> & _).
    destruct (Hold _ _ Hy') as (z' & Hz' & -> & Ez'). apply (H3 j j' z z'); congruence.
  - apply Forall_lookup. intros j y Hy Ha. destruct (Hold _ _ Hy) as (z & Hz & Ec & Ea).
    destruct (Forall_lookup_1 _ _ _ _ H4 Hz) as (k & i' & s & r & Hl & Hcrc & Hst); [congruence|].
    exists k, i', s, r. by rewrite Ec, Ea.
Qed.

Lemma triple_cache_search σ key n i :
  keys key -> (i + n = 64)%nat ->
  triple σ (kv_cache_search key (kv_name_crc key) n i) (fun res σ' => σ' = σ /\
    match res with
    | Some a => exists k i s r, rec_pos G keys σ a k i s r /\ kr_key r = key /\
                  (kr_st r = FDB_KV_WRITE \/ k_pend σ = Some key)
    | None => True
    end).
Proof.
  intros Hk. revert i. induction n as [|n IH]; intros i Hi d Hd; cbn [kv_cache_search]; [by apply wp_ret; eauto|].
  apply wp_bind, wp_gets. pose proof (rp_kcache _ _ _ _ Hd) as Hc.
  destruct (lookup_lt_is_Some_2 (kv_cache_table d) i) as [x Hx]; [rewrite (ko_len _ _ _ _ Hc); lia|].
  rewrite Hx. destruct (Z.eqb_spec (kc_addr x) FDB_DATA_UNUSED) as [|Ha]; [cbn [negb andb]; apply IH; (done || lia)|].
  destruct (Z.eqb_spec (kc_name_crc x) (kv_name_crc key)) as [Ecrc|]; cbn [negb andb]; [|apply IH; (done || lia)].
  destruct (Forall_lookup_1 _ _ _ _ (ko_nodes _ _ _ _ Hc) Hx Ha) as (k & j & s & r & Hl & Hcrc & Hst).
  pose proof (rec_pos_intro G keys _ _ _ _ _ _ (rp_wf _ _ _ _ Hd) Hl) as Hp.
  destruct (rp_medium _ _ _ _ Hd) as (m & Hm & Hs). apply wp_bind. eapply wp_stores.
  { eapply stores_saved_name; try done. congruence. }
  cbn beta. intros res io -> Hio. pose proof (rep_io _ _ _ _ _ _ Hd Hio Hs) as Hd'.
  case_bool_decide as Hkey; [|apply IH; (done || lia)]. subst key.
  apply wp_bind, wp_modify, wp_ret. exists σ. split; [|split; [done|]; exists k, j, s, r; auto].
  destruct Hd' as [R1 R2 R3 R4 R5 R6 R7 R8 R9 R10 R11]. split; try done. cbn. apply kcache_active; [exact Hc|done|].
  pose proof (Forall_lookup_1 _ _ _ _ (ko_active _ _ _ _ Hc) Hx) as Hact. unfold active_ok, FDB_KV_CACHE_TABLE_SIZE in *.
  destruct (Z.leb_spec (65535 - 64) (kc_active x)); lia.
Qed.

(** ** Objects *)

(** The object [kv] describes the record [r] at [a]. *)
Record kv_desc (kv : fdb_kv) (a : Z) (r : krec) : Prop := {
  kd_start : kv_start kv = a;
  kd_crc : kv_crc_is_ok kv = true;
  kd_name_len : kv_name_len kv = len (kr_key r);
  kd_len : kv_len kv = kr_len r;
  kd_value_len : kv_value_len kv = len (kr_val r);
  kd_value : kv_value kv = a + KV_HDR_DATA_SIZE + len (kr_key r);
  kd_name : exists x, kv_name kv = kr_key r ++ x;
  kd_buf : length (kv_name kv) = 64%nat;
}.

Lemma kv_of_rec_desc kv a r :
  length (kv_name kv) = 64%nat -> kv_start kv = a -> keys (kr_key r) ->
  kv_desc (kv_of_rec kv (kr_st r) (kr_key r) (kr_val r)) a r.
Proof.
  intros Hn <- Hk. destruct (ks_short _ Hkeys _ Hk) as [_ H64].
  split; try done; [|by apply length_kv_name_of_rec].
  destruct (kv_of_rec_name kv (kr_st r) (kr_key r) (kr_val r) Hn) as [x Hx]; [lia|].
  exists x. by rewrite Hx, decide_True.
Qed.

(** A written record of [key]. *)
Definition found_at (σ : kst) (key : list Z) (kv : fdb_kv) : Prop :=
  exists k i s r, rec_pos G keys σ (kv_start kv) k i s r /\ kv_desc kv (kv_start kv) r /\
    kr_key r = key /\ kr_st r = FDB_KV_WRITE.

Definition no_record (secs : list ksec) (key : list Z) : Prop :=
  forall r, r ∈ all_recs secs -> kr_key r = key -> kr_st r <> FDB_KV_WRITE.

Lemma triple_find_kv_cb σ key kv a r :
  keys key -> kv_desc kv a r -> kv_status kv = kr_st r -> let ok := bool_decide (kr_key r = key /\ kr_st r = FDB_KV_WRITE) in
  triple σ (find_kv_cb key kv false) (fun c σ' => σ' = σ /\ c = (ok, ok)).
Proof.
  intros Hk [H1 H3 H4 H5 H6 H7 [x Hx] H9] H2 ok. unfold find_kv_cb. rewrite H4, H3, H2. cbn [andb].
  destruct (Z.eqb_spec (len key) (len (kr_key r))) as [El|Hne]; cbn [negb].
  2:{ apply triple_ret. split; [done|]. unfold ok. rewrite bool_decide_eq_false_2; [done|]. intros [E _]; by rewrite E in Hne. }
  case_bool_decide as Hst.
  2:{ apply triple_ret. split; [done|]. unfold ok. rewrite bool_decide_eq_false_2; [done|]. naive_solver. }
  rewrite Hx, strncmp_names; [|by apply (ks_bytes _ Hkeys)|unfold len in El; lia].
  case_bool_decide as E; apply triple_ret; (split; [done|]); unfold ok.
  - by rewrite bool_decide_eq_true_2.
  - rewrite bool_decide_eq_false_2; [done|]. naive_solver.
Qed.

Lemma rotate_all_recs secs o r : r ∈ ring_recs secs o <-> r ∈ all_recs secs.
Proof.
  unfold ring_recs, all_recs. rewrite !list_elem_of_bind.
  split; intros (s & Hr & Hs); exists s; (split; [done|]).
  - by rewrite <- (rotate_perm o secs).
  - by rewrite (rotate_perm o secs).
Qed.

(** The result of a search. *)
Definition find_result (σ : kst) (key : list Z) (res : bool * fdb_kv) : Prop :=
  length (kv_name (snd res)) = 64%nat /\
  if fst res then found_at σ key (snd res) else no_record (k_secs σ) key.

Lemma triple_find_kv_no_cache σ key kv :
  keys key -> length (kv_name kv) = 64%nat ->
  triple σ (find_kv_no_cache key kv) (fun res σ' => σ' = σ /\ find_result σ key res).
Proof.
  intros Hk Hn. unfold find_kv_no_cache.
  eapply triple_bind with (R := fun (r : fdb_kv * bool) σ' => σ' = σ /\ length (kv_name (fst r)) = 64%nat /\
    if snd r then found_at σ key (fst r) else no_record (k_secs σ) key).
  - apply (triple_kv_iterator G HG keys (A:=bool) σ _
      (fun vs ok => ok = false /\ forall r, r ∈ vs -> kr_key r = key -> kr_st r <> FDB_KV_WRITE)
      (fun r : fdb_kv * bool => if snd r then found_at σ key (fst r) else no_record (k_secs σ) key)); [|done|..].
    + intros vs r rest a k i s kv1 ok _ Hp [-> Hvs] Hn1 Hs1 kv'.
      destruct (po_rec _ _ _ _ _ _ _ _ Hp) as [Hkr _].
      pose proof (kv_of_rec_desc kv1 a r Hn1 Hs1 Hkr) as Hd. fold kv' in Hd.
      eapply triple_mono; [eapply triple_find_kv_cb; [done|exact Hd|done]|]. cbn beta. intros c σ' [-> ->].
      split; [done|]. cbn [fst snd]. case_bool_decide as E.
      * destruct E. exists k, i, s, r. rewrite (kd_start _ _ _ Hd). done.
      * split; [done|]. intros r' Hr'. apply elem_of_app in Hr' as [Hr'|Hr']; [by apply Hvs|].
        apply list_elem_of_singleton in Hr' as ->. naive_solver.
    + split; [done|]. intros r Hr. by apply not_elem_of_nil in Hr.
    + intros kv1 ok Hn1 [-> Hvs]. cbn. intros r Hr. apply Hvs. by apply rotate_all_recs.
  - intros r ? (-> & H1 & H2). by apply triple_ret.
Qed.

Lemma triple_update_kv_cache_found σ key n a k i s r :
  n = len key -> k_pend σ = None \/ k_pend σ = Some key -> rec_pos G keys σ a k i s r ->
  kr_key r = key -> kr_st r = FDB_KV_WRITE ->
  forall buf x, buf = key ++ x ->
  triple σ (update_kv_cache buf n a) (fun _ σ' => σ' = with_pend None σ).
Proof.
  intros -> Hpend Hp Hkey Hst buf x ->. unfold update_kv_cache, read_bytes.
  rewrite (proj2 (Z.leb_le _ _)) by (rewrite len_app; pose proof (len_nonneg x); lia).
  pose proof (len_nonneg key). rewrite slice_app_l, slice_all by lia.
  destruct (rec_pos_range G HG _ _ _ _ _ _ _ Hp) as (Ha & Hr & _). pose proof (ss_range G HG).
  eapply triple_bind; [by apply triple_ret with (Q := fun b σ' => b = key /\ σ' = σ)|]. cbn beta.
  intros b ? [-> ->]. apply triple_modify with (with_pend None σ); [|done].
  intros d [R1 R2 R3 R4 R5 R6 R7 R8 R9 R10 R11]. split; try done; [by destruct R2|].
  eapply kcache_update; [exact R11|done| |apply Hp|done|done].
  unfold FDB_DATA_UNUSED. ks_consts. pose proof (kr_len_pos r). ks_consts. lia.
Qed.

Lemma with_pend_id σ : k_pend σ = None -> with_pend None σ = σ.
Proof. destruct σ. cbn. by intros ->. Qed.

Lemma triple_find_kv σ key kv :
  keys key -> length (kv_name kv) = 64%nat -> k_pend σ = None ->
  triple σ (find_kv key kv) (fun res σ' => σ' = σ /\ find_result σ key res).
Proof.
  intros Hk Hn Hpend. unfold find_kv. eapply triple_bind.
  { unfold get_kv_from_cache. apply triple_cache_search; [done|]. reflexivity. }
  cbn beta. intros hit ? [-> Hhit]. destruct hit as [a|].
  - destruct Hhit as (k & i & s & r & Hp & Hkr & [Hst|Hst]); [|congruence].
    eapply triple_bind; [by eapply (triple_read_kv G HG keys σ a k i s r (kv_set_start a kv))|].
    cbn beta. intros res ? [-> ->]. apply triple_ret. split; [done|]. cbn [snd].
    assert (kv_desc (kv_of_rec (kv_set_start a kv) (kr_st r) (kr_key r) (kr_val r)) a r) as Hd.
    { apply kv_of_rec_desc; [done..|]. by rewrite Hkr. }
    split; [apply Hd|]. cbn [fst snd]. exists k, i, s, r. by rewrite (kd_start _ _ _ Hd).
  - eapply triple_bind; [by apply triple_find_kv_no_cache|]. cbn beta. intros [ok kv1] ? [-> [Hn1 Hf]].
    cbn [fst snd] in *. destruct ok.
    + destruct Hf as (k & i & s & r & Hp & Hd & Hkr & Hst). eapply triple_bind.
      { eapply (triple_update_kv_cache_found σ key _ _ k i s r); try done; [by left|by rewrite app_nil_r]. }
      cbn beta. intros _ ? ->. rewrite with_pend_id by done. apply triple_ret. split; [done|].
      split; [done|]. by exists k, i, s, r.
    + eapply triple_bind; [by apply triple_ret with (Q := fun _ σ' => σ' = σ)|]. cbn beta. intros _ ? ->.
      by apply triple_ret.
Qed.

(** ** Getting a value *)

Lemma no_record_map σ key : keys_unique (k_secs σ) -> no_record (k_secs σ) key -> kv_map (k_secs σ) !! key = None.
Proof.
  intros Hu Hno. apply eq_None_not_Some. intros [v Hv]. apply kv_map_lookup in Hv; [|done].
  by apply (Hno _ Hv).
Qed.

Lemma rec_pos_elem σ a k i s r : rec_pos G keys σ a k i s r -> r ∈ all_recs (k_secs σ).
Proof. intros Hp. destruct (po_loc _ _ _ _ _ _ _ _ Hp) as (Hk & Hi & _). apply elem_of_all_recs. eauto. Qed.

Lemma pos_map σ a k i s r : keys_unique (k_secs σ) -> rec_pos G keys σ a k i s r ->
  kr_st r = FDB_KV_WRITE -> kv_map (k_secs σ) !! kr_key r = Some (kr_val r).
Proof.
  intros Hu Hp Hst. apply kv_map_lookup; [done|]. apply rec_pos_elem in Hp. destruct r. cbn in *. by subst.
Qed.

(** What [get_kv] returns. *)
Definition get_result (v : option (list Z)) (b : list Z) : Z * option (list Z) * Z :=
  match v with Some v => got v b | None => (0, Some b, 0) end.

Lemma triple_get_kv σ key b :
  keys key -> k_pend σ = None -> keys_unique (k_secs σ) ->
  triple σ (get_kv key (Some b) (len b)) (fun res σ' => σ' = σ /\
    res = get_result (kv_map (k_secs σ) !! key) b).
Proof.
  intros Hk Hpend Hu. unfold get_kv.
  eapply triple_bind; [apply triple_find_kv; [done|by apply length_indet_buf|done]|].
  cbn beta. intros [ok kv] ? [-> [Hn Hf]]. cbn [fst snd] in *. destruct ok.
  2:{ apply triple_ret. split; [done|]. by rewrite no_record_map. }
  destruct Hf as (k & i & s & r & Hp & Hd & <- & Hst). rewrite (pos_map _ _ _ _ _ _ Hu Hp Hst).
  cbn [get_result]. unfold got. rewrite (kd_value_len _ _ _ Hd), (kd_value _ _ _ Hd).
  pose proof (len_nonneg (kr_val r)). pose proof (len_nonneg b).
  assert ((if len (kr_val r) <? len b then len (kr_val r) else len b) = Z.min (len (kr_val r)) (len b)) as ->
    by (destruct (Z.ltb_spec (len (kr_val r)) (len b)); lia).
  set (n := Z.min _ _). assert (len (slice b 0 n) = n) as Hbn by (apply len_slice; lia).
  rewrite <- (Z.add_0_r (kv_start kv + _ + _)).
  eapply triple_bind; [eapply triple_read_value; [done|exact Hp|lia|rewrite Hbn; lia]|].
  cbn beta. intros res ? [-> ->]. rewrite Hbn. by apply triple_ret.
Qed.
End find.
