(* ===== verification/KvDel.v ===== *)
(** Key-value database: changing the status of a record, and deleting. *)
From S2P Require Import Prelude FdbDef Crc32 Status FlashIO FlashSpec KvDef KvRead KvWrite KvRing KvCacheSpec.
From S2P Require Import KvSpec KvGetSpec KvState KvTriple KvBase KvLook KvSector KvIter KvFind.

Lemma kv_val_range (st : fdb_kv_status) : 0 <= enum_val st < FDB_KV_STATUS_NUM.
Proof. destruct st; unfold FDB_KV_STATUS_NUM; cbn; lia. Qed.
Lemma dirty_val_range (st : fdb_sector_dirty_status) : 0 <= enum_val st < FDB_SECTOR_DIRTY_STATUS_NUM.
Proof. destruct st; unfold FDB_SECTOR_DIRTY_STATUS_NUM; cbn; lia. Qed.

Lemma set_rec_insert secs k i st s :
  secs !! k = Some s ->
  set_rec k i st secs = <[k := KSec (ks_dirty s) (alter (kr_set st) i (ks_recs s))]> secs.
Proof. intros Hk. unfold set_rec. by rewrite (alter_insert _ _ _ _ Hk). Qed.

(** Clean sectors become dirty. *)
Definition mark_dirty (k : nat) (secs : list ksec) : list ksec :=
  alter (fun s => KSec (if decide (ks_dirty s = FDB_SECTOR_DIRTY_FALSE) then FDB_SECTOR_DIRTY_TRUE
                        else ks_dirty s) (ks_recs s)) k secs.

Section del.
Context (G : geom) (HG : geom_ok G) (keys : list Z -> Prop) (Hkeys : key_set keys).
Context {W} {ST : Storage W} {SL : StorageLaws W} {IN : Indeterminate}.
Implicit Type d : fdb_kvdb W.
Notation ss := (sec_size G).
Notation triple := (triple (W:=W) G keys).
Notation nsec := (nsec G).

(** ** The status of a record *)

Lemma rec_loc_set_rec secs k i st s0 a j s k' r :
  secs !! k = Some s0 -> rec_loc G secs a k' j s r ->
  exists s', rec_loc G (set_rec k i st secs) a k' j s'
               (if decide (k' = k /\ j = i) then kr_set st r else r).
Proof.
  intros Hk (Hk' & Hj & ->). rewrite (set_rec_insert _ _ _ _ _ Hk).
  destruct (decide (k' = k)) as [->|Hne].
  - simplify_eq. eexists. split; [apply list_lookup_insert_eq; by eapply lookup_lt_Some|]. cbn [ks_recs].
    unfold raddr. rewrite recs_len_take_alter. split; [|done].
    destruct (decide (j = i)) as [->|Hji].
    + by rewrite decide_True, list_lookup_alter_eq, Hj by done.
    + by rewrite decide_False, list_lookup_alter_ne by naive_solver.
  - exists s. rewrite decide_False by tauto. split; [by rewrite list_lookup_insert_ne|done].
Qed.

Lemma kcache_set_rec secs k i st s r t :
  secs !! k = Some s -> ks_recs s !! i = Some r -> kcache_ok G secs None t ->
  kcache_ok G (set_rec k i st secs) (if decide (kr_st r = FDB_KV_WRITE) then Some (kr_key r) else None) t.
Proof.
  intros Hk Hi. apply kcache_mono. intros a k' j s' r' Hl [Hst|]; [|done].
  destruct (rec_loc_set_rec secs k i st s a j s' k' r' Hk Hl) as [s'' Hl'].
  eexists _, _, _, _. split; [exact Hl'|]. case_decide as E; [|by auto].
  destruct E as [-> ->]. destruct Hl as (Hk' & Hj & _). simplify_eq. split; [done|].
  right. by rewrite decide_True.
Qed.

Lemma sec_ok_set_rec s i st :
  ksec_ok keys ss s -> ksec_ok keys ss (KSec (ks_dirty s) (alter (kr_set st) i (ks_recs s))).
Proof.
  intros [H1 H2]. split; cbn [ks_recs].
  - apply Forall_alter; [done|]. by intros r _.
  - intros Hne. unfold ks_end. cbn [ks_recs]. rewrite recs_len_alter. apply H2.
    intros E. by rewrite E in Hne.
Qed.

Definition pend_after (r : krec) : option (list Z) :=
  if decide (kr_st r = FDB_KV_WRITE) then Some (kr_key r) else None.

Lemma triple_write_kv_status σ a k i s r st sync :
  rec_pos G keys σ a k i s r -> enum_val (kr_st r) <= enum_val st -> 0 < enum_val st -> k_pend σ = None ->
  triple σ (write_kv_status a st sync) (fun res σ' => res = FDB_NO_ERR /\
    σ' = with_pend (pend_after r) (with_secs (set_rec k i st (k_secs σ)) σ)).
Proof.
  intros Hp Hle Hst Hpend. pose proof (po_loc _ _ _ _ _ _ _ _ Hp) as (Hk & Hi & Ha).
  apply triple_wf. intros Hwf. destruct (sec_lookup G HG keys _ _ _ Hwf Hk) as (Hlt & Hok & Hend).
  pose proof (ss_range G HG). destruct (rec_pos_range G HG _ _ _ _ _ _ _ Hp) as (Ha16 & Har & Hal).
  destruct (sector_base G HG k Hlt) as (Hb1 & Hb2 & _). pose proof (kv_val_range st).
  pose proof (recs_len_middle _ _ _ Hi) as Hmid. pose proof (recs_len_nonneg (take i (ks_recs s))).
  pose proof (recs_len_nonneg (drop (S i) (ks_recs s))).
  rewrite (set_rec_insert _ _ _ _ _ Hk).
  eapply triple_stores_sec with (R := fun r => r = FDB_NO_ERR); [exact Hk| |by apply sec_ok_set_rec|..].
  - intros d m Hd Hm Hs. pose proof (holds_len _ _ _ Hm) as Hlen. rewrite (rp_geo _ _ _ _ Hd) in Hlen.
    exists (splice m a [status_byte (enum_val st)]). split; [|split].
    + pose proof (recs_at_lookup _ _ _ _ _ (sa_recs _ _ _ _ Hs) Hi) as [Hb _].
      eapply stores_write_status; [exact Hm| |lia|done|by rewrite Ha; exact Hb|].
      * rewrite (rp_geo _ _ _ _ Hd). eapply (rec_pos_in G HG); [exact Hp|..]; ks_consts; lia.
      * apply status_byte_clears; [|unfold FDB_KV_STATUS_NUM in *; lia].
        pose proof (kv_val_range (kr_st r)). lia.
    + rewrite Ha. unfold raddr. rewrite (alter_set_split _ _ _ _ Hi).
      apply (sec_at_set_status ss m _ s); try done; [unfold ks_end in *; ks_consts; lia..|].
      by rewrite take_drop_middle.
    + intros j Hj. rewrite Ha. unfold raddr. rewrite <- Z.add_assoc. change (len [_]) with 1.
      apply other_sector; try done; [lia|ks_consts; lia| |lia].
      change (len [_]) with 1. unfold ks_end in *. ks_consts. lia.
  - intros t Ht. eapply scache_insert; try done.
    + unfold ks_store. cbn [ks_recs]. by destruct (ks_recs s), i.
    + unfold ks_end. cbn [ks_recs]. by rewrite recs_len_alter.
  - intros t Ht. rewrite Hpend in Ht. rewrite <- (set_rec_insert _ _ i st _ Hk). by eapply kcache_set_rec.
  - by intros ? ->.
Qed.

(** ** The dirty status of a sector *)

Lemma kcache_same_recs secs k s s' pend t :
  secs !! k = Some s -> ks_recs s' = ks_recs s -> kcache_ok G secs pend t ->
  kcache_ok G (<[k := s']> secs) pend t.
Proof.
  intros Hk E. apply kcache_mono. intros a k' i z r (Hk' & Hi & ->) Hst.
  destruct (decide (k' = k)) as [->|Hne].
  - simplify_eq. exists k, i, s', r. split; [|done]. unfold rec_loc. rewrite E.
    split; [|done]. apply list_lookup_insert_eq. by eapply lookup_lt_Some.
  - exists k', i, z, r. unfold rec_loc. by rewrite list_lookup_insert_ne.
Qed.

Lemma sec_ok_same_recs s s' : ks_recs s' = ks_recs s -> ksec_ok keys ss s -> ksec_ok keys ss s'.
Proof. intros E [H1 H2]. split; [by rewrite E|]. unfold ks_end in *. by rewrite E. Qed.

(** Writing the dirty byte. *)
Lemma stores_write_dirty d m σ k s dt sync :
  rep G keys d σ -> kv_holds d m -> sec_at ss m (Z.of_nat k * ss) s -> k_secs σ !! k = Some s ->
  enum_val (ks_dirty s) <= enum_val dt -> 0 < enum_val dt ->
  let m' := splice m (Z.of_nat k * ss + SECTOR_DIRTY_OFFSET) [status_byte (enum_val dt)] in
  stores (up (_fdb_write_status FDB_WRITE_GRAN (Z.of_nat k * ss + SECTOR_DIRTY_OFFSET)
                FDB_SECTOR_DIRTY_STATUS_NUM (enum_val dt) sync)) d m' (fun r => r = FDB_NO_ERR) /\
  sec_at ss m' (Z.of_nat k * ss) (KSec dt (ks_recs s)) /\
  forall j : nat, j <> k -> slice m' (Z.of_nat j * ss) ss = slice m (Z.of_nat j * ss) ss.
Proof.
  intros Hd Hm Hs Hk Hle Hpos m'. destruct (sec_lookup G HG keys _ _ _ (rp_wf _ _ _ _ Hd) Hk) as (Hlt & Hok & Hend).
  pose proof (ss_range G HG). destruct (sector_base G HG k Hlt) as (Hb1 & Hb2 & _).
  pose proof (holds_len _ _ _ Hm) as Hlen. rewrite (rp_geo _ _ _ _ Hd) in Hlen.
  pose proof (dirty_val_range dt). pose proof (dirty_val_range (ks_dirty s)). split_and!.
  - eapply stores_write_status; [exact Hm| |lia|done|by eapply sa_dirty|].
    + rewrite (rp_geo _ _ _ _ Hd). apply (in_sector_off G HG); ks_consts; lia.
    + apply status_byte_clears; unfold FDB_SECTOR_DIRTY_STATUS_NUM in *; lia.
  - apply sec_at_set_dirty; [lia|ks_consts; lia|lia|done].
  - intros j Hj. apply other_sector; try done; [lia|change (len [_]) with 1; ks_consts; lia|lia].
Qed.

Lemma triple_read_dirty σ k s b :
  k_secs σ !! k = Some s ->
  triple σ (up (_fdb_read_status FDB_WRITE_GRAN (Z.of_nat k * ss + SECTOR_DIRTY_OFFSET) [b] FDB_SECTOR_DIRTY_STATUS_NUM))
    (fun r σ' => σ' = σ /\ r = enum_val (ks_dirty s)).
Proof.
  intros Hk. apply triple_wf. intros Hwf. destruct (sec_lookup G HG keys _ _ _ Hwf Hk) as (Hlt & Hok & Hend).
  pose proof (ss_range G HG). pose proof (dirty_val_range (ks_dirty s)).
  apply triple_stores. intros d m Hd Hm Hs. apply stores_up. eapply wp_mono; [apply (read_status_spec _ m); [exact Hm|]|].
  - rewrite (rp_geo _ _ _ _ Hd). apply (in_sector_off G HG); ks_consts; lia.
  - intros r db' (i & -> & Hi & ->). exists i. split_and!; try done.
    rewrite (sa_dirty _ _ _ _ (Hs _ _ Hk)). by apply get_status_byte.
Qed.

Lemma triple_mark_dirty σ k s b :
  k_secs σ !! k = Some s ->
  triple σ (cur ← up (_fdb_read_status FDB_WRITE_GRAN (Z.of_nat k * ss + SECTOR_DIRTY_OFFSET) [b]
                        FDB_SECTOR_DIRTY_STATUS_NUM);
            if cur =? enum_val FDB_SECTOR_DIRTY_FALSE then
              result ← up (_fdb_write_status FDB_WRITE_GRAN (Z.of_nat k * ss + SECTOR_DIRTY_OFFSET)
                             FDB_SECTOR_DIRTY_STATUS_NUM (enum_val FDB_SECTOR_DIRTY_TRUE) true);
              sector_cache ← get_sector_from_cache (Z.of_nat k * ss);
              (match sector_cache with
               | Some (i, s) => store_sector_cache i (sec_set_dirty FDB_SECTOR_DIRTY_TRUE s)
               | None => mret tt
               end);;
              mret result
            else mret FDB_NO_ERR)
    (fun r σ' => r = FDB_NO_ERR /\ σ' = with_secs (mark_dirty k (k_secs σ)) σ).
Proof.
  intros Hk. apply triple_wf. intros Hwf. destruct (sec_lookup G HG keys _ _ _ Hwf Hk) as (Hlt & Hok & _).
  eapply triple_bind; [by apply triple_read_dirty|]. cbn beta. intros cur ? [-> ->].
  unfold mark_dirty. rewrite (alter_insert _ _ _ _ Hk).
  destruct (Z.eqb_spec (enum_val (ks_dirty s)) (enum_val FDB_SECTOR_DIRTY_FALSE)) as [E|E].
  - assert (ks_dirty s = FDB_SECTOR_DIRTY_FALSE) as Ed by (by destruct (ks_dirty s)).
    rewrite decide_True by done. intros d Hd. destruct (rp_medium _ _ _ _ Hd) as (m & Hm & Hs).
    destruct (stores_write_dirty d m σ k s FDB_SECTOR_DIRTY_TRUE true) as (Hst & Hs' & Ho); try done; [by apply Hs|..].
    { rewrite Ed. cbn. lia. }
    apply wp_bind. eapply wp_stores; [exact Hst|]. intros r i -> Hi.
    apply wp_bind. unfold get_sector_from_cache. apply wp_gets.
    pose proof (scache_replace G HG (k_secs σ) k s (KSec FDB_SECTOR_DIRTY_TRUE (ks_recs s))
      (sec_set_dirty FDB_SECTOR_DIRTY_TRUE) (sector_cache_table d) Hk Hlt) as Hsc.
    match type of Hsc with _ -> _ -> _ -> scache_ok _ _ ?t => set (t' := t) in Hsc end.
    assert (rep G keys (set_sector_cache_table t' (kv_io i d))
      (with_secs (<[k := KSec FDB_SECTOR_DIRTY_TRUE (ks_recs s)]> (k_secs σ)) σ)) as Hrep.
    { eapply (rep_sec G keys d σ k s _ i m _ t' (k_pend σ)); try done.
      - by apply (sec_ok_same_recs s).
      - apply Hsc; [done| |by apply Hd]. intros x [I1 I2 I3 I4 I5] Hsp. split; [|exact Hsp].
        split; try done. by left.
      - by eapply kcache_same_recs, Hd. }
    unfold t' in Hrep. cbn [sector_cache_table kv_io set_parent].
    destruct (list_find _ _) as [[j x]|].
    + apply wp_bind, wp_modify, wp_ret. eexists. split; [exact Hrep|done].
    + apply wp_bind, wp_ret, wp_ret. eexists. split; [|done].
      change (sector_cache_table d) with (sector_cache_table (kv_io i d)) in Hrep.
      by rewrite set_sct_id in Hrep.
  - apply triple_ret. split; [done|]. rewrite decide_False by (intros Ed; by rewrite Ed in E).
    rewrite list_insert_id; [by destruct σ|]. rewrite Hk. by destruct s.
Qed.

(** ** Deleting *)

Lemma triple_clear_cache σ key n buf x :
  n = len key -> buf = key ++ x -> k_pend σ = None \/ k_pend σ = Some key ->
  triple σ (update_kv_cache buf n FDB_DATA_UNUSED) (fun _ σ' => σ' = with_pend None σ).
Proof.
  intros -> -> Hpend. unfold update_kv_cache, read_bytes. pose proof (len_nonneg key).
  rewrite (proj2 (Z.leb_le _ _)) by (rewrite len_app; pose proof (len_nonneg x); lia).
  rewrite slice_app_l, slice_all by lia.
  eapply triple_bind; [by apply triple_ret with (Q := fun b σ' => b = key /\ σ' = σ)|]. cbn beta.
  intros b ? [-> ->]. apply triple_modify with (with_pend None σ); [|done].
  intros d [R1 R2 R3 R4 R5 R6 R7 R8 R9 R10 R11]. split; try done; [by destruct R2|].
  by eapply kcache_clear.
Qed.

(** The status of a deleted record. *)
Definition del_status (complete : bool) : fdb_kv_status :=
  if complete then FDB_KV_DELETED else FDB_KV_PRE_DELETE.

Definition deleted (complete : bool) (k i : nat) (r : krec) (σ : kst) : kst :=
  with_last (negb complete)
    (with_pend (if complete then None else pend_after r)
      (with_secs (mark_dirty k (set_rec k i (del_status complete) (k_secs σ))) σ)).

Lemma triple_set_last σ b : triple σ (modify (set_last_is_complete_del b)) (fun _ σ' => σ' = with_last b σ).
Proof. apply triple_modify with (with_last b σ); [|done]. intros d [R1 [] R3 R4 R5 R6 R7 R8 R9 R10 R11]. by split. Qed.

Lemma triple_del_kv_at σ key kv a k i s r complete :
  rec_pos G keys σ a k i s r -> kv_desc kv a r -> key = Some (kr_key r) \/ key = None ->
  k_pend σ = None -> enum_val (kr_st r) <= enum_val (del_status complete) ->
  (complete = true -> k_last σ = true -> kr_st r <> FDB_KV_WRITE) ->
  triple σ (del_kv key (Some kv) complete) (fun res σ' =>
    res = FDB_NO_ERR /\ σ' = deleted complete k i r σ).
Proof.
  intros Hp Hkv Hkey Hpend Hle Hlast. pose proof (po_loc _ _ _ _ _ _ _ _ Hp) as (Hk & Hi & Ha).
  apply triple_wf. intros Hwf. pose proof (po_k _ _ _ _ _ _ _ _ Hp) as Hlt.
  destruct (sector_base G HG k Hlt) as (Hb1 & Hb2 & _). pose proof (ss_range G HG).
  destruct (rec_pos_off G keys _ _ _ _ _ _ Hp) as (off & Eoff & Ho1 & Ho2). pose proof (kr_len_pos r).
  unfold del_kv. eapply triple_bind; [by apply triple_ret with (Q := fun f σ' => f = Some kv /\ σ' = σ)|].
  cbn beta. intros f ? [-> ->]. fold (del_status complete). rewrite (kd_start _ _ _ Hkv).
  eapply triple_bind; [eapply triple_write_kv_status; try done; by destruct complete|].
  cbn beta. intros res σ1 [-> ->]. set (σ1 := with_pend _ _).
  eapply triple_bind with (R := fun _ σ' => σ' = with_last (negb complete)
    (with_pend (if complete then None else pend_after r) σ1)).
  - destruct complete; [|apply triple_set_last].
    eapply triple_gets; [intros d Hd; apply Hd|]. change (k_last σ1) with (k_last σ).
    eapply triple_bind with (R := fun _ σ' => σ' = with_pend None σ1).
    + destruct (k_last σ) eqn:El; cbn [negb andb].
      * apply triple_ret. unfold σ1, pend_after. rewrite decide_False by (by apply Hlast). done.
      * rewrite bool_decide_eq_true_2 by done.
        assert (k_pend σ1 = None \/ k_pend σ1 = Some (kr_key r)) as Hp1
          by (unfold σ1, pend_after; cbn; case_decide; auto).
        destruct Hkey as [-> | ->].
        -- eapply (triple_clear_cache _ (kr_key r) _ _ []); [done|by rewrite app_nil_r|done].
        -- destruct (kd_name _ _ _ Hkv) as [x Hx].
           by eapply (triple_clear_cache _ (kr_key r) _ _ x); [apply Hkv|..].
    + cbn beta. intros _ ? ->. apply triple_set_last.
  - cbn beta. intros _ ? ->. set (σ2 := with_last _ _). apply triple_sec_size.
    rewrite (proj2 (Z.eqb_neq ss 0)) by lia.
    eapply triple_bind; [by apply triple_ret with (Q := fun _ σ' => σ' = σ2)|]. cbn beta. intros _ ? ->.
    rewrite decide_True by done. rewrite Eoff, (align_down G HG) by (done || ks_consts; lia).
    assert (u32 (Z.of_nat k * ss) = Z.of_nat k * ss) as -> by (apply u32_small; lia).
    rewrite u32_small by (ks_consts; lia).
    assert (k_secs σ2 !! k = Some (KSec (ks_dirty s) (alter (kr_set (del_status complete)) i (ks_recs s)))) as Hk2.
    { unfold σ2. cbn. rewrite (set_rec_insert _ _ _ _ _ Hk). apply list_lookup_insert_eq. by eapply lookup_lt_Some. }
    eapply triple_mono; [by eapply triple_mark_dirty|]. cbn beta. intros res ? [-> ->]. done.
Qed.

(** A key is looked up first. *)
Definition blank_kv : fdb_kv :=
  FdbKv FDB_KV_UNUSED false 0 0 0 0 (replicate (Z.to_nat FDB_KV_NAME_MAX) 0) 0 0.
Definition find_and_del (key : list Z) (complete : bool) : M (fdb_kvdb W) fdb_err_t :=
  r ← find_kv key blank_kv;
  if (fst r : bool) then del_kv (Some key) (Some (snd r)) complete else mret FDB_KV_NAME_ERR.

Lemma del_kv_find key complete (d : fdb_kvdb W) :
  find_and_del key complete d = del_kv (Some key) None complete d.
Proof.
  unfold find_and_del, del_kv, mbind, M_bind, mret, M_ret. fold blank_kv.
  by destruct (find_kv key blank_kv d) as [[[[] kv] d']|].
Qed.

Definition del_result (σ : kst) (key : list Z) (res : fdb_err_t) (σ' : kst) : Prop :=
  (res = FDB_NO_ERR /\ exists a k i s r, rec_pos G keys σ a k i s r /\ kr_key r = key /\
     kr_st r = FDB_KV_WRITE /\ σ' = deleted true k i r σ) \/
  (res = FDB_KV_NAME_ERR /\ σ' = σ /\ no_record (k_secs σ) key).

Lemma triple_find_and_del σ key :
  keys key -> k_pend σ = None -> k_last σ = false ->
  triple σ (find_and_del key true) (del_result σ key).
Proof.
  intros Hk Hpend Hlast. unfold find_and_del.
  eapply triple_bind; [by apply triple_find_kv|]. cbn beta. intros [ok kv] ? [-> [Hn Hf]]. cbn [fst snd] in *.
  destruct ok; [|apply triple_ret; by right]. destruct Hf as (k & i & s & r & Hp & Hkv & <- & Hst).
  eapply triple_mono; [eapply triple_del_kv_at; try done; [by left|by rewrite Hst|by rewrite Hlast]|].
  cbn beta. intros res ? [-> ->]. left. split; [done|]. by exists (kv_start kv), k, i, s, r.
Qed.

Lemma triple_del_kv_key σ key :
  keys key -> k_pend σ = None -> k_last σ = false ->
  triple σ (del_kv (Some key) None true) (del_result σ key).
Proof.
  intros Hk Hpend Hlast. eapply triple_ext; [intros d; apply del_kv_find|by apply triple_find_and_del].
Qed.
End del.
