(* ===== verification/KvAlloc.v ===== *)
(** Key-value database: the allocation of space for a record.

    A sector is chosen only when [FDB_SEC_REMAIN_THRESHOLD] bytes remain after
    the record.  Hence no sector ever becomes full: [update_sec_status] would
    mark it as full only if less remained. *)
From S2P Require Import Prelude FdbDef Crc32 Status FlashIO FlashSpec KvDef KvRead KvWrite KvRing KvCacheSpec.
From S2P Require Import KvSpec KvGetSpec KvState KvTriple KvBase KvLook KvSector KvIter KvFind KvDel.

(** The number of sectors without records. *)
Definition n_empty (secs : list ksec) : nat := length (filter (fun s => ks_recs s = []) secs).

Lemma n_empty_perm secs secs' : secs ≡ₚ secs' -> n_empty secs = n_empty secs'.
Proof. intros H. unfold n_empty. by rewrite H. Qed.

Lemma n_empty_le secs : (n_empty secs <= length secs)%nat.
Proof. apply length_filter. Qed.

Lemma n_empty_snoc secs s : n_empty (secs ++ [s]) = (n_empty secs + if decide (ks_recs s = []) then 1 else 0)%nat.
Proof.
  unfold n_empty. rewrite filter_app, length_app. f_equal. rewrite filter_cons. by case_decide.
Qed.

Lemma n_empty_pos secs : (0 < n_empty secs)%nat <-> exists s, s ∈ secs /\ ks_recs s = [].
Proof.
  unfold n_empty. split.
  - intros H. destruct (filter _ secs) as [|s l] eqn:E; [simpl in H; lia|]. exists s.
    assert (s ∈ filter (fun s => ks_recs s = []) secs) as Hs by (rewrite E; left).
    apply list_elem_of_filter in Hs. tauto.
  - intros (s & Hs & E). assert (s ∈ filter (fun s => ks_recs s = []) secs) as Hf by (by apply list_elem_of_filter).
    destruct (filter _ secs); [by apply not_elem_of_nil in Hf|simpl; lia].
Qed.

Lemma n_empty_all secs : n_empty secs = length secs -> Forall (fun s => ks_recs s = []) secs.
Proof.
  unfold n_empty. induction secs as [|s secs IH]; [done|]. rewrite filter_cons. case_decide; cbn.
  - intros H'. constructor; [done|]. apply IH. lia.
  - intros H'. pose proof (n_empty_le secs). unfold n_empty in *. lia.
Qed.

Section alloc.
Context (G : geom) (HG : geom_ok G) (keys : list Z -> Prop) (Hkeys : key_set keys).
Context {W} {ST : Storage W} {SL : StorageLaws W} {IN : Indeterminate}.
Implicit Type d : fdb_kvdb W.
Notation ss := (sec_size G).
Notation triple := (triple (W:=W) G keys).
Notation nsec := (nsec G).

Lemma triple_set_gc σ b : triple σ (modify (set_gc_request b)) (fun _ σ' => σ' = with_gc b σ).
Proof. apply triple_modify with (with_gc b σ); [|done]. intros d [R1 [] R3 R4 R5 R6 R7 R8 R9 R10 R11]. by split. Qed.

Lemma triple_gc {B} σ (p : bool -> M (fdb_kvdb W) B) Q : triple σ (p (k_gc σ)) Q -> triple σ (gets gc_request ≫= p) Q.
Proof. apply triple_gets. intros d Hd. apply Hd. Qed.

(** The first [t] sectors in ring order. *)
Definition seen (σ : kst) (t : nat) : list ksec := take t (rotate_secs (k_old σ) (k_secs σ)).

Lemma seen_S σ t k s : swf G keys σ -> (t < nsec)%nat -> k = ring_idx nsec (k_old σ) t ->
  k_secs σ !! k = Some s -> seen σ (S t) = seen σ t ++ [s].
Proof.
  intros [W1 W2 W3] Ht -> Hs. unfold seen. apply take_S_r. rewrite rotate_lookup by lia. by rewrite W1.
Qed.

Lemma seen_all σ : swf G keys σ -> seen σ nsec ≡ₚ k_secs σ.
Proof.
  intros [W1 W2 W3]. unfold seen. rewrite take_ge; [apply rotate_perm|]. rewrite length_rotate. lia.
Qed.

(** ** The statistics *)

Lemma triple_statistics σ x :
  triple σ (sector_iterator x FDB_SECTOR_STORE_UNUSED (0, 0) (Some sector_statistics_cb) false)
    (fun r σ' => σ' = σ /\ snd r = (Z.of_nat (n_empty (k_secs σ)), Z.of_nat (nsec - n_empty (k_secs σ)))).
Proof.
  apply triple_wf. intros Hwf. pose proof (nsec_count G HG). pose proof (max_size_eq G HG). pose proof (ss_range G HG).
  apply (triple_sector_iterator G HG keys σ x _ _ _ _ (fun t arg σ' => σ' = σ /\ (t <= nsec)%nat /\
    arg = (Z.of_nat (n_empty (seen σ t)), Z.of_nat (t - n_empty (seen σ t))))).
  - split_and!; [done|lia|done].
  - intros t arg ? k s y Ht (-> & _ & ->) Hk Hs Hy _ _. unfold sector_statistics_cb.
    rewrite (in_ok _ _ _ _ Hy), (in_store _ _ _ _ Hy), (seen_S σ t k s), n_empty_snoc by done. cbn [andb].
    pose proof (n_empty_le (seen σ t)) as Hle.
    assert (length (seen σ t) <= t)%nat by (unfold seen; rewrite length_take; lia).
    assert (Z.of_nat nsec < 4294967296) by (pose proof (sector_count_two G HG); nia).
    unfold ks_store. destruct (ks_recs s) as [|r rs] eqn:E.
    + rewrite bool_decide_eq_true_2 by done. apply triple_ret. cbn [fst snd]. split_and!; [done|lia|].
      rewrite u64_small, decide_True by (done || lia). f_equal; lia.
    + rewrite bool_decide_eq_false_2, bool_decide_eq_true_2 by done. apply triple_ret. cbn [fst snd].
      split_and!; [done|lia|]. rewrite u64_small, decide_False by (done || lia). f_equal; lia.
  - intros t arg ? k s Ht _ _ _ Hv. destruct Hv. by left.
  - intros y arg ? (-> & _ & ->). split; [done|]. cbn [snd]. by rewrite (n_empty_perm _ _ (seen_all σ Hwf)).
Qed.

(** ** The search for room *)

Definition fits (size : Z) (s : ksec) : Prop := size + FDB_SEC_REMAIN_THRESHOLD < ss - ks_end s.
(** A sector that [alloc_kv_cb] accepts, and one that it must accept. *)
Definition may_take (gc : bool) (size : Z) (s : ksec) : Prop :=
  fits size s /\ (ks_dirty s = FDB_SECTOR_DIRTY_FALSE \/ gc = false).
Definition must_take (gc : bool) (size : Z) (s : ksec) : Prop :=
  fits size s /\ (ks_dirty s = FDB_SECTOR_DIRTY_FALSE \/ ks_dirty s = FDB_SECTOR_DIRTY_TRUE /\ gc = false).

(** The sector [k] of the state, with the information about it. *)
Definition room_at (σ : kst) (size : Z) (k : nat) (s : ksec) (x : kvdb_sec_info) : Prop :=
  k_secs σ !! k = Some s /\ info_at G k s x /\ space_at G s x /\ fits size s.

Lemma triple_alloc_kv_cb σ k s x size arg :
  0 <= size < 4294967296 -> k_secs σ !! k = Some s -> info_at G k s x -> space_at G s x ->
  triple σ (alloc_kv_cb size x arg) (fun c σ' => σ' = σ /\
    (c = (true, empty_kv x) /\ may_take (k_gc σ) size s \/ c = (false, arg) /\ ~ must_take (k_gc σ) size s)).
Proof.
  intros Hsz Hk Hx [_ Hsp]. unfold alloc_kv_cb. apply triple_gc.
  rewrite (in_ok _ _ _ _ Hx), Hsp. cbn [andb]. ks_consts. rewrite u64_small by lia.
  destruct (Z.ltb_spec (size + (24 + 64)) (ss - ks_end s)) as [Hlt|Hge]; cbn [andb].
  2:{ apply triple_ret. split; [done|]. right. split; [done|]. intros [Hf _]. unfold fits in Hf. ks_consts. lia. }
  destruct (_ || _) eqn:E; apply triple_ret; (split; [done|]); [left|right]; (split; [done|]).
  - split; [unfold fits; by ks_consts|]. apply orb_prop in E as [E|E].
    + apply bool_decide_eq_true in E. left. destruct (in_dirty _ _ _ _ Hx) as [<-|[_ E']]; congruence.
    + apply andb_prop in E as [_ E]. right. by apply negb_true_iff in E.
  - intros [_ Hd]. apply orb_false_elim in E as [E1 E2]. apply bool_decide_eq_false in E1.
    destruct (in_dirty _ _ _ _ Hx) as [Ed|[Ed _]]; [|destruct Hd as [|[]]; congruence].
    destruct Hd as [|[Hd Hgc]]; [congruence|]. rewrite Ed, Hd, Hgc in E2. done.
Qed.

(** The sectors with a given status are tried in ring order. *)
Lemma triple_alloc_pass σ x status size :
  0 <= size < 4294967296 -> status <> FDB_SECTOR_STORE_UNUSED ->
  triple σ (sector_iterator x status FAILED_ADDR (Some (alloc_kv_cb size)) true) (fun r σ' => σ' = σ /\
    ((exists k s, room_at σ size k s (fst r) /\ may_take (k_gc σ) size s /\ ks_store s = status /\
        snd r = empty_kv (fst r)) \/
     (snd r = FAILED_ADDR /\ forall s, s ∈ k_secs σ -> ks_store s = status -> ~ must_take (k_gc σ) size s))).
Proof.
  intros Hsz Hst. apply triple_wf. intros Hwf.
  apply (triple_sector_iterator G HG keys σ x _ _ _ _ (fun t arg σ' => σ' = σ /\ arg = FAILED_ADDR /\
    forall s, s ∈ seen σ t -> ks_store s = status -> ~ must_take (k_gc σ) size s)).
  - split_and!; try done. intros s Hs. by apply not_elem_of_nil in Hs.
  - intros t arg ? k s y Ht (-> & -> & Hno) Hk Hs Hy Hv Hsp. specialize (Hsp eq_refl).
    destruct Hv as [|Hv]; [done|].
    eapply triple_mono; [by eapply triple_alloc_kv_cb|]. cbn beta. intros c ? (-> & [[-> Hm]|[-> Hm]]); cbn [fst snd].
    + split; [done|]. left. exists k, s. split_and!; try done. by destruct Hm.
    + split_and!; try done. rewrite (seen_S σ t k s) by done. intros s' Hs' Est.
      apply elem_of_app in Hs' as [Hs'|Hs']; [by apply Hno|].
      by apply list_elem_of_singleton in Hs' as ->.
  - intros t arg ? k s Ht (-> & -> & Hno) Hk Hs Hv. split_and!; try done. rewrite (seen_S σ t k s) by done.
    intros s' Hs' Est. apply elem_of_app in Hs' as [Hs'|Hs']; [by apply Hno|].
    apply list_elem_of_singleton in Hs' as ->. destruct Hv. by right.
  - intros y arg ? (-> & -> & Hno). split; [done|]. right. split; [done|]. intros s Hs. apply Hno.
    by rewrite seen_all.
Qed.

(** What [alloc_kv] returns: room in a sector in use, or in an empty one if
    this leaves another one or garbage is being collected; otherwise nothing,
    and it may ask for a collection. *)
Definition alloc_ok (σ : kst) (size : Z) (a : Z) (x : kvdb_sec_info) : Prop :=
  exists k s, room_at σ size k s x /\ may_take (k_gc σ) size s /\ a = Z.of_nat k * ss + ks_end s /\
    (ks_recs s = [] -> k_gc σ = true \/ (1 < n_empty (k_secs σ))%nat).

Definition alloc_none (σ : kst) (size : Z) (σ' : kst) : Prop :=
  (forall s, s ∈ k_secs σ -> ks_recs s <> [] -> ~ must_take (k_gc σ) size s) /\
  if decide (n_empty (k_secs σ) = 1%nat /\ k_gc σ = false) then σ' = with_gc true σ
  else σ' = σ /\ forall s, s ∈ k_secs σ -> ~ must_take (k_gc σ) size s.

Lemma room_not_failed σ size k s x : swf G keys σ -> room_at σ size k s x -> empty_kv x <> FAILED_ADDR.
Proof.
  intros Hwf (Hk & Hx & [Hsp _] & _). destruct (sec_lookup G HG keys _ _ _ Hwf Hk) as (Hlt & Hok & Hend).
  rewrite Hsp, (in_addr _ _ _ _ Hx). destruct (sector_base G HG k Hlt) as (? & ? & _). pose proof (ss_range G HG).
  unfold FAILED_ADDR. lia.
Qed.

Lemma triple_alloc_kv σ x size :
  0 <= size < 4294967296 ->
  triple σ (alloc_kv x size) (fun r σ' =>
    (fst r <> FAILED_ADDR /\ σ' = σ /\ alloc_ok σ size (fst r) (snd r)) \/
    (fst r = FAILED_ADDR /\ alloc_none σ size σ')).
Proof.
  intros Hsz. apply triple_wf. intros Hwf. unfold alloc_kv.
  eapply triple_bind; [apply triple_statistics|]. cbn beta. intros [y [e u]] ? [-> [= -> ->]].
  eapply triple_bind with (R := fun r σ' => σ' = σ /\
    ((snd r <> FAILED_ADDR /\ alloc_ok σ size (snd r) (fst r)) \/
     (snd r = FAILED_ADDR /\ forall s, s ∈ k_secs σ -> ks_recs s <> [] -> ~ must_take (k_gc σ) size s))).
  - destruct (Z.ltb_spec 0 (Z.of_nat (nsec - n_empty (k_secs σ)))).
    + eapply triple_mono; [by apply triple_alloc_pass|]. cbn beta. intros [x' a] ? (-> & Hr). split; [done|].
      cbn [fst snd] in *. destruct Hr as [(k & s & Hroom & Hm & Hst & ->)|[-> Hno]]; [left|right].
      * split; [by eapply room_not_failed|]. exists k, s. split_and!; try done.
        -- destruct Hroom as (_ & Hx & [Hsp _] & _). by rewrite Hsp, (in_addr _ _ _ _ Hx).
        -- intros E. unfold ks_store in Hst. by rewrite E in Hst.
      * split; [done|]. intros s Hs Hne. apply Hno; [done|]. unfold ks_store. by destruct (ks_recs s).
    + apply triple_ret. split; [done|]. right. split; [done|]. intros s Hs Hne.
      assert (n_empty (k_secs σ) = length (k_secs σ)) as Eall.
      { pose proof (n_empty_le (k_secs σ)). rewrite (sw_len _ _ _ Hwf) in *. lia. }
      apply n_empty_all in Eall. rewrite Forall_forall in Eall. by destruct Hne; apply Eall.
  - cbn beta. intros [x1 a] ? [-> Hr]. cbn [fst snd] in *.
    destruct Hr as [[Ha Hok]|[-> Hno]].
    { rewrite (proj2 (Z.eqb_neq a _)), andb_false_r by done. apply triple_ret. left. done. }
    rewrite Z.eqb_refl, andb_true_r. unfold alloc_none.
    destruct (Z.ltb_spec 0 (Z.of_nat (n_empty (k_secs σ)))) as [Hpos|Hzero].
    2:{ apply triple_ret. right. split_and!; try done. rewrite decide_False by lia. split; [done|].
        intros s Hs. destruct (decide (ks_recs s = [])) as [E|]; [|by apply Hno].
        assert (0 < n_empty (k_secs σ))%nat by (apply n_empty_pos; eauto). lia. }
    apply triple_gc. unfold FDB_GC_EMPTY_SEC_THRESHOLD.
    assert ((1 <? Z.of_nat (n_empty (k_secs σ))) || k_gc σ =
            negb (bool_decide (n_empty (k_secs σ) = 1%nat /\ k_gc σ = false))) as ->.
    { destruct (Z.ltb_spec 1 (Z.of_nat (n_empty (k_secs σ)))), (k_gc σ); cbn; case_bool_decide; cbn; try done; lia. }
    case_bool_decide as Hgc; cbn [negb].
    + eapply triple_bind; [apply triple_set_gc|]. cbn beta. intros _ ? ->. apply triple_ret. right.
      by rewrite decide_True by done.
    + eapply triple_bind; [by apply triple_alloc_pass|]. cbn beta.
      intros [x2 a2] ? (-> & Hr). apply triple_ret. cbn [fst snd] in *.
      destruct Hr as [(k & s & Hroom & Hm & Hst & ->)|[-> Hno2]]; [left|right].
      * split_and!; [by eapply room_not_failed|done|]. exists k, s. split_and!; try done.
        -- destruct Hroom as (_ & Hx & [Hsp _] & _). by rewrite Hsp, (in_addr _ _ _ _ Hx).
        -- intros _. destruct (k_gc σ); [by left|right]. lia.
      * rewrite decide_False by done. split_and!; try done. intros s Hs.
        destruct (decide (ks_recs s = [])) as [E|]; [|by apply Hno]. apply Hno2; [done|]. unfold ks_store. by rewrite E.
Qed.
End alloc.
