(* ===== verification/KvStore.v ===== *)
(** Key-value database: storing a record in the space that was allocated. *)
From S2P Require Import Prelude FdbDef Crc32 Status FlashIO FlashSpec KvDef KvRead KvWrite KvRing KvCacheSpec.
From S2P Require Import KvSpec KvGetSpec KvState KvTriple KvBase KvLook KvSector KvIter KvFind KvDel KvAlloc.

(** ** The table of sectors *)

Lemma cache_find_insert t a i x y :
  list_find (fun z => addr z = a) t = Some (i, x) -> addr y = a ->
  list_find (fun z => addr z = a) (<[i := y]> t) = Some (i, y).
Proof.
  intros Hf Hy. apply list_find_Some in Hf as (Hi & Hx & Hbefore). apply list_find_Some.
  split; [|split; [done|]].
  - apply list_lookup_insert_eq. by eapply lookup_lt_Some.
  - intros j z Hz Hj. rewrite list_lookup_insert_ne in Hz by lia. by eapply Hbefore.
Qed.

(** The entry of the sector at [a] is changed by [f]. *)
Definition cache_alter (a : Z) (f : kvdb_sec_info -> kvdb_sec_info) (t : list kvdb_sec_info)
    : list kvdb_sec_info :=
  match list_find (fun x => addr x = a) t with Some (i, x) => <[i := f x]> t | None => t end.

Lemma cache_alter_compose a f g t :
  (forall x, addr (f x) = addr x) -> cache_alter a g (cache_alter a f t) = cache_alter a (fun x => g (f x)) t.
Proof.
  intros Hf. unfold cache_alter. destruct (list_find _ t) as [[i x]|] eqn:E; [|by rewrite E].
  pose proof E as E'. apply list_find_Some in E' as (_ & Hx & _).
  rewrite (cache_find_insert t a i x (f x) E) by (by rewrite Hf). by rewrite list_insert_insert_eq.
Qed.

Section store.
Context (G : geom) (HG : geom_ok G) (keys : list Z -> Prop) (Hkeys : key_set keys).
Context {W} {ST : Storage W} {SL : StorageLaws W} {IN : Indeterminate}.
Implicit Type d : fdb_kvdb W.
Notation ss := (sec_size G).
Notation triple := (triple (W:=W) G keys).
Notation nsec := (nsec G).

(** ** A record more *)

Definition added (s : ksec) (r : krec) : ksec := KSec (ks_dirty s) (ks_recs s ++ [r]).

Lemma append_insert secs k s r : secs !! k = Some s -> append_rec k r secs = <[k := added s r]> secs.
Proof. intros Hk. unfold append_rec. by rewrite (alter_insert _ _ _ _ Hk). Qed.

Lemma ks_end_added s r : ks_end (added s r) = ks_end s + kr_len r.
Proof. unfold ks_end, added. cbn [ks_recs]. rewrite recs_len_app. simpl. lia. Qed.

Lemma ks_store_added s r : ks_store (added s r) = FDB_SECTOR_STORE_USING.
Proof. unfold ks_store, added. cbn [ks_recs]. by destruct (ks_recs s). Qed.

Lemma sec_ok_added s r : ksec_ok keys ss s -> krec_ok keys r -> fits G (kr_len r) s -> ksec_ok keys ss (added s r).
Proof.
  intros [H1 H2] Hr Hf. split.
  - apply Forall_app. by split; [|constructor].
  - intros _. rewrite ks_end_added. unfold fits in Hf. lia.
Qed.

Lemma rec_loc_added secs k s0 r0 a k' i s r :
  secs !! k = Some s0 -> rec_loc G secs a k' i s r ->
  exists s', rec_loc G (<[k := added s0 r0]> secs) a k' i s' r.
Proof.
  intros Hk (Hk' & Hi & ->). destruct (decide (k' = k)) as [->|Hne].
  - simplify_eq. exists (added s0 r0). unfold rec_loc. cbn [ks_recs added].
    split; [apply list_lookup_insert_eq; by eapply lookup_lt_Some|]. split.
    + by apply lookup_app_l_Some.
    + unfold raddr. rewrite take_app_le; [done|]. apply Nat.lt_le_incl. by eapply lookup_lt_Some.
  - exists s. unfold rec_loc. by rewrite list_lookup_insert_ne.
Qed.

Lemma rec_loc_new secs k s r :
  secs !! k = Some s -> rec_loc G (<[k := added s r]> secs) (Z.of_nat k * ss + ks_end s) k (length (ks_recs s)) (added s r) r.
Proof.
  intros Hk. unfold rec_loc. cbn [ks_recs added]. split; [|split].
  - apply list_lookup_insert_eq. by eapply lookup_lt_Some.
  - by rewrite lookup_app_r, Nat.sub_diag by lia.
  - unfold raddr, ks_end. rewrite take_app_length. lia.
Qed.

(** ** Room is never used up *)

(** The sector [k] of the state, as far as the storing of a record needs to
    know it: the dirty status may have changed since [x] was read. *)
Definition store_room (σ : kst) (size : Z) (k : nat) (s : ksec) (x : kvdb_sec_info) : Prop :=
  k_secs σ !! k = Some s /\ (addr x = Z.of_nat k * ss /\ store x = ks_store s) /\ space_at G s x /\ fits G size s.

Lemma room_store σ size k s x : room_at G σ size k s x -> store_room σ size k s x.
Proof. intros (Hk & Hx & Hsp & Hf). split_and!; try done; by destruct Hx. Qed.

Lemma store_after_using s k x n :
  0 <= n -> addr x = Z.of_nat k * ss /\ store x = ks_store s -> space_at G s x -> fits G n s -> ks_end s <= ss -> ss < 4294967296 ->
  store_after x n = FDB_SECTOR_STORE_USING /\ becomes_full x n = false.
Proof.
  intros Hn [_ Hx] [_ Hsp] Hf He H32. assert (0 <= ks_end s) as H0
    by (unfold ks_end; pose proof (recs_len_nonneg (ks_recs s)); ks_consts; lia).
  unfold becomes_full, store_after, fits in *.
  rewrite Hx, Hsp. unfold ks_store. destruct (ks_recs s); [done|].
  ks_consts. rewrite u64_small, !(proj2 (Z.ltb_ge _ _)) by lia. done.
Qed.

Lemma scache_created secs k s r x t :
  secs !! k = Some s -> (k < nsec)%nat -> ksec_ok keys ss (added s r) -> store x = ks_store s ->
  store_after x (kr_len r) = FDB_SECTOR_STORE_USING ->
  scache_ok G secs t ->
  scache_ok G (<[k := added s r]> secs)
    (cache_set_empty ss (Z.of_nat k * ss) (Z.of_nat k * ss + ks_end s + kr_len r)
       (if bool_decide (FDB_SECTOR_STORE_USING = store x) then t
        else cache_set_store (Z.of_nat k * ss) FDB_SECTOR_STORE_USING t)).
Proof.
  intros Hk Hlt Hok Hx Hst Ht. pose proof (ss_range G HG). destruct (sector_base G HG k Hlt) as (Hb1 & Hb2 & _).
  pose proof (so_room _ _ _ Hok ltac:(cbn; by destruct (ks_recs s))) as Hroom. rewrite ks_end_added in Hroom.
  pose proof (recs_len_nonneg (ks_recs s)). pose proof (kr_len_pos r).
  set (e := Z.of_nat k * ss + ks_end s + kr_len r).
  assert (16 <= ks_end s) as He by (unfold ks_end; ks_consts; lia).
  set (g := fun y => sec_set_space (u32 (ss - u32 (e - addr y))) e y).
  assert (forall y, info_at G k s y -> info_at G k (added s r) (g (sec_set_store FDB_SECTOR_STORE_USING y)) /\
    space_at G (added s r) (g (sec_set_store FDB_SECTOR_STORE_USING y))) as Hg.
  { intros y [I1 I2 I3 I4 I5]. split.
    - split; try done. by rewrite ks_store_added.
    - unfold space_at, g. cbn. rewrite I2, ks_end_added. unfold e. ks_consts. wrap_small. lia. }
  assert (forall f, (forall y, addr (f y) = addr y) -> (forall y, info_at G k s y -> f y = sec_set_store FDB_SECTOR_STORE_USING y) ->
    scache_ok G (<[k := added s r]> secs) (cache_alter (Z.of_nat k * ss) (fun y => g (f y)) t)) as Hall.
  { intros f Hf1 Hf2. apply (scache_replace G HG secs k s); try done.
    intros y Hy _. rewrite (Hf2 y Hy). destruct (Hg y Hy). auto. }
  case_bool_decide as E.
  - apply (Hall (fun y => y)); [done|]. intros y Hy. assert (store y = FDB_SECTOR_STORE_USING) as Ey.
    { by rewrite (in_store _ _ _ _ Hy), <- Hx. }
    destruct y. cbn in *. by subst.
  - change (scache_ok G (<[k := added s r]> secs)
      (cache_alter (Z.of_nat k * ss) g (cache_alter (Z.of_nat k * ss) (sec_set_store FDB_SECTOR_STORE_USING) t))).
    rewrite cache_alter_compose by done. by apply Hall.
Qed.

(** The database after a record was stored, by [create_kv_blob] or [move_kv]. *)
Lemma rep_created d σ k s x r i m :
  rep G keys d σ -> kv_holds d m -> secs_at ss m (k_secs σ) -> store_room σ (kr_len r) k s x -> krec_ok keys r -> kr_st r = FDB_KV_WRITE ->
  k_pend σ = None \/ k_pend σ = Some (kr_key r) ->
  let a := Z.of_nat k * ss + ks_end s in
  let d' := created i d x a (kr_key r) (kr_val r) in
  kv_holds d' (splice (splice m (Z.of_nat k * ss) [status_byte (enum_val FDB_SECTOR_STORE_USING)]) a
                      (rec_bytes (kr_key r) (kr_val r))) ->
  rep G keys d' (with_pend None (with_secs (append_rec k r (k_secs σ)) σ)).
Proof.
  intros Hd Hm Hs (Hk & Hx & Hsp & Hf) Hr Hst Hpend a d' Hm'. pose proof Hd as [D1 D2 _ D4 D5 D6 D7 D8 D9 D10 D11].
  destruct (sec_lookup G HG keys _ _ _ D2 Hk) as (Hlt & Hok & Hend). pose proof (ss_range G HG).
  destruct (sector_base G HG k Hlt) as (Hb1 & Hb2 & _). pose proof (kr_len_pos r) as Hpos.
  destruct (store_after_using s k x (kr_len r)) as [Hsa Hbf]; try done; [ks_consts; lia|lia|lia|].
  pose proof (holds_len _ _ _ Hm) as Hlen. rewrite D1 in Hlen.
  pose proof (sec_ok_added s r Hok Hr Hf) as Hok'. unfold fits in Hf.
  rewrite (append_insert _ _ _ _ Hk).
  split; cbn; try done.
  - destruct D2 as [W1 W2 W3]. split; cbn; [by rewrite length_insert|by apply Forall_insert|done].
  - eexists. split; [exact Hm'|]. eapply secs_at_update; [lia|apply D2|exact Hs| |].
    + intros j Hj. unfold a. rewrite other_sector; [|lia|done|ks_consts; lia| |rewrite len_splice; lia].
      * rewrite <- (Z.add_0_r (Z.of_nat k * ss)). apply other_sector; try done; [lia|change (len [_]) with 1; lia|lia].
      * rewrite len_rec_bytes. fold (kr_len r). ks_consts. lia.
    + apply sec_at_append; first [done|lia|by apply Hs|ks_consts; lia].
  - fold (kr_len r). by rewrite Hbf, orb_false_r.
  - unfold created_sct. fold (kr_len r). rewrite Hbf, Hsa, D1, (proj1 Hx). apply scache_created; try done; apply Hx.
  - eapply kcache_update; [|exact Hpend| |by apply rec_loc_new|done|done].
    + eapply kcache_mono; [|exact D11]. intros b k' j z q Hl Hq.
      destruct (rec_loc_added _ _ s r _ _ _ _ _ Hk Hl) as [z' Hl']. by exists k', j, z', q.
    + unfold a, FDB_DATA_UNUSED. lia.
Qed.

(** ** Creating a record *)

Lemma triple_create σ k s x key value :
  store_room σ (rec_len key value) k s x -> empty_kv x <> FAILED_ADDR -> keys key -> rec_ok key value ->
  k_pend σ = None \/ k_pend σ = Some key ->
  triple σ (create_kv_blob x key value (len value)) (fun res σ' => res = (FDB_NO_ERR, x) /\
    σ' = with_pend None (with_secs (append_rec k (KRec FDB_KV_WRITE key value) (k_secs σ)) σ)).
Proof.
  intros Hroom Hnf Hkey Hok Hpend d Hd. pose proof Hroom as (Hk & Hx & [Hsp1 Hsp2] & Hf).
  destruct (rp_medium _ _ _ _ Hd) as (m & Hm & Hs).
  destruct (sec_lookup G HG keys _ _ _ (rp_wf _ _ _ _ Hd) Hk) as (Hlt & Hsok & Hend). pose proof (ss_range G HG).
  destruct (sector_base G HG k Hlt) as (Hb1 & Hb2 & _). pose proof (Hs _ _ Hk) as [A1 A2 A3 A4 A5 A6].
  unfold fits in Hf. pose proof (kr_len_pos (KRec FDB_KV_WRITE key value)) as Hpos.
  change (kr_len (KRec FDB_KV_WRITE key value)) with (rec_len key value) in Hpos.
  destruct (store_after_using s k x (rec_len key value)) as [Hsa _]; try done; [ks_consts; lia|lia|lia|].
  eapply wp_mono; [apply (wp_create_kv_blob d m x key value); try done|].
  - rewrite (rp_geo _ _ _ _ Hd). ks_consts. lia.
  - rewrite (rp_geo _ _ _ _ Hd), (proj1 Hx), <- (Z.add_0_r (Z.of_nat k * ss)).
    apply (in_sector_off G HG); lia.
  - by rewrite (proj1 Hx), A1, (proj2 Hx).
  - rewrite Hsp1. ks_consts. lia.
  - rewrite (rp_geo _ _ _ _ Hd), Hsp1, (proj1 Hx). apply (in_sector_off G HG); ks_consts; lia.
  - rewrite Hsp1, (proj1 Hx). apply (filled_sub _ _ _ _ _ _ A6); ks_consts; lia.
  - intros res d' (i & -> & Hm' & ->). eexists. split; [|done].
    rewrite Hsp1, (proj1 Hx), Hsa in *.
    by apply (rep_created d σ k s x (KRec FDB_KV_WRITE key value) i m).
Qed.
End store.
