(* ===== verification/KvMove.v ===== *)
(** Key-value database: copying and moving a record. *)
From S2P Require Import Prelude FdbDef Crc32 Status FlashIO FlashSpec KvDef KvRead KvWrite KvRing KvCacheSpec.
From S2P Require Import KvSpec KvGetSpec KvState KvTriple KvBase KvLook KvSector KvIter KvFind KvDel KvAlloc KvStore.

(** ** The copy loop *)

Section copy.
Context {W} {ST : Storage W} {SL : StorageLaws W} {IN : Indeterminate}.
Implicit Type d : fdb_kvdb W.

(** [n] bytes of [src] are copied to the erased range at [dst]. *)
Lemma stores_copy_kv d m src dst n :
  kv_holds d m -> in_sector (geo (parent d)) src n -> in_sector (geo (parent d)) dst n ->
  src + n <= dst \/ dst + n <= src -> filled m dst n FDB_BYTE_ERASED ->
  stores (copy_kv src dst n) d (splice m dst (slice m src n)) (fun r => r = FDB_NO_ERR).
Proof.
  intros Hm Hsrc Hdst Hdisj Hf. pose proof (holds_geom _ _ _ Hm) as Hg. pose proof (holds_len _ _ _ Hm) as Hlen.
  pose proof (in_sector_end _ _ _ Hg Hsrc) as Hse. pose proof (in_sector_end _ _ _ Hg Hdst) as Hde.
  destruct (Hg) as [_ _ _ H32]. destruct (Hsrc) as (Hs0 & Hn & _ & _). destruct (Hdst) as (Hd0 & _).
  pose proof (sec_pos _ Hg) as Hsp.
  set (m_ := fun k => splice m dst (slice m src k)).
  assert (forall k, 0 <= k <= n -> len (slice m src k) = k) as Hlk by (intros; apply len_slice; lia).
  assert (forall k, len (m_ k) = len m) as Hlm by (intros; apply len_splice).
  unfold copy_kv, stores. eapply (wp_loop
    (fun '(k, r, buf) d' => exists i, d' = kv_io i d /\ kv_holds d' (m_ k) /\ 0 <= k <= n /\
       length buf = 32%nat /\ r = FDB_NO_ERR)
    (fun '(k, r, buf) _ => Z.to_nat ((n - k + 31) / 32))).
  2:{ exists (dbio (parent d)). rewrite kv_io_id. split_and!; try done.
      unfold m_. rewrite slice_nil, splice_nil by lia. done. }
  2:{ simpl. pose proof (Z.div_le_mono (n - 0 + 31) (n + 1 * 32) 32 ltac:(lia) ltac:(lia)) as H.
      rewrite Z.div_add in H by lia. lia. }
  intros [[k r] buf] d' (i & -> & Hi & Hk & Hb & ->).
  destruct (Z.ltb_spec k n).
  2:{ apply wp_ret. exists i. split_and!; try done. by replace k with n in Hi by lia. }
  assert ((if k + 32 <? n then 32 else n - k) = Z.min 32 (n - k)) as -> by (destruct (Z.ltb_spec (k + 32) n); lia).
  set (sz := Z.min 32 (n - k)). rewrite WG_ALIGN_id by lia. wrap_small.
  assert (len (slice buf 0 sz) = sz) as Hbs by (apply len_slice; unfold len; lia).
  apply wp_bind. eapply wp_stores.
  { apply (stores_read (kv_io i d) (m_ k) (src + k)); [done|]. rewrite Hbs. eapply in_sector_sub; [done|exact Hsrc|lia..]. }
  intros [e b] j (Hr & _) Hj. cbn [snd] in *. rewrite Hbs in Hr. rewrite kv_io_io in *.
  assert (b = slice m (src + k) sz) as ->.
  { rewrite Hr. unfold m_. apply slice_splice_other; rewrite ?Hlk by lia; lia. }
  set (b := slice m (src + k) sz). assert (len b = sz) as Hlb by (apply len_slice; lia).
  assert (slice (splice buf 0 b) 0 sz = b) as ->.
  { rewrite <- Hlb. apply slice_splice_same; [lia|]. unfold len in *. lia. }
  apply wp_bind. eapply wp_stores.
  { apply stores_write; [exact Hj| |lia|apply bytes_slice, (holds_bytes _ _ _ Hm)|].
    - rewrite Hlb. eapply in_sector_sub; [done|exact Hdst|lia..].
    - apply clears_erased; [|apply bytes_slice, (holds_bytes _ _ _ Hm)]. rewrite Hlb. unfold m_.
      apply filled_splice; rewrite ?Hlk by lia; try lia. eapply filled_sub; [exact Hf|lia..]. }
  intros r i' -> Hi'. apply wp_ret. split.
  - exists i'. rewrite kv_io_io in *. split_and!; try done; try lia; [|by rewrite splice_length].
    assert (m_ (k + sz) = splice (m_ k) (dst + k) b) as ->; [|done]. unfold m_.
    rewrite (slice_split m src (k + sz) k) by lia. replace (k + sz - k) with sz by lia. fold b.
    rewrite <- splice_app_join by (rewrite ?Hlk, ?Hlb by lia; lia). by rewrite Hlk by lia.
  - apply Z2Nat.inj_lt; [apply Z.div_pos; lia..|]. unfold sz. destruct (Z.min_spec 32 (n - k)) as [[? ->]|[? ->]].
    + replace (n - k + 31) with (n - (k + 32) + 31 + 1 * 32) by lia. rewrite Z.div_add by lia. lia.
    + rewrite (Z.div_small (n - (k + (n - k)) + 31)) by lia. apply Z.div_str_pos. lia.
Qed.
End copy.

(** ** The copy of a record *)

(** The bytes of a record after its status. *)
Lemma krec_at_tail m a r :
  0 <= a -> krec_at m a r ->
  slice m (a + KV_MAGIC_OFFSET) (kr_len r - KV_MAGIC_OFFSET) =
    slice (enc_kv_hdr (rec_hdr (kr_key r) (kr_val r))) KV_MAGIC_OFFSET 20 ++ kr_key r ++ kr_val r.
Proof.
  intros Ha (_ & H2 & H3 & H4). pose proof (len_nonneg (kr_key r)). pose proof (len_nonneg (kr_val r)). ks_unfold.
  replace (24 + len (kr_key r) + len (kr_val r) - 4) with (20 + (len (kr_key r) + len (kr_val r))) by lia.
  apply slice_join; [lia..|exact H2|]. replace (a + 4 + 20) with (a + 24) by lia. by apply slice_join; [lia..| |].
Qed.

Lemma copied_bytes m a r :
  0 <= a -> a + kr_len r <= len m -> filled m a (kr_len r) FDB_BYTE_ERASED ->
  splice (splice (splice m a [status_byte (enum_val FDB_KV_PRE_WRITE)]) (a + KV_MAGIC_OFFSET)
            (slice (enc_kv_hdr (rec_hdr (kr_key r) (kr_val r))) KV_MAGIC_OFFSET 20 ++ kr_key r ++ kr_val r))
         a [status_byte (enum_val FDB_KV_WRITE)]
  = splice m a (rec_bytes (kr_key r) (kr_val r)).
Proof.
  intros Ha Hm Hf. rewrite <- (rec_writes m a) by (done || fold (kr_len r); done). f_equal.
  pose proof (len_rec_hdr_tail (kr_key r) (kr_val r)) as Hh. set (hdr := slice (enc_kv_hdr _) _ 20) in *.
  pose proof (len_nonneg (kr_key r)). pose proof (len_nonneg (kr_val r)). ks_unfold.
  rewrite <- (splice_app_join _ _ hdr) by (rewrite ?len_app, ?len_splice; lia).
  rewrite <- (splice_app_join _ _ (kr_key r)) by (rewrite ?len_splice; lia).
  rewrite Hh. replace (a + 4 + 20) with (a + 24) by lia. done.
Qed.

Section move.
Context (G : geom) (HG : geom_ok G) (keys : list Z -> Prop) (Hkeys : key_set keys).
Context {W} {ST : Storage W} {SL : StorageLaws W} {IN : Indeterminate}.
Implicit Type d : fdb_kvdb W.
Notation ss := (sec_size G).
Notation triple := (triple (W:=W) G keys).
Notation nsec := (nsec G).

(** The part of [move_kv] that writes the copy. *)
Definition store_copy (kv : fdb_kv) (kv_addr : Z) (sector : kvdb_sec_info) : M (fdb_kvdb W) fdb_err_t :=
  update_sec_status sector (kv_len kv) false;;
  write_kv_status kv_addr FDB_KV_PRE_WRITE false;;
  result ← copy_kv (kv_start kv + KV_MAGIC_OFFSET) (kv_addr + KV_MAGIC_OFFSET) (u64 (kv_len kv - KV_MAGIC_OFFSET));
  write_kv_status kv_addr FDB_KV_WRITE true;;
  sec_size ← gets kv_sec_size;
  update_sector_empty_addr_cache (u32 (FDB_ALIGN_DOWN kv_addr sec_size))
    (u32 (kv_addr + KV_HDR_DATA_SIZE + WG_ALIGN (kv_name_len kv) + WG_ALIGN (kv_value_len kv)));;
  update_kv_cache (kv_name kv) (kv_name_len kv) kv_addr;;
  mret result.

(** The writes, from the medium with the sector in use. *)
Lemma wp_copy_rec {A} d m a a' r (k : fdb_err_t -> M (fdb_kvdb W) A) Q :
  kv_holds d m -> rec_ok (kr_key r) (kr_val r) -> krec_at m a r ->
  in_sector (geo (parent d)) a (kr_len r) -> in_sector (geo (parent d)) a' (kr_len r) ->
  a + kr_len r <= a' \/ a' + kr_len r <= a -> filled m a' (kr_len r) FDB_BYTE_ERASED ->
  (forall i, kv_holds (kv_io i d) (splice m a' (rec_bytes (kr_key r) (kr_val r))) ->
     wp (k FDB_NO_ERR) Q (kv_io i d)) ->
  wp (write_kv_status a' FDB_KV_PRE_WRITE false;;
      result ← copy_kv (a + KV_MAGIC_OFFSET) (a' + KV_MAGIC_OFFSET) (kr_len r - KV_MAGIC_OFFSET);
      write_kv_status a' FDB_KV_WRITE true;;
      k result) Q d.
Proof.
  intros Hm Hok Hrec Hin Hin' Hdisj Hf HQ. pose proof (kr_len_pos r) as Hpos. pose proof (holds_geom _ _ _ Hm) as Hg.
  pose proof (in_sector_end _ _ _ Hg Hin) as He. pose proof (in_sector_end _ _ _ Hg Hin') as He'.
  pose proof (holds_len _ _ _ Hm) as Hlen. destruct (Hin) as (Ha & _). destruct (Hin') as (Ha' & _). ks_consts.
  set (s1 := [status_byte (enum_val FDB_KV_PRE_WRITE)]). assert (len s1 = 1) as E1 by done.
  apply wp_bind. eapply wp_stores.
  { eapply (stores_write_status _ m a' _ _ FDB_BYTE_ERASED); [exact Hm| |done|done| |done].
    - eapply in_sector_sub; [exact Hg|exact Hin'|lia..].
    - apply (filled_sub _ _ _ _ a' 1 Hf); lia. }
  intros r1 i1 -> Hm1. set (m1 := splice m a' s1) in *.
  assert (slice m1 (a + 4) (kr_len r - 4) =
    slice (enc_kv_hdr (rec_hdr (kr_key r) (kr_val r))) 4 20 ++ kr_key r ++ kr_val r) as Hsrc.
  { pose proof (krec_at_tail m a r Ha Hrec) as E. ks_consts. rewrite <- E. apply slice_splice_other; lia. }
  assert (filled m1 (a' + 4) (kr_len r - 4) FDB_BYTE_ERASED) as Hf1.
  { apply filled_splice; try lia. apply (filled_sub _ _ _ _ _ _ Hf); lia. }
  apply wp_bind. eapply wp_stores.
  { apply (stores_copy_kv _ m1 (a + 4) (a' + 4)); [exact Hm1|..|exact Hf1]; [| |lia].
    - eapply in_sector_sub; [exact Hg|exact Hin|lia..].
    - eapply in_sector_sub; [exact Hg|exact Hin'|lia..]. }
  intros r2 i2 -> Hm2. rewrite Hsrc in *. apply wp_bind. eapply wp_stores.
  { eapply (stores_write_status _ _ a' _ _ (status_byte (enum_val FDB_KV_PRE_WRITE))); [exact Hm2| |done|done| |done].
    - eapply in_sector_sub; [exact Hg|exact Hin'|lia..].
    - rewrite <- Hsrc. rewrite slice_splice_other by (rewrite ?len_slice; unfold m1; rewrite ?len_splice; lia).
      apply (slice_splice_same m a' s1); lia. }
  intros r3 i3 -> Hm3. apply (HQ i3).
  pose proof (copied_bytes m a' r Ha' ltac:(lia) Hf) as E. ks_consts. fold s1 m1 in E. by rewrite <- E.
Qed.

Lemma triple_store_copy σ kv a k i s r j sj x :
  rec_pos G keys σ a k i s r -> kv_desc kv a r -> room_at G σ (kr_len r) j sj x ->
  k_pend σ = None \/ k_pend σ = Some (kr_key r) ->
  triple σ (store_copy kv (Z.of_nat j * ss + ks_end sj) x) (fun res σ' => res = FDB_NO_ERR /\
    σ' = with_pend None (with_secs (append_rec j (kr_set FDB_KV_WRITE r) (k_secs σ)) σ)).
Proof.
  intros Hp Hkv Hroom Hpend d Hd. pose proof Hroom as (Hj & Hx & [Hsp1 Hsp2] & Hf).
  destruct (rp_medium _ _ _ _ Hd) as (m & Hm & Hs). pose proof (rp_wf _ _ _ _ Hd) as Hwf.
  destruct (sec_lookup G HG keys _ _ _ Hwf Hj) as (Hlt & Hsok & Hend). pose proof (ss_range G HG).
  destruct (sector_base G HG j Hlt) as (Hb1 & Hb2 & _). pose proof (Hs _ _ Hj) as [A1 A2 A3 A4 A5 A6].
  pose proof (kr_len_pos r) as Hpos. destruct (po_rec _ _ _ _ _ _ _ _ Hp) as [Hkey Hok]. pose proof Hok as [_ Hkl _ Hrl].
  pose proof (rp_geo _ _ _ _ Hd) as Hgeo. pose proof (rec_pos_range G HG _ _ _ _ _ _ _ Hp) as (Ha16 & Har & _).
  unfold fits in Hf. destruct (store_after_using G sj j x (kr_len r)) as [Hsa Hbf]; try done; [ks_consts; lia|by destruct Hx|lia|lia|].
  pose proof (po_lo _ _ _ _ _ _ _ _ Hp) as Hlo. pose proof (po_hi _ _ _ _ _ _ _ _ Hp) as Hhi.
  pose proof (po_end _ _ _ _ _ _ _ _ Hp) as Hse. pose proof (holds_len _ _ _ Hm) as Hlen. rewrite Hgeo in Hlen.
  pose proof (in_addr _ _ _ _ Hx) as Hxa. set (a' := Z.of_nat j * ss + ks_end sj) in *.
  assert (a + kr_len r <= Z.of_nat j * ss \/ Z.of_nat j * ss + 1 <= a) as Hd1.
  { ks_consts. destruct (decide (k = j)) as [->|Hkj]; [lia|].
    destruct (other_range G HG k j a (kr_len r) Hkj); lia. }
  assert (a + kr_len r <= a' \/ a' + kr_len r <= a) as Hd2.
  { unfold a'. ks_consts. destruct (decide (k = j)) as [->|Hkj].
    - left. destruct (po_loc _ _ _ _ _ _ _ _ Hp) as (Hk & _). by simplify_eq.
    - destruct (other_range G HG k j a (kr_len r) Hkj); lia. }
  unfold store_copy. apply wp_bind. eapply wp_update_sec_status; [exact Hm|..].
  { rewrite Hgeo, Hxa, <- (Z.add_0_r (Z.of_nat j * ss)). apply (in_sector_off G HG); lia. }
  { by rewrite Hxa, A1, (in_store _ _ _ _ Hx). }
  rewrite (kd_len _ _ _ Hkv), (kd_start _ _ _ Hkv), Hsa, Hxa. intros i1. cbv zeta.
  set (d1 := kv_with _ _ _ _ _). set (m1 := splice m _ _). intros Hm1.
  rewrite u64_small by (unfold rec_len in *; ks_unfold; lia).
  apply (wp_copy_rec d1 m1 a a' r); try done.
  { eapply krec_at_eq; [lia| |by eapply rec_pos_at].
    apply slice_splice_other; change (len [_]) with 1; ks_consts; lia. }
  { change (geo (parent d1)) with (geo (parent d)). rewrite Hgeo. eapply (rec_pos_in G HG); [exact Hp|lia|ks_consts; lia|ks_consts; lia]. }
  { change (geo (parent d1)) with (geo (parent d)). rewrite Hgeo. unfold a'. apply (in_sector_off G HG); ks_consts; lia. }
  { apply filled_splice; change (len [_]) with 1; try (unfold a'; ks_consts; lia).
    apply (filled_sub _ _ _ _ _ _ A6); unfold a'; ks_consts; lia. }
  intros i2 Hm2. apply wp_bind, wp_gets. change (kv_sec_size (kv_io i2 d1)) with (sec_size (geo (parent d))).
  rewrite Hgeo. assert (FDB_ALIGN_DOWN a' ss = Z.of_nat j * ss) as ->
    by (apply (align_down G HG); [done|ks_consts; lia]).
  rewrite (kd_name_len _ _ _ Hkv), (kd_value_len _ _ _ Hkv), !WG_ALIGN_id
    by (pose proof (len_nonneg (kr_key r)); pose proof (len_nonneg (kr_val r)); ks_unfold; lia).
  assert (u32 (a' + KV_HDR_DATA_SIZE + len (kr_key r) + len (kr_val r)) = a' + kr_len r) as ->.
  { pose proof (len_nonneg (kr_key r)). pose proof (len_nonneg (kr_val r)). unfold a'. ks_unfold. rewrite u32_small; lia. }
  rewrite u32_small by lia. apply wp_bind, wp_update_empty, wp_bind.
  destruct (kd_name _ _ _ Hkv) as [y Hy]. pose proof (len_nonneg y). pose proof (len_nonneg (kr_key r)).
  apply wp_update_kv_cache; [rewrite Hy, len_app; lia|]. rewrite Hy, slice_app_l, slice_all by lia.
  apply wp_ret. eexists. split; [|done].
  pose proof (rep_created G HG keys d σ j sj x (kr_set FDB_KV_WRITE r) i2 m Hd Hm Hs (room_store G _ _ _ _ _ Hroom) (conj Hkey Hok) eq_refl Hpend) as Hrep.
  cbv zeta in Hrep. fold a' m1 in Hrep. unfold created, created_sct in Hrep. cbn [kr_key kr_val kr_set] in Hrep.
  change (rec_len (kr_key r) (kr_val r)) with (kr_len r) in Hrep. rewrite Hbf, orb_false_r, Hsa, Hxa, Hgeo in Hrep.
  cbn [kv_with kv_io sector_cache_table kv_cache_table gc_request set_gc_request set_kv_cache_table set_sector_cache_table set_parent parent] in *.
  change (geo (set_dbio i2 (parent d1))) with (geo (parent d)). rewrite Hgeo. apply Hrep. exact Hm2.
Qed.

(** ** Moving a record out of a sector under collection *)

Lemma mark_dirty_id k secs s : secs !! k = Some s -> ks_dirty s <> FDB_SECTOR_DIRTY_FALSE -> mark_dirty k secs = secs.
Proof.
  intros Hk Hd. unfold mark_dirty. rewrite (alter_insert _ _ _ _ Hk), decide_False by done.
  apply list_insert_id. rewrite Hk. by destruct s.
Qed.

Lemma set_rec_append k i st j r secs :
  j <> k -> set_rec k i st (append_rec j r secs) = append_rec j r (set_rec k i st secs).
Proof. intros Hjk. unfold set_rec, append_rec. by apply list_alter_alter_ne. Qed.

Lemma set_rec_twice k i st st' secs : set_rec k i st (set_rec k i st' secs) = set_rec k i st secs.
Proof.
  unfold set_rec. rewrite list_alter_alter_eq. apply list_alter_ext; [|done]. intros s _. cbn. f_equal.
  rewrite list_alter_alter_eq. by apply list_alter_ext.
Qed.

Lemma set_rec_lookup secs k i st s :
  secs !! k = Some s -> set_rec k i st secs !! k = Some (KSec (ks_dirty s) (alter (kr_set st) i (ks_recs s))).
Proof. intros Hk. unfold set_rec. by rewrite list_lookup_alter_eq, Hk. Qed.

(** The sectors after the move of the record to sector [j]. *)
Definition moved (k i j : nat) (r : krec) (secs : list ksec) : list ksec :=
  append_rec j r (set_rec k i FDB_KV_DELETED secs).

Lemma rec_loc_moving secs a k i s r j sj :
  rec_loc G secs a k i s r -> secs !! j = Some sj ->
  exists s', rec_loc G (append_rec j r (set_rec k i FDB_KV_PRE_DELETE secs)) a k i s' (kr_set FDB_KV_PRE_DELETE r).
Proof.
  intros Hl Hj. pose proof Hl as (Hk & _ & _).
  destruct (rec_loc_set_rec G secs k i FDB_KV_PRE_DELETE s a i s k r Hk Hl) as [s1 Hl1].
  rewrite decide_True in Hl1 by done. unfold append_rec.
  destruct (set_rec k i FDB_KV_PRE_DELETE secs !! j) as [s2|] eqn:E.
  - rewrite (alter_insert _ _ _ _ E). by eapply rec_loc_added.
  - exfalso. unfold set_rec in E. rewrite list_lookup_alter in E. case_decide; subst; by rewrite ?Hj in E.
Qed.

Lemma triple_move_kv σ kv a k i s r :
  rec_pos G keys σ a k i s r -> kv_desc kv a r -> kv_status kv = FDB_KV_WRITE -> kr_st r = FDB_KV_WRITE ->
  k_pend σ = None -> k_gc σ = true -> ks_dirty s = FDB_SECTOR_DIRTY_GC ->
  (exists e, e ∈ k_secs σ /\ ks_dirty e = FDB_SECTOR_DIRTY_FALSE /\ fits G (kr_len r) e) ->
  triple σ (move_kv kv) (fun res σ' => res = FDB_NO_ERR /\ exists j sj, j <> k /\ k_secs σ !! j = Some sj /\
    ks_dirty sj = FDB_SECTOR_DIRTY_FALSE /\ fits G (kr_len r) sj /\
    σ' = with_last false (with_secs (moved k i j r (k_secs σ)) σ)).
Proof.
  intros Hp Hkv Hst Hrst Hpend Hgc Hdirty (e & He & Hed & Hef). pose proof (po_loc _ _ _ _ _ _ _ _ Hp) as Hl.
  pose proof Hl as (Hk & Hi & Ha). unfold move_kv. rewrite decide_True by done.
  set (secs1 := set_rec k i FDB_KV_PRE_DELETE (k_secs σ)).
  set (σ1 := with_last true (with_pend (Some (kr_key r)) (with_secs secs1 σ))).
  pose proof (set_rec_lookup _ _ i FDB_KV_PRE_DELETE _ Hk) as Hk1. fold secs1 in Hk1.
  eapply triple_bind with (R := fun _ σ' => σ' = σ1).
  { eapply triple_bind; [eapply (triple_del_kv_at G HG keys σ None kv a k i s r false); try done; [by right|by rewrite Hrst]|].
    cbn beta. intros res ? [-> ->]. apply triple_ret. unfold deleted, pend_after. rewrite decide_True by done.
    cbn [del_status]. fold secs1. by erewrite mark_dirty_id by (done || by rewrite Hdirty). }
  cbn beta. intros _ ? ->. rewrite (kd_len _ _ _ Hkv).
  pose proof (rec_pos_range G HG _ _ _ _ _ _ _ Hp) as (Ha16 & Har & Hr24). pose proof (ss_range G HG).
  eapply triple_bind; [apply (triple_alloc_kv G HG keys); ks_consts; lia|]. cbn beta. intros [b x] σ2 Halloc. cbn [fst snd] in *.
  destruct Halloc as [(Hb & -> & (j & sj1 & Hroom & [_ Hdj] & Eb & _))|[_ [_ Hno]]].
  2:{ (* impossible: [e] has room *)
      exfalso. rewrite decide_False in Hno by (change (k_gc σ1) with (k_gc σ); rewrite Hgc; intros [_ [=]]). destruct Hno as [_ Hno].
      apply list_elem_of_lookup in He as [q Hq]. assert (q <> k) as Hqk by (intros ->; congruence).
      apply (Hno e); [|by split; [|left]]. apply list_elem_of_lookup. exists q. cbn. unfold secs1, set_rec.
      by rewrite list_lookup_alter_ne. }
  change (k_gc σ1) with (k_gc σ) in Hdj. rewrite Hgc in Hdj. destruct Hdj as [Hdj|]; [|done].
  pose proof Hroom as (Hj & Hx & Hsp & Hf). change (k_secs σ1) with secs1 in Hj.
  assert (j <> k) as Hjk by (intros ->; rewrite Hk1 in Hj; simplify_eq; cbn in Hdj; congruence).
  assert (k_secs σ !! j = Some sj1) as Hj0 by (unfold secs1, set_rec in Hj; by rewrite list_lookup_alter_ne in Hj).
  rewrite (proj2 (Z.eqb_neq b _)) by done.
  apply triple_wf. intros Hwf1. apply triple_gets_some with (P := fun _ => True); [done|]. intros rcv _.
  eapply triple_bind with (R := fun mv σ' => mv = false /\ σ' = σ1).
  { rewrite Hst. cbn [bool_decide]. rewrite andb_false_r. by apply triple_ret. }
  cbn beta. intros mv ? [-> ->].
  destruct (rec_loc_set_rec G (k_secs σ) k i FDB_KV_PRE_DELETE s a i s k r Hk Hl) as [s1 Hl1].
  rewrite decide_True in Hl1 by done.
  pose proof (rec_pos_intro G keys σ1 _ _ _ _ _ Hwf1 Hl1) as Hp1.
  assert (kv_desc kv a (kr_set FDB_KV_PRE_DELETE r)) as Hkv1 by (by destruct Hkv).
  set (σ2 := with_pend None (with_secs (append_rec j r secs1) σ1)).
  eapply triple_bind with (R := fun res σ' => res = FDB_NO_ERR /\ σ' = σ2).
  { rewrite Eb, <- (kd_len _ _ _ Hkv). eapply triple_mono; [eapply (triple_store_copy σ1 kv a k i s1 (kr_set FDB_KV_PRE_DELETE r) j sj1 x); try done; by right|].
    cbn beta. intros res ? [-> ->]. split; [done|]. unfold σ2. do 2 f_equal. destruct r. cbn in *. by subst. }
  cbn beta. intros res ? [-> ->]. apply triple_wf. intros Hwf2.
  destruct (rec_loc_moving (k_secs σ) a k i s r j sj1 Hl Hj0) as [s2 Hl2].
  pose proof (rec_pos_intro G keys σ2 _ _ _ _ _ Hwf2 Hl2) as Hp2.
  eapply triple_bind; [eapply (triple_del_kv_at G HG keys σ2 None kv a k i s2 (kr_set FDB_KV_PRE_DELETE r) true); try done; by right|].
  cbn beta. intros res ? [_ ->]. apply triple_ret. split; [done|]. exists j, sj1. split_and!; try done.
  assert (mark_dirty k (set_rec k i FDB_KV_DELETED (k_secs σ2)) = moved k i j r (k_secs σ)) as E.
  { unfold σ2, σ1, moved. cbn [k_secs with_pend with_secs with_last]. unfold secs1.
    rewrite set_rec_append, set_rec_twice by done. eapply mark_dirty_id.
    - unfold append_rec. rewrite list_lookup_alter_ne by done. by apply set_rec_lookup.
    - by rewrite Hdirty. }
  unfold deleted. cbn [del_status negb]. rewrite E. unfold σ2, σ1. destruct σ. cbn in *. by subst.
Qed.
End move.
