(* ===== verification/KvGc.v ===== *)
(** Key-value database: formatting a sector, and the collection of garbage. *)
From S2P Require Import Prelude FdbDef Crc32 Status FlashIO FlashSpec KvDef KvRead KvWrite KvRing KvCacheSpec.
From S2P Require Import KvSpec KvGetSpec KvState KvTriple KvBase KvLook KvSector KvIter KvFind KvDel KvAlloc KvStore KvMove.

(** ** Between two calls

    No record is being written or replaced, and a sector without records is
    clean. *)
Definition settled (r : krec) : Prop := kr_st r = FDB_KV_WRITE \/ kr_st r = FDB_KV_DELETED.

Record sec_stable (s : ksec) : Prop := {
  st_recs : Forall settled (ks_recs s);
  st_dirty : ks_dirty s = FDB_SECTOR_DIRTY_FALSE \/ ks_dirty s = FDB_SECTOR_DIRTY_TRUE /\ ks_recs s <> [];
}.

Lemma fresh_stable : sec_stable fresh_sec.
Proof. split; [done|by left]. Qed.

Section gc.
Context (G : geom) (HG : geom_ok G) (keys : list Z -> Prop) (Hkeys : key_set keys).
Context {W} {ST : Storage W} {SL : StorageLaws W} {IN : Indeterminate}.
Implicit Type d : fdb_kvdb W.
Notation ss := (sec_size G).
Notation triple := (triple (W:=W) G keys).
Notation nsec := (nsec G).

(** ** Formatting *)

Lemma enc_fresh_hdr (p : list Z) : p = [FDB_BYTE_ERASED; FDB_BYTE_ERASED] ->
  enc_sector_hdr (SectorHdr
      (status_table_of FDB_SECTOR_STORE_STATUS_NUM (enum_val FDB_SECTOR_STORE_EMPTY))
      (status_table_of FDB_SECTOR_DIRTY_STATUS_NUM (enum_val FDB_SECTOR_DIRTY_FALSE))
      p SECTOR_MAGIC_WORD SECTOR_NOT_COMBINED FDB_DATA_UNUSED) = fresh_hdr.
Proof. by intros ->. Qed.

(** The entry of a sector leaves the cache. *)
Lemma scache_formatted secs k s' x t :
  (k < nsec)%nat -> check_ok x = false -> addr x = Z.of_nat k * ss -> scache_ok G secs t ->
  scache_ok G (<[k := s']> secs) (update_sector_table x t).
Proof.
  intros Hk Hx Ha [Hu Ht]. destruct (sector_base_used G HG k Hk) as [Hused _].
  destruct (update_sector_table_get t x Hu) as (Hu' & _ & _ & Hnone & _); [by rewrite Ha|].
  split; [done|]. apply Forall_forall. intros z Hz Hza.
  assert (addr z <> addr x) as Hne.
  { intros E. specialize (Hnone Hx). apply cache_get_None in Hnone. rewrite Forall_forall in Hnone. by apply (Hnone z). }
  apply update_sector_table_elem in Hz as [->|Hz]; [done| |done].
  apply cached_other; [by rewrite <- Ha|]. rewrite Forall_forall in Ht. by apply Ht.
Qed.

(** No node leads to a sector without written records. *)
Lemma kcache_formatted secs k s t :
  secs !! k = Some s -> Forall (fun r => kr_st r <> FDB_KV_WRITE) (ks_recs s) ->
  kcache_ok G secs None t -> kcache_ok G (<[k := fresh_sec]> secs) None t.
Proof.
  intros Hk Hs. apply kcache_mono. intros a k' i z r (Hk' & Hi & ->) [Hst|]; [|done].
  assert (k' <> k) as Hne.
  { intros ->. simplify_eq. by apply (Forall_lookup_1 _ _ _ _ Hs Hi). }
  exists k', i, z, r. unfold rec_loc. rewrite list_lookup_insert_ne by done. auto.
Qed.

(** The entry that [format_sector] passes to the sector cache. *)
Definition formatted_entry (k : nat) : kvdb_sec_info :=
  KvSec false FDB_SECTOR_STORE_UNUSED FDB_SECTOR_DIRTY_UNUSED (Z.of_nat k * ss) 0 0 0 FAILED_ADDR.

(** Whatever the medium held, the [k]-th sector is fresh afterwards and the
    others are as before. *)
Lemma wp_format d m k Q :
  kv_holds d m -> geo (parent d) = G -> (k < nsec)%nat ->
  (forall i m', let d' := set_sector_cache_table (update_sector_table (formatted_entry k) (sector_cache_table d)) (kv_io i d) in
     kv_holds d' m' -> sec_at ss m' (Z.of_nat k * ss) fresh_sec ->
     (forall j : nat, j <> k -> slice m' (Z.of_nat j * ss) ss = slice m (Z.of_nat j * ss) ss) ->
     Q FDB_NO_ERR d') ->
  wp (format_sector (Z.of_nat k * ss) SECTOR_NOT_COMBINED) Q d.
Proof.
  intros Hm Hgeo Hlt HQ. pose proof (ss_range G HG). destruct (sector_base G HG k Hlt) as (Hb1 & Hb2 & Hmod).
  pose proof (holds_len _ _ _ Hm) as Hlen. rewrite Hgeo in Hlen.
  unfold format_sector. apply wp_bind, wp_gets. unfold kv_sec_size. rewrite Hgeo.
  rewrite (proj2 (Z.eqb_neq ss 0)), Hmod by lia. apply wp_bind, wp_assert; [done|].
  apply wp_bind. eapply wp_stores.
  { rewrite <- Hgeo. apply stores_erase; [exact Hm|rewrite Hgeo; lia|by rewrite Hgeo]. }
  rewrite Hgeo. intros r1 i1 -> Hm1. rewrite decide_True by done. rewrite enc_fresh_hdr by done.
  assert (len fresh_hdr = 16) as Hfl by done.
  set (e := erased_sector G) in *. assert (len e = ss) as He by (unfold e, erased_sector; rewrite len_replicate; lia).
  apply wp_bind. eapply wp_stores.
  { apply (stores_write _ (splice m (Z.of_nat k * ss) e)); [exact Hm1| |done|by repeat constructor|].
    - change (geo (parent (kv_io i1 d))) with (geo (parent d)). rewrite Hgeo, <- (Z.add_0_r (Z.of_nat k * ss)).
      apply (in_sector_off G HG); rewrite ?Hfl; lia.
    - apply clears_erased; [|by repeat constructor]. eapply (filled_sub _ (Z.of_nat k * ss) ss); [|rewrite ?Hfl; lia..].
      pose proof (slice_splice_same m (Z.of_nat k * ss) e) as E. rewrite He in E. apply E; lia. }
  intros r2 i2 -> Hm2. rewrite kv_io_io in *. apply wp_bind, wp_modify, wp_ret. eapply HQ; [exact Hm2|..].
  - by apply sec_at_fresh; [lia..|].
  - intros j Hj. rewrite <- (Z.add_0_r (Z.of_nat k * ss)).
    rewrite other_sector by (try done; rewrite ?Hfl, ?len_splice; lia).
    apply other_sector; (done || lia).
Qed.

(** In a represented state: the record cache must not lead to the sector. *)
Lemma wp_format_rep d σ k s pend' Q :
  rep G keys d σ -> k_secs σ !! k = Some s ->
  kcache_ok G (<[k := fresh_sec]> (k_secs σ)) pend' (kv_cache_table d) ->
  (forall d', rep G keys d' (with_pend pend' (with_secs (<[k := fresh_sec]> (k_secs σ)) σ)) ->
     kv_cache_table d' = kv_cache_table d -> default_kvs d' = default_kvs d -> Q FDB_NO_ERR d') ->
  wp (format_sector (Z.of_nat k * ss) SECTOR_NOT_COMBINED) Q d.
Proof.
  intros Hd Hk Hkc HQ. destruct (rp_medium _ _ _ _ Hd) as (m & Hm & Hsecs).
  destruct (sec_lookup G HG keys _ _ _ (rp_wf _ _ _ _ Hd) Hk) as (Hlt & _ & _).
  eapply wp_format; [exact Hm|apply Hd|done|]. intros i m' d' Hm' Hs' Ho. apply HQ; [|done..].
  eapply (rep_sec G keys d σ k s fresh_sec i m m'); try done.
  apply scache_formatted; try done. apply Hd.
Qed.

Lemma triple_format σ k s :
  k_secs σ !! k = Some s -> Forall (fun r => kr_st r <> FDB_KV_WRITE) (ks_recs s) -> k_pend σ = None ->
  triple σ (format_sector (Z.of_nat k * ss) SECTOR_NOT_COMBINED) (fun r σ' => r = FDB_NO_ERR /\
    σ' = with_secs (<[k := fresh_sec]> (k_secs σ)) σ).
Proof.
  intros Hk Hs Hpend d Hd. eapply (wp_format_rep d σ k s None); [done..| |].
  - apply (kcache_formatted _ k s); try done. rewrite <- Hpend. apply Hd.
  - intros d' Hd' _ _. eexists. split; [exact Hd'|]. split; [done|]. destruct σ. cbn in *. by subst.
Qed.

(** ** The records of a sector under collection *)

(** The records before [i] of the [k]-th sector have been moved, and there is
    a clean sector with room for the others. *)
Record gc_at (live : list (list Z * list Z)) (k i n : nat) (secs : list ksec) (s : ksec) : Prop := {
  ga_sec : secs !! k = Some s;
  ga_len : length (ks_recs s) = n;
  ga_dirty : ks_dirty s = FDB_SECTOR_DIRTY_GC;
  ga_settled : Forall settled (ks_recs s);
  ga_done : forall j q, (j < i)%nat -> ks_recs s !! j = Some q -> kr_st q <> FDB_KV_WRITE;
  ga_others : forall j q, j <> k -> secs !! j = Some q -> sec_stable q;
  ga_live : live_recs secs ≡ₚ live;
  ga_room : exists j e, secs !! j = Some e /\ ks_dirty e = FDB_SECTOR_DIRTY_FALSE /\
    ks_end e + recs_len (drop i (ks_recs s)) + FDB_SEC_REMAIN_THRESHOLD < ss;
}.

Lemma recs_len_drop rs i r : rs !! i = Some r -> recs_len (drop i rs) = kr_len r + recs_len (drop (S i) rs).
Proof. intros Hi. by rewrite (drop_S _ _ _ Hi). Qed.

Lemma gc_at_skip live k i n secs s q :
  gc_at live k i n secs s -> ks_recs s !! i = Some q -> kr_st q <> FDB_KV_WRITE -> gc_at live k (S i) n secs s.
Proof.
  intros [H1 H2 H3 H4 H5 H6 H7 (j & e & Hj & He & Hr)] Hi Hq. split; try done.
  - intros j' q' Hj' Hq'. destruct (decide (j' = i)) as [->|]; [congruence|]. apply (H5 j'); [lia|done].
  - exists j, e. split_and!; try done. rewrite (recs_len_drop _ _ _ Hi) in Hr. pose proof (kr_len_pos q). ks_consts. lia.
Qed.

Lemma gc_at_fits live k i n secs s r :
  gc_at live k i n secs s -> ks_recs s !! i = Some r ->
  exists e, e ∈ secs /\ ks_dirty e = FDB_SECTOR_DIRTY_FALSE /\ fits G (kr_len r) e.
Proof.
  intros [_ _ _ _ _ _ _ (j & e & Hj & He & Hr)] Hi. exists e. split_and!; [by eapply list_elem_of_lookup_2|done|].
  rewrite (recs_len_drop _ _ _ Hi) in Hr. pose proof (recs_len_nonneg (drop (S i) (ks_recs s))). unfold fits. lia.
Qed.

Lemma moved_lookup k i j r secs q :
  j <> k -> moved k i j r secs !! q =
    if decide (q = j) then (fun s => added s r) <$> secs !! j
    else if decide (q = k) then (fun s => KSec (ks_dirty s) (alter (kr_set FDB_KV_DELETED) i (ks_recs s))) <$> secs !! k
    else secs !! q.
Proof.
  intros Hjk. unfold moved, append_rec, set_rec, added. rewrite list_lookup_alter. case_decide; subst.
  - rewrite decide_True by done. by rewrite list_lookup_alter_ne by done.
  - rewrite list_lookup_alter. repeat case_decide; by subst.
Qed.

Lemma moved_live k i j r secs s sj :
  j <> k -> secs !! k = Some s -> ks_recs s !! i = Some r -> kr_st r = FDB_KV_WRITE -> secs !! j = Some sj ->
  live_recs (moved k i j r secs) ≡ₚ live_recs secs.
Proof.
  intros Hjk Hk Hi Hst Hj. assert (live_rec r = Some (kr_key r, kr_val r)) as Hr by (unfold live_rec; by rewrite decide_True).
  destruct (live_recs_set_rec secs k i FDB_KV_DELETED s r Hk Hi) as (l1 & l2 & E1 & E2).
  unfold moved. rewrite (live_recs_append _ j r sj), E1, E2, Hr; [cbn; solve_Permutation| |done].
  unfold set_rec. by rewrite list_lookup_alter_ne.
Qed.

Lemma added_stable s r : sec_stable s -> settled r -> sec_stable (added s r).
Proof.
  intros [H1 H2] Hr. split; cbn [ks_recs ks_dirty added].
  - apply Forall_app. by split; [|constructor].
  - destruct H2 as [|[]]; [by left|right]. by destruct (ks_recs s).
Qed.

Lemma gc_at_move live k i n secs s r j sj :
  gc_at live k i n secs s -> ks_recs s !! i = Some r -> kr_st r = FDB_KV_WRITE ->
  j <> k -> secs !! j = Some sj -> ks_dirty sj = FDB_SECTOR_DIRTY_FALSE ->
  gc_at live k (S i) n (moved k i j r secs) (KSec (ks_dirty s) (alter (kr_set FDB_KV_DELETED) i (ks_recs s))).
Proof.
  intros [H1 H2 H3 H4 H5 H6 H7 (q & e & Hq & He & Hroom)] Hi Hst Hjk Hj Hd. split; cbn [ks_dirty ks_recs].
  - by rewrite moved_lookup, decide_False, decide_True, H1 by done.
  - by rewrite length_alter.
  - done.
  - apply Forall_alter; [done|]. intros x _ _. by right.
  - intros j' q' Hj' Hq'. rewrite list_lookup_alter in Hq'. case_decide; [|apply (H5 j'); [lia|done]].
    subst. rewrite Hi in Hq'. cbn in Hq'. by simplify_eq.
  - intros j' q' Hj' Hq'. rewrite moved_lookup in Hq' by done. case_decide; subst.
    + rewrite Hj in Hq'. cbn in Hq'. simplify_eq. apply added_stable; [by apply (H6 j)|by left].
    + rewrite decide_False in Hq' by done. by apply (H6 j').
  - rewrite <- H7. by eapply moved_live.
  - assert (q <> k) as Hqk by (intros ->; congruence). rewrite drop_alter, decide_False by lia.
    rewrite (recs_len_drop _ _ _ Hi) in Hroom. pose proof (kr_len_pos r).
    destruct (decide (q = j)) as [->|Hqj].
    + simplify_eq. exists j, (added e r). rewrite moved_lookup, decide_True, Hq, ks_end_added by done.
      split_and!; [done..|lia].
    + exists q, e. rewrite moved_lookup, !decide_False by done. split_and!; [done..|ks_consts; lia].
Qed.

(** One record. *)
Lemma triple_gc_kv σ kv live k i n s r :
  gc_at live k i n (k_secs σ) s -> ks_recs s !! i = Some r -> kv_start kv = raddr ss k (ks_recs s) i ->
  length (kv_name kv) = 64%nat -> k_gc σ = true -> k_pend σ = None -> k_last σ = false ->
  let kv' := kv_of_rec kv (kr_st r) (kr_key r) (kr_val r) in
  triple σ (if kv_crc_is_ok kv' && (bool_decide (kv_status kv' = FDB_KV_WRITE) ||
                                    bool_decide (kv_status kv' = FDB_KV_PRE_DELETE))
            then move_kv kv';; mret tt else mret tt)
    (fun _ σ' => exists secs s', σ' = with_secs secs σ /\ gc_at live k (S i) n secs s' /\
       recs_len (take i (ks_recs s')) = recs_len (take i (ks_recs s)) /\
       kr_len r = match ks_recs s' !! i with Some q => kr_len q | None => 0 end).
Proof.
  intros Hga Hi Hst Hnm Hgc Hpend Hlast kv'. pose proof (ga_sec _ _ _ _ _ _ Hga) as Hk.
  apply triple_wf. intros Hwf. pose proof (rec_pos_intro G keys _ _ _ _ _ _ Hwf (conj Hk (conj Hi eq_refl))) as Hp.
  destruct (po_rec _ _ _ _ _ _ _ _ Hp) as [Hkey _].
  assert (kv_desc kv' (raddr ss k (ks_recs s) i) r) as Hd by (by apply (kv_of_rec_desc keys Hkeys)).
  rewrite (kd_crc _ _ _ Hd). change (kv_status kv') with (kr_st r). cbn [andb].
  pose proof (Forall_lookup_1 _ _ _ _ (ga_settled _ _ _ _ _ _ Hga) Hi) as [Hw|Hw]; rewrite Hw; cbn.
  - eapply triple_bind.
    { eapply (triple_move_kv G HG keys σ kv'); try done; [by apply (ga_dirty _ _ _ _ _ _ Hga)|by eapply gc_at_fits]. }
    cbn beta. intros res ? (_ & j & sj & Hjk & Hj & Hdj & _ & ->). apply triple_ret.
    exists (moved k i j r (k_secs σ)), (KSec (ks_dirty s) (alter (kr_set FDB_KV_DELETED) i (ks_recs s))).
    split_and!; [by destruct σ; cbn in *; subst|by eapply gc_at_move|apply recs_len_take_alter|].
    cbn [ks_recs]. by rewrite list_lookup_alter_eq, Hi.
  - apply triple_ret. exists (k_secs σ), s. split_and!; [by destruct σ| |done|by rewrite Hi].
    eapply gc_at_skip; [done..|by rewrite Hw].
Qed.

Lemma gc_at_info live k i n secs s live' i' secs' s' x :
  gc_at live k i n secs s -> gc_at live' k i' n secs' s' -> info_at G k s x -> info_at G k s' x.
Proof.
  intros H H'. apply info_at_eq.
  - pose proof (ga_len _ _ _ _ _ _ H) as E. rewrite <- (ga_len _ _ _ _ _ _ H') in E. unfold ks_store.
    by destruct (ks_recs s), (ks_recs s').
  - by rewrite (ga_dirty _ _ _ _ _ _ H), (ga_dirty _ _ _ _ _ _ H').
Qed.

Lemma triple_gc_sector_kvs σ live k n s x :
  gc_at live k 0 n (k_secs σ) s -> (0 < n)%nat -> info_at G k s x ->
  k_gc σ = true -> k_pend σ = None -> k_last σ = false ->
  triple σ (gc_sector_kvs x) (fun _ σ' => exists secs s', σ' = with_secs secs σ /\ gc_at live k n n secs s').
Proof.
  intros Hga Hn Hx Hgc Hpend Hlast. pose proof (ga_sec _ _ _ _ _ _ Hga) as Hk.
  apply triple_wf. intros Hwf. destruct (sec_lookup G HG keys _ _ _ Hwf Hk) as (Hlt & Hok & Hend).
  pose proof (ss_range G HG). destruct (sector_base G HG k Hlt) as (Hb1 & Hb2 & _).
  pose proof (recs_len_count (ks_recs s)) as Hcount. rewrite (ga_len _ _ _ _ _ _ Hga) in Hcount.
  unfold gc_sector_kvs. apply triple_sec_size.
  eapply (triple_loop _ _
    (fun kv σ' => exists i secs s', σ' = with_secs secs σ /\ gc_at live k i n secs s' /\ (i < n)%nat /\
       kv_start kv = raddr ss k (ks_recs s') i /\ length (kv_name kv) = 64%nat)
    (fun kv _ => Z.to_nat (ss - (kv_start kv - Z.of_nat k * ss)))).
  - intros kv ? (i & secs & s' & -> & Hga' & Hi & Hkv & Hnm).
    destruct (lookup_lt_is_Some_2 (ks_recs s') i) as [r Hr]; [by rewrite (ga_len _ _ _ _ _ _ Hga')|].
    pose proof (ga_sec _ _ _ _ _ _ Hga') as Hk'. apply triple_wf. intros Hwf'.
    pose proof (rec_pos_intro G keys _ _ _ _ _ _ Hwf' (conj Hk' (conj Hr eq_refl))) as Hp.
    pose proof (rec_pos_off G keys _ _ _ _ _ _ Hp) as (off & Eoff & Ho1 & Ho2).
    eapply triple_bind; [by eapply triple_read_kv|]. cbn beta. intros res ? [-> ->]. cbn [snd].
    assert (length (kv_name (kv_of_rec kv (kr_st r) (kr_key r) (kr_val r))) = 64%nat) as Hnm'.
    { destruct (po_rec _ _ _ _ _ _ _ _ Hp) as [Hkey _]. apply (kd_buf _ _ _ (kv_of_rec_desc keys Hkeys kv _ r Hnm Hkv Hkey)). }
    eapply triple_bind; [by eapply (triple_gc_kv (with_secs secs σ) kv live k i n s' r)|].
    cbn beta. intros _ ? (secs2 & s2 & -> & Hga2 & Elen & Erec).
    destruct (lookup_lt_is_Some_2 (ks_recs s2) i) as [q Hq]; [by rewrite (ga_len _ _ _ _ _ _ Hga2)|].
    rewrite Hq in Erec. assert (raddr ss k (ks_recs s2) i = raddr ss k (ks_recs s') i) as Era by (unfold raddr; lia).
    eapply triple_bind.
    { eapply (triple_get_next G HG keys _ k i s2 q); try done; [by apply (ga_sec _ _ _ _ _ _ Hga2)| |by rewrite Era].
      by eapply (gc_at_info live k 0 n (k_secs σ) s). }
    cbn beta. intros nx ? [-> ->]. unfold next_addr. rewrite (ga_len _ _ _ _ _ _ Hga2). case_decide as Hlast'.
    + apply triple_wf. intros Hwf2. destruct (lookup_lt_is_Some_2 (ks_recs s2) (S i)) as [q' Hq'];
        [by rewrite (ga_len _ _ _ _ _ _ Hga2)|].
      pose proof (rec_pos_intro G keys _ _ _ _ _ _ Hwf2 (conj (ga_sec _ _ _ _ _ _ Hga2) (conj Hq' eq_refl))) as Hp2.
      pose proof (rec_pos_range G HG _ _ _ _ _ _ _ Hp2) as (? & ? & _).
      rewrite (proj2 (Z.eqb_neq _ _)) by (unfold FAILED_ADDR; ks_consts; pose proof (kr_len_pos q'); ks_consts; lia).
      apply triple_ret. split; [exists (S i), secs2, s2; split_and!; try done; exact Hnm'|].
      cbn [kv_start kv_set_start kv_of_rec]. rewrite Hkv, (raddr_S G _ _ _ _ Hq), Era, Eoff.
      pose proof (kr_len_pos q). ks_consts. lia.
    + rewrite Z.eqb_refl. apply triple_ret. exists secs2, s2. split; [done|]. assert (n = S i) as -> by lia. exact Hga2.
  - exists 0%nat, (k_secs σ), s. cbn [kv_start kv_set_start]. rewrite (in_addr _ _ _ _ Hx), raddr_0.
    split; [by destruct σ|]. split; [done|]. split; [done|].
    split; [ks_consts; by rewrite u32_small by lia|by apply length_indet_buf].
  - cbn [kv_start kv_set_start]. rewrite (in_addr _ _ _ _ Hx). ks_consts. rewrite u32_small by lia. lia.
Qed.
End gc.
