(* ===== verification/KvCollect.v ===== *)
(** Key-value database: the collection of garbage. *)
From S2P Require Import Prelude FdbDef Crc32 Status FlashIO FlashSpec KvDef KvRead KvWrite KvRing KvCacheSpec.
From S2P Require Import KvSpec KvState KvTriple KvBase KvLook KvSector KvIter KvDel KvAlloc KvStore KvMove KvGc.

Section collect.
Context (G : geom) (HG : geom_ok G) (keys : list Z -> Prop) (Hkeys : key_set keys).
Context {W} {ST : Storage W} {SL : StorageLaws W} {IN : Indeterminate}.
Implicit Type d : fdb_kvdb W.
Notation ss := (sec_size G).
Notation triple := (triple (W:=W) G keys).
Notation nsec := (nsec G).

(** What a collection keeps of [σ0]. *)
Definition collected (σ0 σ : kst) : Prop :=
  exists secs o, σ = with_old o (with_secs secs σ0) /\ Forall sec_stable secs /\
    live_recs secs ≡ₚ live_recs (k_secs σ0) /\ (exists e, e ∈ secs /\ ks_recs e = []).

(** The address of a sector. *)
Definition base_of (a : Z) : Prop := exists q : nat, (q < nsec)%nat /\ a = Z.of_nat q * ss.

(** ** The mark of the collection *)

Definition gc_sec (s : ksec) : ksec := KSec FDB_SECTOR_DIRTY_GC (ks_recs s).

Lemma info_at_gc k s x :
  ks_dirty s = FDB_SECTOR_DIRTY_TRUE -> info_at G k s x -> info_at G k (gc_sec s) x.
Proof.
  intros Hd [I1 I2 I3 I4 I5]. split; try done. right. split; [done|]. rewrite Hd in I4. by destruct I4 as [|[]].
Qed.

Lemma scache_gc secs k s t :
  secs !! k = Some s -> (k < nsec)%nat -> ks_dirty s = FDB_SECTOR_DIRTY_TRUE -> scache_ok G secs t ->
  scache_ok G (<[k := gc_sec s]> secs) t.
Proof.
  intros Hk Hlt Hd Ht. pose proof (scache_replace G HG secs k s (gc_sec s) id t Hk Hlt) as H.
  assert (forall i x, t !! i = Some x -> <[i := id x]> t = t) as Hid by (intros; by apply list_insert_id).
  destruct (list_find _ t) as [[i x]|] eqn:E.
  - apply list_find_Some in E as (Hi & _). rewrite (Hid _ _ Hi) in H. apply H; [done| |done].
    intros y Hy Hsp. split; [by apply info_at_gc|exact Hsp].
  - apply H; [done| |done]. intros y Hy Hsp. split; [by apply info_at_gc|exact Hsp].
Qed.

Lemma triple_mark_gc σ k s :
  k_secs σ !! k = Some s -> ks_dirty s = FDB_SECTOR_DIRTY_TRUE ->
  triple σ (up (_fdb_write_status FDB_WRITE_GRAN (Z.of_nat k * ss + SECTOR_DIRTY_OFFSET)
                  FDB_SECTOR_DIRTY_STATUS_NUM (enum_val FDB_SECTOR_DIRTY_GC) true))
    (fun _ σ' => σ' = with_secs (<[k := gc_sec s]> (k_secs σ)) σ).
Proof.
  intros Hk Hd. apply triple_wf. intros Hwf. destruct (sec_lookup G HG keys _ _ _ Hwf Hk) as (Hlt & Hok & _).
  eapply (triple_stores_sec G keys σ k s (gc_sec s) (k_pend σ) _ (fun r => r = FDB_NO_ERR)); [exact Hk|..].
  - intros d m Hr Hm Hs. eexists.
    destruct (stores_write_dirty G HG keys d m σ k s FDB_SECTOR_DIRTY_GC true) as (H1 & H2 & H3); try done.
    by rewrite Hd.
  - by apply (sec_ok_same_recs G keys s).
  - intros t. by apply scache_gc.
  - intros t. by eapply kcache_same_recs.
  - intros r _. by destruct σ.
Qed.

(** ** One sector *)

Lemma gc_at_start σ k s e :
  swf G keys σ -> k_secs σ !! k = Some s -> Forall sec_stable (k_secs σ) -> ks_dirty s = FDB_SECTOR_DIRTY_TRUE ->
  e ∈ k_secs σ -> ks_recs e = [] ->
  gc_at G (live_recs (k_secs σ)) k 0 (length (ks_recs s)) (<[k := gc_sec s]> (k_secs σ)) (gc_sec s) /\
  (0 < length (ks_recs s))%nat.
Proof.
  intros Hwf Hk Hst Hd He Hempty. destruct (sec_lookup G HG keys _ _ _ Hwf Hk) as (Hlt & Hok & _).
  pose proof (Forall_lookup_1 _ _ _ _ Hst Hk) as [Hs1 Hs2]. destruct Hs2 as [|[_ Hne]]; [congruence|].
  pose proof (so_room _ _ _ Hok Hne) as Hroom. apply list_elem_of_lookup in He as [j Hj].
  pose proof (Forall_lookup_1 _ _ _ _ Hst Hj) as [_ He2].
  assert (j <> k) as Hjk by (intros ->; congruence). split; [split|by destruct (ks_recs s); simpl; [|lia]].
  - apply list_lookup_insert_eq. by eapply lookup_lt_Some.
  - done.
  - done.
  - done.
  - intros ? ? Hj'. lia.
  - intros j' q Hj' Hq. rewrite list_lookup_insert_ne in Hq by done. by eapply (Forall_lookup_1 _ _ _ _ Hst).
  - rewrite <- (live_recs_set_dirty (k_secs σ) k FDB_SECTOR_DIRTY_GC). unfold set_dirty.
    by rewrite (alter_insert _ _ _ _ Hk).
  - exists j, e. rewrite list_lookup_insert_ne by done. split_and!; [done|by destruct He2 as [|[]]|].
    unfold ks_end in *. rewrite Hempty, drop_0. cbn [recs_len gc_sec ks_recs]. lia.
Qed.

(** The sector after its records have been moved, and formatted. *)
Lemma gc_at_end live k n secs s :
  gc_at G live k n n secs s ->
  Forall (fun r => kr_st r <> FDB_KV_WRITE) (ks_recs s) /\ Forall sec_stable (<[k := fresh_sec]> secs) /\
  live_recs (<[k := fresh_sec]> secs) ≡ₚ live /\ fresh_sec ∈ <[k := fresh_sec]> secs.
Proof.
  intros [H1 H2 H3 H4 H5 H6 H7 _].
  assert (Forall (fun r => kr_st r <> FDB_KV_WRITE) (ks_recs s)) as Hnw.
  { apply Forall_lookup. intros j q Hq. apply (H5 j); [|done]. rewrite <- H2. by eapply lookup_lt_Some. }
  pose proof (lookup_lt_Some _ _ _ H1). split_and!; [done| | |].
  - apply Forall_lookup. intros j q Hq. apply list_lookup_insert_Some in Hq as [(_ & <- & _)|[Hne Hq]];
      [apply fresh_stable|by apply (H6 j)].
  - by rewrite (live_recs_fresh _ _ _ H1).
  - apply (list_elem_of_lookup_2 _ k). by apply list_lookup_insert_eq.
Qed.

Lemma triple_set_oldest {B} σ x k (p : M (fdb_kvdb W) B) Q :
  (k < nsec)%nat -> addr x = Z.of_nat k * ss -> combined x = SECTOR_NOT_COMBINED ->
  triple (with_old (ring_idx nsec k 1) σ) p Q ->
  triple σ (d ← gets id;
            modify (fun d' => set_parent (set_oldest_addr (get_next_sector_addr d x 0) (parent d')) d');; p) Q.
Proof.
  intros Hk Hx Hc Hp. pose proof (nsec_pos G HG).
  apply triple_gets_some with (P := fun d => geo (parent d) = G); [intros d Hd; apply Hd|]. intros d Hg.
  pose proof (next_in_ring G HG d x k 0 Hg Hc Hx Hk ltac:(lia)) as E. rewrite decide_True in E by lia.
  change (Z.of_nat 0 * ss) with 0 in E. rewrite E.
  eapply triple_bind with (R := fun _ σ' => σ' = with_old (ring_idx nsec k 1) σ); [|by intros _ ? ->].
  eapply triple_modify; [|reflexivity].
  intros d' [R1 [W1 W2 W3] R3 R4 R5 R6 R7 R8 R9 R10 R11]. split; try done; [split; try done|].
  - apply ring_idx_lt. lia.
  - cbn. rewrite ring_idx_S, ring_idx_0 by lia. done.
Qed.

Lemma triple_do_gc σ0 σ k s x free arg :
  collected σ0 σ -> k_gc σ0 = true -> k_pend σ0 = None -> k_last σ0 = false -> base_of arg ->
  k_secs σ !! k = Some s -> info_at G k s x ->
  triple σ (do_gc free x arg) (fun c σ' => collected σ0 σ' /\ base_of (snd c)).
Proof.
  intros (secs & o & -> & Hst & Hlive & e & He & Hempty) Hgc Hpend Hlast (q & Hq & ->) Hk Hx.
  cbn [k_secs with_old with_secs] in Hk. pose proof (Forall_lookup_1 _ _ _ _ Hst Hk) as [Hs1 Hs2].
  unfold do_gc. rewrite (in_ok _ _ _ _ Hx). cbn [andb]. apply triple_wf. intros Hwf.
  destruct (sec_lookup G HG keys _ _ _ Hwf Hk) as (Hlt & Hok & Hend).
  pose proof (ss_range G HG). destruct (sector_base G HG k Hlt) as (Hb1 & Hb2 & _).
  destruct Hs2 as [Hd|[Hd Hne]].
  { assert (dirty x = FDB_SECTOR_DIRTY_FALSE) as Ed by (destruct (in_dirty _ _ _ _ Hx) as [|[]]; congruence).
    rewrite Ed. cbn. apply triple_ret. split; [|by exists q]. exists secs, o. eauto 10. }
  assert (dirty x = FDB_SECTOR_DIRTY_TRUE) as Ed by (destruct (in_dirty _ _ _ _ Hx) as [|[]]; congruence).
  rewrite Ed. cbn [bool_decide orb]. rewrite bool_decide_eq_true_2 by done. cbn [orb].
  destruct (sector_base G HG q Hq) as (Hq1 & Hq2 & _).
  rewrite (in_addr _ _ _ _ Hx), !u32_small by (ks_consts; lia).
  set (σ := with_old o (with_secs secs σ0)) in *.
  eapply triple_bind; [by apply (triple_mark_gc σ k s)|]. cbn beta. intros _ ? ->.
  destruct (gc_at_start σ k s e) as [Hga Hn]; try done.
  eapply triple_bind.
  { eapply triple_gc_sector_kvs; try done. by apply info_at_gc. }
  cbn beta. intros _ ? (secs2 & s2 & -> & Hga2). pose proof (ga_sec _ _ _ _ _ _ _ Hga2) as Hk2.
  apply gc_at_end in Hga2 as (Hnw & Hst2 & Hlive2 & Hfresh).
  eapply triple_bind; [by eapply (triple_format G HG keys _ k s2)|]. cbn beta. intros _ ? [_ ->].
  apply triple_set_oldest with (k := k); [done|by destruct Hx..|].
  set (σ2 := with_old _ _). apply triple_wf. intros Hwf2.
  destruct (lookup_lt_is_Some_2 (k_secs σ2) q) as [sq Hsq]; [by rewrite (sw_len _ _ _ Hwf2)|].
  eapply triple_bind; [by eapply (triple_read_sector_info G HG keys σ2 q sq)|]. cbn beta. intros r ? (-> & _ & _).
  apply triple_ret. cbn [snd]. split; [|by exists k].
  exists (<[k := fresh_sec]> secs2), (ring_idx nsec k 1). split_and!; [done|done| |by eexists].
  by rewrite Hlive2.
Qed.

(** ** The collection *)

Lemma triple_gc_check σ x :
  triple σ (sector_iterator x FDB_SECTOR_STORE_EMPTY (0, 0) (Some gc_check_cb) false)
    (fun r σ' => σ' = σ /\ base_of (snd (snd r))).
Proof.
  pose proof (nsec_pos G HG).
  apply (triple_sector_iterator G HG keys σ x _ _ _ _ (fun _ arg σ' => σ' = σ /\ base_of (snd arg))).
  - split; [done|]. exists 0%nat. split; [lia|done].
  - intros t arg ? k s y Ht (-> & Hb) Hk Hs Hy _ _. unfold gc_check_cb. rewrite (in_ok _ _ _ _ Hy).
    apply triple_ret. cbn [fst snd]. split; [done|]. exists k. split; [|by destruct Hy].
    subst k. apply ring_idx_lt. lia.
  - intros t arg ? k s Ht [-> Hb] _ _ _. done.
  - intros y arg ? [-> Hb]. done.
Qed.

(** Garbage is collected: the same records are live, and there is still an
    empty sector. *)
Lemma triple_gc_collect σ free :
  k_gc σ = true -> k_pend σ = None -> k_last σ = false -> Forall sec_stable (k_secs σ) ->
  (exists e, e ∈ k_secs σ /\ ks_recs e = []) ->
  triple σ (gc_collect_by_free_size free) (fun _ σ' => exists σ1, collected σ σ1 /\ σ' = with_gc false σ1).
Proof.
  intros Hgc Hpend Hlast Hst He. assert (collected σ σ) as H0.
  { exists (k_secs σ), (k_old σ). split_and!; try done. by destruct σ. }
  unfold gc_collect_by_free_size. eapply triple_bind; [apply triple_gc_check|].
  cbn beta. intros [x [n a]] ? [-> Ha]. cbn [snd] in Ha.
  eapply triple_bind with (R := fun _ σ' => collected σ σ').
  - destruct (n <=? FDB_GC_EMPTY_SEC_THRESHOLD); [|by apply triple_ret].
    eapply triple_bind with (R := fun _ σ' => collected σ σ'); [|intros; by apply triple_ret].
    apply (triple_sector_iterator G HG keys σ x _ _ _ _ (fun _ arg σ' => collected σ σ' /\ base_of arg)).
    + done.
    + intros t arg σ' k s y Ht [Hc Hb] _ Hs Hy _ _. eapply triple_mono; [by eapply triple_do_gc|].
      cbn beta. intros c σ'' [Hc' Hb']. by destruct (fst c).
    + intros t arg σ' k s Ht [Hc Hb] _ _ Hv. destruct Hv. by left.
    + by intros y arg σ' [Hc _].
  - cbn beta. intros _ σ1 H1. eapply triple_mono; [apply triple_set_gc|]. cbn beta. intros _ ? ->. eauto.
Qed.
End collect.
