(* ===== verification/KvStable.v ===== *)
(** Key-value database: the states between two calls, and how storing,
    replacing and deleting a record change them and the map. *)
From S2P Require Import Prelude FdbDef Status FlashIO FlashSpec KvDef KvRead KvWrite KvRing KvSpec KvState KvTriple.
From S2P Require Import KvBase KvFind KvDel KvAlloc KvStore KvGc.

Record kstable (σ : kst) : Prop := {
  kt_gc : k_gc σ = false;
  kt_last : k_last σ = false;
  kt_pend : k_pend σ = None;
  kt_secs : Forall sec_stable (k_secs σ);
  kt_empty : exists e, e ∈ k_secs σ /\ ks_recs e = [];
  kt_unique : keys_unique (k_secs σ);
}.

(** ** The map *)

Lemma map_keep secs secs' :
  keys_unique secs -> live_recs secs' ≡ₚ live_recs secs -> keys_unique secs' /\ kv_map secs' = kv_map secs.
Proof. intros Hu Hl. by apply kv_map_perm. Qed.

Lemma map_without secs key old l :
  keys_unique secs -> live_recs secs ≡ₚ (key, old) :: l ->
  NoDup l.*1 /\ key ∉ l.*1 /\ kv_map secs = <[key := old]> (list_to_map l).
Proof.
  intros Hu Hl. unfold keys_unique in Hu. rewrite Hl in Hu. apply NoDup_cons in Hu as [Hk Hu].
  split_and!; [done..|]. unfold kv_map. rewrite (list_to_map_proper _ ((key, old) :: l)); [done| |done].
  rewrite Hl. by constructor.
Qed.

Lemma map_with secs key value l :
  NoDup l.*1 -> key ∉ l.*1 -> live_recs secs ≡ₚ (key, value) :: l ->
  keys_unique secs /\ kv_map secs = <[key := value]> (list_to_map l).
Proof.
  intros Hu Hk Hl. assert (keys_unique secs) as Hs by (unfold keys_unique; rewrite Hl; by constructor).
  split; [done|]. by eapply map_without.
Qed.

(** A new record, a replaced one, a deleted one. *)
Lemma map_add secs secs' key value :
  keys_unique secs -> no_record secs key -> live_recs secs' ≡ₚ (key, value) :: live_recs secs ->
  keys_unique secs' /\ kv_map secs' = <[key := value]> (kv_map secs).
Proof.
  intros Hu Hno Hl. apply map_with; [done| |done]. intros Hk. apply list_elem_of_fmap in Hk as ([k v] & -> & Hk).
  unfold live_recs, live_rec in Hk. apply list_elem_of_omap in Hk as (r & Hr & E). case_decide as Hst; [|done].
  simplify_eq. by apply (Hno r Hr).
Qed.

Lemma map_replace secs secs' key old value l :
  keys_unique secs -> live_recs secs ≡ₚ (key, old) :: l -> live_recs secs' ≡ₚ (key, value) :: l ->
  keys_unique secs' /\ kv_map secs' = <[key := value]> (kv_map secs).
Proof.
  intros Hu Hl Hl'. destruct (map_without _ _ _ _ Hu Hl) as (H1 & H2 & ->).
  destruct (map_with _ _ _ _ H1 H2 Hl') as [H3 ->]. split; [done|]. by rewrite insert_insert_eq.
Qed.

Lemma map_delete secs secs' key old l :
  keys_unique secs -> live_recs secs ≡ₚ (key, old) :: l -> live_recs secs' ≡ₚ l ->
  keys_unique secs' /\ kv_map secs' = delete key (kv_map secs).
Proof.
  intros Hu Hl Hl'. destruct (map_without _ _ _ _ Hu Hl) as (H1 & H2 & ->).
  assert (keys_unique secs') as Hu' by (unfold keys_unique; by rewrite Hl'). split; [done|].
  rewrite delete_insert_id by (by apply not_elem_of_list_to_map_1). unfold kv_map. by apply list_to_map_proper.
Qed.

(** ** The changes of the sectors commute *)

Lemma append_set_rec k i st j r s secs :
  secs !! k = Some s -> (i < length (ks_recs s))%nat ->
  set_rec k i st (append_rec j r secs) = append_rec j r (set_rec k i st secs).
Proof.
  intros Hk Hi. unfold set_rec, append_rec. destruct (decide (j = k)) as [->|Hjk]; [|by apply list_alter_alter_ne].
  rewrite !list_alter_alter_eq. apply list_alter_ext; [|done]. intros x Hx. cbn. simplify_eq. f_equal.
  by rewrite alter_app_l.
Qed.

Lemma mark_dirty_append k j r secs : mark_dirty k (append_rec j r secs) = append_rec j r (mark_dirty k secs).
Proof.
  unfold mark_dirty, append_rec. destruct (decide (j = k)) as [->|]; [|by apply list_alter_alter_ne].
  rewrite !list_alter_alter_eq. by apply list_alter_ext.
Qed.

Lemma mark_dirty_set_rec k j i st secs : mark_dirty k (set_rec j i st secs) = set_rec j i st (mark_dirty k secs).
Proof.
  unfold mark_dirty, set_rec. destruct (decide (j = k)) as [->|]; [|by apply list_alter_alter_ne].
  rewrite !list_alter_alter_eq. by apply list_alter_ext.
Qed.

Lemma mark_dirty_twice k secs : mark_dirty k (mark_dirty k secs) = mark_dirty k secs.
Proof.
  unfold mark_dirty. rewrite list_alter_alter_eq. apply list_alter_ext; [|done]. intros s _. cbn. f_equal.
  repeat case_decide; congruence.
Qed.

Lemma live_recs_mark_dirty k secs : live_recs (mark_dirty k secs) = live_recs secs.
Proof.
  destruct (secs !! k) as [s|] eqn:Hk.
  - rewrite <- (live_recs_set_dirty secs k (if decide (ks_dirty s = FDB_SECTOR_DIRTY_FALSE) then FDB_SECTOR_DIRTY_TRUE
                        else ks_dirty s)). unfold set_dirty, mark_dirty. by rewrite !(alter_insert _ _ _ _ Hk).
  - unfold mark_dirty. f_equal. apply list_eq. intros j. rewrite list_lookup_alter. case_decide; subst; by rewrite ?Hk.
Qed.

(** ** Stability *)

(** The sectors after the deletion of the [i]-th record of the [k]-th one. *)
Definition del_secs (k i : nat) (secs : list ksec) : list ksec :=
  mark_dirty k (set_rec k i FDB_KV_DELETED secs).

Lemma del_secs_lookup k i secs q :
  del_secs k i secs !! q =
    if decide (q = k) then (fun s => KSec (if decide (ks_dirty s = FDB_SECTOR_DIRTY_FALSE) then FDB_SECTOR_DIRTY_TRUE
                                           else ks_dirty s) (alter (kr_set FDB_KV_DELETED) i (ks_recs s))) <$> secs !! k
    else secs !! q.
Proof.
  unfold del_secs, mark_dirty, set_rec. rewrite list_alter_alter_eq, list_lookup_alter.
  repeat (case_decide; subst); done.
Qed.

(** A sector after the deletion: it is empty only if it was. *)
Lemma del_secs_has k i k' s secs :
  secs !! k' = Some s -> exists s', del_secs k i secs !! k' = Some s' /\ (ks_recs s' = [] -> ks_recs s = []).
Proof.
  intros Hk'. rewrite del_secs_lookup. case_decide as E; [subst k'|]; rewrite Hk'; cbn.
  - eexists. split; [reflexivity|]. cbn. intros Hnil. apply (f_equal length) in Hnil. rewrite length_alter in Hnil.
    by destruct (ks_recs s).
  - by exists s.
Qed.

Lemma del_secs_stable k i s secs :
  secs !! k = Some s -> (i < length (ks_recs s))%nat -> Forall sec_stable secs -> Forall sec_stable (del_secs k i secs).
Proof.
  intros Hk Hi Hst. apply Forall_lookup. intros q z Hq. rewrite del_secs_lookup in Hq. case_decide; subst.
  2:{ by eapply (Forall_lookup_1 _ _ _ _ Hst). }
  rewrite Hk in Hq. cbn in Hq. simplify_eq. destruct (Forall_lookup_1 _ _ _ _ Hst Hk) as [H1 H2].
  split; cbn [ks_recs ks_dirty].
  - apply Forall_alter; [done|]. intros x _ _. by right.
  - right. split; [case_decide; [done|]; by destruct H2 as [|[]]|].
    intros E. apply (f_equal length) in E. rewrite length_alter in E. cbn in E. lia.
Qed.

Lemma append_stable k r s secs :
  secs !! k = Some s -> settled r -> Forall sec_stable secs -> Forall sec_stable (append_rec k r secs).
Proof.
  intros Hk Hr Hst. rewrite (append_insert _ _ _ _ Hk). apply Forall_insert; [done|].
  apply added_stable; [by eapply (Forall_lookup_1 _ _ _ _ Hst)|done].
Qed.

(** An empty sector stays when it is not the one that is written to. *)
Lemma append_empty k r s secs :
  secs !! k = Some s -> (ks_recs s = [] -> (1 < n_empty secs)%nat) -> (exists e, e ∈ secs /\ ks_recs e = []) ->
  exists e, e ∈ append_rec k r secs /\ ks_recs e = [].
Proof.
  intros Hk Htwo Hone.
  assert (exists q e, q <> k /\ secs !! q = Some e /\ ks_recs e = []) as (q & e & Hq & He & E).
  { destruct (decide (ks_recs s = [])) as [Es|Hne].
    - specialize (Htwo Es). pose proof (take_drop_middle _ _ _ Hk) as Hsplit. pose proof (lookup_lt_Some _ _ _ Hk).
      assert (n_empty secs = S (n_empty (take k secs ++ drop (S k) secs))) as En.
      { rewrite <- Hsplit at 1. rewrite (n_empty_perm _ ((take k secs ++ drop (S k) secs) ++ [s])) by solve_Permutation.
        rewrite n_empty_snoc, decide_True by done. lia. }
      destruct (proj1 (n_empty_pos (take k secs ++ drop (S k) secs)) ltac:(lia)) as (e & He & E).
      apply elem_of_app in He as [He|He]; apply list_elem_of_lookup in He as [q Hq].
      + apply lookup_take_Some in Hq as [Hq Hlt]. exists q, e. split_and!; [lia|done..].
      + rewrite lookup_drop in Hq. exists (S k + q)%nat, e. split_and!; [lia|done..].
    - destruct Hone as (e & He & E). apply list_elem_of_lookup in He as [q Hq]. exists q, e.
      split_and!; [|done..]. intros ->. congruence. }
  exists e. split; [|done]. apply (list_elem_of_lookup_2 _ q). unfold append_rec. by rewrite list_lookup_alter_ne.
Qed.

Lemma del_empty k i s secs :
  secs !! k = Some s -> ks_recs s <> [] -> (exists e, e ∈ secs /\ ks_recs e = []) ->
  exists e, e ∈ del_secs k i secs /\ ks_recs e = [].
Proof.
  intros Hk Hne (e & He & E). exists e. split; [|done]. apply list_elem_of_lookup in He as [q Hq].
  apply (list_elem_of_lookup_2 _ q). rewrite del_secs_lookup, decide_False; [done|]. intros ->. congruence.
Qed.

Lemma n_empty_del k i s secs : secs !! k = Some s -> ks_recs s <> [] -> n_empty (del_secs k i secs) = n_empty secs.
Proof.
  intros Hk Hne. pose proof (lookup_lt_Some _ _ _ Hk). unfold del_secs, mark_dirty, set_rec.
  rewrite list_alter_alter_eq, (alter_insert _ _ _ _ Hk), insert_take_drop by done.
  rewrite <- (take_drop_middle _ _ _ Hk) at 3. unfold n_empty. rewrite !filter_app, !filter_cons, !length_app.
  repeat case_decide; [done| |done..]. cbn in *. by destruct (ks_recs s), i.
Qed.

(** Live records of the sectors after a deletion. *)
Lemma live_recs_del k i s r secs :
  secs !! k = Some s -> ks_recs s !! i = Some r -> kr_st r = FDB_KV_WRITE ->
  live_recs secs ≡ₚ (kr_key r, kr_val r) :: live_recs (del_secs k i secs).
Proof.
  intros Hk Hi Hst. destruct (live_recs_set_rec secs k i FDB_KV_DELETED s r Hk Hi) as (l1 & l2 & E1 & E2).
  unfold del_secs. rewrite live_recs_mark_dirty, E1, E2. unfold live_rec at 1. rewrite decide_True by done.
  cbn. solve_Permutation.
Qed.
