(* ===== verification/KvSet.v ===== *)
(** Key-value database: setting and deleting a key. *)
From S2P Require Import Prelude FdbDef Crc32 Status FlashIO FlashSpec KvDef KvRead KvWrite KvRing KvCacheSpec.
From S2P Require Import KvSpec KvGetSpec KvState KvTriple KvBase KvLook KvSector KvIter KvFind KvDel KvAlloc KvStore.
From S2P Require Import KvMove KvGc KvCollect KvStable.

Section set.
Context (G : geom) (HG : geom_ok G) (keys : list Z -> Prop) (Hkeys : key_set keys).
Context {W} {ST : Storage W} {SL : StorageLaws W} {IN : Indeterminate}.
Implicit Type d : fdb_kvdb W.
Notation ss := (sec_size G).
Notation triple := (triple (W:=W) G keys).
Notation nsec := (nsec G).

(** ** Room for a record *)

(** The same map, in a state in which the next call can be made. *)
Definition kept (σ σ' : kst) : Prop :=
  kstable σ' /\ live_recs (k_secs σ') ≡ₚ live_recs (k_secs σ).

(** No sector in use has room for [size] bytes, and there is no empty sector
    to spare, or it is too small. *)
Definition no_room (σ : kst) (size : Z) : Prop :=
  (forall s, s ∈ k_secs σ -> ks_recs s <> [] -> ~ fits G size s) /\
  ((n_empty (k_secs σ) <= 1)%nat \/ forall s, s ∈ k_secs σ -> ~ fits G size s).

Lemma kept_refl σ : kstable σ -> kept σ σ.
Proof. by split. Qed.

Lemma collected_kept σ σ1 : kstable σ -> collected (with_gc true σ) σ1 -> kept σ (with_gc false σ1).
Proof.
  intros [H1 H2 H3 H4 H5 H6] (secs & o & -> & Hst & Hl & He). cbn in Hl. split; [|done].
  split; cbn; try done. by apply (map_keep _ _ H6).
Qed.

Lemma with_gc_stable σ : kstable σ -> with_gc false (with_gc true σ) = σ.
Proof. intros [H _ _ _ _ _]. destruct σ. cbn in *. by subst. Qed.

Lemma must_fit σ size s : kstable σ -> s ∈ k_secs σ -> fits G size s -> must_take G (k_gc σ) size s.
Proof.
  intros [H1 _ _ H4 _ _] Hs Hf. split; [done|]. rewrite Forall_forall in H4.
  destruct (H4 s Hs) as [_ [|[]]]; auto.
Qed.

(** The two ways in which an allocation fails. *)
Lemma alloc_none_room σ size σ' :
  kstable σ -> alloc_none G σ size σ' ->
  no_room σ size /\ (σ' = σ \/ σ' = with_gc true σ).
Proof.
  intros Hst [Hno Hr].
  assert (forall s, s ∈ k_secs σ -> ks_recs s <> [] -> ~ fits G size s) as Hu.
  { intros s Hs Hne Hf. apply (Hno s Hs Hne). by apply must_fit. }
  case_decide as E; [split; [split; [done|left; lia]|by right]|]. destruct Hr as [-> Hr].
  split; [|by left]. split; [done|right]. intros s Hs Hf. apply (Hr s Hs). by apply must_fit.
Qed.

Definition new_kv_result (σ : kst) (size : Z) (r : Z * kvdb_sec_info) (σ' : kst) : Prop :=
  kept σ σ' /\ k_rec σ' = k_rec σ /\ (σ' = σ \/ no_room σ size) /\
  (fst r <> FAILED_ADDR /\ alloc_ok G σ' size (fst r) (snd r) \/
   fst r = FAILED_ADDR /\ no_room σ size /\ no_room σ' size).

Lemma triple_new_kv σ x size :
  kstable σ -> 0 <= size < 4294967296 -> triple σ (new_kv x size) (new_kv_result σ size).
Proof.
  intros Hst Hsz. unfold new_kv.
  apply (triple_loop G keys (fun '(already, x) σ' => (kept σ σ' /\ k_rec σ' = k_rec σ) /\
      if already : bool then no_room σ size else σ' = σ) (fun '(already, x) _ => if already : bool then 0%nat else 1%nat)).
  2:{ split; [split|]; [by apply kept_refl|done..]. }
  2:{ lia. }
  intros [already y] σ1 [[[Hst1 Hl] Hrec] Hal]. eapply triple_bind; [by apply (triple_alloc_kv G HG keys)|].
  cbn beta. intros [a y'] σ2 Hr. cbn [fst snd] in Hr. destruct Hr as [(Ha & -> & Hok)|[-> Hno]].
  { rewrite (proj2 (Z.eqb_neq a _)) by done. apply triple_ret. split_and!; try done; [destruct already; auto|by left]. }
  rewrite Z.eqb_refl. destruct (alloc_none_room σ1 size σ2 Hst1 Hno) as [Hroom Hσ2].
  assert (with_gc false σ2 = σ1) as Eσ2.
  { destruct Hσ2 as [->| ->]; [|by apply with_gc_stable]. destruct Hst1 as [H _ _ _ _ _]. destruct σ1. cbn in *. by subst. }
  apply triple_gc. destruct already; [rewrite andb_false_r|].
  - eapply triple_bind; [apply triple_set_gc|]. cbn beta. intros _ ? ->. rewrite Eσ2. apply triple_ret.
    split_and!; try done; by right.
  - rewrite andb_true_r. subst σ1. destruct Hσ2 as [->| ->].
    + rewrite (kt_gc _ Hst1). apply triple_ret. split_and!; try done; [by left|by right].
    + cbn [k_gc with_gc]. pose proof Hst1 as [_ H2 H3 H4 H5 _].
      eapply triple_bind; [by apply (triple_gc_collect G HG keys Hkeys (with_gc true σ))|].
      cbn beta. intros _ ? (σ3 & Hc & ->). destruct (collected_kept _ _ Hst1 Hc) as [Hst3 Hl3].
      apply triple_ret. split; [|lia]. split; [split|done].
      * done.
      * destruct Hc as (secs & o & -> & _). done.
Qed.

(** ** The record that is replaced *)

Lemma space_at_eq s s' x : ks_end s' = ks_end s -> space_at G s x -> space_at G s' x.
Proof. intros E. unfold space_at. by rewrite E. Qed.

(** Room stays room when the status of a record and of its sector change. *)
Lemma room_deleted σ σ' size k s x k' i st :
  store_room G σ size k s x -> k_secs σ' = mark_dirty k' (set_rec k' i st (k_secs σ)) ->
  exists s', store_room G σ' size k s' x /\ ks_recs s' = (if decide (k = k') then alter (kr_set st) i (ks_recs s) else ks_recs s).
Proof.
  intros (Hk & [Ha Hs] & Hsp & Hf) E'. unfold store_room. rewrite E'. unfold mark_dirty, set_rec.
  rewrite list_alter_alter_eq. rewrite (list_lookup_alter _ _ _ k). destruct (decide (k = k')) as [->|Hne].
  - rewrite decide_True, Hk by done. eexists. split; [split; [reflexivity|]|done]. cbn [ks_recs compose].
    assert (forall dt, ks_end (KSec dt (alter (kr_set st) i (ks_recs s))) = ks_end s) as E
      by (intros; unfold ks_end; cbn [ks_recs]; by rewrite recs_len_alter).
    split_and!; [done| |by apply (space_at_eq s)|by unfold fits in *; rewrite E].
    rewrite Hs. unfold ks_store. cbn [ks_recs]. by destruct (ks_recs s), i.
  - rewrite decide_False by done. by exists s.
Qed.

Lemma rec_loc_mark_dirty secs k a k' i s r :
  rec_loc G secs a k' i s r -> exists s', rec_loc G (mark_dirty k secs) a k' i s' r.
Proof.
  intros (Hk & Hi & ->). unfold rec_loc, mark_dirty. destruct (decide (k' = k)) as [->|Hne].
  - eexists. split; [by rewrite list_lookup_alter_eq, Hk|]. done.
  - exists s. by rewrite list_lookup_alter_ne.
Qed.

Lemma rec_loc_append secs k q a k' i s r :
  rec_loc G secs a k' i s r -> exists s', rec_loc G (append_rec k q secs) a k' i s' r.
Proof.
  intros Hl. destruct (secs !! k) as [z|] eqn:Hk.
  - rewrite (append_insert _ _ _ _ Hk). by eapply rec_loc_added.
  - exists s. destruct Hl as (Hk' & Hr). split; [|done]. unfold append_rec.
    rewrite list_lookup_alter_ne; [done|]. intros ->. congruence.
Qed.

(** The old record is marked before and after the new one is stored. *)
Lemma put_secs k q k' i s secs :
  secs !! k' = Some s -> (i < length (ks_recs s))%nat ->
  mark_dirty k' (set_rec k' i FDB_KV_DELETED
    (append_rec k q (mark_dirty k' (set_rec k' i FDB_KV_PRE_DELETE secs)))) =
  append_rec k q (del_secs k' i secs).
Proof.
  intros Hk Hi. unfold del_secs.
  rewrite (append_set_rec k' i _ k q (KSec (if decide (ks_dirty s = FDB_SECTOR_DIRTY_FALSE) then FDB_SECTOR_DIRTY_TRUE
      else ks_dirty s) (alter (kr_set FDB_KV_PRE_DELETE) i (ks_recs s)))).
  - by rewrite mark_dirty_append, !mark_dirty_set_rec, mark_dirty_twice, set_rec_twice.
  - unfold mark_dirty, set_rec. by rewrite list_alter_alter_eq, list_lookup_alter_eq, Hk.
  - cbn [ks_recs]. by rewrite length_alter.
Qed.

(** ** The parts of [set_kv] *)

Lemma triple_set_cur σ x : triple σ (modify (set_cur_sector x)) (fun _ σ' => σ' = with_cur x σ).
Proof. apply triple_modify with (with_cur x σ); [|done]. intros d [R1 [] R3 R4 R5 R6 R7 R8 R9 R10 R11]. by split. Qed.

Definition create_cur (key value : list Z) (result : fdb_err_t) : M (fdb_kvdb W) fdb_err_t :=
  if decide (result = FDB_NO_ERR) then
    sector ← gets cur_sector;
    c ← create_kv_blob sector key value (len value);
    modify (set_cur_sector (snd c));;
    mret (fst c)
  else mret result.

(** What follows the search for the old record. *)
Definition put_kv (key value : list Z) (found : bool * fdb_kv) : M (fdb_kvdb W) fdb_err_t :=
  result ← (if (fst found : bool) then del_kv (Some key) (Some (snd found)) false else mret FDB_NO_ERR);
  result ← create_cur key value result;
  result ← (if (fst found : bool) && bool_decide (result = FDB_NO_ERR)
            then del_kv (Some key) (Some (snd found)) true else mret result);
  gc ← gets gc_request;
  (if (gc : bool) then
     gc_collect_by_free_size (u64 (KV_HDR_DATA_SIZE + WG_ALIGN (len key) + WG_ALIGN (len value)))
   else mret tt);;
  mret result.

Lemma triple_create_cur σ k s x key value :
  k_cur σ = x -> store_room G σ (rec_len key value) k s x -> keys key -> rec_ok key value ->
  k_pend σ = None \/ k_pend σ = Some key ->
  triple σ (create_cur key value FDB_NO_ERR) (fun res σ' => res = FDB_NO_ERR /\
    σ' = with_pend None (with_secs (append_rec k (KRec FDB_KV_WRITE key value) (k_secs σ)) σ)).
Proof.
  intros Hx Hroom Hk Hok Hpend. unfold create_cur. rewrite decide_True by done. apply triple_wf. intros Hwf.
  eapply triple_gets; [intros d Hd; apply Hd|]. rewrite Hx.
  assert (empty_kv x <> FAILED_ADDR) as Hnf.
  { destruct Hroom as (Hs & [Ha _] & [He _] & _). destruct (sec_lookup G HG keys _ _ _ Hwf Hs) as (Hlt & _ & Hend).
    rewrite He, Ha. destruct (sector_base G HG k Hlt) as (? & ? & _). pose proof (ss_range G HG). unfold FAILED_ADDR. lia. }
  eapply triple_bind; [by eapply (triple_create G HG keys σ k s x)|]. cbn beta. intros c ? [-> ->]. cbn [fst snd].
  eapply triple_bind; [apply triple_set_cur|]. cbn beta. intros _ ? ->. apply triple_ret. split; [done|].
  destruct σ. cbn in *. by subst.
Qed.

Definition put_result (σ : kst) (key value : list Z) (secs : list ksec) (res : fdb_err_t) (σ' : kst) : Prop :=
  res = FDB_NO_ERR /\ k_secs σ' = secs /\ k_gc σ' = false /\ k_last σ' = false /\ k_pend σ' = None /\ k_rec σ' = k_rec σ.

Lemma triple_put_new σ k s x key value kv :
  k_cur σ = x -> store_room G σ (rec_len key value) k s x -> keys key -> rec_ok key value ->
  k_gc σ = false -> k_last σ = false -> k_pend σ = None ->
  triple σ (put_kv key value (false, kv))
    (put_result σ key value (append_rec k (KRec FDB_KV_WRITE key value) (k_secs σ))).
Proof.
  intros Hx Hroom Hk Hok Hgc Hlast Hpend. unfold put_kv. cbn [fst andb].
  eapply triple_bind with (R := fun res σ' => res = FDB_NO_ERR /\ σ' = σ); [by apply triple_ret|].
  cbn beta. intros ? ? [-> ->]. eapply triple_bind; [eapply triple_create_cur; by eauto|].
  cbn beta. intros ? ? [-> ->]. eapply triple_bind with (R := fun res σ' => res = FDB_NO_ERR /\ σ' = _);
    [by apply triple_ret|]. cbn beta. intros ? ? [-> ->]. apply triple_gc. cbn. rewrite Hgc.
  eapply triple_bind with (R := fun _ σ' => σ' = _); [by apply triple_ret|]. cbn beta. intros _ ? ->.
  apply triple_ret. done.
Qed.

Lemma triple_put_replace σ k s x key value kv a k' i s' r :
  k_cur σ = x -> store_room G σ (rec_len key value) k s x -> keys key -> rec_ok key value ->
  k_gc σ = false -> k_last σ = false -> k_pend σ = None ->
  rec_pos G keys σ a k' i s' r -> kv_desc kv a r -> kr_key r = key -> kr_st r = FDB_KV_WRITE ->
  triple σ (put_kv key value (true, kv))
    (put_result σ key value (append_rec k (KRec FDB_KV_WRITE key value) (del_secs k' i (k_secs σ)))).
Proof.
  intros Hx Hroom Hk Hok Hgc Hlast Hpend Hp Hkv Hkey Hst. pose proof (po_loc _ _ _ _ _ _ _ _ Hp) as Hl.
  pose proof Hl as (Hs' & Hi & Ha). unfold put_kv. cbn [fst snd].
  eapply triple_bind.
  { eapply (triple_del_kv_at G HG keys σ (Some key) kv a k' i s' r false); try done; [left; by rewrite Hkey|by rewrite Hst]. }
  cbn beta. intros ? ? [-> ->]. set (σ1 := deleted false k' i r σ).
  assert (k_secs σ1 = mark_dirty k' (set_rec k' i FDB_KV_PRE_DELETE (k_secs σ))) as Esecs by done.
  destruct (room_deleted σ σ1 _ _ _ _ _ _ _ Hroom Esecs) as (s1 & Hroom1 & _).
  eapply triple_bind.
  { eapply (triple_create_cur σ1 k s1 x); try done. right. unfold σ1, deleted, pend_after. cbn.
    by rewrite decide_True, Hkey by done. }
  cbn beta. intros ? ? [-> ->]. set (q := KRec FDB_KV_WRITE key value).
  set (σ2 := with_pend None _). rewrite bool_decide_eq_true_2 by done. cbn [andb].
  apply triple_wf. intros Hwf2.
  assert (exists s2, rec_loc G (k_secs σ2) a k' i s2 (kr_set FDB_KV_PRE_DELETE r)) as [s2 Hl2].
  { destruct (rec_loc_set_rec G (k_secs σ) k' i FDB_KV_PRE_DELETE s' a i s' k' r Hs' Hl) as [z Hz].
    rewrite decide_True in Hz by done. destruct (rec_loc_mark_dirty _ k' _ _ _ _ _ Hz) as [z' Hz'].
    destruct (rec_loc_append _ k q _ _ _ _ _ Hz') as [z2 Hz2]. by exists z2. }
  pose proof (rec_pos_intro G keys _ _ _ _ _ _ Hwf2 Hl2) as Hp2.
  eapply triple_bind.
  { eapply (triple_del_kv_at G HG keys σ2 (Some key) kv a k' i s2 (kr_set FDB_KV_PRE_DELETE r) true); try done.
    - by destruct Hkv.
    - left. by rewrite <- Hkey. }
  cbn beta. intros ? ? [-> ->]. set (σ3 := deleted true _ _ _ _). apply triple_gc.
  change (k_gc σ3) with (k_gc σ). rewrite Hgc.
  eapply triple_bind with (R := fun _ σ' => σ' = σ3); [by apply triple_ret|]. cbn beta. intros _ ? ->.
  apply triple_ret. split_and!; try done.
  apply (put_secs k q k' i s'); [done|]. by eapply lookup_lt_Some.
Qed.

(** ** Setting a key *)

Lemma put_new_stable σ k s x key value σ' :
  kstable σ -> room_at G σ (rec_len key value) k s x -> (ks_recs s = [] -> (1 < n_empty (k_secs σ))%nat) ->
  no_record (k_secs σ) key ->
  k_secs σ' = append_rec k (KRec FDB_KV_WRITE key value) (k_secs σ) ->
  k_gc σ' = false -> k_last σ' = false -> k_pend σ' = None ->
  kstable σ' /\ kv_map (k_secs σ') = <[key := value]> (kv_map (k_secs σ)).
Proof.
  intros [H1 H2 H3 H4 H5 H6] (Hk & _) He Hno E Hgc Hl Hp.
  destruct (map_add (k_secs σ) (k_secs σ') key value H6 Hno) as [Hu Hm].
  { rewrite E. by eapply live_recs_append. }
  split; [|done]. split; try done; rewrite E.
  - eapply append_stable; [done|by left|done].
  - by eapply append_empty.
Qed.

Lemma put_replace_stable σ k s x key value k' i s' r a σ' :
  kstable σ -> room_at G σ (rec_len key value) k s x -> (ks_recs s = [] -> (1 < n_empty (k_secs σ))%nat) ->
  rec_loc G (k_secs σ) a k' i s' r -> kr_key r = key -> kr_st r = FDB_KV_WRITE ->
  k_secs σ' = append_rec k (KRec FDB_KV_WRITE key value) (del_secs k' i (k_secs σ)) ->
  k_gc σ' = false -> k_last σ' = false -> k_pend σ' = None ->
  kstable σ' /\ kv_map (k_secs σ') = <[key := value]> (kv_map (k_secs σ)).
Proof.
  intros [H1 H2 H3 H4 H5 H6] (Hk & _) He (Hk' & Hi & _) <- Hst E Hgc Hl Hp.
  pose proof (live_recs_del _ _ _ _ _ Hk' Hi Hst) as Hlive.
  assert (ks_recs s' <> []) as Hne by (by destruct (ks_recs s')).
  destruct (del_secs_has k' i k s (k_secs σ) Hk) as (s2 & Hs2 & Hs2e).
  destruct (map_replace (k_secs σ) (k_secs σ') (kr_key r) (kr_val r) value _ H6 Hlive) as [Hu Hm].
  { rewrite E. by eapply live_recs_append. }
  split; [|done]. split; try done; rewrite E.
  - eapply append_stable; [done|by left|]. eapply del_secs_stable; [done|by eapply lookup_lt_Some|done].
  - eapply append_empty; [done| |by eapply del_empty].
    intros Hnil. rewrite (n_empty_del _ _ _ _ Hk' Hne). auto.
Qed.

Definition set_result (σ : kst) (key value : list Z) (res : fdb_err_t) (σ' : kst) : Prop :=
  kstable σ' /\
  ((res = FDB_NO_ERR /\ kv_map (k_secs σ') = <[key := value]> (kv_map (k_secs σ))) \/
   (res = FDB_SAVED_FULL /\ kv_map (k_secs σ') = kv_map (k_secs σ) /\
      no_room σ (rec_len key value) /\ no_room σ' (rec_len key value))).

Lemma triple_put σ k s x key value found :
  kstable σ -> k_cur σ = x -> room_at G σ (rec_len key value) k s x ->
  (ks_recs s = [] -> (1 < n_empty (k_secs σ))%nat) -> keys key -> rec_ok key value ->
  find_result G keys σ key found ->
  triple σ (put_kv key value found) (fun res σ' => res = FDB_NO_ERR /\ kstable σ' /\
    kv_map (k_secs σ') = <[key := value]> (kv_map (k_secs σ))).
Proof.
  intros Hst Hx Hroom He Hk Hok [Hn Hf]. pose proof Hst as [H1 H2 H3 H4 H5 H6]. pose proof (room_store G _ _ _ _ _ Hroom) as Hsr.
  destruct found as [[] kv]; cbn [fst snd] in *.
  - destruct Hf as (k' & i & s' & r & Hp & Hkv & Hkey & Hw).
    eapply triple_mono; [eapply triple_put_replace; by eauto|]. cbn beta.
    intros res σ' (-> & E & Hgc & Hl & Hpe & _). split; [done|].
    eapply (put_replace_stable σ k s x); try done. apply (po_loc _ _ _ _ _ _ _ _ Hp).
  - eapply triple_mono; [eapply triple_put_new; by eauto|]. cbn beta.
    intros res σ' (-> & E & Hgc & Hl & Hpe & _). split; [done|]. by eapply (put_new_stable σ k s x).
Qed.

Lemma triple_set_cur_kv σ kv :
  length (kv_name kv) = 64%nat -> triple σ (modify (set_cur_kv kv)) (fun _ σ' => σ' = σ).
Proof. intros Hn. apply triple_modify with σ; [|done]. intros d [R1 R2 R3 R4 R5 R6 R7 R8 R9 R10 R11]. by split. Qed.

Lemma rec_len_range key value : rec_ok key value -> KV_HDR_DATA_SIZE <= rec_len key value < 4294967296.
Proof.
  intros [_ _ _ Hrl]. pose proof (len_nonneg key). pose proof (len_nonneg value). unfold rec_len in *. lia.
Qed.

Lemma new_kv_ex_eq x key value :
  rec_ok key value -> new_kv_ex x (len key) (len value) = new_kv (W:=W) x (rec_len key value).
Proof.
  intros Hok. pose proof (rec_len_range _ _ Hok). pose proof (len_nonneg key). pose proof (len_nonneg value).
  unfold new_kv_ex. rewrite !WG_ALIGN_id by (unfold rec_len, KV_HDR_DATA_SIZE in *; lia).
  change (KV_HDR_DATA_SIZE + len key + len value) with (rec_len key value).
  by rewrite u64_small by (unfold KV_HDR_DATA_SIZE in *; lia).
Qed.

Lemma triple_set_kv σ key value :
  kstable σ -> keys key -> rec_ok key value ->
  triple σ (set_kv key (Some value) (len value)) (set_result σ key value).
Proof.
  intros Hst Hk Hok. unfold set_kv. eapply triple_gets; [intros d Hd; apply Hd|].
  rewrite new_kv_ex_eq by done. pose proof (rec_len_range _ _ Hok).
  eapply triple_bind; [apply triple_new_kv; [done|unfold KV_HDR_DATA_SIZE in *; lia]|].
  cbn beta. intros [a x] σ1 ([Hst1 Hl1] & _ & _ & Hr). cbn [fst snd] in *.
  destruct (map_keep _ _ (kt_unique _ Hst) Hl1) as [_ Hmap].
  eapply triple_bind; [apply triple_set_cur|]. cbn beta. intros _ ? ->.
  assert (kstable (with_cur x σ1)) as Hst2 by (by destruct Hst1).
  destruct Hr as [[Ha Hr]|[-> Hr]].
  2:{ rewrite Z.eqb_refl. apply triple_ret. split; [done|]. right. done. }
  rewrite (proj2 (Z.eqb_neq a _)) by done. destruct Hr as (k & s & Hroom & _ & _ & He).
  apply triple_gets_some with (P := fun kv => length (kv_name kv) = 64%nat); [intros d Hd; apply Hd|]. intros kv Hkv.
  eapply triple_bind; [by apply (triple_find_kv G HG keys Hkeys); [..|apply Hst2]|].
  cbn beta. intros found ? [-> Hf].
  eapply triple_bind; [apply triple_set_cur_kv, Hf|]. cbn beta. intros _ ? ->.
  eapply triple_mono; [eapply (triple_put (with_cur x σ1) k s x key value found); try done|].
  - intros E. destruct (He E) as [Hg|]; [|done]. by rewrite (kt_gc _ Hst1) in Hg.
  - cbn beta. intros res σ' (-> & Hst' & Hm). split; [done|]. left. split; [done|]. by rewrite Hm, <- Hmap.
Qed.

(** ** Deleting a key *)

Definition del_spec (σ : kst) (key : list Z) (res : fdb_err_t) (σ' : kst) : Prop :=
  kstable σ' /\ kv_map (k_secs σ') = delete key (kv_map (k_secs σ)) /\
  res = match kv_map (k_secs σ) !! key with Some _ => FDB_NO_ERR | None => FDB_KV_NAME_ERR end.

Lemma triple_del_kv σ key :
  kstable σ -> keys key -> triple σ (del_kv (Some key) None true) (del_spec σ key).
Proof.
  intros Hst Hk. pose proof Hst as [H1 H2 H3 H4 H5 H6].
  eapply triple_mono; [by apply (triple_del_kv_key G HG keys Hkeys)|]. cbn beta.
  intros res σ' [(-> & a & k & i & s & r & Hp & <- & Hw & ->)|(-> & -> & Hno)].
  - pose proof (po_loc _ _ _ _ _ _ _ _ Hp) as (Hs & Hi & _).
    pose proof (live_recs_del _ _ _ _ _ Hs Hi Hw) as Hlive.
    destruct (map_delete (k_secs σ) (del_secs k i (k_secs σ)) _ _ _ H6 Hlive) as [Hu Hm]; [done|].
    unfold del_spec. rewrite (pos_map G keys σ a k i s r H6 Hp Hw). split_and!; [|exact Hm|done].
    split; try done; change (k_secs (deleted true k i r σ)) with (del_secs k i (k_secs σ)).
    + eapply del_secs_stable; [done|by eapply lookup_lt_Some|done].
    + eapply del_empty; [done| |done]. by destruct (ks_recs s).
  - unfold del_spec. rewrite (no_record_map _ _ H6 Hno). split_and!; try done.
    by rewrite delete_id by (by apply no_record_map).
Qed.
End set.
