(* ===== verification/KvMap.v ===== *)
(** Key-value database: the public functions refine a finite map.

    [kv_rep d m]: between two calls, the database [d] holds the finite map [m]
    from keys to values.  The abstract specification is the relation
    [map_step]; every sequence of calls behaves like a sequence of its steps. *)
From S2P Require Import Prelude FdbDef Crc32 Status FlashIO FlashSpec KvDef KvRead KvWrite KvApi KvRing KvCacheSpec.
From S2P Require Import KvSpec KvGetSpec KvFrame KvApiThm KvState KvTriple KvFind KvAlloc KvStable KvSet.

(** ** The specification *)

Inductive user_op :=
| UGet (key : list Z) (blob : fdb_blob)
| USet (key : list Z) (blob : fdb_blob)
| UDel (key : list Z).

Inductive answer :=
| ARead (n : Z) (blob : fdb_blob)
| ADone (e : fdb_err_t).

(** The answer to a read of [v] into a blob with the buffer [b]. *)
Definition read_answer (v : option (list Z)) (b : list Z) (blob : fdb_blob) : answer :=
  let '(n, b', vlen) := get_result v b in
  ARead n (FdbBlob b' (size blob) (saved_meta_addr blob) (saved_addr blob) vlen).

Inductive map_step (m : gmap (list Z) (list Z)) : user_op -> answer -> gmap (list Z) (list Z) -> Prop :=
| StepGet key blob b : buf blob = Some b -> map_step m (UGet key blob) (read_answer (m !! key) b blob) m
| StepSet key blob value : buf blob = Some value ->
    map_step m (USet key blob) (ADone FDB_NO_ERR) (<[key := value]> m)
| StepFull key blob : map_step m (USet key blob) (ADone FDB_SAVED_FULL) m
| StepSetNull key blob v : buf blob = None -> m !! key = Some v ->
    map_step m (USet key blob) (ADone FDB_NO_ERR) (delete key m)
| StepSetNone key blob : buf blob = None -> m !! key = None ->
    map_step m (USet key blob) (ADone FDB_KV_NAME_ERR) m
| StepDel key v : m !! key = Some v -> map_step m (UDel key) (ADone FDB_NO_ERR) (delete key m)
| StepDelNone key : m !! key = None -> map_step m (UDel key) (ADone FDB_KV_NAME_ERR) m.

Inductive map_steps : gmap (list Z) (list Z) -> list user_op -> list answer -> gmap (list Z) (list Z) -> Prop :=
| StepsNil m : map_steps m [] [] m
| StepsCons m o a m' os l m'' : map_step m o a m' -> map_steps m' os l m'' -> map_steps m (o :: os) (a :: l) m''.

Section map.
Context (G : geom) (HG : geom_ok G) (keys : list Z -> Prop) (Hkeys : key_set keys).
Context {W} {ST : Storage W} {SL : StorageLaws W} {IN : Indeterminate}.
Implicit Type d : fdb_kvdb W.
Notation triple := (triple (W:=W) G keys).

(** The arguments of the calls: keys of the database, buffers with their
    sizes, values whose records have a 32-bit length. *)
Definition op_ok (o : user_op) : Prop :=
  match o with
  | UGet key blob => keys key /\ exists b, buf blob = Some b /\ size blob = len b
  | USet key blob => keys key /\
      match buf blob with Some v => bytes v /\ size blob = len v /\ rec_len key v < 4294967296 | None => True end
  | UDel key => keys key
  end.

Definition run_op (o : user_op) : M (fdb_kvdb W) answer :=
  match o with
  | UGet key blob => r ← fdb_kv_get_blob key blob; mret (ARead (fst r) (snd r))
  | USet key blob => e ← fdb_kv_set_blob key blob; mret (ADone e)
  | UDel key => e ← fdb_kv_del key; mret (ADone e)
  end.

Fixpoint run_ops (os : list user_op) : M (fdb_kvdb W) (list answer) :=
  match os with
  | [] => mret []
  | o :: os => a ← run_op o; l ← run_ops os; mret (a :: l)
  end.

(** ** The representation *)

Definition kv_rep d (m : gmap (list Z) (list Z)) : Prop :=
  init_ok (parent d) = true /\ exists σ, rep G keys d σ /\ kstable σ /\ kv_map (k_secs σ) = m.

Lemma rep_lock_trace d σ l : rep G keys d σ -> rep G keys (set_parent (set_lock_trace l (parent d)) d) σ.
Proof. intros []. by split. Qed.

Lemma triple_locked {A} σ (p : M (fdb_kvdb W) A) Q : triple σ p Q -> triple σ (locked p) Q.
Proof.
  intros Hp d Hd. unfold locked, up, db_lock, db_unlock. apply wp_bind, wp_zoom, wp_modify.
  apply wp_bind. eapply wp_mono.
  { apply Hp. destruct (lock (parent d)); [by apply rep_lock_trace|by destruct d as [[]]]. }
  cbn beta. intros a d' (σ' & Hd' & HQ). apply wp_bind, wp_zoom, wp_modify, wp_ret. exists σ'. split; [|done].
  destruct (unlock (parent d')); [by apply rep_lock_trace|by destruct d' as [[]]].
Qed.

(** A public function that checks [init_ok] and locks once. *)
Lemma wp_call {A} d m σ (p : M (fdb_kvdb W) A) (Q : A -> kst -> Prop) :
  init_ok (parent d) = true -> rep G keys d σ -> locks 1 p ->
  wp p (fun r d' => exists σ', rep G keys d' σ' /\ Q r σ') d ->
  (forall r σ', Q r σ' -> kstable σ' /\ m r (kv_map (k_secs σ'))) ->
  wp p (fun r d' => exists m', kv_rep d' m' /\ m r m') d.
Proof.
  intros Hi Hd Hl Hp HQ. apply wp_run in Hp as (a & d' & E & σ' & Hd' & Hr). apply wp_run. exists a, d'.
  split; [done|]. destruct (HQ _ _ Hr) as [Hst Hm]. exists (kv_map (k_secs σ')). split; [|done].
  destruct (Hl _ _ _ E Hi) as [_ Hc]. unfold db_config in Hc. injection Hc as _ _ Hc _ _ _ _.
  split; [congruence|]. by exists σ'.
Qed.

Lemma wp_if_init {A} d (a : A) (p : M (fdb_kvdb W) A) Q :
  init_ok (parent d) = true -> wp p Q d -> wp (ok ← gets db_init_ok; if negb ok then mret a else p) Q d.
Proof. intros Hi Hp. apply wp_bind, wp_gets. unfold db_init_ok. by rewrite Hi. Qed.

(** ** The calls *)

Lemma key_rec_ok key v : keys key -> bytes v -> rec_len key v < 4294967296 -> rec_ok key v.
Proof.
  intros Hk Hv Hl. pose proof (ks_short _ Hkeys _ Hk). split; try done; [by apply Hkeys|unfold FDB_KV_NAME_MAX in *; lia].
Qed.

Lemma locks_mret {A B} n (p : M (fdb_kvdb W) A) (f : A -> B) : locks n p -> locks n (r ← p; mret (f r)).
Proof. intros Hp. apply locks_bind; [done|]. intros a d. by exists (f a). Qed.

(** The answers to the calls, and the maps after them. *)
Lemma run_get d m key blob :
  kv_rep d m -> op_ok (UGet key blob) ->
  wp (run_op (UGet key blob)) (fun a d' => exists m', kv_rep d' m' /\ map_step m (UGet key blob) a m') d.
Proof.
  intros (Hi & σ & Hd & Hst & <-) (Hk & b & Hb & Hsz). pose proof Hst as [_ _ Hpend _ _ Hu]. cbn [run_op].
  eapply (wp_call d _ σ _ (fun a σ' => σ' = σ /\ a = read_answer (kv_map (k_secs σ) !! key) b blob)); try done.
  - apply locks_mret, locks_get_blob.
  - apply wp_bind. unfold fdb_kv_get_blob. apply wp_if_init; [done|]. rewrite Hb, Hsz. apply wp_bind.
    eapply wp_mono; [apply (triple_locked σ); [|exact Hd]; by apply (triple_get_kv G HG keys Hkeys)|].
    cbn beta. intros r d' (σ' & Hd' & -> & ->). unfold read_answer. destruct (get_result _ b) as [[n b'] vlen].
    apply wp_ret, wp_ret. exists σ. by rewrite <- Hsz.
  - intros a σ' [-> ->]. split; [done|]. by constructor.
Qed.

Lemma run_del d m key :
  kv_rep d m -> op_ok (UDel key) ->
  wp (run_op (UDel key)) (fun a d' => exists m', kv_rep d' m' /\ map_step m (UDel key) a m') d.
Proof.
  intros (Hi & σ & Hd & Hst & <-) Hk. cbn [run_op].
  eapply (wp_call d _ σ _ (fun a σ' => exists e, a = ADone e /\ del_spec σ key e σ')); try done.
  - apply locks_mret, locks_del.
  - apply wp_bind. unfold fdb_kv_del. apply wp_if_init; [done|].
    eapply wp_mono; [apply (triple_locked σ); [|exact Hd]; by apply (triple_del_kv G HG keys Hkeys)|].
    cbn beta. intros e d' (σ' & Hd' & Hs). apply wp_ret. eauto.
  - intros a σ' (e & -> & Hst' & Hm & ->). split; [done|]. rewrite Hm.
    destruct (kv_map (k_secs σ) !! key) eqn:E; [by econstructor|]. rewrite delete_id by done. by constructor.
Qed.

Lemma run_set d m key blob :
  kv_rep d m -> op_ok (USet key blob) ->
  wp (run_op (USet key blob)) (fun a d' => exists m', kv_rep d' m' /\ map_step m (USet key blob) a m') d.
Proof.
  intros (Hi & σ & Hd & Hst & <-) [Hk Hb]. cbn [run_op].
  eapply (wp_call d _ σ _ (fun a σ' => exists e, a = ADone e /\
    match buf blob with Some v => set_result G σ key v e σ' | None => del_spec σ key e σ' end)); try done.
  - apply locks_mret, locks_set_blob.
  - apply wp_bind. unfold fdb_kv_set_blob. apply wp_if_init; [done|]. destruct (buf blob) as [v|].
    + destruct Hb as (Hv & -> & Hl).
      eapply wp_mono; [apply (triple_locked σ); [|exact Hd]; apply (triple_set_kv G HG keys Hkeys); [done..|by apply key_rec_ok]|].
      cbn beta. intros e d' (σ' & Hd' & Hs). apply wp_ret. eauto.
    + eapply wp_mono; [apply (triple_locked σ); [|exact Hd]; by apply (triple_del_kv G HG keys Hkeys)|].
      cbn beta. intros e d' (σ' & Hd' & Hs). apply wp_ret. eauto.
  - intros a σ' (e & -> & Hs). destruct (buf blob) as [v|] eqn:Eb.
    + destruct Hs as [Hst' [[-> Hm]|(-> & Hm & _)]]; (split; [done|]); rewrite Hm; by constructor.
    + destruct Hs as (Hst' & Hm & ->). split; [done|]. rewrite Hm.
      destruct (kv_map (k_secs σ) !! key) eqn:E; [by econstructor|]. rewrite delete_id by done. by constructor.
Qed.

(** C1: The database refines a finite map: started in a database that holds
    the map [m], any sequence of calls of [fdb_kv_get_blob], [fdb_kv_set_blob]
    and [fdb_kv_del] finishes, gives the answers that a run of the finite map
    gives, and leaves a database that holds the map at the end of that run.
    The space is allocated, the garbage collected and the caches used as in the
    code.  A call that sets may also answer that the database is full; then the
    map is unchanged. *)
Theorem kv_refines_map os d m :
  kv_rep d m -> Forall op_ok os ->
  wp (run_ops os) (fun l d' => exists m', kv_rep d' m' /\ map_steps m os l m') d.
Proof.
  intros Hd Hos. revert d m Hd. induction Hos as [|o os Ho _ IH]; intros d m Hd.
  - apply wp_ret. exists m. split; [done|constructor].
  - cbn [run_ops]. apply wp_bind. eapply wp_mono.
    { destruct o; [by apply run_get|by apply run_set|by apply run_del]. }
    cbn beta. intros a d1 (m1 & Hd1 & Hs). apply wp_bind. eapply wp_mono; [by apply IH|].
    cbn beta. intros l d2 (m2 & Hd2 & Hss). apply wp_ret. exists m2. split; [done|]. by econstructor.
Qed.
End map.
