(* ===== verification/KvItr.v ===== *)
(** Key-value database: the public iterator visits the written records. *)
From S2P Require Import Prelude FdbDef Crc32 Status FlashIO FlashSpec KvDef KvRead KvWrite KvApi KvRing KvCacheSpec.
From S2P Require Import KvSpec KvGetSpec KvState KvTriple KvBase KvLook KvSector KvIter KvFind.

Definition dead (r : krec) : Prop := kr_st r <> FDB_KV_WRITE.

Section itr.
Context (G : geom) (HG : geom_ok G) (keys : list Z -> Prop) (Hkeys : key_set keys).
Context {W} {ST : Storage W} {SL : StorageLaws W} {IN : Indeterminate}.
Implicit Type d : fdb_kvdb W.
Notation ss := (sec_size G).
Notation triple := (triple (W:=W) G keys).
Notation nsec := (nsec G).

(** ** The rest of a sector *)

(** The object for the record [j] of the sector, found from record [i] on. *)
Definition valid_from (k : nat) (s : ksec) (i : nat) (found : bool) (kv : fdb_kv) : Prop :=
  if found then exists j r, (i <= j)%nat /\ ks_recs s !! j = Some r /\ kr_st r = FDB_KV_WRITE /\
    Forall dead (take (j - i) (drop i (ks_recs s))) /\ kv_desc kv (raddr ss k (ks_recs s) j) r /\
    kv_status kv = FDB_KV_WRITE
  else Forall dead (drop i (ks_recs s)).

Lemma valid_from_S k s i r found kv :
  ks_recs s !! i = Some r -> dead r -> valid_from k s (S i) found kv -> valid_from k s i found kv.
Proof.
  intros Hi Hd. unfold valid_from. rewrite (drop_S _ _ _ Hi). destruct found; [|by constructor].
  intros (j & q & Hj & Hq & Hst & Hf & Hkv & Hs). exists j, q. split_and!; try done; [lia|].
  replace (j - i)%nat with (S (j - S i)) by lia. cbn [take]. by constructor.
Qed.

Lemma triple_iterate_valid σ k s x kv i :
  k_secs σ !! k = Some s -> info_at G k s x -> (i < length (ks_recs s))%nat ->
  kv_start kv = raddr ss k (ks_recs s) i -> length (kv_name kv) = 64%nat ->
  triple σ (iterate_valid x kv) (fun c σ' => σ' = σ /\ length (kv_name (snd c)) = 64%nat /\
    valid_from k s i (fst c) (snd c)).
Proof.
  intros Hk Hx Hi Hkv Hnm. apply triple_wf. intros Hwf.
  destruct (sec_lookup G HG keys _ _ _ Hwf Hk) as (Hlt & Hok & Hend). pose proof (ss_range G HG).
  unfold iterate_valid. apply triple_sec_size.
  eapply (triple_loop _ _
    (fun kv σ' => σ' = σ /\ exists j, (j < length (ks_recs s))%nat /\ kv_start kv = raddr ss k (ks_recs s) j /\
       length (kv_name kv) = 64%nat /\
       forall found kv', valid_from k s j found kv' -> valid_from k s i found kv')
    (fun kv _ => Z.to_nat (ss - (kv_start kv - Z.of_nat k * ss)))).
  - intros kv1 ? [-> (j & Hj & Hkv1 & Hnm1 & HI)]. destruct (lookup_lt_is_Some_2 _ _ Hj) as [r Hr].
    pose proof (rec_pos_intro G keys _ _ _ _ _ _ Hwf (conj Hk (conj Hr eq_refl))) as Hp.
    pose proof (rec_pos_range G HG _ _ _ _ _ _ _ Hp) as (Ha & Hm & Hl).
    pose proof (length_kv_name_of_rec kv1 (kr_st r) (kr_key r) (kr_val r) Hnm1) as Hnm2.
    pose proof (kv_of_rec_desc keys Hkeys kv1 _ r Hnm1 Hkv1 (proj1 (po_rec _ _ _ _ _ _ _ _ Hp))) as Hd.
    eapply triple_bind; [by eapply triple_read_kv|]. cbn beta. intros ? ? [-> ->]. cbn [snd].
    set (kv2 := kv_of_rec kv1 _ _ _) in *. change (kv_status kv2) with (kr_st r).
    rewrite (kd_crc _ _ _ Hd), andb_true_r. case_bool_decide as Hst.
    { apply triple_ret. split_and!; try done. apply HI. exists j, r. split_and!; try done.
      by rewrite Nat.sub_diag. }
    eapply triple_bind; [by eapply triple_get_next|]. cbn beta. intros nxt ? [-> ->].
    pose proof (raddr_S G k _ _ _ Hr) as ES. pose proof (po_hi _ _ _ _ _ _ _ _ Hp) as Hhi.
    unfold next_addr. case_decide as Hlast.
    + rewrite (proj2 (Z.eqb_neq _ _)) by (unfold FAILED_ADDR; ks_consts; lia).
      apply triple_ret. split; [split; [done|exists (S j); split_and!; try done]|].
      * intros found kv' Hv. apply HI. by eapply valid_from_S.
      * cbn [kv_start kv_set_start]. rewrite Hkv1. ks_consts. lia.
    + rewrite Z.eqb_refl. apply triple_ret. split_and!; try done. apply HI.
      unfold valid_from. rewrite (drop_S _ _ _ Hr). constructor; [done|]. by rewrite drop_ge by lia.
  - split; [done|]. exists i. by split_and!.
  - rewrite Hkv. unfold raddr. pose proof (recs_len_nonneg (take i (ks_recs s))). ks_consts. lia.
Qed.

(** ** The position of the iterator *)

(** The records that are still to be visited. *)
Definition itr_at (σ : kst) (itr : fdb_kv_iterator) (rest : list krec) : Prop :=
  exists t s later, let k := ring_idx nsec (k_old σ) t in
    (t < nsec)%nat /\ k_secs σ !! k = Some s /\ sector_addr itr = Z.of_nat k * ss /\
    traversed_len itr = Z.of_nat t * ss /\ length (kv_name (curr_kv itr)) = 64%nat /\
    later = all_recs (drop (S t) (rotate_secs (k_old σ) (k_secs σ))) /\
    (kv_start (curr_kv itr) = 0 /\ rest = ks_recs s ++ later \/
     exists j r, ks_recs s !! j = Some r /\ kv_desc (curr_kv itr) (raddr ss k (ks_recs s) j) r /\
       rest = drop (S j) (ks_recs s) ++ later).

Lemma itr_at_init σ itr :
  swf G keys σ -> length (kv_name (curr_kv itr)) = 64%nat -> kv_start (curr_kv itr) = 0 ->
  sector_addr itr = Z.of_nat (k_old σ) * ss -> traversed_len itr = 0 ->
  itr_at σ itr (ring_recs (k_secs σ) (k_old σ)).
Proof.
  intros Hwf Hnm Hst Ha Ht. pose proof (nsec_pos G HG). destruct Hwf as [W1 W2 W3].
  destruct (lookup_lt_is_Some_2 (k_secs σ) (k_old σ)) as [s Hs]; [lia|].
  exists 0%nat, s. eexists. rewrite ring_idx_0 by done. split_and!; try done; [lia|].
  left. split; [done|]. unfold ring_recs, rotate_secs. rewrite (drop_S _ _ _ Hs). cbn. by rewrite drop_0.
Qed.

(** One sector: what the body of the loop finds in it. *)
Definition step_in (x : kvdb_sec_info) (ok : bool) (itr : fdb_kv_iterator) : M (fdb_kvdb W) (bool * fdb_kv) :=
  let kv := curr_kv itr in
  if ok && (bool_decide (store x = FDB_SECTOR_STORE_USING) || bool_decide (store x = FDB_SECTOR_STORE_FULL))
  then
    if kv_start kv =? 0 then
      iterate_valid x (kv_set_start (u32 (addr x + SECTOR_HDR_DATA_SIZE)) kv)
    else
      next ← get_next_kv_addr x kv;
      if next =? FAILED_ADDR then mret (false, kv_set_start next kv)
      else iterate_valid x (kv_set_start next kv)
  else mret (false, kv).

Lemma triple_step_in σ k s x itr (i : nat) :
  k_secs σ !! k = Some s -> info_at G k s x -> length (kv_name (curr_kv itr)) = 64%nat ->
  (kv_start (curr_kv itr) = 0 /\ i = 0%nat \/
   exists j r, ks_recs s !! j = Some r /\ kv_desc (curr_kv itr) (raddr ss k (ks_recs s) j) r /\ i = S j) ->
  triple σ (step_in x true itr) (fun c σ' => σ' = σ /\ length (kv_name (snd c)) = 64%nat /\
    valid_from k s i (fst c) (snd c)).
Proof.
  intros Hk Hx Hnm Hpos. apply triple_wf. intros Hwf. unfold step_in. rewrite (in_store _ _ _ _ Hx). cbn [andb].
  destruct (sec_lookup G HG keys _ _ _ Hwf Hk) as (Hlt & Hok & Hend).
  destruct (sector_base G HG k Hlt) as (Hb1 & Hb2 & _). pose proof (ss_range G HG).
  unfold ks_store. destruct (ks_recs s) as [|r0 rs0] eqn:E.
  { cbn. apply triple_ret. split_and!; try done. unfold valid_from. cbn. rewrite E. by destruct i. }
  cbn [bool_decide orb]. rewrite bool_decide_eq_true_2 by done. cbn [orb].
  destruct Hpos as [[H0 ->]|(j & r & Hr & Hd & ->)].
  - rewrite H0, Z.eqb_refl, (in_addr _ _ _ _ Hx), u32_small by (ks_consts; lia).
    eapply triple_iterate_valid; try done; [by rewrite E; simpl; lia|]. cbn. by rewrite raddr_0.
  - rewrite <- E in *. pose proof (rec_pos_intro G keys _ _ _ _ _ _ Hwf (conj Hk (conj Hr eq_refl))) as Hp.
    pose proof (rec_pos_range G HG _ _ _ _ _ _ _ Hp) as (Ha & Hm & Hl).
    rewrite (kd_start _ _ _ Hd), (proj2 (Z.eqb_neq _ 0)) by lia.
    eapply triple_bind; [eapply triple_get_next; try done; by apply Hd|]. cbn beta. intros nxt ? [-> ->].
    pose proof (raddr_S G k _ _ _ Hr) as ES. unfold next_addr. case_decide as Hlast.
    + rewrite (proj2 (Z.eqb_neq _ _)) by (unfold FAILED_ADDR; ks_consts; lia). by eapply triple_iterate_valid.
    + rewrite Z.eqb_refl. apply triple_ret. split_and!; try done. unfold valid_from. cbn.
      by rewrite drop_ge by lia.
Qed.

Lemma drop_middle {A} (l : list A) i j x :
  (i <= j)%nat -> l !! j = Some x -> drop i l = take (j - i) (drop i l) ++ x :: drop (S j) l.
Proof.
  intros Hij Hx. rewrite <- (take_drop_middle (drop i l) (j - i) x) at 1.
  - f_equal. f_equal. rewrite drop_drop. f_equal. lia.
  - rewrite lookup_drop. by replace (i + (j - i))%nat with j by lia.
Qed.

(** ** One call *)

(** The object [kv] describes the written record [r] of the state. *)
Definition shows (σ : kst) (kv : fdb_kv) (r : krec) : Prop :=
  kr_st r = FDB_KV_WRITE /\ kv_status kv = FDB_KV_WRITE /\
  exists a k i s, rec_pos G keys σ a k i s r /\ kv_desc kv a r.

Definition iterated (σ : kst) (rest : list krec) (c : bool * fdb_kv_iterator) : Prop :=
  if fst c then exists skip r rest', rest = skip ++ r :: rest' /\ Forall dead skip /\
    itr_at σ (snd c) rest' /\ shows σ (curr_kv (snd c)) r
  else Forall dead rest.

Lemma iterated_skip σ skip rest c : Forall dead skip -> iterated σ rest c -> iterated σ (skip ++ rest) c.
Proof.
  intros Hs. unfold iterated. destruct (fst c).
  - intros (skip' & r & rest' & -> & Hs' & Hr). exists (skip ++ skip'), r, rest'.
    split_and!; [by rewrite <- app_assoc|by apply Forall_app|apply Hr..].
  - intros Hr. by apply Forall_app.
Qed.

Lemma itr_at_next σ t kv n1 n2 n3 :
  swf G keys σ -> (S t < nsec)%nat -> length (kv_name kv) = 64%nat -> kv_start kv = 0 ->
  itr_at σ (FdbKvIterator kv n1 n2 n3 (Z.of_nat (ring_idx nsec (k_old σ) (S t)) * ss) (Z.of_nat (S t) * ss))
    (all_recs (drop (S t) (rotate_secs (k_old σ) (k_secs σ)))).
Proof.
  intros Hwf Ht Hnm Hst. pose proof (nsec_pos G HG). pose proof (ring_idx_lt nsec (k_old σ) (S t) ltac:(lia)) as Hk.
  destruct (lookup_lt_is_Some_2 (k_secs σ) (ring_idx nsec (k_old σ) (S t))) as [s Hs]; [by rewrite (sw_len _ _ _ Hwf)|].
  exists (S t), s. eexists. split_and!; try done. left. split; [done|].
  assert (rotate_secs (k_old σ) (k_secs σ) !! S t = Some s) as Hrot.
  { rewrite rotate_lookup by (rewrite (sw_len _ _ _ Hwf); (done || apply Hwf)). by rewrite (sw_len _ _ _ Hwf). }
  by rewrite (drop_S _ _ _ Hrot).
Qed.

Lemma triple_iterate σ itr rest :
  itr_at σ itr rest -> triple σ (fdb_kv_iterate itr) (fun c σ' => σ' = σ /\ iterated σ rest c).
Proof.
  intros Hitr. apply triple_wf. intros Hwf. pose proof (nsec_pos G HG). pose proof (ss_range G HG).
  unfold fdb_kv_iterate. eapply triple_gets; [intros d Hd; apply (sector_fuel_nsec G), Hd|].
  eapply (triple_loop _ _
    (fun '(itr, x) σ' => σ' = σ /\ exists skip rest', rest = skip ++ rest' /\ Forall dead skip /\ itr_at σ itr rest')
    (fun '(itr, x) _ => (nsec - Z.to_nat (traversed_len itr / ss))%nat)).
  2:{ split; [done|]. by exists [], rest. }
  2:{ lia. }
  intros [itr1 x] ? [-> (skip & rest1 & -> & Hskip & t & s & later & Ht & Hs & Ha & Htr & Hnm & Hlater & Hpos)].
  set (k := ring_idx nsec (k_old σ) t) in *.
  apply triple_sec_size. rewrite Ha. eapply triple_bind; [by apply (triple_read_sector_info G HG keys σ k s)|].
  cbn beta. intros [e x'] ? (-> & He & Hx & _). cbn [fst snd] in *. subst e.
  assert (exists i, (kv_start (curr_kv itr1) = 0 /\ i = 0%nat \/
    exists j r, ks_recs s !! j = Some r /\ kv_desc (curr_kv itr1) (raddr ss k (ks_recs s) j) r /\ i = S j) /\
    rest1 = drop i (ks_recs s) ++ later) as (i & Hi & ->).
  { destruct Hpos as [[Hz ->]|(j & r & Hr & Hd & ->)]; [exists 0%nat|exists (S j)]; (split; [|done]); eauto 10. }
  eapply triple_bind; [by apply (triple_step_in σ k s x' itr1 i)|].
  cbn beta. intros [found kv] ? (-> & Hnm2 & Hv). cbn [fst snd] in *. destruct found.
  - apply triple_ret. split; [done|]. apply iterated_skip; [done|].
    destruct Hv as (j & r & Hij & Hr & Hst & Hf & Hd & Hkst).
    exists (take (j - i) (drop i (ks_recs s))), r, (drop (S j) (ks_recs s) ++ later). split_and!.
    + by rewrite (drop_middle _ _ _ _ Hij Hr) at 1; rewrite <- app_assoc.
    + done.
    + exists t, s, later. split_and!; try done. right. by exists j, r.
    + split_and!; try done. exists (raddr ss k (ks_recs s) j), k, j, s. split; [|done].
      by apply rec_pos_intro.
  - unfold valid_from in Hv. rewrite Htr.
    assert (u32 (Z.of_nat t * ss + ss) = Z.of_nat (S t) * ss) as ->.
    { pose proof (sector_base G HG t Ht) as (? & ? & _). rewrite u32_small; lia. }
    assert (Forall dead (skip ++ drop i (ks_recs s))) as Hskip2 by (by apply Forall_app).
    apply (triple_advance G HG keys σ x' k (k_old σ) t (fun a =>
      let itr := FdbKvIterator (kv_set_start 0 kv) (iterated_cnt itr1) (iterated_obj_bytes itr1)
                   (iterated_value_bytes itr1) a (Z.of_nat (S t) * ss) in
      if a =? FAILED_ADDR then mret (inr (false, itr)) else mret (inl (itr, x')))); [apply Hx|apply Hx|done|done| |]; intros Hlt.
    + pose proof (ring_idx_lt nsec (k_old σ) (S t) ltac:(lia)) as Hlt'.
      destruct (sector_base_used G HG _ Hlt') as [_ Hnf]. cbv zeta.
      rewrite (proj2 (Z.eqb_neq _ _)) by done. apply triple_ret. cbn [traversed_len].
      rewrite !Z.div_mul, !Nat2Z.id by lia. split; [|lia]. split; [done|].
      exists (skip ++ drop i (ks_recs s)), later. split_and!; [by rewrite <- app_assoc|done|].
      rewrite Hlater. by apply itr_at_next.
    + cbv zeta. rewrite Z.eqb_refl. apply triple_ret. split; [done|]. unfold iterated. cbn [fst].
      rewrite app_assoc. apply Forall_app. split; [done|]. rewrite Hlater, drop_ge; [done|].
      rewrite length_rotate, (sw_len _ _ _ Hwf). lia.
Qed.

(** ** All calls *)

(** The objects of the successful calls, until the call that fails. *)
Fixpoint iterate_all (n : nat) (itr : fdb_kv_iterator) : M (fdb_kvdb W) (list fdb_kv) :=
  match n with
  | O => mret []
  | S n =>
      c ← fdb_kv_iterate itr;
      if (fst c : bool) then l ← iterate_all n (snd c); mret (curr_kv (snd c) :: l) else mret []
  end.

Lemma filter_dead (l : list krec) : Forall dead l -> filter (fun r => kr_st r = FDB_KV_WRITE) l = [].
Proof. induction 1 as [|r l Hr _ IH]; [done|]. rewrite filter_cons, decide_False by done. done. Qed.

Lemma triple_iterate_all n σ itr rest :
  itr_at σ itr rest -> (length rest < n)%nat ->
  triple σ (iterate_all n itr) (fun l σ' => σ' = σ /\
    Forall2 (shows σ) l (filter (fun r => kr_st r = FDB_KV_WRITE) rest)).
Proof.
  revert itr rest. induction n as [|n IH]; intros itr rest Hitr Hn; [lia|]. cbn [iterate_all].
  eapply triple_bind; [by apply triple_iterate|]. cbn beta. intros [ok itr'] ? [-> Hit].
  unfold iterated in Hit. cbn [fst snd] in *. destruct ok.
  - destruct Hit as (skip & r & rest' & -> & Hskip & Hitr' & Hsh). rewrite length_app in Hn. cbn in Hn.
    eapply triple_bind; [apply (IH _ rest'); [done|lia]|]. cbn beta. intros l ? [-> Hl]. apply triple_ret.
    split; [done|]. rewrite filter_app, filter_dead, filter_cons, decide_True by (done || apply Hsh).
    by constructor.
  - apply triple_ret. split; [done|]. rewrite filter_dead by done. constructor.
Qed.
End itr.
