(* ===== verification/KvMapThm.v ===== *)
(** Key-value database: room for a value, and the iterator, as a user sees
    them; and a concrete database. *)
From S2P Require Import Prelude FdbDef Crc32 Status FlashIO FlashSpec FileIO FileSpec Disk KvDef KvRead KvWrite KvApi KvRing KvCacheSpec.
From S2P Require Import KvSpec KvGetSpec KvThm KvFrame KvApiThm KvState KvTriple KvBase KvLook KvIter KvFind KvAlloc KvGc.
From S2P Require Import KvStable KvSet KvMap KvItr.

Lemma keeps_iterate_valid {W} {ST : Storage W} {IN : Indeterminate} s kv : keeps (W:=W) (iterate_valid s kv).
Proof. unfold iterate_valid. keep. Qed.
#[local] Hint Resolve keeps_iterate_valid : frame.
Lemma keeps_iterate {W} {ST : Storage W} {IN : Indeterminate} itr : keeps (W:=W) (fdb_kv_iterate itr).
Proof. unfold fdb_kv_iterate. keep. Qed.
#[local] Hint Resolve keeps_iterate : frame.

(** ** The records and the map *)

Lemma omap_live (l : list krec) :
  omap live_rec l = (fun r => (kr_key r, kr_val r)) <$> filter (fun r => kr_st r = FDB_KV_WRITE) l.
Proof.
  induction l as [|r l IH]; [done|]. rewrite filter_cons. cbn. unfold live_rec at 1.
  case_decide; cbn; by rewrite IH.
Qed.

Lemma live_to_list secs : keys_unique secs -> live_recs secs ≡ₚ map_to_list (kv_map secs).
Proof. intros Hu. unfold kv_map. by rewrite map_to_list_to_map. Qed.

Lemma ring_perm secs o : ring_recs secs o ≡ₚ all_recs secs.
Proof. unfold ring_recs, all_recs. by rewrite rotate_perm. Qed.

Lemma recs_count keys n secs :
  64 <= n -> Forall (ksec_ok keys n) secs -> Z.of_nat (length (all_recs secs)) <= Z.of_nat (length secs) * n.
Proof.
  intros Hn. induction 1 as [|s secs Hs _ IH]; [done|]. cbn [all_recs mbind list_bind].
  change (secs ≫= ks_recs) with (all_recs secs). rewrite length_app. cbn [length].
  pose proof (ks_end_range _ _ _ Hn Hs). pose proof (recs_len_count (ks_recs s)). unfold ks_end in *. ks_consts. lia.
Qed.

Section map.
Context (G : geom) (HG : geom_ok G) (keys : list Z -> Prop) (Hkeys : key_set keys).
Context {W} {ST : Storage W} {SL : StorageLaws W} {IN : Indeterminate}.
Implicit Type d : fdb_kvdb W.

(** ** Room *)

(** C9: A value is stored when there is room: if a sector that is in use, or
    an empty one that is not the last, has the record's length and the reserve
    of [FDB_SEC_REMAIN_THRESHOLD] bytes free, then [fdb_kv_set_blob] answers
    [FDB_NO_ERR] and the database holds the map with the new value. *)
Theorem set_with_room d σ key blob value s :
  init_ok (parent d) = true -> rep G keys d σ -> kstable σ ->
  op_ok keys (USet key blob) -> buf blob = Some value ->
  s ∈ k_secs σ -> fits G (rec_len key value) s -> ks_recs s <> [] \/ (1 < n_empty (k_secs σ))%nat ->
  wp (fdb_kv_set_blob key blob) (fun e d' => e = FDB_NO_ERR /\
    kv_rep G keys d' (<[key := value]> (kv_map (k_secs σ)))) d.
Proof.
  intros Hi Hd Hst [Hk Hb] Eb Hs Hf Hroom. rewrite Eb in Hb. destruct Hb as (Hv & Hsz & Hl).
  eapply wp_mono.
  - eapply (wp_call G keys d (fun e m' => e = FDB_NO_ERR /\ m' = <[key := value]> (kv_map (k_secs σ))) σ _
      (fun e σ' => set_result G σ key value e σ')); try done.
    + apply locks_set_blob.
    + unfold fdb_kv_set_blob. apply wp_if_init; [done|]. rewrite Eb, Hsz.
      apply (triple_locked G keys σ); [|done]. apply (triple_set_kv G HG keys Hkeys); [done..|by apply (key_rec_ok keys Hkeys)].
    + intros e σ' [Hst' [[-> Hm]|(_ & _ & [Hno1 Hno2] & _)]]; [done|]. exfalso.
      destruct Hroom as [Hne|Hn]; [by apply (Hno1 s)|]. destruct Hno2 as [|Hno2]; [lia|by apply (Hno2 s)].
  - cbn beta. intros e d' (m' & Hd' & -> & ->). done.
Qed.

(** ** The iterator *)

(** What the object of the iterator says of a key and its value. *)
Definition object_of d (kv : fdb_kv) (p : list Z * list Z) : Prop :=
  kv_status kv = FDB_KV_WRITE /\ kv_crc_is_ok kv = true /\
  slice (kv_name kv) 0 (kv_name_len kv) = fst p /\ kv_value_len kv = len (snd p) /\
  exists m, kv_holds d m /\ slice m (kv_value kv) (kv_value_len kv) = snd p.

Lemma shows_object d σ kv r : rep G keys d σ -> shows G keys σ kv r -> object_of d kv (kr_key r, kr_val r).
Proof.
  intros Hd (Hst & Hkst & a & k & i & s & Hp & Hkv). destruct (rp_medium _ _ _ _ Hd) as (m & Hm & Hs).
  pose proof (rec_pos_at G keys _ _ _ _ _ _ _ Hp Hs) as (_ & _ & _ & Hval).
  destruct (kd_name _ _ _ Hkv) as [x Hx]. pose proof (len_nonneg (kr_key r)). unfold object_of. cbn [fst snd].
  rewrite (kd_name_len _ _ _ Hkv), (kd_value_len _ _ _ Hkv), (kd_value _ _ _ Hkv), (kd_crc _ _ _ Hkv).
  split_and!; try done; [by rewrite Hx, slice_app_l, slice_all by lia|]. exists m. by split.
Qed.

(** C10: Iteration enumerates the map: [fdb_kv_iterator_init], and
    [fdb_kv_iterate] called as long as it finds a record, give an object for
    every key of the database, exactly once, with its name, the address and
    length of its value, and nothing else; the database is unchanged.  (The
    number of calls is bounded by the size of the database.) *)
Theorem iterate_enumerates d m itr :
  kv_rep G keys d m -> length (kv_name (curr_kv itr)) = 64%nat ->
  wp (itr ← fdb_kv_iterator_init itr; iterate_all (S (Z.to_nat (max_size G))) itr) (fun l d' =>
    kv_rep G keys d' m /\ exists ps, ps ≡ₚ map_to_list m /\ Forall2 (object_of d') l ps) d.
Proof.
  intros (Hi & σ & Hd & Hst & <-) Hnm. pose proof (rp_wf _ _ _ _ Hd) as Hwf.
  assert (keeps (W:=W) (itr ← fdb_kv_iterator_init itr; iterate_all (S (Z.to_nat (max_size G))) itr)) as Hkeeps.
  { apply keeps_bind; [unfold fdb_kv_iterator_init; keep|]. intros itr'. generalize (S (Z.to_nat (max_size G))).
    intros n. revert itr'. induction n as [|n IH]; intros itr'; cbn [iterate_all]; keep; done. }
  assert (length (ring_recs (k_secs σ) (k_old σ)) < S (Z.to_nat (max_size G)))%nat as Hn.
  { rewrite ring_perm. pose proof (recs_count keys (sec_size G) (k_secs σ)) as Hc. pose proof (ss_range G HG).
    specialize (Hc ltac:(lia) (sw_ok _ _ _ Hwf)). rewrite (sw_len _ _ _ Hwf), (nsec_count G HG), <- (max_size_eq G HG) in Hc. lia. }
  assert (wp (itr ← fdb_kv_iterator_init itr; iterate_all (S (Z.to_nat (max_size G))) itr) (fun l d' =>
    exists σ', rep G keys d' σ' /\ (σ' = σ /\
    Forall2 (shows G keys σ) l (filter (fun r => kr_st r = FDB_KV_WRITE) (ring_recs (k_secs σ) (k_old σ))))) d) as Hwp.
  { apply wp_bind. unfold fdb_kv_iterator_init. apply wp_bind, wp_gets, wp_ret.
    apply (triple_iterate_all G HG keys Hkeys); [|exact Hn|exact Hd]. apply (itr_at_init G HG keys); try done. apply Hd. }
  apply wp_run in Hwp as (l & d' & E & σ' & Hd' & -> & Hl). apply wp_run. exists l, d'. split; [done|].
  pose proof (Hkeeps _ _ _ E) as Hf. injection Hf as _ _ Hf _ _ _ _. split.
  - split; [congruence|]. by exists σ.
  - exists (omap live_rec (ring_recs (k_secs σ) (k_old σ))). split.
    + rewrite ring_perm. by apply live_to_list, Hst.
    + rewrite omap_live. apply Forall2_fmap_r. eapply Forall2_impl; [exact Hl|]. intros kv r. by eapply shows_object.
Qed.
End map.
