(* ===== verification/KvBoot.v ===== *)
(** Key-value database: opening a database whose medium is that of a closed
    one; closing a database in files and opening it again. *)
From S2P Require Import Prelude FdbDef Crc32 Status FlashIO FlashSpec Mount KvDef KvRead KvWrite KvApi KvRing KvCacheSpec.
From S2P Require Import KvSpec KvGetSpec KvFrame KvState KvTriple KvBase KvLook KvSector KvIter KvFind KvDel KvAlloc KvGc KvCollect KvStable KvMap.

(** ** Caches without entries *)

Lemma scache_clean G secs t : Forall (fun x => addr x = FDB_DATA_UNUSED) t -> scache_ok G secs t.
Proof.
  intros Ht. split.
  - intros i j s s' Hi Hj _ Hs. by destruct Hs; eapply (Forall_lookup_1 _ _ _ _ Ht).
  - eapply Forall_impl; [exact Ht|]. intros x -> []. done.
Qed.

Lemma kcache_clean G secs pend t :
  length t = 64%nat -> Forall active_ok t -> Forall (fun n => kc_addr n = FDB_DATA_UNUSED) t -> kcache_ok G secs pend t.
Proof.
  intros Hl Ha Ht. split; try done.
  - intros i j x y _ _ Hy Hn. destruct Hn. by eapply (Forall_lookup_1 _ _ _ _ Ht).
  - eapply Forall_impl; [exact Ht|]. intros n -> []. done.
Qed.

Definition clean_nodes (t : list kv_cache_node) : list kv_cache_node :=
  map (fun n => KvCacheNode (kc_name_crc n) (kc_active n) FDB_DATA_UNUSED) t.

Lemma clean_nodes_ok G secs pend t : length t = 64%nat -> Forall active_ok t -> kcache_ok G secs pend (clean_nodes t).
Proof.
  intros Hl Ha. apply kcache_clean; unfold clean_nodes.
  - by rewrite length_map.
  - apply Forall_map. eapply Forall_impl; [exact Ha|]. done.
  - apply Forall_map. by apply Forall_true.
Qed.

(** ** What does not use the record cache

    The sectors are searched before the caches are emptied. *)
Section blind.
Context {W} {ST : Storage W} {IN : Indeterminate}.
Implicit Type d : fdb_kvdb W.

Definition blind {A} (p : M (fdb_kvdb W) A) : Prop :=
  forall d t, p (set_kv_cache_table t d) =
    match p d with Done (a, d') => Done (a, set_kv_cache_table t d') | Stuck w => Stuck w end.

Lemma blind_ret {A} (a : A) : blind (mret a).
Proof. done. Qed.
Lemma blind_bind {A B} (p : M (fdb_kvdb W) A) (k : A -> M (fdb_kvdb W) B) :
  blind p -> (forall a, blind (k a)) -> blind (p ≫= k).
Proof.
  intros Hp Hk d t. unfold mbind, M_bind. rewrite Hp. destruct (p d) as [[a d']|]; [apply Hk|done].
Qed.
Lemma blind_gets {A} (f : fdb_kvdb W -> A) : (forall d t, f (set_kv_cache_table t d) = f d) -> blind (gets f).
Proof. intros Hf d t. unfold gets. by rewrite Hf. Qed.
Lemma blind_id {B} (k : fdb_kvdb W -> M (fdb_kvdb W) B) :
  (forall d t, k (set_kv_cache_table t d) = k d) -> (forall d, blind (k d)) -> blind (gets id ≫= k).
Proof. intros Hk Hb d t. unfold mbind, M_bind, gets, id. rewrite Hk. apply Hb. Qed.
Lemma blind_modify f : (forall d t, f (set_kv_cache_table t d) = set_kv_cache_table t (f d)) -> blind (modify f).
Proof. intros Hf d t. unfold modify. by rewrite Hf. Qed.
Lemma blind_stuck {A} w : blind (@stuck_at (fdb_kvdb W) A w).
Proof. done. Qed.
Lemma blind_assert b : blind (@fdb_assert (fdb_kvdb W) b).
Proof. by destruct b. Qed.
Lemma blind_up {A} (p : M (fdb_db W) A) : blind (up p).
Proof. intros d t. unfold up, zoom. cbn. by destruct (p (parent d)) as [[a db]|]. Qed.
Lemma blind_loop {X R} fuel (body : X -> M (fdb_kvdb W) (X + R)) x : (forall x, blind (body x)) -> blind (loop fuel body x).
Proof.
  intros Hb. revert x. induction fuel as [|fuel IH]; intros x; [done|]. cbn [loop].
  apply blind_bind; [done|]. intros [y|r]; [apply IH|apply blind_ret].
Qed.
End blind.

Create HintDb blind.
Ltac blind_step :=
  lazymatch goal with
  | |- forall _, _ => intros ?
  | |- blind (mbind _ (gets id)) => apply blind_id; [intros ? ?; reflexivity|]
  | |- blind (mbind _ _) => apply blind_bind
  | |- blind (mret _) => apply blind_ret
  | |- blind (gets _) => apply blind_gets; [intros ? ?; reflexivity]
  | |- blind (modify _) => apply blind_modify; [intros ? ?; reflexivity]
  | |- blind (stuck_at _) => apply blind_stuck
  | |- blind (fdb_assert _) => apply blind_assert
  | |- blind (up _) => apply blind_up
  | |- blind (loop _ _ _) => apply blind_loop
  | |- blind (match ?x with _ => _ end) => destruct x
  | |- _ => solve [auto 3 with blind]
  end.
Ltac blind := repeat blind_step.

Section blind_ops.
Context {W} {ST : Storage W} {IN : Indeterminate}.

Lemma blind_find_next a e : blind (W:=W) (find_next_kv_addr a e).
Proof. unfold find_next_kv_addr, get_sector_from_cache. blind. Qed.
#[local] Hint Resolve blind_find_next : blind.
Lemma blind_get_next s k : blind (W:=W) (get_next_kv_addr s k).
Proof. unfold get_next_kv_addr, get_sector_from_cache. blind. Qed.
Lemma blind_read_crc a n c : blind (W:=W) (read_crc a n c).
Proof. unfold read_crc. blind. Qed.
#[local] Hint Resolve blind_get_next blind_read_crc : blind.
Lemma blind_read_kv k : blind (W:=W) (read_kv k).
Proof. unfold read_kv. blind. Qed.
#[local] Hint Resolve blind_read_kv : blind.
Lemma blind_read_sector_info a s t : blind (W:=W) (read_sector_info a s t).
Proof.
  unfold read_sector_info, get_sector_from_cache, traverse_sector, read_sector_kvs, update_sector_cache. blind.
Qed.
#[local] Hint Resolve blind_read_sector_info : blind.

Lemma blind_check_oldest s st arg : blind (W:=W) (sector_iterator s st arg (Some check_oldest_addr_cb) false).
Proof. unfold sector_iterator, check_oldest_addr_cb. blind. Qed.
End blind_ops.

Section boot.
Context (G : geom) (HG : geom_ok G) (keys : list Z -> Prop) (Hkeys : key_set keys).
Context {W} {ST : Storage W} {SL : StorageLaws W} {IN : Indeterminate} {KB : KvBuild}.
Implicit Type d : fdb_kvdb W.
Notation ss := (sec_size G).
Notation triple := (triple (W:=W) G keys).
Notation nsec := (nsec G).

(** ** Loading a database that was closed between two calls *)

Lemma triple_set_rec σ b : triple σ (modify (set_in_recovery_check b)) (fun _ σ' => σ' = with_rec b σ).
Proof. apply triple_modify with (with_rec b σ); [|done]. intros d [R1 [] R3 R4 R5 R6 R7 R8 R9 R10 R11]. by split. Qed.

(** The passes over the sectors find nothing to do. *)
Lemma triple_check_hdr σ x :
  triple σ (sector_iterator x FDB_SECTOR_STORE_UNUSED 0 (Some check_sec_hdr_cb) false)
    (fun r σ' => σ' = σ /\ snd r = 0).
Proof.
  apply (triple_sector_iterator G HG keys σ x _ _ _ _ (fun _ arg σ' => σ' = σ /\ arg = 0)).
  - done.
  - intros t arg ? k s y Ht [-> ->] Hk Hs Hy _ _. unfold check_sec_hdr_cb. rewrite (in_ok _ _ _ _ Hy).
    by apply triple_ret.
  - intros t arg ? k s Ht [-> ->] _ _ _. done.
  - intros y arg ? [-> ->]. done.
Qed.

Lemma triple_recover_gc σ x :
  Forall (fun s => ks_dirty s <> FDB_SECTOR_DIRTY_GC) (k_secs σ) ->
  triple σ (sector_iterator x FDB_SECTOR_STORE_UNUSED tt (Some check_and_recovery_gc_cb) false)
    (fun _ σ' => σ' = σ).
Proof.
  intros Hst. apply (triple_sector_iterator G HG keys σ x _ _ _ _ (fun _ _ σ' => σ' = σ)).
  - done.
  - intros t arg ? k s y Ht -> Hk Hs Hy _ _. unfold check_and_recovery_gc_cb.
    pose proof (Forall_lookup_1 _ _ _ _ Hst Hs) as Hd. cbn in Hd.
    assert (dirty y <> FDB_SECTOR_DIRTY_GC) as Hy' by (destruct (in_dirty _ _ _ _ Hy) as [E|[E _]]; congruence).
    rewrite bool_decide_eq_false_2, andb_false_r by done.
    eapply triple_bind with (R := fun _ σ' => σ' = σ); [by apply triple_ret|]. cbn beta. intros _ ? ->.
    by apply triple_ret.
  - done.
  - done.
Qed.

Lemma all_recs_settled secs r : Forall sec_stable secs -> r ∈ all_recs secs -> settled r.
Proof.
  intros Hst Hr. apply elem_of_all_recs in Hr as (k & s & i & Hk & Hi).
  destruct (Forall_lookup_1 _ _ _ _ Hst Hk) as [H _]. by eapply (Forall_lookup_1 _ _ _ _ H).
Qed.

(** A settled record is not touched; the record cache learns its place. *)
Lemma triple_check_settled σ a k i s r kv arg :
  k_pend σ = None -> settled r -> rec_pos G keys σ a k i s r -> length (kv_name kv) = 64%nat -> kv_start kv = a ->
  triple σ (check_and_recovery_kv_cb (kv_of_rec kv (kr_st r) (kr_key r) (kr_val r)) arg)
    (fun c σ' => σ' = σ /\ fst c = false).
Proof.
  intros Hpend Hr Hp Hnm Hs. set (kv' := kv_of_rec _ _ _ _).
  pose proof (kv_of_rec_desc keys Hkeys kv a r Hnm Hs (proj1 (po_rec _ _ _ _ _ _ _ _ Hp))) as Hd. fold kv' in Hd.
  unfold check_and_recovery_kv_cb. rewrite (kd_crc _ _ _ Hd). change (kv_status kv') with (kr_st r). cbn [andb].
  destruct Hr as [Hr|Hr]; rewrite Hr; cbn; [|by apply triple_ret].
  eapply triple_bind with (R := fun _ σ' => σ' = σ); [|cbn beta; intros _ ? ->; by apply triple_ret].
  destruct (kd_name _ _ _ Hd) as [x Hx].
  eapply triple_mono; [eapply (triple_update_kv_cache_found G HG keys σ (kr_key r) _ _ k i s r); try done; [by left|by rewrite Hs]|].
  cbn beta. intros _ ? ->. by apply with_pend_id.
Qed.

(** The pass over the records fills the record cache. *)
Lemma triple_recover_kv σ kv :
  Forall sec_stable (k_secs σ) -> k_pend σ = None -> length (kv_name kv) = 64%nat ->
  triple σ (kv_iterator kv tt (Some check_and_recovery_kv_cb)) (fun _ σ' => σ' = σ).
Proof.
  intros Hst Hpend Hnm. eapply triple_mono.
  - apply (triple_kv_iterator G HG keys σ check_and_recovery_kv_cb (fun _ _ => True) (fun _ => True)); [|done..].
    intros vs r rest a k i s kv1 arg Hring Hp _ Hnm1 Hs kv'.
    eapply triple_mono; [eapply (triple_check_settled σ a k i s r kv1 arg); try done|].
    + apply (all_recs_settled _ r Hst). by eapply rec_pos_elem.
    + cbn beta. intros c σ' [-> ->]. done.
  - cbn beta. tauto.
Qed.

(** What [_fdb_kv_load] does after the formatting of the sectors without a
    header. *)
Definition load_rest (x : kvdb_sec_info) (retries : nat) : M (fdb_kvdb W) fdb_err_t :=
  sector_iterator x FDB_SECTOR_STORE_UNUSED tt (Some check_and_recovery_gc_cb) false;;
  loop retries
    (fun kv =>
       r ← kv_iterator kv tt (Some check_and_recovery_kv_cb);
       gc ← gets gc_request;
       if (gc : bool) then gc_collect;; mret (inl (fst r)) else mret (inr tt))
    indet_kv;;
  modify (set_in_recovery_check false);;
  mret FDB_NO_ERR.

(** There is no collection to resume, and the pass over the records ends in a
    state between two calls of which [R] holds. *)
Record passes (R : kst -> Prop) (σ : kst) : Prop := {
  pa_no_gc : Forall (fun s => ks_dirty s <> FDB_SECTOR_DIRTY_GC) (k_secs σ);
  pa_pass : triple σ (kv_iterator indet_kv tt (Some check_and_recovery_kv_cb)) (fun _ σ' => R σ');
  pa_stable : forall σ', R σ' -> kstable σ';
}.

Lemma kstable_rec b σ : kstable σ -> kstable (with_rec b σ).
Proof. by intros []. Qed.

Lemma triple_load_rest R σ x retries :
  passes R σ -> (0 < retries)%nat ->
  triple σ (load_rest x retries) (fun r σ' => r = FDB_NO_ERR /\ exists σ1, R σ1 /\ σ' = with_rec false σ1).
Proof.
  intros [Hst Hpass HR] Hr.
  eapply triple_bind; [by apply triple_recover_gc|]. cbn beta. intros _ ? ->.
  eapply triple_bind with (R := fun _ σ' => R σ').
  - destruct retries as [|retries]; [lia|]. cbn [loop].
    eapply triple_bind with (R := fun r σ' => r = inr tt /\ R σ').
    + eapply triple_bind; [exact Hpass|]. cbn beta. intros r σ1 H1. apply triple_gc. rewrite (kt_gc _ (HR _ H1)).
      by apply triple_ret.
    + cbn beta. intros r σ1 [-> H1]. by apply triple_ret.
  - cbn beta. intros _ σ1 H1. eapply triple_bind; [apply triple_set_rec|]. cbn beta. intros _ ? ->.
    apply triple_ret. eauto.
Qed.

Lemma stable_passes σ : kstable σ -> passes (fun σ' => σ' = σ) σ.
Proof.
  intros Hst. pose proof Hst as [H1 H2 H3 H4 H5 H6]. split; [|apply triple_recover_kv; [done..|by apply length_indet_buf]|by intros ? ->].
  eapply Forall_impl; [exact H4|]. intros s [_ [E|[E _]]]; by rewrite E.
Qed.

Lemma triple_load R σ retries :
  passes R (with_rec true σ) -> (0 < retries)%nat ->
  triple σ (_fdb_kv_load retries) (fun r σ' => r = FDB_NO_ERR /\ exists σ1, R σ1 /\ σ' = with_rec false σ1).
Proof.
  intros Hst Hr. unfold _fdb_kv_load. pose proof (ss_range G HG). pose proof (sector_count_two G HG).
  eapply triple_bind; [apply triple_set_rec|]. cbn beta. intros _ ? ->. set (σ1 := with_rec true σ) in *.
  eapply triple_bind; [apply triple_check_hdr|]. cbn beta. intros [x n] ? [-> Hn]. cbn [snd] in Hn. subst n.
  apply triple_gets_some with (P := fun _ => True); [done|]. intros nf _. rewrite andb_false_r.
  apply (triple_gets G keys σ1 _ (sector_count G)); [intros d Hd; unfold kv_max_size, kv_sec_size; by rewrite (rp_geo _ _ _ _ Hd)|].
  rewrite (proj2 (Z.eqb_neq 0 _)) by lia.
  eapply triple_bind with (R := fun _ σ' => σ' = σ1); [by apply triple_ret|]. cbn beta. intros _ ? ->.
  by apply (triple_load_rest R σ1).
Qed.

(** ** The search for the oldest sector *)

(** A database that is being opened, before its caches are emptied. *)
Record opening d (m : list Z) : Prop := {
  op_geo : geo (parent d) = G;
  op_holds : kv_holds d m;
  op_gc : gc_request d = false;
  op_rec : in_recovery_check d = false;
  op_last : last_is_complete_del d = false;
  op_kv : length (kv_name (cur_kv d)) = 64%nat;
  op_nodes : length (kv_cache_table d) = 64%nat;
  op_active : Forall active_ok (kv_cache_table d);
}.

Definition open_state d (secs : list ksec) (o : nat) : kst :=
  Kst secs o false false false None (cur_sector d).

Lemma opening_rep d m secs o t t' :
  opening d m -> secs_at ss m secs -> length secs = nsec -> Forall (ksec_ok keys ss) secs -> (o < nsec)%nat ->
  oldest_addr (parent d) = Z.of_nat o * ss -> scache_ok G secs t -> kcache_ok G secs None t' ->
  rep G keys (set_kv_cache_table t' (set_sector_cache_table t d)) (open_state d secs o).
Proof. intros [] ? ? ? ? ? ? ?. split; try done. by exists m. Qed.

Lemma opening_back d m d' t σ :
  opening d m -> rep G keys (set_kv_cache_table t d') σ -> kv_cache_table d' = kv_cache_table d ->
  k_gc σ = false -> k_rec σ = false -> k_last σ = false ->
  exists m', opening d' m' /\ secs_at ss m' (k_secs σ).
Proof.
  intros [] [R1 R2 (m' & Hm & Hs) R4 R5 R6 R7 R8 R9 R10 R11] Ht Hg Hr Hl. exists m'. split; [|done].
  split; cbn in *; try done; congruence.
Qed.

Lemma triple_oldest σ x :
  triple σ (sector_iterator x FDB_SECTOR_STORE_UNUSED (0, FDB_SECTOR_STORE_UNUSED) (Some check_oldest_addr_cb) false)
    (fun r σ' => σ' = σ /\ base_of G (fst (snd r))).
Proof.
  pose proof (nsec_pos G HG).
  apply (triple_sector_iterator G HG keys σ x _ _ _ _ (fun _ arg σ' => σ' = σ /\ base_of G (fst arg))).
  - split; [done|]. exists 0%nat. split; [lia|done].
  - intros t [a st] ? k s y Ht [-> Hb] Hk Hs Hy _ _. unfold check_oldest_addr_cb. apply triple_ret. cbn [fst snd] in *.
    split; [done|]. destruct (_ && _); [|done]. exists k. split; [subst k; apply ring_idx_lt; lia|by destruct Hy].
  - intros t arg ? k s Ht [-> Hb] _ _ _. done.
  - intros y arg ? [-> Hb]. done.
Qed.

(** The structure is full of zeros: the search sees the same sector again
    and again. *)
Definition zero_entry (t : list kvdb_sec_info) : Prop :=
  exists i x, list_find (fun x => addr x = 0) t = Some (i, x) /\ combined x = 0 /\ store x = FDB_SECTOR_STORE_UNUSED.

Lemma wp_oldest_zero d m x :
  opening d m -> zero_entry (sector_cache_table d) -> oldest_addr (parent d) = 0 ->
  wp (sector_iterator x FDB_SECTOR_STORE_UNUSED (0, FDB_SECTOR_STORE_UNUSED) (Some check_oldest_addr_cb) false)
    (fun r d' => d' = d /\ fst (snd r) = 0) d.
Proof.
  intros Hd (i & z & Hz & Hc & Hst) Ho. pose proof (nsec_pos G HG). pose proof (ss_range G HG) as Hss.
  pose proof (nsec_count G HG) as Hn. pose proof (max_size_eq G HG) as Hmax. rewrite <- Hn in Hmax.
  unfold sector_iterator. apply wp_bind, wp_gets. change (db_oldest_addr d) with (oldest_addr (parent d)). rewrite Ho.
  apply wp_bind, wp_gets. rewrite (sector_fuel_nsec G d (op_geo _ _ Hd)).
  eapply (wp_loop (fun '(a, tr, y, arg) d' => d' = d /\ a = 0 /\ arg = (0, FDB_SECTOR_STORE_UNUSED) /\
      exists t : nat, (t <= nsec)%nat /\ tr = Z.of_nat t * ss)
    (fun '(a, tr, y, arg) _ => (nsec + 1 - Z.to_nat (tr / ss))%nat)).
  2:{ split_and!; try done. exists 0%nat. split; [lia|done]. }
  2:{ rewrite Z.div_0_l by lia. lia. }
  intros [[[a tr] y] arg] d' (-> & -> & -> & t & Ht & ->).
  apply wp_bind, wp_gets. unfold kv_sec_size at 1 2. rewrite (op_geo _ _ Hd).
  assert (Z.of_nat t * ss <= max_size G) as Htm by (rewrite Hmax; nia).
  assert (u32 (Z.of_nat t * ss + ss) = Z.of_nat (S t) * ss) as Etr by (rewrite u32_small; lia).
  rewrite Etr. apply wp_bind. unfold read_sector_info. apply wp_bind, wp_gets. unfold kv_sec_size. rewrite (op_geo _ _ Hd).
  rewrite (proj2 (Z.eqb_neq ss 0)) by lia. apply wp_bind, wp_assert; [by rewrite Z.mod_0_l by lia|].
  apply wp_bind. unfold get_sector_from_cache. apply wp_gets. rewrite Hz. cbn [negb orb]. apply wp_ret. cbn [snd].
  rewrite bool_decide_eq_true_2 by done. cbn [orb]. apply wp_bind, wp_bind, wp_ret.
  apply wp_bind. unfold check_oldest_addr_cb. apply wp_ret, wp_ret. cbn [fst snd]. rewrite Hst.
  rewrite (bool_decide_eq_false_2 (FDB_SECTOR_STORE_UNUSED = FDB_SECTOR_STORE_EMPTY)) by done. cbn [andb].
  apply wp_bind, wp_gets. unfold get_next_sector_addr, kv_max_size, kv_sec_size, id. rewrite Hc, (op_geo _ _ Hd).
  cbn [Z.eqb SECTOR_NOT_COMBINED]. rewrite Etr. change (u32 (0 * ss)) with 0. rewrite !Z.add_0_r.
  pose proof (list_find_Some (fun x => addr x = 0) (sector_cache_table d) i z) as [Hf _].
  destruct (Hf Hz) as (_ & Haz & _). rewrite Haz. change (u32 0) with 0.
  rewrite (u32_small (Z.of_nat (S t) * ss)), (proj2 (Z.ltb_lt 0 _)) by lia.
  destruct (Z.leb_spec (Z.of_nat (S t) * ss) (max_size G)) as [Hle|Hgt].
  - apply wp_ret. rewrite !Z.div_mul, !Nat2Z.id by lia.
    assert (S t <= nsec)%nat by (rewrite Hmax in Hle; nia). split; [|lia]. split_and!; try done. by exists (S t).
  - rewrite Z.eqb_refl. by apply wp_ret.
Qed.

Lemma blind_run {A} (p : M (fdb_kvdb W) A) d t a d' :
  blind p -> p (set_kv_cache_table t d) = Done (a, d') ->
  exists d1, p d = Done (a, d1) /\ d' = set_kv_cache_table t d1 /\ kv_cache_table d1 = kv_cache_table d.
Proof.
  intros Hb H. rewrite Hb in H. destruct (p d) as [[a1 d1]|] eqn:E; [|done]. injection H as -> <-.
  exists d1. split_and!; try done. pose proof (Hb d (kv_cache_table d)) as H.
  assert (set_kv_cache_table (kv_cache_table d) d = d) as Ed by (by destruct d). rewrite Ed, E in H.
  injection H as H. rewrite H at 1. done.
Qed.

Context (secs : list ksec) (Hlen : length secs = nsec) (Hsecs : Forall (ksec_ok keys ss) secs).

Lemma wp_oldest d m x :
  opening d m -> secs_at ss m secs -> oldest_addr (parent d) = 0 ->
  scache_ok G secs (sector_cache_table d) \/ zero_entry (sector_cache_table d) ->
  wp (sector_iterator x FDB_SECTOR_STORE_UNUSED (0, FDB_SECTOR_STORE_UNUSED) (Some check_oldest_addr_cb) false)
    (fun r d' => base_of G (fst (snd r)) /\ exists m', opening d' m' /\ secs_at ss m' secs) d.
Proof.
  intros Hd Hm Ho Hc. pose proof (nsec_pos G HG) as Hn. destruct Hc as [Hc|Hz].
  2:{ eapply wp_mono; [by eapply wp_oldest_zero|]. cbn beta. intros r ? [-> Hb]. split; [|by exists m].
    exists 0%nat. split; [lia|exact Hb]. } set (t := clean_nodes (kv_cache_table d)).
  assert (rep G keys (set_kv_cache_table t d) (open_state d secs 0)) as Hrep.
  { rewrite <- (set_sct_id d) at 1. eapply opening_rep; try done; [lia|]. by apply clean_nodes_ok; apply Hd. }
  pose proof (triple_oldest (open_state d secs 0) x _ Hrep) as Hwp. apply wp_run in Hwp as (r & d' & E & σ' & Hd' & -> & Hb).
  destruct (blind_run _ _ _ _ _ (blind_check_oldest x _ _) E) as (d1 & E1 & -> & Ht).
  apply wp_run. exists r, d1. split; [done|]. split; [done|]. by eapply (opening_back d m d1 t (open_state d secs 0)).
Qed.

(** ** Opening *)

Lemma opening_parent d m db :
  opening d m -> geo db = G -> dbio db = dbio (parent d) -> opening (set_parent db d) m.
Proof.
  intros [] Hg Hi. split; try done. unfold kv_holds, db_holds in *. cbn. rewrite Hi, Hg. by rewrite <- op_geo0.
Qed.

End boot.

(** ** The initialisation *)

Section init.
Context (keys : list Z -> Prop) (Hkeys : key_set keys).
Context {W} {ST : Storage W} {SL : StorageLaws W} {IN : Indeterminate} {KB : KvBuild}.
Implicit Type d : fdb_kvdb W.

Lemma wp_lock d (b : bool) Q :
  (forall db, geo db = geo (parent d) -> dbio db = dbio (parent d) -> oldest_addr db = oldest_addr (parent d) ->
     not_formatable db = not_formatable (parent d) -> Q tt (set_parent db d)) ->
  wp (up (if b then db_lock else db_unlock)) Q d.
Proof. intros HQ. destruct b; apply wp_zoom, wp_modify, HQ; by case_match. Qed.

Lemma triple_lock G σ (b : bool) :
  triple (W:=W) G keys σ (up (if b then db_lock else db_unlock)) (fun _ σ' => σ' = σ).
Proof.
  intros d Hd. destruct b; apply wp_zoom, wp_modify; exists σ; (split; [|done]).
  - destruct (lock (parent d)); [by apply rep_lock_trace|by destruct d as [[]]].
  - destruct (unlock (parent d)); [by apply rep_lock_trace|by destruct d as [[]]].
Qed.

(** The structure passed to [fdb_kvdb_init]: the parts that the function does
    not set.  The sector cache is empty, or still that of the same medium, or
    full of zeros. *)
Record bootable d (secs : list ksec) (G : geom) : Prop := {
  bo_last : last_is_complete_del d = false;
  bo_kv : length (kv_name (cur_kv d)) = 64%nat;
  bo_nodes : length (kv_cache_table d) = 64%nat;
  bo_active : Forall active_ok (kv_cache_table d);
  bo_cache : scache_ok G secs (sector_cache_table d) \/ zero_entry (sector_cache_table d);
}.

(** A medium with the sectors [secs]. *)
Record sectors_on (G : geom) (m : list Z) (secs : list ksec) : Prop := {
  on_len : length secs = nsec G;
  on_ok : Forall (ksec_ok keys (sec_size G)) secs;
  on_at : secs_at (sec_size G) m secs;
}.

(** What [fdb_kvdb_init] does around the search for the oldest sector and the
    loading: [P] is what the search leaves. *)
Definition emptied (d : fdb_kvdb W) db t : fdb_kvdb W :=
  set_kv_cache_table (clean_nodes (kv_cache_table d)) (set_sector_cache_table t (set_parent db d)).

Lemma wp_kvdb_init (MP : gmap (list Z) (list Z) -> Prop) retries nm path dk u d dbm m (P : nat -> fdb_kvdb W -> list Z -> Prop) :
  let G := geo dbm in
  opens nm path FDB_DB_TYPE_KV u (parent d) dbm m -> FDB_KV_AUTO_UPDATE = false ->
  last_is_complete_del d = false -> length (kv_name (cur_kv d)) = 64%nat ->
  length (kv_cache_table d) = 64%nat -> Forall active_ok (kv_cache_table d) ->
  (forall d1 x, opening G d1 m -> oldest_addr (parent d1) = 0 -> sector_cache_table d1 = sector_cache_table d ->
     default_kvs d1 = default [] dk -> not_formatable (parent d1) = not_formatable (parent d) ->
     wp (sector_iterator x FDB_SECTOR_STORE_UNUSED (0, FDB_SECTOR_STORE_UNUSED) (Some check_oldest_addr_cb) false)
       (fun r d2 => exists o m2, (o < nsec G)%nat /\ fst (snd r) = Z.of_nat o * sec_size G /\ opening G d2 m2 /\ P o d2 m2) d1) ->
  (forall d2 m2 o db t, opening G d2 m2 -> P o d2 m2 -> (o < nsec G)%nat ->
     geo db = G -> dbio db = dbio (parent d2) -> oldest_addr db = Z.of_nat o * sec_size G ->
     not_formatable db = not_formatable (parent d2) -> Forall (fun x => addr x = FDB_DATA_UNUSED) t ->
     wp (_fdb_kv_load retries) (fun r d' => r = FDB_NO_ERR /\
       exists σ, rep G keys d' σ /\ kstable σ /\ MP (kv_map (k_secs σ))) (emptied d2 db t)) ->
  wp (fdb_kvdb_init retries nm path dk u) (fun r d' => r = FDB_NO_ERR /\ exists mp, kv_rep G keys d' mp /\ MP mp) d.
Proof.
  intros G Hmt Hau B1 B2 B3 B4 Hsearch Hload. pose proof (os_holds _ _ _ _ _ _ _ Hmt) as Hm.
  pose proof (holds_geom _ _ _ Hm) as HG. fold G in HG.
  unfold fdb_kvdb_init. apply wp_bind, wp_assert; [done|].
  apply wp_bind, wp_zoom. eapply wp_opens; [exact Hmt|]. rewrite decide_True by done.
  set (d0 := set_parent _ d). apply wp_bind, wp_bind, (wp_lock _ true). intros db Hg Hi _ Hf.
  apply wp_bind, wp_modify, wp_bind, wp_modify. set (d1 := set_parent (set_oldest_addr 0 _) _).
  assert (opening G d1 m) as H1.
  { split; try done. unfold kv_holds, db_holds. cbn. rewrite Hg, Hi. exact Hm. }
  pose proof (nsec_count G HG) as Hn. pose proof (sector_count_two G HG).
  apply wp_bind. eapply wp_mono; [apply (Hsearch d1); try done; etrans; [exact Hf|apply (os_format _ _ _ _ _ _ _ Hmt)]|].
  intros r d2 (o & m2 & Ho & Eo & H2 & HP2). apply wp_bind, wp_modify. rewrite Eo.
  apply wp_bind, wp_gets. unfold kv_max_size, kv_sec_size.
  change (geo (parent (set_parent _ d2))) with (geo (parent d2)). rewrite (op_geo _ _ _ H2).
  apply wp_bind, wp_assert. { apply andb_true_intro. split; [done|]. apply Z.ltb_lt. unfold FDB_GC_EMPTY_SEC_THRESHOLD, sector_count in *. lia. }
  apply wp_bind. unfold reset_caches. apply wp_modify.
  apply wp_bind, (wp_lock _ false). intros db3 Hg3 Hi3 Ho3 Hf3. cbn in Hg3, Hi3, Ho3, Hf3.
  apply wp_bind. eapply wp_mono.
  { apply (Hload d2 m2 o db3 (map _ (sector_cache_table d2))); try done.
    - rewrite Hg3. apply H2.
    - apply Forall_map. by apply Forall_true. }
  cbn beta. intros r5 d5 (-> & σ & Hd5 & Hst & Em).
  assert (triple G keys σ (up db_lock;; (if FDB_KV_AUTO_UPDATE && bool_decide (FDB_NO_ERR = FDB_NO_ERR)
    then kv_auto_update else mret tt);; up db_unlock;; mret FDB_NO_ERR) (fun r σ' => r = FDB_NO_ERR /\ σ' = σ)) as Hend.
  { eapply triple_bind; [apply (triple_lock G σ true)|]. cbn beta. intros _ ? ->. rewrite Hau. cbn [andb].
    eapply triple_bind with (R := fun _ σ' => σ' = σ); [by apply triple_ret|]. cbn beta. intros _ ? ->.
    eapply triple_bind; [apply (triple_lock G σ false)|]. cbn beta. intros _ ? ->. by apply triple_ret. }
  eapply wp_mono; [by apply Hend|]. cbn beta. intros res d6 (σ' & H6 & -> & ->).
  apply wp_bind. unfold _fdb_init_finish. rewrite decide_True by done. apply wp_zoom, wp_modify, wp_ret.
  split; [done|]. exists (kv_map (k_secs σ)). split; [|done]. split; [done|]. exists σ. split; [|done]. by destruct H6.
Qed.

(** Opening a medium on which the pass over the records succeeds. *)
Lemma kv_recover retries nm path dk u d db m secs R mp :
  let G := geo db in
  opens nm path FDB_DB_TYPE_KV u (parent d) db m -> bootable d secs G -> sectors_on G m secs ->
  FDB_KV_AUTO_UPDATE = false -> (0 < retries)%nat ->
  (forall o x, (o < nsec G)%nat -> passes (W:=W) G keys R (Kst secs o false true false None x)) ->
  (forall σ, R σ -> kv_map (k_secs σ) = mp) ->
  wp (fdb_kvdb_init retries nm path dk u) (fun r d' => r = FDB_NO_ERR /\ kv_rep G keys d' mp) d.
Proof.
  intros G Hmt [B1 B2 B3 B4 B5] [C1 C2 C3] Hau Hr HR Hmp.
  pose proof (holds_geom _ _ _ (os_holds _ _ _ _ _ _ _ Hmt)) as HG. fold G in HG. eapply wp_mono.
  { apply (wp_kvdb_init (eq mp) retries nm path dk u d db m (fun _ _ m2 => secs_at (sec_size G) m2 secs)); try done.
  - intros d1 x H1 Ho Ec _ _. eapply wp_mono; [apply (wp_oldest G HG keys secs C1 C2 d1 m); try done; by rewrite Ec|].
    cbn beta. intros r d2 ((o & Hol & Eo) & m2 & H2 & Hs2). by exists o, m2.
  - intros d2 m2 o db2 t H2 Hs2 Ho Hg Hi Hod _ Ht. set (σ := open_state (set_parent db2 d2) secs o).
    assert (rep G keys (emptied d2 db2 t) σ) as Hrep.
    { eapply opening_rep; try done; [by apply (opening_parent G d2)|by apply scache_clean|].
      by apply clean_nodes_ok; apply H2. }
    specialize (HR o (k_cur σ) Ho). eapply wp_mono; [by apply (triple_load G HG keys R σ retries)|].
    cbn beta. intros r d' (σ' & Hd' & -> & σ1 & H1 & ->).
    split; [done|]. exists (with_rec false σ1). split; [done|]. pose proof (pa_stable _ _ _ _ HR σ1 H1) as Hst.
    split; [by apply kstable_rec|]. exact (eq_sym (Hmp σ1 H1)). }
  cbn beta. intros r d' (-> & mp' & Hd' & <-). done.
Qed.

(** Opening a medium that a database left between two calls. *)
Definition closed_medium (G : geom) (m : list Z) (secs : list ksec) : Prop :=
  sectors_on G m secs /\ forall o x, kstable (Kst secs o false true false None x).

Lemma kv_recover_closed retries nm path dk u d db m secs :
  let G := geo db in
  opens nm path FDB_DB_TYPE_KV u (parent d) db m -> bootable d secs G -> closed_medium G m secs ->
  FDB_KV_AUTO_UPDATE = false -> (0 < retries)%nat ->
  wp (fdb_kvdb_init retries nm path dk u) (fun r d' => r = FDB_NO_ERR /\ kv_rep G keys d' (kv_map secs)) d.
Proof.
  intros G Hmt Hb [Hon Hst] Hau Hr. pose proof (holds_geom _ _ _ (os_holds _ _ _ _ _ _ _ Hmt)) as HG. fold G in HG.
  apply (kv_recover retries nm path dk u d db m secs (fun σ' => k_secs σ' = secs /\ kstable σ')); try done.
  - intros o x _. destruct (stable_passes G HG keys Hkeys _ (Hst o x)) as [P1 P2 P3]. split; [done| |by intros ? []].
    eapply triple_mono; [exact P2|]. cbn beta. by intros _ σ' ->.
  - by intros σ [-> _].
Qed.

Lemma rep_closed G d σ : rep G keys d σ -> kstable σ ->
  exists med, kv_holds d med /\ closed_medium G med (k_secs σ).
Proof.
  intros Hd [H1 H2 H3 H4 H5 H6]. destruct (rp_medium _ _ _ _ Hd) as (med & Hm & Hs). exists med. split; [done|].
  destruct (rp_wf _ _ _ _ Hd). by split.
Qed.

End init.

(** ** Closing and opening *)

Section reopen.
Context (keys : list Z -> Prop) (Hkeys : key_set keys) {IN : Indeterminate} {KB : KvBuild}.
Context {W} {ST : Storage W} {SL : StorageLaws W} {SC : StorageCloses W} (Hmode : FDB_USING_FILE_MODE = true).
Implicit Type d : fdb_kvdb W.

(** C5: Closing and opening: a database in files that holds the map [m] is
    closed by [fdb_kvdb_deinit]; [fdb_kvdb_init] with the same structure, name
    and directory then succeeds, and the database holds [m] again.  (The sector
    size is a power of two, as [_fdb_init_ex] asserts; the build is without
    [FDB_KV_AUTO_UPDATE].) *)
Theorem kv_reopen retries path dk u d m :
  let G := geo (parent d) in
  kv_rep G keys d m -> file_mode G = true -> storage G = storage_dir path -> path <> EmptyString ->
  Z.land (sec_size G) (sec_size G - 1) = 0 -> FDB_KV_AUTO_UPDATE = false -> (0 < retries)%nat ->
  wp (fdb_kvdb_deinit;; fdb_kvdb_init retries (name G) path dk u) (fun r d' =>
    r = FDB_NO_ERR /\ kv_rep G keys d' m) d.
Proof.
  intros G (Hi & σ & Hd & Hst & <-) Hf Hdir Hpath H2 Hau Hr.
  destruct (rep_closed keys _ _ _ Hd Hst) as (med & Hm & Hc). apply wp_bind. unfold fdb_kvdb_deinit.
  apply wp_bind, wp_zoom, (wp_deinit Hmode (parent d) med); [done|done|]. intros w Hw. apply wp_ret.
  destruct (closed_opens Hmode path FDB_DB_TYPE_KV u (parent d) w med) as (db & Ho & Hgeo); [done..|].
  set (d1 := set_parent _ d). change (opens (name G) path FDB_DB_TYPE_KV u (parent d1) db med) in Ho. fold G in Hgeo.
  pose proof (kv_recover_closed keys Hkeys retries (name G) path dk u d1 db med (k_secs σ)) as Hrec. cbn zeta in Hrec.
  rewrite Hgeo in Hrec. apply Hrec; [exact Ho| |exact Hc|exact Hau|exact Hr].
  destruct Hd, Hst, rp_kcache. split; [change (last_is_complete_del d = false); congruence|exact rp_kv|done|done|by left].
Qed.
End reopen.
