(* ===== verification/KvDefault.v ===== *)
(** Key-value database: storing the default values on formatted sectors. *)
From S2P Require Import Prelude FdbDef Crc32 Status FlashIO FlashSpec KvDef KvRead KvWrite KvApi KvRing KvCacheSpec.
From S2P Require Import KvSpec KvGetSpec KvState KvTriple KvBase KvLook KvFind KvAlloc KvStore KvGc KvStable KvSet KvMap.

(** ** The space in use *)

Definition used_len (secs : list ksec) : Z := recs_len (all_recs secs).

Lemma used_len_append secs k s r :
  secs !! k = Some s -> used_len (append_rec k r secs) = used_len secs + kr_len r.
Proof.
  intros Hk. unfold used_len. rewrite (append_insert _ _ _ _ Hk).
  destruct (all_recs_insert secs k s Hk) as (l1 & l2 & E1 & E2). rewrite E1, E2. cbn [ks_recs added].
  rewrite !recs_len_app. simpl. lia.
Qed.

Lemma used_len_lower secs c :
  (forall s, s ∈ secs -> ks_recs s <> [] -> c <= recs_len (ks_recs s)) ->
  Z.of_nat (length secs - n_empty secs) * c <= used_len secs.
Proof.
  induction secs as [|s secs IH]; intros Hc; [done|].
  specialize (IH ltac:(intros z Hz; apply Hc; by right)). pose proof (n_empty_le secs).
  unfold used_len, all_recs in *. cbn [mbind list_bind]. rewrite recs_len_app.
  change (n_empty (s :: secs)) with (length (filter (fun s => ks_recs s = []) (s :: secs))).
  rewrite filter_cons. pose proof (recs_len_nonneg (ks_recs s)). unfold n_empty in *. case_decide as E; cbn [length].
  - rewrite E. cbn [recs_len]. replace (S (length secs) - S _)%nat with (length secs - length (filter (fun s => ks_recs s = []) secs))%nat by lia. lia.
  - specialize (Hc s ltac:(left) E). rewrite Nat.sub_succ_l, Nat2Z.inj_succ by lia. lia.
Qed.

Section default.
Context (G : geom) (HG : geom_ok G) (keys : list Z -> Prop) (Hkeys : key_set keys).
Context {W} {ST : Storage W} {SL : StorageLaws W} {IN : Indeterminate}.
Implicit Type d : fdb_kvdb W.
Notation ss := (sec_size G).
Notation triple := (triple (W:=W) G keys).
Notation nsec := (nsec G).

(** When there is no room for a record, the sectors but one are full up to the
    length of a record. *)
Lemma no_room_used σ size c :
  swf G keys σ -> no_room G σ size -> size <= c -> 0 <= c ->
  (sector_count G - 1) * (ss - SECTOR_HDR_DATA_SIZE - FDB_SEC_REMAIN_THRESHOLD - c) <= used_len (k_secs σ).
Proof.
  intros Hwf [Hu He] Hc Hc0. pose proof (nsec_count G HG). pose proof (sector_count_two G HG).
  assert (forall s, s ∈ k_secs σ -> ~ fits G size s ->
    ss - SECTOR_HDR_DATA_SIZE - FDB_SEC_REMAIN_THRESHOLD - c <= recs_len (ks_recs s)) as Hlow.
  { intros s _ Hf. unfold fits, ks_end in Hf. lia. }
  pose proof (used_len_lower (k_secs σ) _ (fun s Hs Hne => Hlow s Hs (Hu s Hs Hne))) as Hl.
  rewrite (sw_len _ _ _ Hwf) in Hl. pose proof (n_empty_le (k_secs σ)) as Hle. rewrite (sw_len _ _ _ Hwf) in Hle.
  pose proof (recs_len_nonneg (all_recs (k_secs σ))) as Hnn. fold (used_len (k_secs σ)) in Hnn.
  destruct (decide (n_empty (k_secs σ) <= 1)%nat); [nia|]. destruct He as [|He]; [lia|].
  destruct (proj1 (n_empty_pos (k_secs σ)) ltac:(lia)) as (e & Hin & Ee).
  specialize (Hlow e Hin (He e Hin)). rewrite Ee in Hlow. cbn in Hlow. nia.
Qed.

(** ** [create_kv_blob] without a place for the record *)

Lemma triple_create_alloc {R} {Q : fdb_err_t * kvdb_sec_info -> kst -> Prop} σ x key value :
  empty_kv x = FAILED_ADDR -> rec_ok key value -> rec_len key value <= ss - SECTOR_HDR_DATA_SIZE ->
  triple σ (new_kv x (rec_len key value)) R ->
  (forall a y σ', R (a, y) σ' -> if a =? FAILED_ADDR then Q (FDB_SAVED_FULL, y) σ'
     else empty_kv y = a /\ triple σ' (create_kv_blob y key value (len value)) Q) ->
  triple σ (create_kv_blob x key value (len value)) Q.
Proof.
  intros Hx Hok Hlen Hnew Hrest d Hd. pose proof (ss_range G HG). pose proof (rec_len_range _ _ Hok).
  assert (forall d', geo (parent d') = G -> (u64 (kv_sec_size d' - SECTOR_HDR_DATA_SIZE) <? rec_len key value) = false) as Hfit.
  { intros d' E. unfold kv_sec_size. rewrite E. unfold SECTOR_HDR_DATA_SIZE in *. rewrite u64_small by lia. by apply Z.ltb_ge. }
  assert ((FDB_KV_NAME_MAX <? len key) = false) as Hname by (apply Z.ltb_ge; apply Hok).
  unfold create_kv_blob. rewrite new_kv_hdr_rec by done. cbn [kh_len rec_hdr]. fold (rec_len key value).
  apply wp_bind, wp_gets. rewrite Hname, Hfit, Hx, Z.eqb_refl by apply Hd. cbn [negb].
  apply wp_bind. eapply wp_mono; [by apply Hnew|]. cbn beta. intros [a y] d' (σ' & Hd' & HR).
  specialize (Hrest _ _ _ HR). destruct (a =? FAILED_ADDR) eqn:Ea.
  { apply wp_ret. by exists σ'. }
  destruct Hrest as [<- Ht]. specialize (Ht d' Hd').
  unfold create_kv_blob in Ht. rewrite new_kv_hdr_rec in Ht by done. cbn [kh_len rec_hdr] in Ht.
  unfold wp at 1, mbind, M_bind, gets in Ht. fold (rec_len key value) in Ht.
  rewrite Hname, Hfit, Ea in Ht by apply Hd'. cbv beta iota delta [mret M_ret negb] in Ht.
  rewrite ?Ea in Ht. exact Ht.
Qed.

(** ** One record *)

(** After a new key: it is in the map, or there was no room for it. *)
Definition created_result (σ : kst) (key value : list Z) (σ' : kst) : Prop :=
  kstable σ' /\
  (kv_map (k_secs σ') = <[key := value]> (kv_map (k_secs σ)) \/
     kv_map (k_secs σ') = kv_map (k_secs σ) /\ no_room G σ (rec_len key value)) /\
  (used_len (k_secs σ') = used_len (k_secs σ) + rec_len key value \/ no_room G σ (rec_len key value)).

Lemma map_no_record secs key : kv_map secs !! key = None -> no_record secs key.
Proof.
  intros Hk r Hr <- Hst. apply not_elem_of_list_to_map_2 in Hk. apply Hk. apply list_elem_of_fmap.
  exists (kr_key r, kr_val r). split; [done|]. apply list_elem_of_omap. exists r. split; [done|].
  unfold live_rec. by rewrite decide_True.
Qed.

Lemma triple_create_default σ x key value :
  kstable σ -> empty_kv x = FAILED_ADDR -> keys key -> rec_ok key value -> kv_map (k_secs σ) !! key = None ->
  triple σ (create_kv_blob x key value (len value)) (fun _ σ' => created_result σ key value σ').
Proof.
  intros Hst Hx Hk Hok Hno. pose proof (rec_len_range _ _ Hok) as Hr. pose proof (ss_range G HG).
  destruct (Z.le_gt_cases (rec_len key value) (ss - SECTOR_HDR_DATA_SIZE)) as [Hle|Hgt].
  2:{ eapply triple_gets with (a := ss); [intros d Hd; unfold kv_sec_size; by rewrite (rp_geo _ _ _ _ Hd)|].
      rewrite new_kv_hdr_rec by done. rewrite (proj2 (Z.ltb_ge _ _)) by apply Hok. cbn [kh_len rec_hdr].
      fold (rec_len key value). unfold SECTOR_HDR_DATA_SIZE in *. rewrite u64_small, (proj2 (Z.ltb_lt _ _)) by lia.
      assert (no_room G σ (rec_len key value)) as Hn.
      { split; [intros s _ _ Hf|right; intros s _ Hf]; unfold fits, ks_end in Hf; pose proof (recs_len_nonneg (ks_recs s));
          ks_consts; lia. }
      apply triple_ret. split_and!; auto. }
  eapply (triple_create_alloc σ x key value Hx Hok Hle).
  { apply (triple_new_kv G HG keys Hkeys); [done|]. unfold KV_HDR_DATA_SIZE in *. lia. }
  intros a y σ1 ([Hst1 Hl1] & _ & Hsame & Hres). cbn [fst snd] in *. destruct (map_keep _ _ (kt_unique _ Hst) Hl1) as [_ Hm1].
  destruct Hres as [[Ha (k & s & Hroom & _ & Ea & He)]|(-> & Hn & _)].
  2:{ rewrite Z.eqb_refl. split_and!; auto. }
  rewrite (proj2 (Z.eqb_neq a _)) by done. pose proof Hroom as (Hs & Hinfo & [Hsp _] & _).
  split; [by rewrite Hsp, (in_addr _ _ _ _ Hinfo)|].
  eapply triple_mono; [eapply (triple_create G HG keys σ1 k s y key value); [by apply room_store| |done..|left; apply Hst1]|].
  { by rewrite Hsp, (in_addr _ _ _ _ Hinfo), <- Ea. }
  cbn beta. intros res σ' [_ ->]. set (σ' := with_pend None _). set (q := KRec FDB_KV_WRITE key value) in *.
  destruct (put_new_stable G σ1 k s y key value σ') as [Hst' Hm]; try done; try apply Hst1.
  { intros E. destruct (He E) as [Hg|]; [|done]. by rewrite (kt_gc _ Hst1) in Hg. }
  { apply map_no_record. by rewrite Hm1. }
  split; [done|]. rewrite Hm, Hm1. split; [by left|]. destruct Hsame as [->|]; [left|by right].
  exact (used_len_append (k_secs σ) k s q Hs).
Qed.

(** ** A default value *)

(** The bytes that are stored for a node: a string when its length is 0. *)
Definition default_value (n : fdb_default_kv_node) : list Z :=
  if dk_value_len n =? 0 then until_nul (dk_value n) else slice (dk_value n) 0 (dk_value_len n).

Record default_ok (n : fdb_default_kv_node) : Prop := {
  df_key : keys (dk_key n);
  df_bytes : bytes (default_value n);
  df_len : rec_len (dk_key n) (default_value n) < 4294967296;
  df_memory : 0 <= dk_value_len n <= len (dk_value n);
  df_string : dk_value_len n = 0 -> 0 ∈ dk_value n;
}.

Lemma until_nul_prefix l : until_nul l = slice l 0 (len (until_nul l)) /\ len (until_nul l) <= len l.
Proof.
  assert (exists r, l = until_nul l ++ r) as [r E].
  { induction l as [|b l [r IH]]; [by exists []|]. cbn. destruct (b =? 0); [by exists (b :: l)|]. exists r. cbn. by rewrite <- IH. }
  pose proof (len_nonneg r). pose proof (len_nonneg (until_nul l)).
  split; [|rewrite E at 2; rewrite len_app; lia].
  rewrite E at 2. by rewrite slice_app_l, slice_all by lia.
Qed.

Lemma default_prefix n : default_ok n ->
  default_value n = slice (dk_value n) 0 (len (default_value n)) /\ len (default_value n) <= len (dk_value n).
Proof.
  intros [_ _ _ Hm _]. unfold default_value. case_match; [apply until_nul_prefix|].
  rewrite len_slice by lia. by split; [|lia].
Qed.

Lemma default_len n : default_ok n -> default_value_len (W:=W) n = mret (len (default_value n)).
Proof.
  intros [_ _ _ Hm Hs]. unfold default_value_len, default_value. destruct (Z.eqb_spec (dk_value_len n) 0) as [E|].
  - assert (existsb (Z.eqb 0) (dk_value n) = true) as ->; [|done]. apply existsb_exists. exists 0.
    split; [by apply list_elem_of_In, Hs|done].
  - by rewrite len_slice by lia.
Qed.

(** Only the bytes of the value are looked at. *)
Lemma create_prefix x key v value :
  v = slice value 0 (len v) -> len v <= len value -> len v < 4294967296 ->
  create_kv_blob (W:=W) x key value (len v) = create_kv_blob x key v (len v).
Proof.
  intros E Hl H32. pose proof (len_nonneg v). unfold create_kv_blob.
  assert (new_kv_hdr key value (len v) = new_kv_hdr key v (len v)) as ->.
  { unfold new_kv_hdr. by rewrite (u32_small (len v)), (slice_all v), <- E by lia. }
  assert (kh_value_len (new_kv_hdr key v (len v)) = len v) as -> by (apply u32_small; lia).
  by rewrite (proj2 (Z.ltb_ge (len value) _)), Z.ltb_irrefl, (slice_all v), <- E by lia.
Qed.
(** ** All the default values *)

Definition default_map (l : list fdb_default_kv_node) : gmap (list Z) (list Z) :=
  list_to_map ((fun n => (dk_key n, default_value n)) <$> l).

Definition default_len_of (n : fdb_default_kv_node) : Z := rec_len (dk_key n) (default_value n).
Definition defaults_len (l : list fdb_default_kv_node) : Z := foldr (fun n z => default_len_of n + z) 0 l.

(** The records of at most [c] bytes have room, whatever the place at which
    each of them is stored. *)
Definition defaults_room (c used : Z) (l : list fdb_default_kv_node) : Prop :=
  Forall (fun n => default_len_of n <= c) l /\
  used + defaults_len l < (sector_count G - 1) * (ss - SECTOR_HDR_DATA_SIZE - FDB_SEC_REMAIN_THRESHOLD - c).

(** The default values: nodes with different keys. *)
Definition defaults_ok (l : list fdb_default_kv_node) : Prop := Forall default_ok l /\ NoDup (dk_key <$> l).

(** The map after the default values were stored: some of them, and all of
    them when there is room. *)
Definition defaults_in (l : list fdb_default_kv_node) (m : gmap (list Z) (list Z)) : Prop :=
  m ⊆ default_map l /\ forall c, 0 <= c -> defaults_room c 0 l -> m = default_map l.

Lemma default_map_none l key : key ∉ dk_key <$> l -> default_map l !! key = None.
Proof.
  intros Hk. apply not_elem_of_list_to_map_1. rewrite <- list_fmap_compose. done.
Qed.

Lemma defaults_len_nonneg l : 0 <= defaults_len l.
Proof.
  induction l as [|n l IH]; [done|]. cbn. fold (defaults_len l). pose proof (len_nonneg (dk_key n)).
  pose proof (len_nonneg (default_value n)). unfold default_len_of, rec_len, KV_HDR_DATA_SIZE. lia.
Qed.

Lemma triple_create_defaults l σ x :
  kstable σ -> Forall default_ok l -> NoDup (dk_key <$> l) -> (forall n, n ∈ l -> kv_map (k_secs σ) !! dk_key n = None) ->
  triple σ (create_defaults l x) (fun _ σ' => kstable σ' /\
    kv_map (k_secs σ') ⊆ default_map l ∪ kv_map (k_secs σ) /\
    forall c, 0 <= c -> defaults_room c (used_len (k_secs σ)) l -> kv_map (k_secs σ') = default_map l ∪ kv_map (k_secs σ)).
Proof.
  revert σ x. induction l as [|n l IH]; intros σ x Hst Hl Hnd Hno; cbn [create_defaults].
  { apply triple_ret. unfold default_map. cbn. rewrite !(left_id ∅ (∪)). split_and!; [done|reflexivity|intros; by rewrite (left_id ∅ (∪))]. }
  apply Forall_cons in Hl as [Hn Hl]. apply NoDup_cons in Hnd as [Hnk Hnd]. apply triple_wf. intros Hwf.
  rewrite (default_len n Hn). destruct (default_prefix n Hn) as [Hp Hpl]. pose proof (len_nonneg (default_value n)).
  assert (rec_ok (dk_key n) (default_value n)) as Hok by (apply (key_rec_ok keys Hkeys); apply Hn).
  assert (len (default_value n) < 4294967296) as H32.
  { pose proof (df_len _ Hn). pose proof (len_nonneg (dk_key n)). unfold rec_len, KV_HDR_DATA_SIZE in *. lia. }
  eapply triple_bind with (R := fun v σ' => v = len (default_value n) /\ σ' = σ); [by apply triple_ret|].
  cbn beta. intros ? ? [-> ->]. rewrite u32_small by lia. rewrite (create_prefix _ _ _ _ Hp Hpl H32).
  set (y := sec_set_space _ _ _). eapply triple_bind; [apply (triple_create_default σ y); try done; [apply Hn|apply Hno; left]|].
  cbn beta. intros [e z] σ1 (Hst1 & Hm1 & Hu1). cbn [snd].
  assert (kv_map (k_secs σ1) ⊆ <[dk_key n := default_value n]> (kv_map (k_secs σ))) as Hsub.
  { destruct Hm1 as [->|[-> _]]; [done|]. apply insert_subseteq, Hno. by left. }
  assert (forall q, q ∈ l -> kv_map (k_secs σ1) !! dk_key q = None) as Hno1.
  { intros q Hq. assert (dk_key n <> dk_key q) by (intros E; apply Hnk; rewrite E; by apply list_elem_of_fmap_2).
    destruct Hm1 as [->|[-> _]]; rewrite ?lookup_insert_ne by done; apply Hno; by right. }
  assert (default_map (n :: l) ∪ kv_map (k_secs σ) = default_map l ∪ <[dk_key n := default_value n]> (kv_map (k_secs σ))) as Eu.
  { change (default_map (n :: l)) with (<[dk_key n := default_value n]> (default_map l)).
    by rewrite <- insert_union_l, insert_union_r by (by apply default_map_none). }
  eapply triple_mono; [by apply IH|]. cbn beta. intros _ σ' (Hst' & Hm' & Hall). split; [done|]. rewrite Eu. split.
  { etrans; [exact Hm'|]. by apply map_union_mono_l. }
  intros c Hc [Hfc Htot]. apply Forall_cons in Hfc as [Hnc Hfc]. cbn in Htot. fold (defaults_len l) in Htot.
  assert (~ no_room G σ (default_len_of n)) as Hroom.
  { intros Hnr. pose proof (no_room_used σ _ c Hwf Hnr Hnc Hc). pose proof (defaults_len_nonneg l).
    pose proof (rec_len_range _ _ Hok). unfold default_len_of, KV_HDR_DATA_SIZE in *. lia. }
  destruct Hm1 as [Em|[_ Hnr]]; [|done]. destruct Hu1 as [Eu1|]; [|done].
  rewrite (Hall c Hc); [by rewrite Em|]. split; [done|]. rewrite Eu1. unfold default_len_of in *. lia.
Qed.
End default.
