(* ===== verification/KvRecover.v ===== *)
(** Key-value database: recovery of a replacement that was interrupted.

    Replacing a value marks the old record, stores the new one, and deletes the
    old one.  After a power failure in between, a record is left in the status
    [FDB_KV_PRE_DELETE]; [_fdb_kv_load] stores it again, unless there is
    a written record of the key. *)
From S2P Require Import Prelude FdbDef Crc32 Status FlashIO FlashSpec Mount KvDef KvRead KvWrite KvApi KvRing KvCacheSpec.
From S2P Require Import KvSpec KvGetSpec KvState KvTriple KvBase KvLook KvSector KvIter KvFind KvDel KvAlloc KvStore KvMove.
From S2P Require Import KvGc KvStable KvSet KvMap KvBoot KvDefault.

(** The state of an interrupted replacement: between two calls, but for the
    [i]-th record [r] of the [k]-th sector. *)
Record half_deleted (σ : kst) (k i : nat) (s : ksec) (r : krec) : Prop := {
  hd_sec : k_secs σ !! k = Some s;
  hd_rec : ks_recs s !! i = Some r;
  hd_st : kr_st r = FDB_KV_PRE_DELETE;
  hd_stable : kstable (with_secs (del_secs k i (k_secs σ)) σ);
}.

(** The map that the recovery gives: the old value, unless there is a new one. *)
Definition restored (secs : list ksec) (r : krec) : gmap (list Z) (list Z) :=
  kv_map secs ∪ {[kr_key r := kr_val r]}.

Lemma live_recs_del_dead k i s r secs :
  secs !! k = Some s -> ks_recs s !! i = Some r -> kr_st r = FDB_KV_PRE_DELETE ->
  live_recs (del_secs k i secs) = live_recs secs.
Proof.
  intros Hk Hi Hst. destruct (live_recs_set_rec secs k i FDB_KV_DELETED s r Hk Hi) as (l1 & l2 & E1 & E2).
  unfold del_secs. rewrite live_recs_mark_dirty, E1, E2. unfold live_rec. by rewrite Hst.
Qed.

Section facts.
Context (σ : kst) (k i : nat) (s : ksec) (r : krec) (Hh : half_deleted σ k i s r).

Lemma half_map : kv_map (del_secs k i (k_secs σ)) = kv_map (k_secs σ).
Proof. unfold kv_map. by rewrite (live_recs_del_dead k i s r) by apply Hh. Qed.

Lemma half_unique : keys_unique (k_secs σ).
Proof.
  pose proof (kt_unique _ (hd_stable _ _ _ _ _ Hh)) as Hu. unfold keys_unique in *.
  change (k_secs (with_secs _ σ)) with (del_secs k i (k_secs σ)) in Hu.
  by rewrite (live_recs_del_dead k i s r) in Hu by apply Hh.
Qed.

Lemma half_nonempty : ks_recs s <> [].
Proof. pose proof (hd_rec _ _ _ _ _ Hh). by destruct (ks_recs s). Qed.

Lemma half_dirty z : z ∈ k_secs σ -> ks_dirty z = FDB_SECTOR_DIRTY_FALSE \/ ks_dirty z = FDB_SECTOR_DIRTY_TRUE.
Proof.
  intros Hz. apply list_elem_of_lookup in Hz as [q Hq]. pose proof (kt_secs _ (hd_stable _ _ _ _ _ Hh)) as Hst.
  rewrite Forall_lookup in Hst. specialize (Hst q).
  change (k_secs (with_secs _ σ)) with (del_secs k i (k_secs σ)) in Hst. rewrite del_secs_lookup in Hst.
  case_decide; [subst q|]; rewrite Hq in Hst; cbn in Hst.
  - destruct (st_dirty _ (Hst _ eq_refl)) as [E|[E _]]; cbn in E; case_decide; auto.
  - destruct (st_dirty _ (Hst _ eq_refl)) as [E|[E _]]; auto.
Qed.

(** The other records are settled. *)
Lemma half_settled k' i' z q :
  k_secs σ !! k' = Some z -> ks_recs z !! i' = Some q -> (k', i') <> (k, i) -> settled q.
Proof.
  intros Hz Hq Hne. pose proof (kt_secs _ (hd_stable _ _ _ _ _ Hh)) as Hst. rewrite Forall_lookup in Hst.
  specialize (Hst k').
  change (k_secs (with_secs _ σ)) with (del_secs k i (k_secs σ)) in Hst. rewrite del_secs_lookup in Hst.
  case_decide as E; [subst k'|]; rewrite Hz in Hst; cbn in Hst.
  - pose proof (st_recs _ (Hst _ eq_refl)) as Hf. cbn in Hf. rewrite Forall_lookup in Hf. apply (Hf i').
    rewrite list_lookup_alter_ne by congruence. done.
  - pose proof (st_recs _ (Hst _ eq_refl)) as Hf. rewrite Forall_lookup in Hf. by apply (Hf i').
Qed.
End facts.

Lemma until_nul_key key : Forall (fun b => 0 < b < 256) key -> until_nul key = key.
Proof. induction 1 as [|b key Hb _ IH]; [done|]. cbn. rewrite (proj2 (Z.eqb_neq b 0)) by lia. by rewrite IH. Qed.

(** ** The record is moved *)

Section recover.
Context (G : geom) (HG : geom_ok G) (keys : list Z -> Prop) (Hkeys : key_set keys).
Context {W} {ST : Storage W} {SL : StorageLaws W} {IN : Indeterminate} {KB : KvBuild}.
Implicit Type d : fdb_kvdb W.
Notation ss := (sec_size G).
Notation triple := (triple (W:=W) G keys).
Notation nsec := (nsec G).

Definition has_room (σ : kst) (size : Z) : Prop :=
  exists e, e ∈ k_secs σ /\ fits G size e /\ (ks_recs e <> [] \/ (1 < n_empty (k_secs σ))%nat).

(** What a move leaves: the record was deleted, and appended to a sector if
    there was no written record of the key. *)
Definition recovered_secs (k i : nat) (r : krec) (secs : list ksec) (secs' : list ksec) : Prop :=
  secs' = del_secs k i secs \/
  exists j, secs' = append_rec j (kr_set FDB_KV_WRITE r) (del_secs k i secs).

Lemma recovered_places k i s r secs secs' σ' :
  secs !! k = Some s -> (i < length (ks_recs s))%nat -> recovered_secs k i r secs secs' -> k_secs σ' = secs' ->
  same_places k i (ks_recs s) σ'.
Proof.
  intros Hk Hi Hr E. unfold same_places. rewrite E. clear E. set (s1 := KSec (if decide (ks_dirty s = FDB_SECTOR_DIRTY_FALSE) then FDB_SECTOR_DIRTY_TRUE
    else ks_dirty s) (alter (kr_set FDB_KV_DELETED) i (ks_recs s))).
  assert (del_secs k i secs !! k = Some s1) as Hs1 by (by rewrite del_secs_lookup, decide_True, Hk by done).
  assert (forall j, (j <= i)%nat -> kr_len <$> ks_recs s1 !! j = kr_len <$> ks_recs s !! j) as Hp.
  { intros j _. cbn. destruct (decide (j = i)) as [->|]; [|by rewrite list_lookup_alter_ne].
    rewrite list_lookup_alter_eq. by destruct (ks_recs s !! i). }
  destruct Hr as [->|[j ->]]; [by exists s1|]. destruct (decide (j = k)) as [->|Hjk].
  - exists (added s1 (kr_set FDB_KV_WRITE r)). split.
    + unfold append_rec. by rewrite list_lookup_alter_eq, Hs1.
    + intros q Hq. cbn [added ks_recs]. rewrite lookup_app_l; [by apply Hp|]. cbn. rewrite length_alter. lia.
  - exists s1. split; [|done]. unfold append_rec. by rewrite list_lookup_alter_ne.
Qed.

(** The key is stored already: deleting the record restores nothing. *)
Lemma half_twin σ k i s r :
  half_deleted σ k i s r -> is_Some (kv_map (k_secs σ) !! kr_key r) ->
  kv_map (del_secs k i (k_secs σ)) = restored (k_secs σ) r.
Proof.
  intros Hh [v Hv]. rewrite (half_map σ k i s r Hh). unfold restored. symmetry. apply map_eq. intros key. rewrite lookup_union.
  destruct (decide (key = kr_key r)) as [->|Hkn]; [|rewrite lookup_singleton_ne by done; by rewrite (right_id None _)].
  by rewrite Hv, lookup_singleton_eq.
Qed.

(** A copy of the record is stored, and the record is deleted. *)
Lemma half_copied σ σ' k i s r j sj :
  let q := kr_set FDB_KV_WRITE r in
  half_deleted σ k i s r -> no_record (k_secs σ) (kr_key r) -> k_secs σ !! j = Some sj ->
  k_secs σ' = append_rec j q (del_secs k i (k_secs σ)) ->
  keys_unique (k_secs σ') /\ kv_map (k_secs σ') = restored (k_secs σ) r.
Proof.
  intros q Hh Hno Hj E. pose proof (half_unique σ k i s r Hh) as Hu0. pose proof (hd_stable _ _ _ _ _ Hh) as [H1 H2 H3 H4 H5 H6].
  destruct (del_secs_has k i j sj (k_secs σ) Hj) as (s2 & Hj2 & _). pose proof (half_map σ k i s r Hh) as Hm0.
  destruct (map_add (del_secs k i (k_secs σ)) (k_secs σ') (kr_key r) (kr_val r) H6) as [Hu Hm].
  { apply map_no_record. rewrite Hm0. by apply no_record_map. }
  { rewrite E. by apply (live_recs_append _ j q s2). }
  split; [done|]. rewrite Hm, Hm0. unfold restored. rewrite insert_union_singleton_l, map_union_comm; [done|].
  apply map_disjoint_singleton_l. by apply no_record_map.
Qed.

(** The look-up of the key of the record that is moved. *)
Lemma triple_look_for σ kv a k i s r :
  rec_pos G keys σ a k i s r -> kv_desc kv a r -> keys_unique (k_secs σ) ->
  triple σ (name ← read_bytes (kv_name kv) (kv_name_len kv); x ← find_kv_no_cache (until_nul name) indet_kv; mret (fst x))
    (fun mv σ' => σ' = σ /\
      if (mv : bool) then is_Some (kv_map (k_secs σ) !! kr_key r) else no_record (k_secs σ) (kr_key r)).
Proof.
  intros Hp Hkv Hu. destruct (po_rec _ _ _ _ _ _ _ _ Hp) as [Hkey Hok].
  destruct (kd_name _ _ _ Hkv) as [y Hy]. pose proof (len_nonneg (kr_key r)). pose proof (len_nonneg y).
  eapply triple_bind with (R := fun name σ' => name = kr_key r /\ σ' = σ).
  - unfold read_bytes. rewrite (kd_name_len _ _ _ Hkv), Hy, (proj2 (Z.leb_le _ _)) by (rewrite len_app; lia).
    apply triple_ret. by rewrite slice_app_l, slice_all by lia.
  - cbn beta. intros name ? [-> ->]. rewrite until_nul_key by (by apply (ks_bytes _ Hkeys)).
    eapply triple_bind; [by apply (triple_find_kv_no_cache G HG keys Hkeys); [|apply length_indet_buf]|].
    cbn beta. intros [ok kv1] ? [-> [_ Hf]]. cbn [fst snd] in *. apply triple_ret. split; [done|]. destruct ok; [|done].
    destruct Hf as (k1 & i1 & s1 & r1 & Hp1 & _ & <- & Hw). exists (kr_val r1).
    by apply (pos_map G keys σ (kv_start kv1) k1 i1 s1 r1); [|done|done].
Qed.

Lemma triple_move_recover σ kv a k i s r :
  half_deleted σ k i s r -> k_rec σ = true -> has_room σ (kr_len r) ->
  rec_pos G keys σ a k i s r -> kv_desc kv a r -> kv_status kv = FDB_KV_PRE_DELETE ->
  triple σ (move_kv kv) (fun res σ' => res = FDB_NO_ERR /\ kstable σ' /\
    kv_map (k_secs σ') = restored (k_secs σ) r /\ recovered_secs k i r (k_secs σ) (k_secs σ')).
Proof.
  intros Hh Hrec (e & He & Hef & Hen) Hp Hkv Hst. pose proof (hd_stable _ _ _ _ _ Hh) as Hst0.
  pose proof (po_loc _ _ _ _ _ _ _ _ Hp) as Hl. pose proof Hl as (Hk & Hi & Ha). pose proof Hst0 as [H1 H2 H3 H4 H5 H6].
  pose proof (half_map σ k i s r Hh) as Hm0. pose proof (half_nonempty σ k i s r Hh) as Hne.
  destruct (po_rec _ _ _ _ _ _ _ _ Hp) as [Hkey Hok]. pose proof (half_unique σ k i s r Hh) as Hu0.
  unfold move_kv. rewrite Hst, decide_False by done.
  eapply triple_bind with (R := fun _ σ' => σ' = σ); [by apply triple_ret|]. cbn beta. intros _ ? ->.
  rewrite (kd_len _ _ _ Hkv). pose proof (rec_pos_range G HG _ _ _ _ _ _ _ Hp) as (Ha16 & Har & Hr24). pose proof (ss_range G HG).
  eapply triple_bind; [apply (triple_alloc_kv G HG keys); ks_consts; lia|]. cbn beta. intros [b x] σ2 Halloc. cbn [fst snd] in *.
  destruct Halloc as [(Hb & -> & (j & sj & Hroom & _ & Eb & Hjn))|[_ [Hno1 Hno2]]].
  2:{ exfalso. assert (must_take G (k_gc σ) (kr_len r) e) as Hmt.
      { split; [done|]. destruct (half_dirty σ k i s r Hh e He); [by left|right]. by split. }
      destruct Hen as [Hen|Hen]; [by apply (Hno1 e)|]. rewrite decide_False in Hno2 by lia. by apply (proj2 Hno2 e). }
  rewrite (proj2 (Z.eqb_neq b _)) by done.
  eapply triple_gets; [intros d Hd; apply Hd|]. rewrite Hrec. cbn [andb]. rewrite bool_decide_eq_true_2 by done.
  eapply triple_bind with (R := fun mv σ' => σ' = σ /\
    if (mv : bool) then is_Some (kv_map (k_secs σ) !! kr_key r) else no_record (k_secs σ) (kr_key r)).
  { by apply (triple_look_for σ kv a k i s r). }
  cbn beta. intros mv ? [-> Hmv]. destruct mv.
  - eapply triple_bind with (R := fun res σ' => res = FDB_NO_ERR /\ σ' = σ); [by apply triple_ret|].
    cbn beta. intros ? ? [-> ->].
    eapply triple_bind; [eapply (triple_del_kv_at G HG keys σ None kv a k i s r true); try done;
      [by right|by rewrite (hd_st _ _ _ _ _ Hh)|by rewrite (hd_st _ _ _ _ _ Hh)]|].
    cbn beta. intros ? ? [_ ->]. apply triple_ret. split; [done|]. split; [by split|].
    change (k_secs (deleted true k i r σ)) with (del_secs k i (k_secs σ)). split; [|by left].
    by apply (half_twin σ k i s r).
  - set (q := kr_set FDB_KV_WRITE r). set (σ1 := with_pend None (with_secs (append_rec j q (k_secs σ)) σ)).
    eapply triple_bind with (R := fun res σ' => res = FDB_NO_ERR /\ σ' = σ1).
    { rewrite Eb, <- (kd_len _ _ _ Hkv). eapply (triple_store_copy G HG keys σ kv a k i s r j sj x); try done. by left. }
    cbn beta. intros ? ? [-> ->]. apply triple_wf. intros Hwf1.
    destruct (rec_loc_append G (k_secs σ) j q _ _ _ _ _ Hl) as [s1 Hl1].
    pose proof (rec_pos_intro G keys σ1 _ _ _ _ _ Hwf1 Hl1) as Hp1.
    eapply triple_bind; [eapply (triple_del_kv_at G HG keys σ1 None kv a k i s1 r true); try done;
      [by right|by rewrite (hd_st _ _ _ _ _ Hh)|by rewrite (hd_st _ _ _ _ _ Hh)]|].
    cbn beta. intros ? ? [_ ->]. apply triple_ret. split; [done|]. set (σ' := deleted _ _ _ _ _).
    assert (k_secs σ' = append_rec j q (del_secs k i (k_secs σ))) as E.
    { change (k_secs σ') with (del_secs k i (append_rec j q (k_secs σ))). unfold del_secs.
      rewrite (append_set_rec k i _ j q s) by (done || by eapply lookup_lt_Some). apply mark_dirty_append. }
    pose proof Hroom as (Hj & _). destruct (del_secs_has k i j sj (k_secs σ) Hj) as (s2 & Hj2 & Hs2e).
    destruct (half_copied σ σ' k i s r j sj Hh Hmv Hj E) as [Hu Hm].
    split_and!.
    + split; try done; cbn [k_secs with_secs] in *; rewrite E.
      * by eapply append_stable; [exact Hj2|left|].
      * apply (append_empty j q s2); try done. intros Hnil. rewrite (n_empty_del _ _ _ _ Hk Hne).
        destruct (Hjn (Hs2e Hnil)) as [Hg|]; [|done]. cbn in H1. congruence.
    + exact Hm.
    + right. by exists j.
Qed.

(** ** The pass over the records *)

Lemma ring_idx_has n o k : (o < n)%nat -> (k < n)%nat -> exists t, (t < n)%nat /\ ring_idx n o t = k.
Proof.
  intros Ho Hk. unfold ring_idx. destruct (decide (o <= k)%nat).
  - exists (k - o)%nat. split; [lia|]. rewrite Nat.mod_small; lia.
  - exists (n - o + k)%nat. split; [lia|]. replace (o + (n - o + k))%nat with (k + 1 * n)%nat by lia.
    rewrite Nat.Div0.mod_add, Nat.mod_small; lia.
Qed.

(** The pass has not yet come to the [i]-th record of the [p]-th sector. *)
Definition before (t j p i : nat) : Prop := (t < p)%nat \/ t = p /\ (j <= i)%nat.

Lemma triple_recover_pass σ k i s r kv :
  half_deleted σ k i s r -> k_rec σ = true -> has_room σ (kr_len r) -> length (kv_name kv) = 64%nat ->
  triple σ (kv_iterator kv tt (Some check_and_recovery_kv_cb)) (fun _ σ' =>
    kstable σ' /\ kv_map (k_secs σ') = restored (k_secs σ) r).
Proof.
  intros Hh Hrec Hroom Hnm. apply triple_wf. intros Hwf. pose proof Hh as [Hk Hi Hst Hst0].
  assert (k < nsec)%nat as Hlt by (rewrite <- (sw_len _ _ _ Hwf); by eapply lookup_lt_Some).
  destruct (ring_idx_has nsec (k_old σ) k (sw_old _ _ _ Hwf) Hlt) as (p & Hp & Ep).
  set (done_ := fun σ' => kstable σ' /\ kv_map (k_secs σ') = restored (k_secs σ) r).
  apply (triple_walk G HG keys (k_old σ) check_and_recovery_kv_cb
    (fun t j _ σ' => σ' = σ /\ before t j p i \/ done_ σ') (fun _ σ' => done_ σ')); try done.
  - intros t j arg σ1 k1 s1 q kv1 Ht HI Ek Hpos Hn1 Hs1 kv'. pose proof (po_loc _ _ _ _ _ _ _ _ Hpos) as (Hk1 & Hj & _).
    assert (settled q -> k_pend σ1 = None -> triple σ1 (check_and_recovery_kv_cb kv' arg)
      (fun c σ' => σ' = σ1 /\ fst c = false)) as Hsettled
      by (intros; by eapply (triple_check_settled G HG keys Hkeys σ1 _ k1 j s1 q kv1)).
    destruct HI as [[-> Hb]|[Hd Hm]].
    + destruct (decide ((k1, j) = (k, i))) as [[= -> ->]|Hne].
      * (* the record *)
        simplify_eq. pose proof (kv_of_rec_desc keys Hkeys kv1 _ r Hn1 Hs1 (proj1 (po_rec _ _ _ _ _ _ _ _ Hpos))) as Hd.
        fold kv' in Hd. unfold check_and_recovery_kv_cb. rewrite (kd_crc _ _ _ Hd). change (kv_status kv') with (kr_st r).
        rewrite Hst. cbn [andb bool_decide]. rewrite bool_decide_eq_true_2 by done.
        eapply triple_bind; [by eapply (triple_move_recover σ kv')|]. cbn beta. intros res σ' (-> & Hs' & Hm' & Hr').
        apply triple_ret. cbn. split; [by right|]. eapply recovered_places; try done. by eapply lookup_lt_Some.
      * eapply triple_mono; [apply Hsettled; [by eapply half_settled|apply Hst0]|]. cbn beta.
        intros [stop arg'] σ' [-> E]. cbn in E. subst stop. cbn. split; [left|by exists s1]. split; [done|].
        destruct Hb as [Hb|[-> Hb]]; [by left|right]. split; [done|].
        assert (j <> i) by (intros ->; by rewrite Ep in Ek; subst). lia.
    + eapply triple_mono; [apply Hsettled; [|apply Hd]|].
      { apply (all_recs_settled (k_secs σ1)); [apply Hd|]. by eapply rec_pos_elem. }
      cbn beta. intros [stop arg'] σ' [-> E]. cbn in E. subst stop. cbn. split; [by right|by exists s1].
  - intros t arg σ1 s1 Ht Hs1 [[-> Hb]|Hd]; [left|by right]. split; [done|].
    destruct Hb as [Hb|[-> Hb]]; [unfold before; lia|]. rewrite Ep in Hs1. simplify_eq.
    pose proof (lookup_lt_Some _ _ _ Hi). lia.
  - left. split; [done|]. unfold before. lia.
  - intros kv1 arg σ1 _ [[-> Hb]|Hd]; [|done]. unfold before in Hb. lia.
Qed.

Lemma half_passes σ k i s r :
  half_deleted σ k i s r -> k_rec σ = true -> has_room σ (kr_len r) ->
  passes G keys (fun σ' => kstable σ' /\ kv_map (k_secs σ') = restored (k_secs σ) r) σ.
Proof.
  intros Hh Hrec Hroom. split.
  - apply Forall_forall. intros z Hz. by destruct (half_dirty σ k i s r Hh z Hz) as [-> | ->].
  - by eapply triple_recover_pass; [..|apply length_indet_buf].
  - by intros σ' [].
Qed.
End recover.

(** ** Opening *)

Section init.
Context (keys : list Z -> Prop) (Hkeys : key_set keys).
Context {W} {ST : Storage W} {SL : StorageLaws W} {IN : Indeterminate} {KB : KvBuild}.
Implicit Type d : fdb_kvdb W.

(** Recovery of a replacement that a power failure interrupted: on a medium
    in which one record [r] was marked and not deleted, [fdb_kvdb_init] succeeds
    and gives the map in which the key of [r] has its new value, when that was
    stored, and the old one otherwise; the other keys keep their values.  There
    must be room for another copy of [r], in a sector in use or in an empty
    sector that is not the last.  (The build is without [FDB_KV_AUTO_UPDATE].) *)
Lemma kv_init_restores retries nm path dk u d db m σ k i s r :
  let G := geo db in
  opens nm path FDB_DB_TYPE_KV u (parent d) db m -> bootable d (k_secs σ) G ->
  sectors_on keys G m (k_secs σ) -> half_deleted σ k i s r -> has_room G σ (kr_len r) ->
  FDB_KV_AUTO_UPDATE = false -> (0 < retries)%nat ->
  wp (fdb_kvdb_init retries nm path dk u) (fun r' d' => r' = FDB_NO_ERR /\
    kv_rep G keys d' (kv_map (k_secs σ) ∪ {[kr_key r := kr_val r]})) d.
Proof.
  intros G Hmt Hb Hon Hh Hroom Hau Hr. pose proof (holds_geom _ _ _ (os_holds _ _ _ _ _ _ _ Hmt)) as HG. fold G in HG.
  apply (kv_recover keys retries nm path dk u d db m (k_secs σ)
    (fun σ' => kstable σ' /\ kv_map (k_secs σ') = restored (k_secs σ) r)); try done.
  - intros o x _. set (σ1 := Kst _ _ _ _ _ _ _). assert (half_deleted σ1 k i s r) as Hh1.
    { destruct Hh as [H1 H2 H3 [K1 K2 K3 K4 K5 K6]]. by split. }
    by apply (half_passes G HG keys Hkeys σ1 k i s r).
  - by intros σ' [_ ->].
Qed.
End init.
