(* ===== verification/KvCrash.v ===== *)
(** Key-value database: a power failure while a value is replaced.

    [set_kv] replaces a value in three steps ([set_kv_steps]): it marks the old
    record, stores the new one, and deletes the old one.  Between the steps the
    medium is one that [KvRecover] recovers. *)
From S2P Require Import Prelude FdbDef Crc32 Status FlashIO FlashSpec Mount KvDef KvRead KvWrite KvApi KvRing KvCacheSpec.
From S2P Require Import KvSpec KvGetSpec KvState KvTriple KvBase KvLook KvSector KvIter KvFind KvDel KvAlloc KvStore KvMove.
From S2P Require Import KvGc KvStable KvSet KvMap KvBoot KvRecover.

(** The sectors after the old record was marked. *)
Definition marked_secs (k i : nat) (secs : list ksec) : list ksec := mark_dirty k (set_rec k i FDB_KV_PRE_DELETE secs).

Lemma del_marked k i secs : del_secs k i (marked_secs k i secs) = del_secs k i secs.
Proof. unfold del_secs, marked_secs. by rewrite <- mark_dirty_set_rec, mark_dirty_twice, set_rec_twice. Qed.

Lemma marked_loc G k i secs a s r :
  rec_loc G secs a k i s r -> exists s', rec_loc G (marked_secs k i secs) a k i s' (kr_set FDB_KV_PRE_DELETE r).
Proof.
  intros Hl. pose proof Hl as (Hk & _). destruct (rec_loc_set_rec G secs k i FDB_KV_PRE_DELETE s a i s k r Hk Hl) as [z Hz].
  rewrite decide_True in Hz by done. by apply (rec_loc_mark_dirty G _ k) in Hz.
Qed.

(** ** Room in a sector in use *)

Definition used_room (G : geom) (n : Z) (secs : list ksec) : Prop :=
  exists e, e ∈ secs /\ ks_recs e <> [] /\ fits G n e.

Lemma used_room_map G n n' k f secs :
  (forall e, ks_recs e <> [] -> ks_recs (f e) <> [] /\ ks_end (f e) <= ks_end e + (n - n')) -> n' <= n ->
  used_room G n secs -> used_room G n' (alter f k secs).
Proof.
  intros Hf Hn (e & He & Hne & Hfit). apply list_elem_of_lookup in He as [q Hq]. unfold fits in *.
  destruct (decide (k = q)) as [->|Hkq].
  - destruct (Hf e Hne) as [H1 H2]. exists (f e). split; [|split; [done|unfold fits; lia]].
    apply (list_elem_of_lookup_2 _ q). by rewrite list_lookup_alter_eq, Hq.
  - exists e. split; [|split; [done|unfold fits; lia]]. apply (list_elem_of_lookup_2 _ q). by rewrite list_lookup_alter_ne.
Qed.

Lemma used_room_marked G n k i secs : used_room G n secs -> used_room G n (marked_secs k i secs).
Proof.
  intros H. unfold marked_secs, mark_dirty, set_rec. apply (used_room_map G n n); [|done|apply (used_room_map G n n); [|done..]].
  - intros e He. unfold ks_end. cbn. split; [done|lia].
  - intros e He. unfold ks_end. cbn. rewrite recs_len_alter. split; [|lia].
    intros E. apply (f_equal length) in E. rewrite length_alter in E. by destruct (ks_recs e).
Qed.

Lemma used_room_append G n j q secs : used_room G (n + kr_len q) secs -> used_room G n (append_rec j q secs).
Proof.
  intros H. pose proof (kr_len_pos q). apply (used_room_map G (n + kr_len q) n); [|unfold KV_HDR_DATA_SIZE in *; lia|done].
  intros e He. unfold ks_end. cbn. rewrite recs_len_app. cbn. split; [by destruct (ks_recs e)|lia].
Qed.

Section crash.
Context (G : geom) (HG : geom_ok G) (keys : list Z -> Prop) (Hkeys : key_set keys).
Context {W} {ST : Storage W} {SL : StorageLaws W} {IN : Indeterminate} {KB : KvBuild}.
Implicit Type d : fdb_kvdb W.
Notation ss := (sec_size G).
Notation triple := (triple (W:=W) G keys).
Notation nsec := (nsec G).

(** The steps of [set_kv]: what is found, and the result so far. *)
Definition mark_old (key value : list Z) : M (fdb_kvdb W) (option (bool * fdb_kv * fdb_err_t)) :=
  sector ← gets cur_sector;
  r ← new_kv_ex sector (len key) (len value);
  modify (set_cur_sector (snd r));;
  if fst r =? FAILED_ADDR then mret None
  else
    kv ← gets cur_kv;
    found ← find_kv key kv;
    modify (set_cur_kv (snd found));;
    result ← (if (fst found : bool) then del_kv (Some key) (Some (snd found)) false else mret FDB_NO_ERR);
    mret (Some (found, result)).

Definition store_new (key value : list Z) (o : option (bool * fdb_kv * fdb_err_t)) :
    M (fdb_kvdb W) (option (bool * fdb_kv * fdb_err_t)) :=
  match o with
  | None => mret None
  | Some (found, result) => result ← create_cur key value result; mret (Some (found, result))
  end.

Definition del_old (key value : list Z) (o : option (bool * fdb_kv * fdb_err_t)) : M (fdb_kvdb W) fdb_err_t :=
  match o with
  | None => mret FDB_SAVED_FULL
  | Some (found, result) =>
      result ← (if fst found && bool_decide (result = FDB_NO_ERR)
                then del_kv (Some key) (Some (snd found)) true else mret result);
      gc ← gets gc_request;
      (if (gc : bool) then
         gc_collect_by_free_size (u64 (KV_HDR_DATA_SIZE + WG_ALIGN (len key) + WG_ALIGN (len value)))
       else mret tt);;
      mret result
  end.

Lemma bind_assoc {A B C} (p : M (fdb_kvdb W) A) (q : A -> M (fdb_kvdb W) B) (f : B -> M (fdb_kvdb W) C) d :
  ((p ≫= q) ≫= f) d = (p ≫= (fun a => q a ≫= f)) d.
Proof. unfold mbind, M_bind. by destruct (p d) as [[a d']|]. Qed.

Lemma bind_ext {A B} (p : M (fdb_kvdb W) A) (q q' : A -> M (fdb_kvdb W) B) d :
  (forall a d, q a d = q' a d) -> (p ≫= q) d = (p ≫= q') d.
Proof. intros E. unfold mbind, M_bind. destruct (p d) as [[a d']|]; [apply E|done]. Qed.

Lemma set_kv_steps key value d :
  set_kv key (Some value) (len value) d = (o ← mark_old key value; o ← store_new key value o; del_old key value o) d.
Proof.
  unfold set_kv, mark_old. rewrite !bind_assoc. do 3 (apply bind_ext; intros ? ?; rewrite ?bind_assoc).
  case_match; [done|]. rewrite !bind_assoc. do 4 (apply bind_ext; intros ? ?; rewrite ?bind_assoc).
  etrans; [|symmetry; apply (bind_assoc (create_cur key value _) (fun e => mret (Some (_, e))))]. done.
Qed.

Definition set_kv_until (stored : bool) (key value : list Z) : M (fdb_kvdb W) (option (bool * fdb_kv * fdb_err_t)) :=
  o ← mark_old key value; if stored then store_new key value o else mret o.

(** What is on the medium when the power fails. *)
Definition interrupted (key : list Z) (m : gmap (list Z) (list Z)) (secs : list ksec) : Prop :=
  exists k i s r, let σ := Kst secs 0 false false false None indet_sec in
    half_deleted σ k i s r /\ has_room G σ (kr_len r) /\ kr_key r = key /\
    kv_map secs ∪ {[key := kr_val r]} = m.

Lemma used_has_room secs n σ : used_room G n secs -> k_secs σ = secs -> has_room G σ n.
Proof. intros (e & He & Hne & Hf) E. exists e. rewrite E. auto. Qed.

(** The old record was marked. *)
Lemma marked_interrupted σ a k i s r :
  kstable σ -> rec_pos G keys σ a k i s r -> kr_st r = FDB_KV_WRITE -> used_room G (kr_len r) (k_secs σ) ->
  interrupted (kr_key r) (kv_map (k_secs σ)) (marked_secs k i (k_secs σ)).
Proof.
  intros [H1 H2 H3 H4 H5 H6] Hp Hst Hroom. pose proof (po_loc _ _ _ _ _ _ _ _ Hp) as Hl. pose proof Hl as (Hk & Hi & _).
  destruct (marked_loc G k i _ _ _ _ Hl) as (s1 & Hk1 & Hi1 & _). pose proof (live_recs_del _ _ _ _ _ Hk Hi Hst) as Hlive.
  destruct (map_delete (k_secs σ) (del_secs k i (k_secs σ)) _ _ _ H6 Hlive) as [Hu Hm]; [done|].
  exists k, i, s1, (kr_set FDB_KV_PRE_DELETE r). cbn zeta. set (σ1 := Kst _ _ _ _ _ _ _).
  assert (half_deleted σ1 k i s1 (kr_set FDB_KV_PRE_DELETE r)) as Hh.
  { split; try done. unfold σ1. cbn [k_secs]. rewrite del_marked. split; try done.
    - eapply del_secs_stable; [done|by eapply lookup_lt_Some|done].
    - eapply del_empty; [done| |done]. by destruct (ks_recs s). }
  split; [done|]. split; [|split; [done|]].
  - eapply used_has_room; [by apply used_room_marked|done].
  - pose proof (half_map σ1 k i s1 _ Hh) as E. unfold σ1 in E. cbn [k_secs] in E. rewrite <- E, del_marked, Hm.
    cbn [kr_set kr_val kr_key]. rewrite <- insert_union_singleton_r by (by rewrite lookup_delete_eq).
    rewrite insert_delete_eq. apply insert_id. by apply (pos_map G keys σ a k i s r).
Qed.

(** The new record was stored. *)
Lemma stored_interrupted σ a k i s r j sj x value :
  kstable σ -> rec_pos G keys σ a k i s r -> kr_st r = FDB_KV_WRITE ->
  room_at G σ (rec_len (kr_key r) value) j sj x -> (ks_recs sj = [] -> (1 < n_empty (k_secs σ))%nat) ->
  used_room G (kr_len r + rec_len (kr_key r) value) (k_secs σ) ->
  interrupted (kr_key r) (<[kr_key r := value]> (kv_map (k_secs σ)))
    (append_rec j (KRec FDB_KV_WRITE (kr_key r) value) (marked_secs k i (k_secs σ))).
Proof.
  intros Hst Hp Hw Hj He Hroom. pose proof (po_loc _ _ _ _ _ _ _ _ Hp) as Hl. pose proof Hl as (Hk & Hi & _).
  set (q := KRec FDB_KV_WRITE (kr_key r) value). destruct (marked_loc G k i _ _ _ _ Hl) as (s1 & Hl1).
  destruct (rec_loc_append G _ j q _ _ _ _ _ Hl1) as (s2 & Hk2 & Hi2 & _).
  exists k, i, s2, (kr_set FDB_KV_PRE_DELETE r). cbn zeta. set (σ1 := Kst _ _ _ _ _ _ _).
  assert (del_secs k i (k_secs σ1) = append_rec j q (del_secs k i (k_secs σ))) as Ed.
  { unfold σ1. cbn [k_secs]. destruct Hl1 as (Hk1 & Hi1 & _). unfold del_secs at 1.
    rewrite (append_set_rec k i _ j q s1) by (done || by eapply lookup_lt_Some).
    rewrite mark_dirty_append. f_equal. apply del_marked. }
  destruct (put_replace_stable G σ j sj x (kr_key r) value k i s r a (with_secs (del_secs k i (k_secs σ1)) σ1)) as [Hs Hm]; try done.
  assert (half_deleted σ1 k i s2 (kr_set FDB_KV_PRE_DELETE r)) as Hh by done.
  split; [done|]. split; [|split; [done|]].
  - eapply used_has_room; [|done]. apply used_room_append. by apply used_room_marked.
  - pose proof (half_map σ1 k i s2 _ Hh) as E. cbn [k_secs with_secs] in Hm. rewrite Hm in E.
    unfold σ1 in E. cbn [k_secs] in E. rewrite <- E. apply map_eq. intros key. rewrite lookup_union. destruct (decide (key = kr_key r)) as [->|Hne].
    + by rewrite lookup_insert_eq, lookup_singleton_eq.
    + rewrite lookup_singleton_ne by done. by rewrite (right_id None _).
Qed.

Lemma used_room_fits n secs : used_room G n secs -> forall σ, k_secs σ = secs -> ~ no_room G σ n.
Proof. intros (e & He & Hne & Hf) σ E [Hno _]. by apply (Hno e); rewrite ?E. Qed.

Lemma used_room_le n n' secs : n' <= n -> used_room G n secs -> used_room G n' secs.
Proof. intros Hn (e & He & Hne & Hf). exists e. split_and!; try done. unfold fits in *. lia. Qed.

(** The map that survives. *)
Definition survives (stored : bool) (key value : list Z) (m : gmap (list Z) (list Z)) : gmap (list Z) (list Z) :=
  if stored then <[key := value]> m else m.

(** The old record is marked; there is a place for the new one. *)
Definition marked_result (σ : kst) (key value old : list Z) (o : option (bool * fdb_kv * fdb_err_t)) (σ' : kst) : Prop :=
  exists kv x j sj a k i s r, o = Some (true, kv, FDB_NO_ERR) /\ σ' = deleted false k i r (with_cur x σ) /\
    rec_pos G keys (with_cur x σ) a k i s r /\ kr_key r = key /\ kr_val r = old /\ kr_st r = FDB_KV_WRITE /\
    room_at G (with_cur x σ) (rec_len key value) j sj x /\ (ks_recs sj = [] -> (1 < n_empty (k_secs σ))%nat).

Lemma triple_mark_old σ key value old :
  kstable σ -> keys key -> rec_ok key value -> kv_map (k_secs σ) !! key = Some old -> ~ no_room G σ (rec_len key value) ->
  triple σ (mark_old key value) (marked_result σ key value old).
Proof.
  intros Hst Hk Hok Hold Hnr. unfold mark_old. eapply triple_gets; [intros d Hd; apply Hd|].
  rewrite new_kv_ex_eq by done. pose proof (rec_len_range _ _ Hok).
  eapply triple_bind; [apply (triple_new_kv G HG keys Hkeys); [done|unfold KV_HDR_DATA_SIZE in *; lia]|].
  cbn beta. intros [a x] σ1 (_ & _ & [->|] & Hr); [|done]. cbn [fst snd] in *.
  destruct Hr as [[Ha (j & sj & Hj & _ & _ & He)]|(_ & Hn & _)]; [|done].
  eapply triple_bind; [apply (triple_set_cur G keys)|]. cbn beta. intros _ ? ->.
  rewrite (proj2 (Z.eqb_neq a _)) by done. assert (kstable (with_cur x σ)) as Hst2 by (by destruct Hst).
  apply triple_gets_some with (P := fun kv => length (kv_name kv) = 64%nat); [intros d Hd; apply Hd|]. intros kv Hkv.
  eapply triple_bind; [by apply (triple_find_kv G HG keys Hkeys); [..|apply Hst2]|].
  cbn beta. intros [ok kv1] ? [-> [Hn Hf]]. cbn [fst snd] in *.
  eapply triple_bind; [by apply (triple_set_cur_kv G keys)|]. cbn beta. intros _ ? ->.
  destruct ok.
  2:{ exfalso. apply (no_record_map (with_cur x σ)) in Hf; [|apply Hst2].
      change (k_secs (with_cur x σ)) with (k_secs σ) in Hf. by rewrite Hf in Hold. }
  destruct Hf as (k & i & s & r & Hp & Hd & Hkey & Hw).
  pose proof (pos_map G keys (with_cur x σ) _ _ _ _ _ (kt_unique _ Hst2) Hp Hw) as E.
  change (k_secs (with_cur x σ)) with (k_secs σ) in E. rewrite Hkey, Hold in E. injection E as E.
  eapply triple_bind.
  { eapply (triple_del_kv_at G HG keys _ (Some key) kv1 _ k i s r false); try done; [left; by rewrite Hkey|apply Hst|by rewrite Hw]. }
  cbn beta. intros ? ? [-> ->]. apply triple_ret. exists kv1, x, j, sj, (kv_start kv1), k, i, s, r. split_and!; try done.
  intros E'. destruct (He E') as [Hg|]; [|done]. by rewrite (kt_gc _ Hst) in Hg.
Qed.

Lemma triple_set_until stored σ key value old :
  kstable σ -> keys key -> rec_ok key value -> kv_map (k_secs σ) !! key = Some old ->
  used_room G (rec_len key old + rec_len key value) (k_secs σ) ->
  triple σ (set_kv_until stored key value) (fun _ σ' =>
    interrupted key (survives stored key value (kv_map (k_secs σ))) (k_secs σ')).
Proof.
  intros Hst Hk Hok Hold Hroom. unfold set_kv_until. pose proof (rec_len_range _ _ Hok).
  pose proof (kr_len_pos (KRec FDB_KV_WRITE key old)) as Hpos.
  change (kr_len _) with (rec_len key old) in Hpos. unfold KV_HDR_DATA_SIZE in *.
  assert (~ no_room G σ (rec_len key value)) as Hnr.
  { eapply used_room_fits; [|done]. eapply used_room_le; [|exact Hroom]. lia. }
  eapply triple_bind; [by apply (triple_mark_old σ key value old)|]. cbn beta.
  intros o ? (kv & x & j & sj & a & k & i & s & r & -> & -> & Hp & <- & <- & Hw & Hj & He).
  set (σ2 := deleted false k i r (with_cur x σ)). assert (kstable (with_cur x σ)) as Hst2 by (by destruct Hst).
  change (rec_len (kr_key r) (kr_val r)) with (kr_len r) in *.
  assert (k_secs σ2 = marked_secs k i (k_secs σ)) as Esecs by done. destruct stored; cbn [survives store_new].
  - destruct (room_deleted G (with_cur x σ) σ2 _ _ _ _ _ _ _ (room_store G _ _ _ _ _ Hj) Esecs) as (s1 & Hroom1 & _).
    eapply triple_bind.
    { apply (triple_create_cur G HG keys σ2 j s1 x); try done. right. unfold σ2, deleted, pend_after. cbn.
      by rewrite decide_True by done. }
    cbn beta. intros ? ? [-> ->]. apply triple_ret. cbn [k_secs with_pend with_secs]. rewrite Esecs.
    by apply (stored_interrupted (with_cur x σ) a k i s r j sj x value).
  - apply triple_ret. rewrite Esecs. apply (marked_interrupted (with_cur x σ) a k i s r); try done.
    eapply used_room_le; [|exact Hroom]. lia.
Qed.

End crash.
