(* ===== verification/KvFormat.v ===== *)
(** Key-value database: formatting all sectors, for [fdb_kv_set_default] and
    for a medium that holds no database. *)
From S2P Require Import Prelude FdbDef Crc32 Status FlashIO FlashSpec Mount KvDef KvRead KvWrite KvApi KvRing KvCacheSpec.
From S2P Require Import KvSpec KvGetSpec KvFrame KvApiThm KvState KvTriple KvBase KvLook KvSector KvIter KvAlloc KvGc KvStable KvMap KvBoot KvDefault.

Lemma fresh_empty n : kv_map (replicate n fresh_sec) = ∅ /\ keys_unique (replicate n fresh_sec) /\
  Forall sec_stable (replicate n fresh_sec).
Proof.
  assert (live_recs (replicate n fresh_sec) = []) as E.
  { induction n as [|n IH]; [done|]. unfold live_recs, all_recs in *. cbn. exact IH. }
  unfold kv_map, keys_unique. rewrite E. split_and!; [done|constructor|]. apply Forall_replicate, fresh_stable.
Qed.

Section format.
Context (G : geom) (HG : geom_ok G) (keys : list Z -> Prop) (Hkeys : key_set keys).
Context {W} {ST : Storage W} {SL : StorageLaws W} {IN : Indeterminate} {KB : KvBuild}.
Implicit Type d : fdb_kvdb W.
Notation ss := (sec_size G).
Notation triple := (triple (W:=W) G keys).
Notation nsec := (nsec G).

Definition clean d : Prop := Forall (fun n => kc_addr n = FDB_DATA_UNUSED) (kv_cache_table d).

Lemma clean_kcache d σ secs pend : rep G keys d σ -> clean d -> kcache_ok G secs pend (kv_cache_table d).
Proof. intros [] Hc. destruct rp_kcache. by apply kcache_clean. Qed.

(** The first [t] sectors are fresh. *)
Definition fresh_first (t : nat) (secs : list ksec) : list ksec := replicate t fresh_sec ++ drop t secs.

Lemma fresh_first_S t secs : (t < length secs)%nat -> <[t := fresh_sec]> (fresh_first t secs) = fresh_first (S t) secs.
Proof.
  intros Ht. destruct (lookup_lt_is_Some_2 _ _ Ht) as [s Hs]. unfold fresh_first. rewrite (drop_S _ _ _ Hs).
  rewrite insert_app_r_alt by (rewrite length_replicate; lia). rewrite length_replicate, Nat.sub_diag.
  rewrite replicate_S_end, <- app_assoc. done.
Qed.

Lemma wp_kv_format_all d σ :
  rep G keys d σ -> clean d ->
  wp format_all (fun r d' => r = FDB_NO_ERR /\ clean d' /\ default_kvs d' = default_kvs d /\
    rep G keys d' (with_pend None (with_secs (replicate nsec fresh_sec) σ))) d.
Proof.
  intros Hd Hc. unfold format_all. pose proof (nsec_pos G HG). pose proof (ss_range G HG).
  pose proof (max_size_eq G HG) as Hmax. rewrite <- (nsec_count G HG) in Hmax.
  pose proof (sw_len _ _ _ (rp_wf _ _ _ _ Hd)) as Hlen.
  apply wp_bind, wp_gets. rewrite (sector_fuel_nsec G d) by apply Hd.
  eapply (wp_loop (fun '(a, r) d' => r = FDB_NO_ERR /\ clean d' /\ default_kvs d' = default_kvs d /\
      exists t, (t <= nsec)%nat /\ a = Z.of_nat t * ss /\
        rep G keys d' (with_pend None (with_secs (fresh_first t (k_secs σ)) σ)))
    (fun '(a, r) _ => (nsec - Z.to_nat (a / ss))%nat)).
  - intros [a r] d1 (-> & Hc1 & Hk1 & t & Ht & -> & Hd1).
    apply wp_bind, wp_gets, wp_bind, wp_gets. unfold kv_max_size, kv_sec_size. rewrite (rp_geo _ _ _ _ Hd1).
    destruct (Z.ltb_spec (Z.of_nat t * ss) (max_size G)) as [Hlt|Hge].
    + assert (t < nsec)%nat as Htn by nia. destruct (sector_base G HG t Htn) as (Hb1 & Hb2 & _).
      assert (k_secs σ !! t <> None) as Hst by (intros E; apply lookup_ge_None in E; lia).
      destruct (k_secs σ !! t) as [s|] eqn:Es; [|done].
      assert (fresh_first t (k_secs σ) !! t = Some s) as Hs.
      { unfold fresh_first. by rewrite (drop_S _ _ _ Es), list_lookup_middle by (by rewrite length_replicate). }
      apply wp_bind. eapply (wp_format_rep G HG keys d1 _ t s None); [exact Hd1|exact Hs|by eapply clean_kcache|].
      intros d2 Hd2 Ek Edk. cbn in Hd2. rewrite fresh_first_S in Hd2 by lia.
      rewrite decide_True by done. apply wp_ret. assert (u32 (Z.of_nat t * ss + ss) = Z.of_nat (S t) * ss) as -> by (rewrite u32_small; lia).
      split; [|rewrite !Z.div_mul, !Nat2Z.id by lia; lia]. split_and!; [done|unfold clean; by rewrite Ek|congruence|].
      exists (S t). split_and!; [lia|done|exact Hd2].
    + apply wp_ret. split_and!; try done. assert (t = nsec) as -> by nia.
      unfold fresh_first in Hd1. rewrite drop_ge, app_nil_r in Hd1 by lia. exact Hd1.
  - split_and!; try done. exists 0%nat. split_and!; [lia|done|]. unfold fresh_first. cbn. rewrite drop_0.
    destruct Hd as [R1 [W1 W2 W3] R3 R4 R5 R6 R7 R8 R9 R10 R11]. split; try done. by destruct R11; apply kcache_clean.
  - rewrite Z.div_0_l by lia. lia.
Qed.

(** [fdb_kv_set_default] stores the default values in fresh sectors. *)
Lemma fresh_stable_state σ :
  kstable σ -> kstable (with_pend None (with_secs (replicate nsec fresh_sec) σ)).
Proof.
  intros [H1 H2 H3 H4 H5 H6]. destruct (fresh_empty nsec) as (E1 & E2 & E3). split; try done.
  exists fresh_sec. split; [|done]. pose proof (nsec_pos G HG). cbn. destruct nsec; [lia|]. by left.
Qed.

Lemma triple_fresh_defaults σ l x :
  kstable σ -> k_secs σ = replicate nsec fresh_sec -> defaults_ok keys l ->
  triple σ (create_defaults l x) (fun _ σ' => kstable σ' /\ defaults_in G l (kv_map (k_secs σ'))).
Proof.
  intros Hst E [Hl Hnd]. destruct (fresh_empty nsec) as (Em & _). rewrite <- E in Em.
  eapply triple_mono; [apply (triple_create_defaults G HG keys Hkeys l σ x Hst Hl Hnd)|].
  - intros n _. by rewrite Em.
  - cbn beta. intros _ σ' (Hst' & Hsub & Hall). rewrite Em, (right_id ∅ (∪)) in Hsub.
    rewrite Em in Hall. setoid_rewrite (right_id ∅ (∪)) in Hall. split; [done|]. split; [done|].
    intros c Hc Hr. apply (Hall c Hc). assert (used_len (k_secs σ) = 0) as ->; [|done].
    rewrite E. clear. unfold used_len, all_recs. induction nsec as [|n IH]; [done|exact IH].
Qed.

Lemma wp_set_default d σ :
  rep G keys d σ -> kstable σ -> defaults_ok keys (default_kvs d) ->
  wp fdb_kv_set_default (fun r d' => exists σ', rep G keys d' σ' /\
    (r = FDB_NO_ERR /\ kstable σ' /\ defaults_in G (default_kvs d) (kv_map (k_secs σ')))) d.
Proof.
  intros Hd Hst Hdk. unfold fdb_kv_set_default. pose proof (nsec_pos G HG).
  apply wp_bind, (wp_lock _ true). intros db Eg Ei Eo _. apply wp_bind, wp_modify.
  set (d1 := set_kv_cache_table _ _). fold (clean_nodes (kv_cache_table (set_parent db d))) in d1.
  assert (rep G keys d1 (with_pend None σ)) as Hd1.
  { destruct Hd as [R1 [W1 W2 W3] (m & Hm & Hs) R4 R5 R6 R7 R8 R9 R10 R11]. split; try done; cbn; try congruence.
    - exists m. split; [|done]. unfold kv_holds, db_holds in *. cbn. by rewrite Eg, Ei.
    - destruct R11. by apply clean_nodes_ok. }
  assert (clean d1) as Hc1 by (apply Forall_map; by apply Forall_true).
  apply wp_bind. eapply wp_mono; [by apply (wp_kv_format_all d1 (with_pend None σ))|].
  intros r d2 (-> & Hc2 & Hk2 & Hd2). rewrite decide_True by done.
  apply wp_bind, wp_bind, wp_gets. rewrite Hk2. change (default_kvs d1) with (default_kvs d).
  eapply wp_mono; [apply (triple_fresh_defaults _ _ indet_sec (fresh_stable_state σ Hst) eq_refl Hdk); exact Hd2|].
  cbn beta. intros _ d3 (σ3 & Hd3 & Hst3 & Hm3). apply wp_bind, wp_modify. set (d4 := set_parent _ d3).
  assert (rep G keys d4 (with_old 0 σ3)) as Hd4.
  { destruct Hd3 as [R1 [W1 W2 W3] R3 R4 R5 R6 R7 R8 R9 R10 R11]. split; try done. split; try done. cbn. lia. }
  apply wp_bind. eapply wp_mono; [by apply (triple_lock keys G (with_old 0 σ3) false)|].
  cbn beta. intros _ d5 (σ' & Hd5 & ->). apply wp_ret. eexists. split; [exact Hd5|]. split_and!; try done; by destruct Hst3.
Qed.

(** C12: [fdb_kv_set_default] replaces the contents of a database by the default
    values: it succeeds and leaves, in a database that is ready for the next
    call, some of the default values and nothing else; it leaves all of them
    when the lengths of their records leave the room that the allocation may
    waste at the end of each sector.  The keys of the default values differ,
    and a value without a length is a string. *)
Theorem set_default_loads d m :
  kv_rep G keys d m -> defaults_ok keys (default_kvs d) ->
  wp fdb_kv_set_default (fun r d' => exists m', kv_rep G keys d' m' /\
    r = FDB_NO_ERR /\ defaults_in G (default_kvs d) m') d.
Proof.
  intros (Hi & σ & Hd & Hst & <-) Hdk.
  eapply (wp_call G keys d (fun r m' => r = FDB_NO_ERR /\ defaults_in G (default_kvs d) m') σ _); try done.
  - apply locks_set_default.
  - by apply (wp_set_default d σ).
  - cbn beta. intros r σ' (-> & Hst' & Hm). done.
Qed.
End format.
