(* ===== verification/KvBlank.v ===== *)
(** Key-value database: opening a database on a medium that holds none. *)
From S2P Require Import Prelude FdbDef Crc32 Status FlashIO FlashSpec Mount KvDef KvRead KvWrite KvApi KvRing KvCacheSpec.
From S2P Require Import KvSpec KvGetSpec KvFrame KvState KvTriple KvBase KvLook KvSector KvIter KvAlloc KvGc KvCollect KvStable KvMap KvBoot KvDefault KvFormat.

Section blank.
Context (G : geom) (HG : geom_ok G) (keys : list Z -> Prop) (Hkeys : key_set keys).
Context {W} {ST : Storage W} {SL : StorageLaws W} {IN : Indeterminate} {KB : KvBuild}.
Implicit Type d : fdb_kvdb W.
Notation ss := (sec_size G).
Notation triple := (triple (W:=W) G keys).
Notation nsec := (nsec G).

(** The header of the [k]-th sector is not that of a sector. *)
Definition blank_at (m : list Z) (k : nat) : Prop :=
  sh_magic (dec_sector_hdr (slice m (Z.of_nat k * ss) SECTOR_HDR_DATA_SIZE)) <> SECTOR_MAGIC_WORD.

(** No sector is cached. *)
Definition uncached d : Prop := Forall (fun x => addr x = FDB_DATA_UNUSED) (sector_cache_table d).

Lemma wp_read_blank d m k y Q :
  kv_holds d m -> geo (parent d) = G -> (k < nsec)%nat -> uncached d -> blank_at m k ->
  (forall i g, kv_holds (kv_io i d) m ->
     Q (FDB_INIT_FAILED, KvSec false FDB_SECTOR_STORE_UNUSED FDB_SECTOR_DIRTY_UNUSED (Z.of_nat k * ss) g
                                SECTOR_NOT_COMBINED (remain y) (empty_kv y)) (kv_io i d)) ->
  wp (read_sector_info (Z.of_nat k * ss) y false) Q d.
Proof.
  intros Hm Hg Hk Hu Hb HQ. pose proof (ss_range G HG). destruct (sector_base G HG k Hk) as (_ & _ & Hmod).
  destruct (sector_base_used G HG k Hk) as [Hused _].
  unfold read_sector_info. apply wp_bind, wp_gets. unfold kv_sec_size. rewrite Hg.
  rewrite (proj2 (Z.eqb_neq ss 0)), Hmod by lia. apply wp_bind, wp_assert; [done|].
  unfold get_sector_from_cache. apply wp_bind, wp_gets.
  assert (list_find (fun s => addr s = Z.of_nat k * ss) (sector_cache_table d) = None) as ->.
  { apply list_find_None. eapply Forall_impl; [exact Hu|]. intros x -> E. by rewrite E in Hused. }
  apply wp_bind. eapply wp_stores.
  { apply (stores_read d m); [exact Hm|]. rewrite len_replicate, Hg, <- (Z.add_0_r (Z.of_nat k * ss)).
    apply (in_sector_off G HG); ks_consts; lia. }
  intros [e b] i (Hr & _) Hi. cbn [snd] in *. rewrite len_replicate in Hr.
  assert (b = slice m (Z.of_nat k * ss) SECTOR_HDR_DATA_SIZE) as -> by (rewrite Hr; ks_consts; f_equal; lia).
  rewrite (proj2 (Z.eqb_neq _ SECTOR_MAGIC_WORD)) by exact Hb. cbn [negb orb]. apply wp_ret. by apply HQ.
Qed.

(** The iteration over all sectors, from the first one on. *)
Lemma wp_raw_iterator {A} (cb : kvdb_sec_info -> A -> M (fdb_kvdb W) (bool * A)) (Inv : nat -> A -> fdb_kvdb W -> Prop) d x arg0 :
  geo (parent d) = G -> oldest_addr (parent d) = 0 -> Inv 0%nat arg0 d ->
  (forall t arg d y, (t < nsec)%nat -> geo (parent d) = G -> Inv t arg d ->
     wp (read_sector_info (Z.of_nat t * ss) y false) (fun r d' =>
       addr (snd r) = Z.of_nat t * ss /\ combined (snd r) = SECTOR_NOT_COMBINED /\
       wp (cb (snd r) arg) (fun c d'' => fst c = false /\ geo (parent d'') = G /\ Inv (S t) (snd c) d'') d') d) ->
  wp (sector_iterator x FDB_SECTOR_STORE_UNUSED arg0 (Some cb) false) (fun r d' => geo (parent d') = G /\ Inv nsec (snd r) d') d.
Proof.
  intros Hg Ho H0 Hstep. pose proof (nsec_pos G HG). pose proof (ss_range G HG).
  unfold sector_iterator. apply wp_bind, wp_gets. change (db_oldest_addr d) with (oldest_addr (parent d)). rewrite Ho.
  apply wp_bind, wp_gets. rewrite (sector_fuel_nsec G d Hg).
  eapply (wp_loop (fun '(a, tr, y, arg) d' => geo (parent d') = G /\ exists t, (t < nsec)%nat /\ a = Z.of_nat t * ss /\
      tr = Z.of_nat t * ss /\ Inv t arg d')
    (fun '(a, tr, y, arg) _ => (nsec - Z.to_nat (tr / ss))%nat)).
  2:{ split; [done|]. exists 0%nat. split_and!; (done || lia). }
  2:{ rewrite Z.div_0_l by lia. lia. }
  intros [[[a tr] y] arg] d1 (Hg1 & t & Ht & -> & -> & HI). apply wp_bind, wp_gets. unfold kv_sec_size. rewrite Hg1.
  destruct (sector_base G HG t Ht) as (Hb1 & Hb2 & _).
  assert (u32 (Z.of_nat t * ss + ss) = Z.of_nat (S t) * ss) as -> by (rewrite u32_small; lia).
  apply wp_bind. eapply wp_mono; [by apply Hstep|]. cbn beta. intros [e z] d2 (Hz & Hc & Hcb). cbn [snd] in *.
  rewrite bool_decide_eq_true_2 by done. cbn [orb]. apply wp_bind, wp_bind, wp_ret.
  apply wp_bind. eapply wp_mono; [exact Hcb|]. intros [stop arg'] d3 (Hs & Hg3 & HI3). cbn [fst snd] in *. subst stop.
  apply wp_ret. apply wp_bind, wp_gets. unfold id.
  rewrite (next_in_ring G HG d3 z t (S t)) by (done || lia). case_decide as Hlt.
  - assert (next_index (Z.of_nat nsec) (Z.of_nat t) = Z.of_nat (S t)) as ->
      by (unfold next_index; rewrite (proj2 (Z.ltb_lt _ _)) by lia; lia).
    destruct (sector_base_used G HG (S t) Hlt) as [_ Hnf]. rewrite (proj2 (Z.eqb_neq _ _)) by done.
    apply wp_ret. split; [split; [done|by exists (S t)]|]. rewrite !Z.div_mul, !Nat2Z.id by lia. lia.
  - rewrite Z.eqb_refl. apply wp_ret. split; [done|]. by replace nsec with (S t) by lia.
Qed.

(** ** The search for the oldest sector *)

Lemma opening_io d m i m' t :
  opening G d m -> kv_holds (kv_io i d) m' -> opening G (set_sector_cache_table t (kv_io i d)) m'.
Proof. intros [] H. by split. Qed.

Lemma wp_oldest_blank d m x :
  opening G d m -> oldest_addr (parent d) = 0 -> uncached d -> (forall k, (k < nsec)%nat -> blank_at m k) ->
  wp (sector_iterator x FDB_SECTOR_STORE_UNUSED (0, FDB_SECTOR_STORE_UNUSED) (Some check_oldest_addr_cb) false)
    (fun r d' => fst (snd r) = 0 /\ opening G d' m /\
       default_kvs d' = default_kvs d /\ not_formatable (parent d') = not_formatable (parent d)) d.
Proof.
  intros Hd Ho Hu Hb. eapply wp_mono.
  - apply (wp_raw_iterator check_oldest_addr_cb (fun _ arg d' => arg = (0, FDB_SECTOR_STORE_UNUSED) /\
      opening G d' m /\ uncached d' /\ default_kvs d' = default_kvs d /\ not_formatable (parent d') = not_formatable (parent d)));
      [apply Hd|done|by split_and!|].
    intros t arg d1 y Ht Hg (-> & H1 & Hu1 & E1 & E2). eapply wp_read_blank; [apply H1|done..|by apply Hb|].
    intros i g Hi. split_and!; [done..|]. apply wp_ret. split; [done|]. split; [done|]. split; [done|].
    split_and!; try done. rewrite <- (set_sct_id (kv_io i d1)). by apply (opening_io d1 m).
  - cbn beta. intros r d' (_ & Er & H1 & _ & E). by rewrite Er.
Qed.

(** ** The sectors are formatted *)

Lemma uncached_formatted k t :
  Forall (fun x => addr x = FDB_DATA_UNUSED) t ->
  Forall (fun x => addr x = FDB_DATA_UNUSED) (update_sector_table (formatted_entry G k) t).
Proof.
  intros Ht. unfold update_sector_table. cbn [check_ok formatted_entry].
  destruct (sector_slot _ _ _ _) as [i|[i|]]; [|done..]. apply Forall_alter; done.
Qed.

(** While the sectors are checked: the first [t] are fresh, the others blank. *)
Record formatting (l : list fdb_default_kv_node) (t : nat) d : Prop := {
  fm_uncached : uncached d;
  fm_nodes : clean d;
  fm_rec : in_recovery_check d = true;
  fm_oldest : oldest_addr (parent d) = 0;
  fm_default : default_kvs d = l;
  fm_formatable : not_formatable (parent d) = false;
  fm_medium : exists m, opening G (set_in_recovery_check false d) m /\
    (forall k, (k < t)%nat -> sec_at ss m (Z.of_nat k * ss) fresh_sec) /\
    (forall k, (t <= k < nsec)%nat -> blank_at m k);
}.

Lemma blank_eq m m' k :
  slice m' (Z.of_nat k * ss) ss = slice m (Z.of_nat k * ss) ss -> blank_at m k -> blank_at m' k.
Proof.
  intros E. unfold blank_at. pose proof (ss_range G HG).
  by rewrite (slice_sub_eq m' m (Z.of_nat k * ss) ss) by (try done; unfold SECTOR_HDR_DATA_SIZE; lia).
Qed.

Lemma wp_check_hdr_step l t arg d y :
  (t < nsec)%nat -> geo (parent d) = G -> arg = Z.of_nat t -> formatting l t d ->
  wp (read_sector_info (Z.of_nat t * ss) y false) (fun r d' =>
    addr (snd r) = Z.of_nat t * ss /\ combined (snd r) = SECTOR_NOT_COMBINED /\
    wp (check_sec_hdr_cb (snd r) arg) (fun c d'' => fst c = false /\ geo (parent d'') = G /\
      snd c = Z.of_nat (S t) /\ formatting l (S t) d'') d') d.
Proof.
  intros Ht Hg -> [Hu Hc Hr Ho Hk Hn (m & Hop & Hf & Hb)]. pose proof (ss_range G HG).
  destruct (sector_base G HG t Ht) as (Hb1 & Hb2 & _).
  eapply wp_read_blank; [apply Hop|done..|by apply Hb|]. intros i g Hi. split_and!; [done..|].
  unfold check_sec_hdr_cb. cbn [check_ok negb snd addr].
  apply wp_bind, wp_gets. change (not_formatable (parent (kv_io i d))) with (not_formatable (parent d)).
  rewrite Hn. apply wp_bind. eapply (wp_format G HG); [exact Hi|done..|].
  intros j m' d' Hm' Hs' Hoth. unfold d' in *. rewrite kv_io_io in *. cbn [sector_cache_table] in *.
  apply wp_ret. split; [done|]. split; [done|]. cbn [snd]. split.
  { unfold u64. rewrite Z.mod_small; [lia|]. pose proof (max_size_eq G HG). unfold max_size in *. destruct HG.
    pose proof (nsec_count G HG). nia. }
  split; try done; [by apply uncached_formatted|].
  exists m'. split; [|split].
  - eapply (opening_io _ _ j m' (update_sector_table _ _)) in Hop; [exact Hop|exact Hm'].
  - intros k Hkt. destruct (decide (k = t)) as [->|Hne]; [done|].
    eapply sec_at_eq; [nia| |by apply Hoth|apply Hf; lia]. unfold ks_end. cbn. ks_consts. lia.
  - intros k Hkt. eapply blank_eq; [apply Hoth; lia|apply Hb; lia].
Qed.

(** Every sector is formatted. *)
Lemma wp_check_blank l d x :
  geo (parent d) = G -> formatting l 0 d ->
  wp (sector_iterator x FDB_SECTOR_STORE_UNUSED 0 (Some check_sec_hdr_cb) false)
    (fun r d' => snd r = sector_count G /\ formatting l nsec d') d.
Proof.
  intros Hg Hd. eapply wp_mono.
  - apply (wp_raw_iterator check_sec_hdr_cb (fun t arg d => arg = Z.of_nat t /\ formatting l t d)); [done|apply Hd|done|].
    intros t arg d1 y Ht Hg1 [Ea H1]. by apply wp_check_hdr_step.
  - cbn beta. intros r d' (_ & -> & H). split; [|done]. by apply nsec_count.
Qed.

Lemma formatted_rep l d :
  formatting l nsec d -> rep G keys d (with_rec true (open_state d (replicate nsec fresh_sec) 0)).
Proof.
  intros [Hu Hc Hr Ho Hk Hn (m & [] & Hf & _)]. pose proof (nsec_pos G HG). split; try done.
  - split; cbn; [by rewrite length_replicate| |lia]. apply Forall_replicate. by split.
  - exists m. split; [done|]. intros k s Hk'. apply lookup_replicate in Hk' as [-> Hlt]. by apply Hf.
  - by apply scache_clean.
  - by apply kcache_clean.
Qed.

Lemma open_stable d : kstable (open_state d (replicate nsec fresh_sec) 0).
Proof.
  destruct (fresh_empty nsec) as (E1 & E2 & E3). split; try done.
  exists fresh_sec. split; [|done]. pose proof (nsec_pos G HG). cbn. destruct nsec; [lia|]. by left.
Qed.

(** Loading formats the medium and stores the default values. *)
Lemma wp_load_blank l d retries :
  geo (parent d) = G -> formatting l 0 (set_in_recovery_check true d) -> defaults_ok keys l -> (0 < retries)%nat ->
  wp (_fdb_kv_load retries) (fun r d' => r = FDB_NO_ERR /\
    exists σ, rep G keys d' σ /\ kstable σ /\ defaults_in G l (kv_map (k_secs σ))) d.
Proof.
  intros Hg Hd Hl Hr. unfold _fdb_kv_load. apply wp_bind, wp_modify. set (d1 := set_in_recovery_check true d) in *.
  apply wp_bind. eapply wp_mono; [by apply wp_check_blank|]. intros [x n] d2 [En H2]. cbn [snd] in En. subst n.
  apply wp_bind, wp_gets. rewrite (fm_formatable _ _ _ H2). cbn [andb].
  pose proof (formatted_rep _ _ H2) as Hrep. apply wp_bind, wp_gets. unfold kv_max_size, kv_sec_size.
  rewrite (rp_geo _ _ _ _ Hrep). change (max_size G / ss) with (sector_count G). rewrite Z.eqb_refl.
  set (σ := open_state d2 (replicate nsec fresh_sec) 0) in *.
  apply wp_bind, wp_bind. eapply wp_mono.
  { apply (wp_set_default G HG keys Hkeys d2 (with_rec true σ)); [exact Hrep|apply kstable_rec, open_stable|].
    by rewrite (fm_default _ _ _ H2). }
  cbn beta. intros _ d3 (σ3 & Hd3 & _ & Hst3 & Hm3). rewrite (fm_default _ _ _ H2) in Hm3. apply wp_ret.
  eapply wp_mono; [by apply (triple_load_rest G HG keys _ _ x retries (stable_passes G HG keys Hkeys _ Hst3) Hr)|].
  cbn beta. intros r d4 (σ' & Hd4 & -> & ? & -> & ->). split; [done|]. eexists. split; [exact Hd4|].
  split; [by apply kstable_rec|done].
Qed.
End blank.

Section init.
Context (keys : list Z -> Prop) (Hkeys : key_set keys).
Context {W} {ST : Storage W} {SL : StorageLaws W} {IN : Indeterminate} {KB : KvBuild}.
Implicit Type d : fdb_kvdb W.

(** C11: A new medium becomes an empty database: when no sector has a header, as
    on an erased flash, and formatting is allowed, [fdb_kvdb_init] formats every
    sector, stores the default values, succeeds, and leaves a database that
    holds them: all of them when they have room, some of them otherwise; the
    empty map when there are none.  The structure's sector cache is empty or full of
    zeros.  (The build is without [FDB_KV_AUTO_UPDATE].) *)
Theorem kv_init_formats retries nm path dk u d db m :
  let G := geo db in
  opens nm path FDB_DB_TYPE_KV u (parent d) db m ->
  last_is_complete_del d = false -> length (kv_name (cur_kv d)) = 64%nat ->
  length (kv_cache_table d) = 64%nat -> Forall active_ok (kv_cache_table d) ->
  uncached d \/ zero_entry (sector_cache_table d) ->
  not_formatable (parent d) = false -> defaults_ok keys (default [] dk) -> FDB_KV_AUTO_UPDATE = false -> (0 < retries)%nat ->
  (forall k, (k < nsec G)%nat -> blank_at G m k) ->
  wp (fdb_kvdb_init retries nm path dk u) (fun r d' => r = FDB_NO_ERR /\
    exists mp, kv_rep G keys d' mp /\ defaults_in G (default [] dk) mp) d.
Proof.
  intros G Hmt B1 B2 B3 B4 Hc Hn Hdk Hau Hr Hb.
  pose proof (holds_geom _ _ _ (os_holds _ _ _ _ _ _ _ Hmt)) as HG. fold G in HG.
  assert (0 < nsec G)%nat as H0 by (pose proof (nsec_pos G HG); lia).
  apply (wp_kvdb_init keys (defaults_in G (default [] dk)) retries nm path dk u d db m (fun o d2 m2 => o = 0%nat /\ m2 = m /\
    default_kvs d2 = default [] dk /\ not_formatable (parent d2) = false)); try done.
  - intros d1 x H1 Ho Ec Ek Ef. rewrite Hn in Ef.
    eapply wp_mono with (P := fun r d' => fst (snd r) = 0 /\ opening G d' m /\ default_kvs d' = default [] dk /\ not_formatable (parent d') = false).
    + destruct Hc as [Hu|Hz].
      * eapply wp_mono; [apply (wp_oldest_blank G HG d1 m); try done; unfold uncached; by rewrite Ec|].
        cbn beta. intros r d2 (Er & H2 & E1 & E2). split_and!; congruence.
      * eapply wp_mono; [apply (wp_oldest_zero G HG d1 m); try done; by rewrite Ec|].
        cbn beta. intros r d2 [-> Er]. by split_and!.
    + cbn beta. intros r d2 (Er & H2 & E1 & E2). exists 0%nat, m. by split_and!.
  - intros d2 m2 o db2 t H2 (-> & -> & E1 & E2) _ Hg Hi Hod Hf Ht. apply (wp_load_blank G HG keys Hkeys); [done| |done..].
    split; try done; [apply Forall_map; by apply Forall_true|by rewrite <- E2, <- Hf|].
    exists m. split; [|by split; [lia|intros; apply Hb; lia]].
    apply (opening_parent G d2 m db2) in H2; [|done..]. destruct H2. split; try done; cbn.
    + unfold clean_nodes. by rewrite length_map.
    + apply Forall_map. eapply Forall_impl; [eassumption|]. done.
Qed.
End init.
