(* ===== verification/KvWit.v ===== *)
(** Key-value database: a concrete database that holds a map, for the theorems
    on maps, and a medium that is opened. *)
From S2P Require Import Prelude FdbDef Crc32 Status FlashIO FlashSpec Mount FileIO FileSpec FileThm Disk KvDef KvRead KvWrite KvApi KvRing KvCacheSpec.
From S2P Require Import KvSpec KvGetSpec KvThm KvState KvTriple KvAlloc KvGc KvStable KvSet KvMap KvItr KvMapThm KvBoot KvDefault KvFormat KvBlank.

#[local] Existing Instance zeros.
#[local] Instance no_auto_update : KvBuild := false.

(** Names of one length are never confused by the cache. *)
Definition name_of (n : Z) (key : list Z) : Prop := len key = n /\ Forall (fun b => 0 < b < 256) key.

Lemma name_of_set n : 0 < n < FDB_KV_NAME_MAX -> key_set (name_of n).
Proof.
  intros Hn. split.
  - by intros key [].
  - by intros key [-> _].
  - intros key rest [H1 _] [H2 _] _. rewrite len_app in H2. apply nil_length_inv. unfold len in *. lia.
Qed.

(** A sector with the record of "ab", and an empty one. *)
Definition krec1 : krec := KRec FDB_KV_WRITE [97; 98] [1; 2; 3].
Definition ksecs : list ksec := [KSec FDB_SECTOR_DIRTY_FALSE [krec1]; fresh_sec].
Definition kmap : gmap (list Z) (list Z) := {[ [97; 98] := [1; 2; 3] ]}.

Lemma kname b c : (0 <? b) && (b <? 256) && ((0 <? c) && (c <? 256)) = true -> name_of 2 [b; c].
Proof.
  intros H. apply andb_prop in H as [H1 H2]. split; [done|]. apply key_check. cbn. by rewrite H1, H2.
Qed.

Lemma ksecs_ok : Forall (ksec_ok (name_of 2) 256) ksecs.
Proof.
  apply Forall_cons. split; [|by repeat constructor]. split; [|intros _; vm_compute; reflexivity].
  apply Forall_singleton. split; [by apply kname|]. split; [by apply key_check|done|by apply bytes_check|done].
Qed.

Lemma ksecs_at : secs_at 256 kmedium2 ksecs.
Proof.
  intros [|[|k]] s [= <-]; split; try (vm_compute; reflexivity); cbn.
  split; [|exact I]. split_and!; vm_compute; reflexivity.
Qed.

Lemma ksecs_stable : Forall sec_stable ksecs.
Proof. repeat constructor. Qed.

Lemma ksecs_unique : keys_unique ksecs.
Proof. vm_compute. repeat constructor. intros H. inversion H. Qed.

Definition kstate : kst := Kst ksecs 0 false false false None free_entry.

Lemma kstate_stable : kstable kstate.
Proof.
  split; try done; [apply ksecs_stable| |apply ksecs_unique].
  exists fresh_sec. split; [|done]. right. left.
Qed.

Lemma kdb_rep : rep kgeom (name_of 2) (kdb_on kmedium2) kstate.
Proof.
  split; try done.
  - split; [done|apply ksecs_ok|cbn; vm_compute; lia].
  - exists kmedium2. split; [|apply ksecs_at].
    apply kdb_on_holds; [vm_compute; reflexivity|apply bytes_check; vm_compute; reflexivity].
  - apply scache_clean. by apply Forall_replicate.
  - apply kcache_clean; [done|..]; apply Forall_replicate; [unfold active_ok; cbn; lia|done].
Qed.

Lemma kdb_kv_rep : kv_rep kgeom (name_of 2) (kdb_on kmedium2) kmap.
Proof. split; [done|]. exists kstate. split; [exact kdb_rep|]. split; [exact kstate_stable|]. reflexivity. Qed.

(** ** The calls *)

Definition kblob (v : option (list Z)) (n : Z) : fdb_blob := FdbBlob v n 0 0 0.
Definition kops : list user_op :=
  [USet [99; 100] (kblob (Some [4; 5]) 2); UGet [99; 100] (kblob (Some [0; 0; 0]) 3); UDel [97; 98]].

Lemma kv_refines_map_witness :
  wp (run_ops kops) (fun l d' => exists m', kv_rep kgeom (name_of 2) d' m' /\ map_steps kmap kops l m') (kdb_on kmedium2).
Proof.
  apply (kv_refines_map kgeom (gf_geom _ _ kgeom_file) (name_of 2) (name_of_set 2 ltac:(done)) kops).
  - apply kdb_kv_rep.
  - apply Forall_cons. split; [|apply Forall_cons; split; [|apply Forall_singleton]].
    + split; [by apply kname|]. split; [by apply bytes_check|done].
    + split; [by apply kname|]. by exists [0; 0; 0].
    + by apply kname.
Defined.

Lemma set_with_room_witness :
  wp (fdb_kv_set_blob [99; 100] (kblob (Some [4; 5]) 2)) (fun e d' => e = FDB_NO_ERR /\
    kv_rep kgeom (name_of 2) d' (<[[99; 100] := [4; 5]]> (kv_map ksecs))) (kdb_on kmedium2).
Proof.
  apply (set_with_room kgeom (gf_geom _ _ kgeom_file) (name_of 2) (name_of_set 2 ltac:(done)) (kdb_on kmedium2) kstate
           [99; 100] (kblob (Some [4; 5]) 2) [4; 5] (KSec FDB_SECTOR_DIRTY_FALSE [krec1])).
  - reflexivity.
  - apply kdb_rep.
  - apply kstate_stable.
  - split; [by apply kname|]. split; [by apply bytes_check|done].
  - reflexivity.
  - left.
  - vm_compute. reflexivity.
  - left. discriminate.
Defined.

Lemma iterate_enumerates_witness :
  wp (itr ← fdb_kv_iterator_init (FdbKvIterator no_kv 0 0 0 0 0); iterate_all (S (Z.to_nat 512)) itr) (fun l d' =>
    kv_rep kgeom (name_of 2) d' kmap /\ exists ps, ps ≡ₚ map_to_list kmap /\ Forall2 (object_of d') l ps) (kdb_on kmedium2).
Proof.
  apply (iterate_enumerates kgeom (gf_geom _ _ kgeom_file) (name_of 2) (name_of_set 2 ltac:(done)));
    [apply kdb_kv_rep|reflexivity].
Defined.

(** Two default values: the string "78", and two bytes of three. *)
Definition kdefs : list fdb_default_kv_node := [DefaultKv [99; 100] [55; 56; 0; 9] 0; DefaultKv [101; 102] [1; 2; 3] 2].

Lemma kdefs_ok : defaults_ok (name_of 2) kdefs.
Proof.
  split; [|by apply (bool_decide_eq_true_1 (NoDup _)); vm_compute].
  apply Forall_cons; split; [|apply Forall_singleton];
    (split; [by apply kname|by apply bytes_check|vm_compute; reflexivity|vm_compute; split; discriminate|cbn]).
  - intros _. right. right. left.
  - discriminate.
Qed.

Lemma kdefs_all m : defaults_in kgeom kdefs m -> m = {[ [99; 100] := [55; 56]; [101; 102] := [1; 2] ]}.
Proof.
  intros [_ H]. rewrite (H 28); [reflexivity|lia|]. split; [|vm_compute; reflexivity].
  repeat constructor; vm_compute; discriminate.
Qed.

Definition kdb_defs : fdb_kvdb libc := set_default_kvs kdefs (kdb_on kmedium2).

Lemma set_default_loads_witness :
  wp fdb_kv_set_default (fun r d' => r = FDB_NO_ERR /\
    kv_rep kgeom (name_of 2) d' {[ [99; 100] := [55; 56]; [101; 102] := [1; 2] ]}) kdb_defs.
Proof.
  eapply wp_mono.
  - apply (set_default_loads kgeom (gf_geom _ _ kgeom_file) (name_of 2) (name_of_set 2 ltac:(done)) kdb_defs kmap); [|exact kdefs_ok].
    split; [done|]. exists kstate. split; [|by split; [exact kstate_stable|]]. destruct kdb_rep. by split.
  - cbn beta. intros r d' (m & Hd' & -> & Hm). by rewrite <- (kdefs_all m Hm).
Defined.

(** ** Opening *)

(** The structure before [fdb_kvdb_init], with a sector cache of zeros. *)
Definition zero_sec : kvdb_sec_info :=
  KvSec false FDB_SECTOR_STORE_UNUSED FDB_SECTOR_DIRTY_UNUSED 0 0 0 0 0.
Definition kdb_closed (m : list Z) : fdb_kvdb libc :=
  FdbKvdb (FdbDb kgeom (disk_io kgeom "/d" m) FDB_DB_TYPE_KV 0 false false true true [] 0)
    [] false false no_kv zero_sec false
    (replicate 64 (KvCacheNode 0 0 0)) (replicate 8 zero_sec) 0.
Definition kblank : list Z := replicate 512 255.

Lemma kmountable m : len m = 512 -> bytes m -> mountable "env" "/d" FDB_DB_TYPE_KV 0 (parent (kdb_closed m)) m.
Proof. intros Hl Hb. split; try done. by apply (disk_holds kgeom "/d" m); [apply kgeom_file|..]. Qed.

Lemma kzero m : zero_entry (sector_cache_table (kdb_closed m)).
Proof. exists 0%nat, zero_sec. by split_and!. Qed.


Lemma kv_reopen_witness :
  wp (fdb_kvdb_deinit;; fdb_kvdb_init 1 "env" "/d" None 0) (fun r d' =>
    r = FDB_NO_ERR /\ kv_rep kgeom (name_of 2) d' kmap) (kdb_on kmedium2).
Proof.
  apply (kv_reopen (name_of 2) (name_of_set 2 ltac:(done)) (ST := libc_storage) eq_refl 1 "/d" None 0 (kdb_on kmedium2) kmap);
    [exact kdb_kv_rep|reflexivity|reflexivity|discriminate|reflexivity|reflexivity|lia].
Defined.
