(* ===== verification/KvCrashWit.v ===== *)
(** Key-value database: power failures on concrete databases. *)
From S2P Require Import Prelude FdbDef Crc32 Status FlashIO FlashSpec Mount FileIO FileSpec Disk KvDef KvRead KvWrite KvApi KvRing KvCacheSpec.
From S2P Require Import KvSpec KvGetSpec KvThm KvState KvTriple KvAlloc KvGc KvStable KvSet KvMap KvBoot KvRecover KvCrash KvWit.

#[local] Existing Instance zeros.
#[local] Instance no_auto_update : KvBuild := false.


(** ** A record that was torn *)

(** Four sectors of 256 bytes. *)
Definition four_geom : geom := Geom "env" (storage_dir "/d") 256 1024 true.
Definition four_on (w : libc) : fdb_kvdb libc :=
  FdbKvdb (FdbDb four_geom (Io [FDB_FAILED_ADDR; FDB_FAILED_ADDR] [None; None] 0 w) FDB_DB_TYPE_KV 0 false false true true [] 0)
    [] false false no_kv zero_sec false (replicate 64 (KvCacheNode 0 0 0)) (replicate 8 zero_sec) 0.

(** "bb" does not fit behind "aa" and goes to the second sector; the new value
    of "bb" fits behind "aa".  The power fails when the header of the new record
    was written. *)
Definition torn_replacement : M (fdb_kvdb libc) unit :=
  fdb_kvdb_init 1 "env" "/d" None 0;;
  fdb_kv_set_blob [97; 97] (kblob (Some (replicate 80 1)) 80);;
  fdb_kv_set_blob [98; 98] (kblob (Some (replicate 40 2)) 40);;
  mark_old [98; 98] [7];;
  sector ← gets cur_sector;
  update_sec_status sector (rec_len [98; 98] [7]) false;;
  write_kv_hdr (empty_kv sector) (new_kv_hdr [98; 98] [7] 1);;
  mret tt.

(** Opening the database, and reading "bb". *)
Definition open_and_get : M (fdb_kvdb libc) (fdb_err_t * (Z * option (list Z))) :=
  e ← fdb_kvdb_init 1 "env" "/d" None 0;
  r ← fdb_kv_get_blob [98; 98] (kblob (Some [0; 0]) 2);
  mret (e, (fst r, buf (snd r))).

Definition restarts (p : M (fdb_kvdb libc) unit) (w : libc) : option (list (fdb_err_t * (Z * option (list Z)))) :=
  match p (four_on w) with
  | Done (_, d) =>
      match open_and_get (four_on (world (dbio (parent d)))) with
      | Done (a, d) =>
          match open_and_get (four_on (world (dbio (parent d)))) with
          | Done (b, _) => Some [a; b]
          | Stuck _ => None
          end
      | Stuck _ => None
      end
  | Stuck _ => None
  end.


(** ** A collection that was interrupted *)

(** Three sectors of 256 bytes. *)
Definition three_geom : geom := Geom "env" (storage_dir "/d") 256 768 true.
Definition three_on (w : libc) : fdb_kvdb libc :=
  FdbKvdb (FdbDb three_geom (Io [FDB_FAILED_ADDR; FDB_FAILED_ADDR] [None; None] 0 w) FDB_DB_TYPE_KV 0 false false true true [] 0)
    [] false false no_kv zero_sec false (replicate 64 (KvCacheNode 0 0 0)) (replicate 8 zero_sec) 0.

Definition put (key : list Z) (n : nat) : M (fdb_kvdb libc) fdb_err_t :=
  fdb_kv_set_blob key (kblob (Some (replicate n 1)) (Z.of_nat n)).

(** The length of the value of a key, 0 when there is none. *)
Definition value_length (key : list Z) : M (fdb_kvdb libc) Z :=
  r ← fdb_kv_get_blob key (kblob (Some [0]) 1); mret (saved_len (snd r)).
Definition lengths : M (fdb_kvdb libc) (list Z) :=
  a ← value_length [97; 97]; b ← value_length [98; 98]; c ← value_length [99; 99]; mret [a; b; c].

(** The keys "aa", "bb" and "cc" are set, "jj", "ll", "zz" and "ee" are set and
    deleted.  The record of "aa" is then in the first sector, those of "bb" and
    "cc" are in the third, which is the oldest one, and the second is empty. *)
Definition gc_history : M (fdb_kvdb libc) (list fdb_err_t) :=
  e0 ← fdb_kvdb_init 1 "env" "/d" None 0;
  e1 ← put [106; 106] 100; e2 ← put [108; 108] 100; e3 ← fdb_kv_del [106; 106];
  e4 ← put [98; 98] 44; e5 ← put [122; 122] 2; e6 ← put [99; 99] 27;
  e7 ← fdb_kv_del [108; 108]; e8 ← put [97; 97] 74; e9 ← put [101; 101] 10;
  e10 ← fdb_kv_del [122; 122]; e11 ← fdb_kv_del [101; 101];
  mret [e0; e1; e2; e3; e4; e5; e6; e7; e8; e9; e10; e11].

(** The beginning of a collection, as in [do_gc]: the oldest sector is marked,
    and its first record moved. *)
Definition gc_begins : M (fdb_kvdb libc) unit :=
  modify (set_gc_request true);;
  oldest ← gets db_oldest_addr;
  up (_fdb_write_status FDB_WRITE_GRAN (oldest + SECTOR_DIRTY_OFFSET) FDB_SECTOR_DIRTY_STATUS_NUM
        (enum_val FDB_SECTOR_DIRTY_GC) true);;
  r ← read_kv (kv_set_start (oldest + SECTOR_HDR_DATA_SIZE) indet_kv);
  move_kv (snd r);;
  mret tt.

Definition interrupted_collection (w : libc) : option (list fdb_err_t * list Z * (fdb_err_t * list Z)) :=
  match (e ← gc_history; l ← lengths; gc_begins;; mret (e, l)) (three_on w) with
  | Done (r, d) =>
      match (e ← fdb_kvdb_init 1 "env" "/d" None 0; l ← lengths; mret (e, l)) (three_on (world (dbio (parent d)))) with
      | Done (s, _) => Some (r, s)
      | Stuck _ => None
      end
  | Stuck _ => None
  end.

