(* ===== verification/Fal.v ===== *)
(** The flash abstraction layer: [port/fal/src/fal_flash.c],
    [port/fal/src/fal_partition.c], [port/fal/src/fal.c], and its structures from
    [port/fal/inc/fal_def.h].

    The layer divides the flash devices of a board into named partitions.  The
    drivers of the devices and [malloc] are the user's and the platform's: the
    class [FlashDriver].  A device is its index in the table of devices, and a
    pointer to a partition its index in the table of partitions.  Log messages
    are left out, but for the table that [fal_show_part_table] prints. *)
From S2P Require Import Prelude FdbDef Status FlashIO.

(** ** Structures *)

Definition FAL_DEV_NAME_MAX : Z := 24.
Definition FAL_PART_MAGIC_WORD : Z := 0x45503130.

(** [struct fal_flash_dev]; of [ops] only whether [init] is set. *)
Record fal_flash_dev := FlashDev {
  dev_name : list Z;
  dev_addr : Z;
  dev_len : Z;
  dev_blk_size : Z;
  dev_init : bool;
  dev_write_gran : Z;
}.

Record fal_partition := FalPartition {
  part_magic : Z;
  part_name : list Z;
  part_flash_name : list Z;
  part_offset : Z;
  part_len : Z;
  part_reserved : Z;
}.

(** [fal_cfg.h], which the user writes.  [FAL_DEBUG] switches the assertions
    on. *)
Class FalConfig := {
  FAL_DEBUG : bool;
  FAL_FLASH_DEV_TABLE : list fal_flash_dev;
  FAL_PART_HAS_TABLE_CFG : bool;
  FAL_PART_TABLE : list fal_partition;
  FAL_PART_TABLE_FLASH_DEV_NAME : list Z;     (** with its terminator *)
  FAL_PART_TABLE_END_OFFSET : Z;
}.

(** The drivers ([ops] of the devices), and whether [malloc] and [realloc] find
    memory of a size. *)
Class FlashDriver (D : Type) := {
  ops_init : nat -> M D Z;
  ops_read : nat -> Z -> list Z -> M D (Z * list Z);
  ops_write : nat -> Z -> list Z -> M D Z;
  ops_erase : nat -> Z -> Z -> M D Z;
  fal_malloc : Z -> M D bool;
}.

(** An element of [part_flash_cache]: memory from [malloc] is not set. *)
Inductive part_flash_info := CacheUnset | CacheNull | CacheDev (dev : nat).

(** The static variables of the three files, and what the drivers see.  An
    array is [None] when the pointer to it is [NULL]. *)
Record fal (D : Type) := Fal {
  flash_init_ok : bool;                                (** [fal_flash.c] *)
  partition_table : option (list fal_partition);       (** [fal_partition.c] *)
  part_flash_cache : option (list part_flash_info);
  part_init_ok : bool;
  partition_table_len : Z;
  fal_init_ok : bool;                                  (** [fal.c] *)
  drivers : D;
}.
Arguments Fal {D}.
Arguments flash_init_ok {D}.
Arguments partition_table {D}.
Arguments part_flash_cache {D}.
Arguments part_init_ok {D}.
Arguments partition_table_len {D}.
Arguments fal_init_ok {D}.
Arguments drivers {D}.

(** ** Strings *)

(** A string of the program as an array with its terminator. *)
Definition c_string (s : string) : list Z :=
  map (fun c => Z.of_nat (Ascii.nat_of_ascii c)) (String.list_ascii_of_string s) ++ [0].

(** The characters before the terminator. *)
Definition string_of_bytes (l : list Z) : string :=
  String.string_of_list_ascii (map (fun b => Ascii.ascii_of_nat (Z.to_nat b)) (until_nul l)).

(** The index of the first element for which [f] holds; [None] when [f] fails. *)
Fixpoint find_index {A} (f : A -> option bool) (l : list A) (i : nat) : option (option nat) :=
  match l with
  | [] => Some None
  | x :: l => match f x with
              | None => None
              | Some true => Some (Some i)
              | Some false => find_index f l (S i)
              end
  end.

Section fal.
Context {D} {CF : FalConfig} {DR : FlashDriver D} {IN : Indeterminate}.

Definition set_flash_init_ok (b : bool) (f : fal D) : fal D :=
  Fal b (partition_table f) (part_flash_cache f) (part_init_ok f) (partition_table_len f) (fal_init_ok f) (drivers f).
Definition set_partition_table (t : option (list fal_partition)) (f : fal D) : fal D :=
  Fal (flash_init_ok f) t (part_flash_cache f) (part_init_ok f) (partition_table_len f) (fal_init_ok f) (drivers f).
Definition set_part_flash_cache (c : option (list part_flash_info)) (f : fal D) : fal D :=
  Fal (flash_init_ok f) (partition_table f) c (part_init_ok f) (partition_table_len f) (fal_init_ok f) (drivers f).
Definition set_part_init_ok (b : bool) (f : fal D) : fal D :=
  Fal (flash_init_ok f) (partition_table f) (part_flash_cache f) b (partition_table_len f) (fal_init_ok f) (drivers f).
Definition set_partition_table_len (n : Z) (f : fal D) : fal D :=
  Fal (flash_init_ok f) (partition_table f) (part_flash_cache f) (part_init_ok f) n (fal_init_ok f) (drivers f).
Definition set_fal_init_ok (b : bool) (f : fal D) : fal D :=
  Fal (flash_init_ok f) (partition_table f) (part_flash_cache f) (part_init_ok f) (partition_table_len f) b (drivers f).
Definition set_drivers (w : D) (f : fal D) : fal D :=
  Fal (flash_init_ok f) (partition_table f) (part_flash_cache f) (part_init_ok f) (partition_table_len f) (fal_init_ok f) w.

Definition with_drivers {A} (m : M D A) : M (fal D) A := zoom drivers set_drivers m.

(** The macro [assert]. *)
Definition fal_assert (b : bool) : M (fal D) unit :=
  if FAL_DEBUG then fdb_assert b else mret tt.

Definition undefined_if_none {S A} (x : option A) : M S A :=
  match x with Some a => mret a | None => stuck_at Undefined end.

(** ** [fal_flash.c] *)

(** The results of [init] are not looked at. *)
Fixpoint init_devices (l : list fal_flash_dev) (i : nat) : M (fal D) unit :=
  match l with
  | [] => mret tt
  | dev :: l => (if dev_init dev then with_drivers (ops_init i);; mret tt else mret tt);; init_devices l (S i)
  end.

Definition fal_flash_init : M (fal D) Z :=
  ok ← gets flash_init_ok;
  if (ok : bool) then mret 0
  else
    init_devices FAL_FLASH_DEV_TABLE 0;;
    modify (set_flash_init_ok true);;
    mret 0.

Definition fal_flash_device_find (name : list Z) : M (fal D) (option nat) :=
  ok ← gets flash_init_ok;
  fal_assert ok;;
  undefined_if_none
    (find_index (fun dev => strncmp_eq (Z.to_nat FAL_DEV_NAME_MAX) name (dev_name dev)) FAL_FLASH_DEV_TABLE 0).

Definition flash_dev (i : nat) : M (fal D) fal_flash_dev := undefined_if_none (FAL_FLASH_DEV_TABLE !! i).

(** ** [fal_partition.c] *)

(** The loop of [check_and_update_part_cache]. *)
Fixpoint cache_devices (table : list fal_partition) (i : nat) : M (fal D) Z :=
  match table with
  | [] => mret 0
  | p :: table =>
      found ← fal_flash_device_find (part_flash_name p);
      match found with
      | None => cache_devices table (S i)
      | Some k =>
          dev ← flash_dev k;
          if dev_len dev <=? part_offset p then
            modify (set_partition_table_len 0);;
            mret (-1)
          else
            cache ← gets part_flash_cache;
            match cache with
            | Some c =>
                if (i <? length c)%nat
                then modify (set_part_flash_cache (Some (<[i := CacheDev k]> c)));; cache_devices table (S i)
                else stuck_at Undefined                   (* past the array *)
            | None => stuck_at Undefined
            end
      end
  end.

(** The old cache is freed. *)
Definition check_and_update_part_cache (table : list fal_partition) : M (fal D) Z :=
  if FAL_PART_HAS_TABLE_CFG then cache_devices table 0
  else
    ok ← with_drivers (fal_malloc (u64 (Z.of_nat (length table) * 8)));
    if (ok : bool) then
      modify (set_part_flash_cache (Some (replicate (length table) CacheUnset)));;
      cache_devices table 0
    else
      modify (set_part_flash_cache None);;
      mret (-2).

(** [sizeof(struct fal_partition)] and its members in memory. *)
Definition SIZEOF_PARTITION : Z := 80.

Definition dec_partition (b : list Z) : fal_partition :=
  FalPartition (le32_at b 0) (slice b 4 FAL_DEV_NAME_MAX) (slice b 28 FAL_DEV_NAME_MAX)
    (i64 (le_value (slice b 56 8))) (le_value (slice b 64 8)) (le32_at b 72).

(** The first [i] at which the buffer holds the magic word. *)
Fixpoint find_magic (n : nat) (read_buf : list Z) (i : Z) : option Z :=
  match n with
  | O => None
  | S n => if le32_at read_buf i =? FAL_PART_MAGIC_WORD then Some i else find_magic n read_buf (i + 1)
  end.

Definition READ_BUF_SIZE : Z := 64.

(** The search for the table: backwards from [part_table_offset], with an
    overlap of three bytes.  The offset of the first entry, if found. *)
Definition find_part_table (dev : nat) (part_table_offset : Z) : M (fal D) (option Z) :=
  loop (Z.to_nat part_table_offset + 2)
    (fun '(part_table_offset, read_buf) =>
       if 0 <=? part_table_offset then
         r ← with_drivers (ops_read dev part_table_offset read_buf);
         let '(ret, read_buf) := r in
         if 0 <? ret then
           match find_magic (Z.to_nat (READ_BUF_SIZE - 4 + 1)) read_buf 0 with
           | Some i => mret (inr (Some (part_table_offset + i)))
           | None =>
               if READ_BUF_SIZE <=? part_table_offset
               then mret (inl (part_table_offset - READ_BUF_SIZE + 3, read_buf))
               else if negb (part_table_offset =? 0) then mret (inl (0, read_buf))
               else mret (inr None)
           end
         else mret (inr None)
       else mret (inr None))
    (part_table_offset - READ_BUF_SIZE, indet_buf READ_BUF_SIZE).

(** The entries, from the first one downwards, until one has no magic word:
    their number.  [memset] clears [table_num] bytes of the buffer. *)
Definition load_part_table (dev : nat) (part_table_offset : Z) : M (fal D) Z :=
  loop (Z.to_nat part_table_offset + 2)
    (fun '(table_num, new_part) =>
       if SIZEOF_PARTITION <? table_num then stuck_at Undefined     (* [memset] past the buffer *)
       else
         let new_part := splice new_part 0 (replicate (Z.to_nat table_num) 0) in
         r ← with_drivers (ops_read dev (part_table_offset - SIZEOF_PARTITION * table_num) new_part);
         let '(ret, new_part) := r in
         if ret <? 0 then mret (inr 0)
         else if negb (part_magic (dec_partition new_part) =? FAL_PART_MAGIC_WORD) then mret (inr table_num)
         else
           ok ← with_drivers (fal_malloc (SIZEOF_PARTITION * (table_num + 1)));
           if (ok : bool) then
             table ← gets partition_table;
             modify (set_partition_table
               (Some (take (Z.to_nat table_num) (default [] table) ++ [dec_partition new_part])));;
             mret (inl (table_num + 1, new_part))
           else
             modify (set_partition_table None);;
             mret (inr 0))
    (0, indet_buf SIZEOF_PARTITION).

(** What follows when there is a table. *)
Definition partition_init_finish : M (fal D) Z :=
  table ← gets partition_table;
  match table with
  | None => stuck_at Undefined
  | Some table =>
      r ← check_and_update_part_cache table;
      (if r =? 0 then modify (set_part_init_ok true) else mret tt);;
      gets partition_table_len
  end.

Definition fal_partition_init : M (fal D) Z :=
  ok ← gets part_init_ok;
  if (ok : bool) then n ← gets partition_table_len; mret (i32 n)
  else if FAL_PART_HAS_TABLE_CFG then
    modify (set_partition_table (Some FAL_PART_TABLE));;
    modify (set_partition_table_len (Z.of_nat (length FAL_PART_TABLE)));;
    n ← partition_init_finish;
    mret (i32 n)
  else
    found ← fal_flash_device_find FAL_PART_TABLE_FLASH_DEV_NAME;
    match found with
    | None => n ← gets partition_table_len; mret (i32 n)
    | Some k =>
        dev ← flash_dev k;
        if (FAL_PART_TABLE_END_OFFSET <? 0) || (dev_len dev <=? FAL_PART_TABLE_END_OFFSET)
        then n ← gets partition_table_len; mret (i32 n)
        else
          ok ← with_drivers (fal_malloc SIZEOF_PARTITION);
          if negb ok then n ← gets partition_table_len; mret (i32 n)
          else
            pos ← find_part_table k FAL_PART_TABLE_END_OFFSET;
            table_num ← (match pos with
                         | Some part_table_offset => load_part_table k part_table_offset
                         | None => mret 0
                         end);
            if table_num =? 0 then n ← gets partition_table_len; mret (i32 n)
            else
              modify (set_partition_table_len table_num);;
              n ← partition_init_finish;
              mret (i32 n)
    end.

(** A pointer to a partition of the table. *)
Definition part_at (p : nat) : M (fal D) fal_partition :=
  table ← gets partition_table;
  undefined_if_none (default [] table !! p).

(** [strcmp] of a string and the name of a partition. *)
Definition name_is (name : list Z) (p : fal_partition) : option bool :=
  strncmp_eq (length name) name (part_name p).

Definition fal_partition_find (name : list Z) : M (fal D) (option nat) :=
  ok ← gets part_init_ok;
  fal_assert ok;;
  n ← gets partition_table_len;
  table ← gets partition_table;
  let table := default [] table in
  match find_index (name_is name) (take (Z.to_nat n) table) 0 with
  | Some (Some i) => mret (Some i)
  | Some None => if Z.of_nat (length table) <? n then stuck_at Undefined else mret None
  | None => stuck_at Undefined
  end.

Definition flash_device_find_by_part (p : nat) : M (fal D) (option nat) :=
  n ← gets partition_table_len;
  fal_assert (Z.of_nat p <=? n - 1);;
  cache ← gets part_flash_cache;
  match default [] cache !! p with
  | Some (CacheDev k) => mret (Some k)
  | Some CacheNull => mret None
  | Some CacheUnset | None => stuck_at Undefined       (* not set, or past the array *)
  end.

Definition fal_get_partition_table : M (fal D) (option (list fal_partition) * Z) :=
  ok ← gets part_init_ok;
  fal_assert ok;;
  table ← gets partition_table;
  n ← gets partition_table_len;
  mret (table, n).

(** [len] is the length of [table].  The result of
    [check_and_update_part_cache] is not looked at.  (Pointers into the table
    that is replaced must not be used afterwards.) *)
Definition fal_set_partition_table_temp (table : list fal_partition) : M (fal D) unit :=
  ok ← gets part_init_ok;
  fal_assert ok;;
  check_and_update_part_cache table;;
  modify (set_partition_table_len (Z.of_nat (length table)));;
  modify (set_partition_table (Some table)).

Definition fal_partition_read (p : nat) (addr : Z) (buf : list Z) : M (fal D) (Z * list Z) :=
  part ← part_at p;
  if part_len part <? u64 (addr + len buf) then mret (-1, buf)
  else
    dev ← flash_device_find_by_part p;
    match dev with
    | None => mret (-1, buf)
    | Some k => with_drivers (ops_read k (part_offset part + addr) buf)
    end.

Definition fal_partition_write (p : nat) (addr : Z) (buf : list Z) : M (fal D) Z :=
  part ← part_at p;
  if part_len part <? u64 (addr + len buf) then mret (-1)
  else
    dev ← flash_device_find_by_part p;
    match dev with
    | None => mret (-1)
    | Some k => with_drivers (ops_write k (part_offset part + addr) buf)
    end.

Definition fal_partition_erase (p : nat) (addr size : Z) : M (fal D) Z :=
  part ← part_at p;
  if part_len part <? u64 (addr + size) then mret (-1)
  else
    dev ← flash_device_find_by_part p;
    match dev with
    | None => mret (-1)
    | Some k => with_drivers (ops_erase k (part_offset part + addr) size)
    end.

Definition fal_partition_erase_all (p : nat) : M (fal D) Z :=
  part ← part_at p;
  fal_partition_erase p 0 (part_len part).

(** The rows that are printed, and the widths of the two columns of names. *)
Definition fal_show_part_table : M (fal D) (Z * Z * list (list Z * list Z * Z * Z)) :=
  n ← gets partition_table_len;
  table ← gets partition_table;
  let table := take (Z.to_nat n) (default [] table) in
  let width name init := fold_left (fun w p => Z.max w (len (until_nul (name p)))) table init in
  let rows := map (fun p => (part_name p, part_flash_name p, part_offset p, part_len p)) table in
  mret (width part_name 4, width part_flash_name 9, if FAL_PART_HAS_TABLE_CFG then rows else rev rows).

(** ** [fal.c] *)

Definition fal_init : M (fal D) Z :=
  result ← fal_flash_init;
  result ← (if result <? 0 then mret result else fal_partition_init);
  ok ← gets fal_init_ok;
  (if (0 <? result) && negb ok then modify (set_fal_init_ok true)
   else if result <=? 0 then modify (set_fal_init_ok false)
   else mret tt);;
  mret result.

Definition fal_init_check : M (fal D) bool := gets fal_init_ok.
End fal.

(** ** As the storage of the databases

    The build with the layer and without files.  [fdb.c] reads the members of a
    partition directly, and those of the device it finds by its name. *)
#[export] Instance fal_storage {D} {CF : FalConfig} {DR : FlashDriver D} {IN : Indeterminate} : Storage (fal D) := {|
  FDB_USING_FILE_MODE := false;
  FDB_USING_FAL_MODE := true;
  _fdb_file_read := fun _ _ _ => stuck_at Undefined;
  _fdb_file_write := fun _ _ _ _ => stuck_at Undefined;
  _fdb_file_erase := fun _ _ _ => stuck_at Undefined;
  fclose := fun _ => stuck_at Undefined;
  FlashIO.fal_partition_read := fal_partition_read;
  FlashIO.fal_partition_write := fal_partition_write;
  FlashIO.fal_partition_erase := fal_partition_erase;
  FlashIO.fal_init := fal_init;
  FlashIO.fal_partition_find := fun name => fal_partition_find (c_string name);
  fal_part_name := fun p => part ← part_at p; mret (string_of_bytes (part_name part));
  fal_part_len := fun p => part ← part_at p; mret (part_len part);
  fal_part_blk_size := fun p =>
    part ← part_at p;
    found ← fal_flash_device_find (part_flash_name part);
    match found with
    | None => mret None
    | Some k => dev ← flash_dev k; mret (Some (dev_blk_size dev))
    end;
|}.
