(* ===== verification/FalSpec.v ===== *)
(** The flash abstraction layer keeps partitions apart: each one is an array of
    bytes of its own.  Hence a database on a partition has a medium that obeys
    [StorageLaws]. *)
From S2P Require Import Prelude FdbDef Status FlashIO FlashSpec Fal.

(** Sizes below this bound do not wrap in the checks of bounds. *)
Definition NO_WRAP : Z := 9223372036854775808.

(** ** Drivers that work

    [dev_holds w k m]: the [k]-th device holds the array [m].  Reads give its
    bytes and a positive number, a write stores bytes that only clear bits, an erase of whole blocks
    sets them to [0xFF]; what is done to one device leaves the others as they
    are. *)
Class FlashLaws (D : Type) {CF : FalConfig} {DR : FlashDriver D} := {
  dev_holds : D -> nat -> list Z -> Prop;
  dev_holds_len : forall w k m, dev_holds w k m ->
    exists dev, FAL_FLASH_DEV_TABLE !! k = Some dev /\ len m = dev_len dev /\ 0 < dev_blk_size dev;
  dev_holds_one : forall w k m m', dev_holds w k m -> dev_holds w k m' -> m = m';
  dev_holds_bytes : forall w k m, dev_holds w k m -> bytes m;
  ops_init_law : forall w k, wp (ops_init k) (fun _ w' => forall j m, dev_holds w j m -> dev_holds w' j m) w;
  ops_read_law : forall w k m a b, dev_holds w k m -> 0 <= a -> a + len b <= len m ->
    wp (ops_read k a b) (fun r w' => (0 <= fst r /\ (0 < len b -> 0 < fst r)) /\ snd r = slice m a (len b) /\
      forall j m', dev_holds w j m' -> dev_holds w' j m') w;
  ops_write_law : forall w k m a d, dev_holds w k m -> 0 <= a -> a + len d <= len m -> bytes d -> clears m a d ->
    wp (ops_write k a d) (fun r w' => 0 <= r /\ dev_holds w' k (splice m a d) /\
      forall j m', j <> k -> dev_holds w j m' -> dev_holds w' j m') w;
  ops_erase_law : forall w k m dev a n, dev_holds w k m -> FAL_FLASH_DEV_TABLE !! k = Some dev ->
    0 <= a -> 0 <= n -> a + n <= len m -> a mod dev_blk_size dev = 0 -> n mod dev_blk_size dev = 0 ->
    wp (ops_erase k a n) (fun r w' => 0 <= r /\ dev_holds w' k (splice m a (replicate (Z.to_nat n) FDB_BYTE_ERASED)) /\
      forall j m', j <> k -> dev_holds w j m' -> dev_holds w' j m') w;
}.

(** ** Partitions inside their devices *)

Lemma splice_slice_in m o n a d :
  0 <= o -> 0 <= a -> a + len d <= n -> o + n <= len m ->
  slice (splice m (o + a) d) o n = splice (slice m o n) a d.
Proof.
  intros Ho Ha Hd Hn. pose proof (len_nonneg d). assert (len (slice m o n) = n) as Hl by (rewrite len_slice; lia).
  apply list_eq. intros i. destruct (decide (i < Z.to_nat n)%nat).
  - rewrite slice_lookup by lia. rewrite (splice_lookup m), (splice_lookup (slice m o n)) by lia.
    rewrite slice_lookup by lia. replace (Z.to_nat (o + a)) with (Z.to_nat o + Z.to_nat a)%nat by lia.
    repeat case_decide; try lia; [|done]. f_equal. lia.
  - rewrite slice_lookup_ge by lia. symmetry. apply lookup_ge_None_2.
    rewrite splice_length. unfold len in Hl. lia.
Qed.

(** The partition lies inside the device, on a boundary of its blocks. *)
Record part_in (part : fal_partition) (dev : fal_flash_dev) : Prop := {
  pi_offset : 0 <= part_offset part;
  pi_len : 0 <= part_len part < NO_WRAP;
  pi_end : part_offset part + part_len part <= dev_len dev;
  pi_block : part_offset part mod dev_blk_size dev = 0;
}.

Section parts.
Context {D} {CF : FalConfig} {DR : FlashDriver D} {FL : FlashLaws D} {IN : Indeterminate}.
Implicit Type f : fal D.

(** The partitions [ps], on the devices [devs], do not overlap. *)
Record layout (ps : list fal_partition) (devs : list nat) : Prop := {
  ly_len : length devs = length ps;
  ly_in : forall p part k dev, ps !! p = Some part -> devs !! p = Some k ->
    FAL_FLASH_DEV_TABLE !! k = Some dev -> part_in part dev;
  ly_apart : forall p q part part' k, p <> q -> ps !! p = Some part -> ps !! q = Some part' ->
    devs !! p = Some k -> devs !! q = Some k ->
    part_offset part + part_len part <= part_offset part' \/ part_offset part' + part_len part' <= part_offset part;
}.

(** The content of a partition. *)
Definition part_holds (w : D) (part : fal_partition) (k : nat) (m : list Z) : Prop :=
  exists mm, dev_holds w k mm /\ m = slice mm (part_offset part) (part_len part).

(** The layer is initialised, and its partitions hold the arrays [ms]. *)
Record parts_hold (ps : list fal_partition) (devs : list nat) f (ms : list (list Z)) : Prop := {
  ph_layout : layout ps devs;
  ph_flash_ok : flash_init_ok f = true;
  ph_ok : part_init_ok f = true;
  ph_table : partition_table f = Some ps;
  ph_count : partition_table_len f = Z.of_nat (length ps);
  ph_cache : part_flash_cache f = Some (CacheDev <$> devs);
  ph_len : length ms = length ps;
  ph_part : forall p part k m, ps !! p = Some part -> devs !! p = Some k -> ms !! p = Some m ->
    part_holds (drivers f) part k m;
}.

Context (ps : list fal_partition) (devs : list nat).

Lemma parts_lookup f ms p m :
  parts_hold ps devs f ms -> ms !! p = Some m ->
  exists part k dev mm, ps !! p = Some part /\ devs !! p = Some k /\ FAL_FLASH_DEV_TABLE !! k = Some dev /\
    part_in part dev /\ 0 < dev_blk_size dev /\ dev_holds (drivers f) k mm /\ len mm = dev_len dev /\
    m = slice mm (part_offset part) (part_len part) /\ len m = part_len part.
Proof.
  intros [[Hdl Hin _] _ _ _ _ _ Hl Hp] Hm. pose proof (lookup_lt_Some _ _ _ Hm) as Hlt.
  destruct (lookup_lt_is_Some_2 ps p) as [part Epart]; [lia|].
  destruct (lookup_lt_is_Some_2 devs p) as [k Ek]; [lia|].
  destruct (Hp _ _ _ _ Epart Ek Hm) as (mm & Hmm & ->).
  destruct (dev_holds_len _ _ _ Hmm) as (dev & Edev & Hmml & Hblk).
  pose proof (Hin _ _ _ _ Epart Ek Edev) as Hpi. pose proof Hpi as [].
  exists part, k, dev, mm. split_and!; try done. rewrite len_slice; lia.
Qed.

(** The driver keeps every device: the partitions keep their contents. *)
Lemma parts_keep f ms w' :
  parts_hold ps devs f ms -> (forall k m, dev_holds (drivers f) k m -> dev_holds w' k m) ->
  parts_hold ps devs (set_drivers w' f) ms.
Proof.
  intros [] Hk. split; try done. intros p part k m Hp Hd Hm.
  destruct (ph_part0 _ _ _ _ Hp Hd Hm) as (mm & Hmm & ->). exists mm. split; [by apply Hk|done].
Qed.

(** The driver changes a device inside one partition: that partition changes
    alone. *)
Lemma parts_update f ms p m part k mm a d w' :
  parts_hold ps devs f ms -> ms !! p = Some m -> ps !! p = Some part -> devs !! p = Some k ->
  dev_holds (drivers f) k mm -> 0 <= a -> a + len d <= part_len part ->
  dev_holds w' k (splice mm (part_offset part + a) d) ->
  (forall j m', j <> k -> dev_holds (drivers f) j m' -> dev_holds w' j m') ->
  parts_hold ps devs (set_drivers w' f) (<[p := splice m a d]> ms).
Proof.
  intros H Hm Hp Hk Hmm Ha Hd Hw Ho. pose proof H as [[Hdl Hin Hap] F1 F2 F3 F4 F5 F6 F7].
  destruct (dev_holds_len _ _ _ Hmm) as (dev & Edev & Hmml & _). pose proof (len_nonneg d).
  pose proof (Hin _ _ _ _ Hp Hk Edev) as [I1 I2 I3 I4].
  split; try done; [by rewrite length_insert|].
  intros q part' k' m' Hq Hk' Hm'. destruct (decide (q = p)) as [->|Hne].
  - rewrite list_lookup_insert_eq in Hm' by (by eapply lookup_lt_Some). simplify_eq.
    destruct (F7 _ _ _ _ Hp Hk Hm) as (mm' & Hmm' & ->). rewrite (dev_holds_one _ _ _ _ Hmm' Hmm) in *.
    eexists. split; [exact Hw|]. symmetry. apply splice_slice_in; lia.
  - rewrite list_lookup_insert_ne in Hm' by done. destruct (F7 _ _ _ _ Hq Hk' Hm') as (mm' & Hmm' & ->).
    destruct (decide (k' = k)) as [->|Hkn]; [|exists mm'; split; [by apply Ho|done]].
    rewrite (dev_holds_one _ _ _ _ Hmm' Hmm). eexists. split; [exact Hw|].
    pose proof (Hin _ _ _ _ Hq Hk' Edev) as [J1 J2 J3 J4].
    symmetry. apply slice_splice_other; [lia..|]. destruct (Hap p q part part' k); (done || lia).
Qed.

Lemma wp_part_at f ms p part Q :
  parts_hold ps devs f ms -> ps !! p = Some part -> Q part f -> wp (part_at p) Q f.
Proof. intros [] Hp HQ. apply wp_bind, wp_gets. rewrite ph_table0. cbn. rewrite Hp. by apply wp_ret. Qed.

Lemma wp_part_device f ms p k Q :
  parts_hold ps devs f ms -> devs !! p = Some k -> Q (Some k) f -> wp (flash_device_find_by_part p) Q f.
Proof.
  intros [[] _ _ _ F4 F5 _ _] Hk HQ. pose proof (lookup_lt_Some _ _ _ Hk).
  unfold flash_device_find_by_part, fal_assert. apply wp_bind, wp_gets. rewrite F4. apply wp_bind.
  assert (wp (if FAL_DEBUG then fdb_assert (Z.of_nat p <=? Z.of_nat (length ps) - 1) else mret tt)
             (fun _ f' => f' = f) f) as Ha.
  { destruct FAL_DEBUG; [|by apply wp_ret]. apply wp_assert; [apply Z.leb_le; lia|done]. }
  eapply wp_mono; [exact Ha|]. intros _ ? ->. apply wp_bind, wp_gets. rewrite F5. cbn.
  rewrite list_lookup_fmap, Hk. by apply wp_ret.
Qed.

(** ** The operations on partitions *)

Lemma wp_part_read f ms p m a b :
  parts_hold ps devs f ms -> ms !! p = Some m -> 0 <= a -> a + len b < NO_WRAP ->
  wp (fal_partition_read p a b) (fun r f' => parts_hold ps devs f' ms /\ (exists w, f' = set_drivers w f) /\
    if a + len b <=? len m then 0 <= fst r /\ snd r = slice m a (len b) else r = (-1, b)) f.
Proof.
  intros H Hm Ha Hb. pose proof (len_nonneg b). unfold NO_WRAP in *.
  destruct (parts_lookup _ _ _ _ H Hm) as (part & k & dev & mm & Hp & Hk & Hdev & [] & Hblk & Hmm & Hmml & -> & Hml).
  unfold fal_partition_read. apply wp_bind. eapply wp_part_at; [exact H|exact Hp|].
  rewrite u64_small, Hml by lia. destruct (Z.leb_spec (a + len b) (part_len part)) as [Hle|Hgt].
  - rewrite (proj2 (Z.ltb_ge _ _)) by lia. apply wp_bind. eapply wp_part_device; [exact H|exact Hk|].
    apply wp_zoom. eapply wp_mono; [apply (ops_read_law _ _ mm); [done|lia..]|].
    intros r w' ([Hr _] & Es & Hj). split; [|split; [by exists w'|]].
    + by eapply parts_keep.
    + split; [done|]. rewrite Es, slice_slice by lia. done.
  - rewrite (proj2 (Z.ltb_lt _ _)) by lia. apply wp_ret. split_and!; [done|exists (drivers f); by destruct f|done].
Qed.

Lemma wp_part_write f ms p m a d :
  parts_hold ps devs f ms -> ms !! p = Some m -> 0 <= a -> a + len d < NO_WRAP ->
  (a + len d <= len m -> bytes d /\ clears m a d) ->
  wp (fal_partition_write p a d) (fun r f' => (exists w, f' = set_drivers w f) /\
    if a + len d <=? len m then 0 <= r /\ parts_hold ps devs f' (<[p := splice m a d]> ms)
    else r = -1 /\ parts_hold ps devs f' ms) f.
Proof.
  intros H Hm Ha Hb Hc. pose proof (len_nonneg d). unfold NO_WRAP in *.
  destruct (parts_lookup _ _ _ _ H Hm) as (part & k & dev & mm & Hp & Hk & Hdev & [] & Hblk & Hmm & Hmml & Em & Hml).
  unfold fal_partition_write. apply wp_bind. eapply wp_part_at; [exact H|exact Hp|].
  rewrite u64_small, Hml by lia. destruct (Z.leb_spec (a + len d) (part_len part)) as [Hle|Hgt].
  - destruct Hc as [Hby Hcl]; [lia|].
    rewrite (proj2 (Z.ltb_ge _ _)) by lia. apply wp_bind. eapply wp_part_device; [exact H|exact Hk|].
    apply wp_zoom. eapply wp_mono; [apply (ops_write_law _ _ mm); [done|lia|lia|done|]|].
    { unfold clears in *. rewrite Em, slice_slice in Hcl by lia. done. }
    intros r w' (Hr & Hw & Ho). split; [by exists w'|]. split; [done|]. by eapply parts_update.
  - rewrite (proj2 (Z.ltb_lt _ _)) by lia. apply wp_ret. split_and!; [exists (drivers f); by destruct f|done..].
Qed.

Lemma wp_part_erase f ms p m part dev k a n :
  parts_hold ps devs f ms -> ms !! p = Some m -> ps !! p = Some part -> devs !! p = Some k ->
  FAL_FLASH_DEV_TABLE !! k = Some dev -> 0 <= a -> 0 <= n -> a + n < NO_WRAP ->
  (a + n <= len m -> a mod dev_blk_size dev = 0 /\ n mod dev_blk_size dev = 0) ->
  wp (fal_partition_erase p a n) (fun r f' => (exists w, f' = set_drivers w f) /\
    if a + n <=? len m
    then 0 <= r /\ parts_hold ps devs f' (<[p := splice m a (replicate (Z.to_nat n) FDB_BYTE_ERASED)]> ms)
    else r = -1 /\ parts_hold ps devs f' ms) f.
Proof.
  intros H Hm Hp' Hk' Hdev' Ha Hn Hb Hc. unfold NO_WRAP in *.
  destruct (parts_lookup _ _ _ _ H Hm) as (part1 & k1 & dev1 & mm & Hp & Hk & Hdev & [] & Hblk & Hmm & Hmml & Em & Hml).
  simplify_eq. unfold fal_partition_erase. apply wp_bind. eapply wp_part_at; [exact H|exact Hp'|].
  rewrite u64_small, Hml by lia. destruct (Z.leb_spec (a + n) (part_len part)) as [Hle|Hgt].
  - destruct Hc as [Hc1 Hc2]; [lia|].
    rewrite (proj2 (Z.ltb_ge _ _)) by lia. apply wp_bind. eapply wp_part_device; [exact H|exact Hk'|].
    apply wp_zoom. eapply wp_mono; [apply (ops_erase_law _ _ mm dev); [done|done|lia|lia|lia| |done]|].
    { rewrite Z.add_mod, pi_block0, Hc1 by lia. by rewrite Z.mod_0_l by lia. }
    intros r w' (Hr & Hw & Ho). split; [by exists w'|]. split; [done|].
    eapply parts_update; try done. rewrite len_replicate. lia.
  - rewrite (proj2 (Z.ltb_lt _ _)) by lia. apply wp_ret. split_and!; [exists (drivers f); by destruct f|done..].
Qed.
End parts.

(** ** The medium of a database on a partition *)

Section laws.
Context {D} {CF : FalConfig} {DR : FlashDriver D} {FL : FlashLaws D} {IN : Indeterminate}.

(** The database uses the [p]-th partition, in sectors of whole blocks. *)
Record on_partition (g : geom) (p : nat) (ps : list fal_partition) (devs : list nat) : Prop := {
  on_geom : geom_ok g;
  on_mode : file_mode g = false;
  on_storage : storage g = storage_part p;
  on_size : exists part, ps !! p = Some part /\ part_len part = max_size g;
  on_block : forall k dev, devs !! p = Some k -> FAL_FLASH_DEV_TABLE !! k = Some dev ->
    sec_size g mod dev_blk_size dev = 0;
}.

(** The other partitions hold [ms]. *)
Definition fal_holds_with (g : geom) (i : io (fal D)) (m : list Z) p ps devs (ms : list (list Z)) : Prop :=
  on_partition g p ps devs /\ parts_hold ps devs (world i) ms /\ ms !! p = Some m.

Definition fal_holds (g : geom) (i : io (fal D)) (m : list Z) : Prop :=
  exists p ps devs ms, fal_holds_with g i m p ps devs ms.

Lemma fal_holds_len g i m p ps devs ms : fal_holds_with g i m p ps devs ms -> len m = max_size g.
Proof.
  intros ([_ _ _ (part & Hp & Hl) _] & H & Hm).
  destruct (parts_lookup _ _ _ _ _ _ H Hm) as (part' & k & dev & mm & Hp' & _ & _ & _ & _ & _ & _ & _ & Hml).
  simplify_eq. lia.
Qed.

(** An access of [fdb_utils.c] to the partition. *)
Lemma wp_with_world {A} (db : fdb_db (fal D)) (c : M (fal D) A) (Q : A -> fdb_db (fal D) -> Prop) :
  wp c (fun r f' => Q r (set_dbio (set_world f' (dbio db)) db)) (world (dbio db)) -> wp (with_world c) Q db.
Proof. intros Hc. by apply wp_zoom, wp_zoom. Qed.

Lemma fal_holds_bound g : geom_ok g -> max_size g < NO_WRAP.
Proof. intros []. unfold NO_WRAP. lia. Qed.

Lemma fal_read_law (db : fdb_db (fal D)) m a b p ps devs ms :
  fal_holds_with (geo db) (dbio db) m p ps devs ms -> in_sector (geo db) a (len b) ->
  wp (_fdb_flash_read a b) (fun r db' => exists i,
    db' = set_dbio i db /\ fal_holds_with (geo db) i m p ps devs ms /\ r = (FDB_NO_ERR, slice m a (len b))) db.
Proof.
  intros Hh Hin. pose proof (fal_holds_len _ _ _ _ _ _ _ Hh) as Hl. destruct Hh as (Hon & H & Hm). pose proof Hon as [].
  pose proof (in_sector_end _ _ _ on_geom0 Hin) as He. pose proof (fal_holds_bound _ on_geom0). destruct Hin as (Ha & Hb & _).
  unfold _fdb_flash_read. apply wp_bind, wp_gets. rewrite on_mode0. cbn [FDB_USING_FAL_MODE fal_storage].
  unfold storage_part_of. rewrite on_storage0. apply wp_bind, wp_ret, wp_bind, wp_with_world.
  eapply wp_mono; [apply (wp_part_read ps devs _ ms p m); [done|done|lia|lia]|].
  cbn beta. intros [r b'] f' (H' & (w & ->) & Hr). rewrite (proj2 (Z.leb_le _ _)) in Hr by lia.
  destruct Hr as [Hr ->]. apply wp_ret. cbn [fst snd] in *. rewrite (proj2 (Z.ltb_ge _ _)) by lia.
  eexists. split; [done|]. done.
Qed.

Lemma fal_write_law (db : fdb_db (fal D)) m a d sync p ps devs ms :
  fal_holds_with (geo db) (dbio db) m p ps devs ms -> in_sector (geo db) a (len d) -> bytes d -> clears m a d ->
  wp (_fdb_flash_write a d sync) (fun r db' => exists i, db' = set_dbio i db /\
    fal_holds_with (geo db) i (splice m a d) p ps devs (<[p := splice m a d]> ms) /\ r = FDB_NO_ERR) db.
Proof.
  intros Hh Hin Hby Hcl. pose proof (fal_holds_len _ _ _ _ _ _ _ Hh) as Hl. destruct Hh as (Hon & H & Hm). pose proof Hon as [].
  pose proof (in_sector_end _ _ _ on_geom0 Hin) as He. pose proof (fal_holds_bound _ on_geom0). destruct Hin as (Ha & Hb & _).
  unfold _fdb_flash_write. apply wp_bind, wp_gets. rewrite on_mode0. cbn [FDB_USING_FAL_MODE fal_storage].
  unfold storage_part_of. rewrite on_storage0. apply wp_bind, wp_ret, wp_bind, wp_with_world.
  eapply wp_mono; [apply (wp_part_write ps devs _ ms p m); [done|done|lia|lia|done]|].
  cbn beta. intros r f' ((w & ->) & Hr). rewrite (proj2 (Z.leb_le _ _)) in Hr by lia.
  destruct Hr as [Hr H']. apply wp_ret. rewrite (proj2 (Z.ltb_ge _ _)) by lia.
  eexists. split; [done|]. split; [|done]. split_and!; try done. cbn. by rewrite list_lookup_insert_eq by (by eapply lookup_lt_Some).
Qed.

Lemma fal_erase_law (db : fdb_db (fal D)) m a p ps devs ms :
  let e := erased_sector (geo db) in
  fal_holds_with (geo db) (dbio db) m p ps devs ms -> 0 <= a < max_size (geo db) -> a mod sec_size (geo db) = 0 ->
  wp (_fdb_flash_erase a (sec_size (geo db))) (fun r db' => exists i, db' = set_dbio i db /\
    fal_holds_with (geo db) i (splice m a e) p ps devs (<[p := splice m a e]> ms) /\ r = FDB_NO_ERR) db.
Proof.
  intros e Hh Ha Hmod. pose proof (fal_holds_len _ _ _ _ _ _ _ Hh) as Hl. destruct Hh as (Hon & H & Hm). pose proof Hon as [].
  pose proof (sec_pos _ on_geom0) as Hs. pose proof (fal_holds_bound _ on_geom0).
  assert (in_sector (geo db) a (sec_size (geo db))) as Hin by (unfold in_sector; lia).
  pose proof (in_sector_end _ _ _ on_geom0 Hin) as He.
  destruct (parts_lookup _ _ _ _ _ _ H Hm) as (part & k & dev & mm & Hp & Hk & Hdev & _ & Hblk & _).
  pose proof (on_block0 _ _ Hk Hdev) as Hsb. apply Z.mod_divide in Hmod; [|lia]. destruct Hmod as [q ->].
  unfold _fdb_flash_erase. apply wp_bind, wp_gets. rewrite on_mode0. cbn [FDB_USING_FAL_MODE fal_storage].
  unfold storage_part_of. rewrite on_storage0. apply wp_bind, wp_ret, wp_bind, wp_with_world.
  eapply wp_mono; [apply (wp_part_erase ps devs _ ms p m part dev k); [done..|lia|lia|lia|]|].
  { intros _. split; [|done]. rewrite Z.mul_mod, Hsb, Z.mul_0_r by lia. by rewrite Z.mod_0_l by lia. }
  cbn beta. intros r f' ((w & ->) & Hr). rewrite (proj2 (Z.leb_le _ _)) in Hr by lia.
  destruct Hr as [Hr H']. apply wp_ret. rewrite (proj2 (Z.ltb_ge _ _)) by lia.
  eexists. split; [done|]. split; [|done]. split_and!; try done. cbn. by rewrite list_lookup_insert_eq by (by eapply lookup_lt_Some).
Qed.

#[export] Program Instance fal_laws : StorageLaws (fal D) := {| holds := fal_holds |}.
Next Obligation. intros g i m (p & ps & devs & ms & Hon & _). apply Hon. Qed.
Next Obligation. intros g i m (p & ps & devs & ms & Hh). by eapply fal_holds_len. Qed.
Next Obligation.
  intros g i m (p & ps & devs & ms & _ & H & Hm).
  destruct (parts_lookup _ _ _ _ _ _ H Hm) as (part & k & dev & mm & _ & _ & _ & _ & _ & Hmm & _ & -> & _).
  apply bytes_slice. by eapply dev_holds_bytes.
Qed.
Next Obligation.
  intros db m a b (p & ps & devs & ms & Hh) Hin. eapply wp_mono; [by eapply fal_read_law|].
  cbn beta. intros r db' (i & -> & Hi & ->). exists i. split_and!; try done. by exists p, ps, devs, ms.
Qed.
Next Obligation.
  intros db m a d sync (p & ps & devs & ms & Hh) Hin _ Hby Hcl. eapply wp_mono; [by eapply fal_write_law|].
  cbn beta. intros r db' (i & -> & Hi & ->). exists i. split_and!; try done. by eexists p, ps, devs, _.
Qed.
Next Obligation.
  intros db m a (p & ps & devs & ms & Hh) Ha Hmod. eapply wp_mono; [by eapply fal_erase_law|].
  cbn beta. intros r db' (i & -> & Hi & ->). exists i. split_and!; try done. by eexists p, ps, devs, _.
Qed.
End laws.
