(* ===== verification/FalThm.v ===== *)
(** The flash abstraction layer: partitions are independent arrays; the table
    of partitions is found on the flash; a database opens on a partition. *)
From S2P Require Import Prelude FdbDef Status FlashIO FlashSpec Fal FalSpec.

(** ** Operations on partitions *)

Inductive part_op :=
| PRead (p : nat) (a : Z) (b : list Z)
| PWrite (p : nat) (a : Z) (d : list Z)
| PErase (p : nat) (a n : Z).

Definition op_part (o : part_op) : nat := match o with PRead p _ _ | PWrite p _ _ | PErase p _ _ => p end.
(** The range that an operation touches. *)
Definition op_range (o : part_op) : Z * Z :=
  match o with PRead _ a b => (a, len b) | PWrite _ a d => (a, len d) | PErase _ a n => (a, n) end.

(** What an operation does to the arrays: it succeeds exactly when its range
    lies inside the partition.  The result is whether it succeeded, and the
    bytes of a read. *)
Definition part_step (o : part_op) (ms : list (list Z)) : (bool * list Z) * list (list Z) :=
  let m := default [] (ms !! op_part o) in
  if fst (op_range o) + snd (op_range o) <=? len m then
    match o with
    | PRead _ a b => ((true, slice m a (len b)), ms)
    | PWrite p a d => ((true, []), <[p := splice m a d]> ms)
    | PErase p a n => ((true, []), <[p := splice m a (replicate (Z.to_nat n) FDB_BYTE_ERASED)]> ms)
    end
  else ((false, match o with PRead _ _ b => b | _ => [] end), ms).

Fixpoint part_steps (os : list part_op) (ms : list (list Z)) : list (bool * list Z) * list (list Z) :=
  match os with
  | [] => ([], ms)
  | o :: os => let '(r, ms) := part_step o ms in let '(rs, ms) := part_steps os ms in (r :: rs, ms)
  end.

Section thm.
Context {D} {CF : FalConfig} {DR : FlashDriver D} {FL : FlashLaws D} {IN : Indeterminate}.
Implicit Type f : fal D.

Definition part_run_op (o : part_op) : M (fal D) (bool * list Z) :=
  match o with
  | PRead p a b => r ← fal_partition_read p a b; mret (0 <=? fst r, snd r)
  | PWrite p a d => r ← fal_partition_write p a d; mret (0 <=? r, [])
  | PErase p a n => r ← fal_partition_erase p a n; mret (0 <=? r, [])
  end.

Fixpoint part_run (os : list part_op) : M (fal D) (list (bool * list Z)) :=
  match os with
  | [] => mret []
  | o :: os => r ← part_run_op o; rs ← part_run os; mret (r :: rs)
  end.

(** What an operation asks of its arguments: a partition of the table, sizes
    that do not wrap; and, when it is inside the partition, that a write only
    clears bits and an erase covers blocks. *)
Definition part_op_ok (devs : list nat) (o : part_op) (ms : list (list Z)) : Prop :=
  exists m, ms !! op_part o = Some m /\ 0 <= fst (op_range o) /\ 0 <= snd (op_range o) /\
  fst (op_range o) + snd (op_range o) < NO_WRAP /\
  (fst (op_range o) + snd (op_range o) <= len m ->
   match o with
   | PRead _ _ _ => True
   | PWrite _ a d => bytes d /\ clears m a d
   | PErase p a n => forall k dev, devs !! p = Some k -> FAL_FLASH_DEV_TABLE !! k = Some dev ->
       a mod dev_blk_size dev = 0 /\ n mod dev_blk_size dev = 0
   end).

Fixpoint part_ops_ok (devs : list nat) (os : list part_op) (ms : list (list Z)) : Prop :=
  match os with
  | [] => True
  | o :: os => part_op_ok devs o ms /\ part_ops_ok devs os (snd (part_step o ms))
  end.

Lemma part_run_op_spec ps devs f ms o :
  parts_hold ps devs f ms -> part_op_ok devs o ms ->
  wp (part_run_op o) (fun r f' => r = fst (part_step o ms) /\ parts_hold ps devs f' (snd (part_step o ms))) f.
Proof.
  intros H (m & Hm & Ha & Hn & Hw & Hok). unfold part_step. rewrite Hm. change (default [] (Some m)) with m.
  destruct o as [p a b|p a d|p a n]; cbn [op_part op_range fst snd part_run_op] in *; apply wp_bind.
  - eapply wp_mono; [by apply (wp_part_read ps devs f ms p m)|]. cbn beta. intros [r b'] f' (H' & _ & Hr).
    apply wp_ret. cbn [fst snd] in *. destruct (Z.leb_spec (a + len b) (len m)).
    + destruct Hr as [Hr ->]. by rewrite (proj2 (Z.leb_le _ _)) by lia.
    + by simplify_eq.
  - eapply wp_mono; [apply (wp_part_write ps devs f ms p m); done|]. cbn beta. intros r f' (_ & Hr).
    apply wp_ret. destruct (Z.leb_spec (a + len d) (len m)); destruct Hr as [Hr H'].
    + by rewrite (proj2 (Z.leb_le _ _)) by lia.
    + by subst r.
  - destruct (parts_lookup _ _ _ _ _ _ H Hm) as (part & k & dev & mm & Hp & Hk & Hdev & _).
    eapply wp_mono; [apply (wp_part_erase ps devs f ms p m part dev k); try done; intros Hle; by apply (Hok Hle k dev)|].
    cbn beta. intros r f' (_ & Hr). apply wp_ret. destruct (Z.leb_spec (a + n) (len m)); destruct Hr as [Hr H'].
    + by rewrite (proj2 (Z.leb_le _ _)) by lia.
    + by subst r.
Qed.

(** C15: The flash abstraction layer refines independent arrays: any sequence
    of reads, writes and erases of partitions returns what operations on one
    array per partition return, and leaves partitions that hold those arrays.
    An operation outside its partition fails and changes nothing; one inside
    changes its partition alone. *)
Theorem partitions_refine ps devs f ms os :
  parts_hold ps devs f ms -> part_ops_ok devs os ms ->
  wp (part_run os) (fun rs f' => rs = fst (part_steps os ms) /\ parts_hold ps devs f' (snd (part_steps os ms))) f.
Proof.
  revert f ms. induction os as [|o os IH]; intros f ms H Hos; [by apply wp_ret|]. destruct Hos as [Ho Hos].
  cbn [part_run part_steps]. destruct (part_step o ms) as [r0 ms1] eqn:E. apply wp_bind.
  eapply wp_mono; [by apply part_run_op_spec|]. rewrite E. cbn [fst snd] in *. intros r f1 [-> H1].
  apply wp_bind. eapply wp_mono; [by apply (IH f1 ms1)|]. cbn beta. intros rs f2 [-> H2]. apply wp_ret.
  by destruct (part_steps os ms1).
Qed.
End thm.
