(* ===== verification/FalInit.v ===== *)
(** The flash abstraction layer: initialisation, with the table of partitions
    from the configuration or from the flash, and the opening of a database on
    a partition. *)
From S2P Require Import Prelude FdbDef Status FlashIO FlashSpec Mount Fal FalSpec.

Section init.
Context {D} {CF : FalConfig} {DR : FlashDriver D} {FL : FlashLaws D} {IN : Indeterminate}.
Implicit Type f : fal D.

(** What the drivers of [w'] hold, those of [w] held. *)
Definition keeps_devices (w w' : D) : Prop := forall k m, dev_holds w k m -> dev_holds w' k m.

Lemma keeps_devices_refl w : keeps_devices w w.
Proof. by intros k m. Qed.

(** The static variables before the first call. *)
Definition fal_start (w : D) : fal D :=
  Fal false None (if FAL_PART_HAS_TABLE_CFG then Some (replicate (length FAL_PART_TABLE) CacheNull) else None)
      false 0 false w.

(** ** Devices *)

(** The device that a name stands for. *)
Definition device_of (name : list Z) (r : option nat) : Prop :=
  find_index (fun dev => strncmp_eq (Z.to_nat FAL_DEV_NAME_MAX) name (dev_name dev)) FAL_FLASH_DEV_TABLE 0 = Some r.

Lemma wp_fal_assert f b Q : b = true -> Q tt f -> wp (fal_assert b) Q f.
Proof. intros -> HQ. unfold fal_assert. destruct FAL_DEBUG; [by apply wp_assert|by apply wp_ret]. Qed.

Lemma wp_device_find f name r Q :
  flash_init_ok f = true -> device_of name r -> Q r f -> wp (fal_flash_device_find name) Q f.
Proof.
  intros Hf Hr HQ. unfold fal_flash_device_find. apply wp_bind, wp_gets, wp_bind, wp_fal_assert; [done|].
  rewrite Hr. by apply wp_ret.
Qed.

Lemma wp_flash_dev f k dev Q : FAL_FLASH_DEV_TABLE !! k = Some dev -> Q dev f -> wp (flash_dev k) Q f.
Proof. intros Hk HQ. unfold flash_dev. rewrite Hk. by apply wp_ret. Qed.

Lemma wp_init_devices l i f :
  wp (init_devices l i) (fun _ f' => exists w, f' = set_drivers w f /\ keeps_devices (drivers f) w) f.
Proof.
  revert i f. induction l as [|dev l IH]; intros i f.
  - apply wp_ret. exists (drivers f). split; [by destruct f|apply keeps_devices_refl].
  - cbn [init_devices]. apply wp_bind.
    assert (wp (if dev_init dev then with_drivers (ops_init i);; mret tt else mret tt)
      (fun _ f' => exists w, f' = set_drivers w f /\ keeps_devices (drivers f) w) f) as Hd.
    { destruct (dev_init dev).
      - apply wp_bind, wp_zoom. eapply wp_mono; [apply ops_init_law|]. cbn beta. intros _ w Hw. apply wp_ret. by exists w.
      - apply wp_ret. exists (drivers f). split; [by destruct f|apply keeps_devices_refl]. }
    eapply wp_mono; [exact Hd|]. cbn beta. intros _ f1 (w1 & -> & H1).
    eapply wp_mono; [apply IH|]. cbn beta. intros _ f2 (w2 & -> & H2). exists w2. split; [done|].
    intros k m Hm. by apply H2, H1.
Qed.

Lemma wp_flash_init f :
  wp fal_flash_init (fun r f' => r = 0 /\ exists w, keeps_devices (drivers f) w /\
    f' = set_flash_init_ok true (set_drivers w f)) f.
Proof.
  unfold fal_flash_init. apply wp_bind, wp_gets. destruct (flash_init_ok f) eqn:E.
  - apply wp_ret. split; [done|]. exists (drivers f). split; [apply keeps_devices_refl|]. destruct f. cbn in *. by subst.
  - apply wp_bind. eapply wp_mono; [apply wp_init_devices|]. cbn beta. intros _ f1 (w & -> & Hw).
    apply wp_bind, wp_modify, wp_ret. split; [done|]. by exists w.
Qed.

(** ** The cache of devices *)

(** The names of the devices are found, and the offsets lie inside them. *)
Definition on_devices (ps : list fal_partition) (devs : list nat) : Prop :=
  length devs = length ps /\
  forall i part k, ps !! i = Some part -> devs !! i = Some k -> device_of (part_flash_name part) (Some k) /\
    exists dev, FAL_FLASH_DEV_TABLE !! k = Some dev /\ part_offset part < dev_len dev.

Lemma wp_cache_devices ps devs i c f (Q : Z -> fal D -> Prop) :
  on_devices ps devs -> flash_init_ok f = true -> part_flash_cache f = Some c -> (i + length ps <= length c)%nat ->
  Q 0 (set_part_flash_cache (Some (take i c ++ (CacheDev <$> devs) ++ drop (i + length ps) c)) f) ->
  wp (cache_devices ps i) Q f.
Proof.
  revert devs i c f. induction ps as [|p ps IH]; intros devs i c f [Hlen Hon] Hf Hc Hi HQ.
  - destruct devs; [|done]. cbn in HQ. rewrite Nat.add_0_r, take_drop in HQ.
    apply wp_ret. destruct f. cbn in *. by subst.
  - destruct devs as [|k devs]; [done|]. destruct (Hon 0%nat p k) as (Hd & dev & Hdev & Ho); [done..|].
    cbn [cache_devices length] in *. apply wp_bind. eapply wp_device_find; [done|exact Hd|].
    apply wp_bind. eapply wp_flash_dev; [exact Hdev|]. rewrite (proj2 (Z.leb_gt _ _)) by lia.
    apply wp_bind, wp_gets. rewrite Hc, (proj2 (Nat.ltb_lt _ _)) by lia. apply wp_bind, wp_modify.
    apply (IH devs (S i) (<[i := CacheDev k]> c)); [|done|done|rewrite length_insert; lia|].
    + split; [lia|]. intros j part k' Hj Hk'. by apply (Hon (S j)).
    + rewrite (take_S_r _ _ (CacheDev k)) by (apply list_lookup_insert_eq; lia).
      rewrite take_insert_ge by lia. rewrite drop_insert_lt by lia. rewrite <- app_assoc. cbn [app fmap list_fmap] in *.
      replace (S i + length ps)%nat with (i + S (length ps))%nat by lia. exact HQ.
Qed.

(** There is always memory. *)
Definition memory : Prop :=
  forall n w, wp (fal_malloc n) (fun b w' => b = true /\ keeps_devices w w') w.

(** There is room for a table of [n] partitions in the cache. *)
Definition cache_room f (n : nat) : Prop :=
  if FAL_PART_HAS_TABLE_CFG then exists c, part_flash_cache f = Some c /\ length c = n else memory.

Lemma wp_fill_cache ps devs f :
  on_devices ps devs -> flash_init_ok f = true -> cache_room f (length ps) ->
  wp (check_and_update_part_cache ps) (fun r f' => r = 0 /\ exists w, keeps_devices (drivers f) w /\
    f' = set_part_flash_cache (Some (CacheDev <$> devs)) (set_drivers w f)) f.
Proof.
  intros Hon Hf Hroom. unfold check_and_update_part_cache, cache_room in *. destruct FAL_PART_HAS_TABLE_CFG.
  - destruct Hroom as (c & Hc & Hl). eapply (wp_cache_devices ps devs 0 c); [done..|cbn; lia|].
    rewrite drop_ge, app_nil_r by (cbn; lia). split; [done|]. exists (drivers f). split; [apply keeps_devices_refl|].
    by destruct f.
  - apply wp_bind, wp_zoom. eapply wp_mono; [apply Hroom|]. cbn beta. intros b w [-> Hw]. apply wp_bind, wp_modify.
    eapply (wp_cache_devices ps devs 0); [done|done|reflexivity|by rewrite length_replicate|].
    rewrite drop_ge, app_nil_r by (rewrite length_replicate; lia). split; [done|]. by exists w.
Qed.

(** The contents of the partitions. *)
Definition contents (w : D) (ps : list fal_partition) (devs : list nat) (ms : list (list Z)) : Prop :=
  length ms = length ps /\
  forall p part k m, ps !! p = Some part -> devs !! p = Some k -> ms !! p = Some m -> part_holds w part k m.

Lemma contents_keep w w' ps devs ms : keeps_devices w w' -> contents w ps devs ms -> contents w' ps devs ms.
Proof.
  intros Hk [Hl H]. split; [done|]. intros p part k m Hp Hd Hm. destruct (H _ _ _ _ Hp Hd Hm) as (mm & Hmm & ->).
  exists mm. split; [by apply Hk|done].
Qed.

Lemma wp_init_finish ps devs f ms :
  layout ps devs -> on_devices ps devs -> flash_init_ok f = true -> cache_room f (length ps) ->
  partition_table f = Some ps -> partition_table_len f = Z.of_nat (length ps) -> contents (drivers f) ps devs ms ->
  wp partition_init_finish (fun r f' => r = Z.of_nat (length ps) /\ parts_hold ps devs f' ms) f.
Proof.
  intros Hlay Hon Hf Hroom Ht Hn Hms. unfold partition_init_finish. apply wp_bind, wp_gets. rewrite Ht.
  apply wp_bind. eapply wp_mono; [by apply wp_fill_cache|]. cbn beta. intros r f1 (-> & w & Hw & ->).
  apply wp_bind, wp_modify, wp_gets. split; [done|].
  pose proof (contents_keep _ _ _ _ _ Hw Hms) as [Hl Hc]. split; try done.
Qed.

(** [fal_init] after [fal_partition_init]. *)
Lemma wp_fal_init f (n : Z) (P : fal D -> Prop) :
  0 < n -> (forall f' b, P f' -> P (set_fal_init_ok b f')) ->
  (forall w, keeps_devices (drivers f) w ->
     wp fal_partition_init (fun r f' => r = n /\ P f') (set_flash_init_ok true (set_drivers w f))) ->
  wp fal_init (fun r f' => r = n /\ P f') f.
Proof.
  intros Hn HP Hp. unfold fal_init. apply wp_bind. eapply wp_mono; [apply wp_flash_init|].
  cbn beta. intros r f1 (-> & w & Hw & ->). apply wp_bind. change (0 <? 0) with false. cbn [ifb].
  eapply wp_mono; [by apply Hp|]. cbn beta. intros r f2 [-> H2]. apply wp_bind, wp_gets.
  rewrite (proj2 (Z.ltb_lt 0 n)), (proj2 (Z.leb_gt n 0)) by lia. cbn [andb]. apply wp_bind.
  destruct (negb _); [apply wp_modify|apply wp_ret]; apply wp_ret; split; try done. by apply HP.
Qed.

Lemma parts_hold_init_ok ps devs f ms b : parts_hold ps devs f ms -> parts_hold ps devs (set_fal_init_ok b f) ms.
Proof. by intros []. Qed.

(** ** The table of the configuration *)

Lemma wp_init_static w devs ms :
  FAL_PART_HAS_TABLE_CFG = true -> 0 < Z.of_nat (length FAL_PART_TABLE) < 2147483648 -> layout FAL_PART_TABLE devs ->
  on_devices FAL_PART_TABLE devs -> contents w FAL_PART_TABLE devs ms ->
  wp fal_init (fun r f' => r = Z.of_nat (length FAL_PART_TABLE) /\ parts_hold FAL_PART_TABLE devs f' ms) (fal_start w).
Proof.
  intros Hcfg Hn Hlay Hon Hms. apply wp_fal_init; [lia|intros; by apply parts_hold_init_ok|]. intros w' Hw'.
  unfold fal_partition_init. apply wp_bind, wp_gets. cbn [fal_start set_drivers set_flash_init_ok part_init_ok].
  rewrite Hcfg. apply wp_bind, wp_modify, wp_bind, wp_modify, wp_bind.
  eapply wp_mono; [apply (wp_init_finish FAL_PART_TABLE devs _ ms); try done|].
  - unfold cache_room. rewrite Hcfg. cbn. rewrite Hcfg. eexists. split; [done|]. by rewrite length_replicate.
  - cbn. by eapply contents_keep.
  - cbn beta. intros r f' [-> H']. apply wp_ret. split; [|done]. apply i32_small. lia.
Qed.

(** ** Opening a database on a partition *)

Lemma wp_partition_find ps devs f ms path p Q :
  parts_hold ps devs f ms -> find_index (name_is (c_string path)) ps 0 = Some (Some p) -> Q (Some p) f ->
  wp (fal_partition_find (c_string path)) Q f.
Proof.
  intros [_ _ Hok Ht Hn _ _ _] Hp HQ. unfold fal_partition_find. apply wp_bind, wp_gets, wp_bind, wp_fal_assert; [done|].
  apply wp_bind, wp_gets, wp_bind, wp_gets. rewrite Ht, Hn, Nat2Z.id.
  change (default [] (Some ps)) with ps. rewrite firstn_all, Hp. by apply wp_ret.
Qed.

(** The sizes that [_fdb_init_ex] computes: the sector size of the device, when
    none was set. *)
Definition partition_geom (nm : string) (db : fdb_db (fal D)) (p : nat) (part : fal_partition) (dev : fal_flash_dev) : geom :=
  Geom nm (storage_part p) (if sec_size (geo db) =? 0 then dev_blk_size dev else sec_size (geo db)) (part_len part) false.

(** The steps of [_fdb_init_ex] on a partition. *)
Lemma wp_open_partition nm path type u db ps devs ms p part k dev m :
  init_ok db = false -> file_mode (geo db) = false ->
  wp fal_init (fun _ f' => parts_hold ps devs f' ms) (world (dbio db)) ->
  find_index (name_is (c_string path)) ps 0 = Some (Some p) ->
  ps !! p = Some part -> devs !! p = Some k -> FAL_FLASH_DEV_TABLE !! k = Some dev ->
  device_of (part_flash_name part) (Some k) -> ms !! p = Some m ->
  let G := partition_geom nm db p part dev in
  geom_ok G -> Z.land (sec_size G) (sec_size G - 1) = 0 -> sec_size G mod dev_blk_size dev = 0 ->
  wp (_fdb_init_ex nm path type u) (fun r db' => r = FDB_NO_ERR /\ user_part db' = user_part db /\
    geo db' = G /\ fal_holds_with G (dbio db') m p ps devs ms) db.
Proof.
  intros Hi Hfm Hfal Hp Hpart Hk Hdev Hof Hm G HG H2 Hmod. pose proof HG as [G1 G2 G3 G4].
  change (max_size G) with (part_len part) in G2, G3, G4.
  set (P := fun (r : fdb_err_t) db' => r = FDB_NO_ERR /\ user_part db' = user_part db /\ geo db' = G /\
    fal_holds_with G (dbio db') m p ps devs ms).
  unfold _fdb_init_ex. apply wp_bind, wp_gets. rewrite Hi. apply wp_bind, wp_modify, wp_bind, wp_gets.
  cbn [geo set_db_user_data set_type set_name set_geo file_mode sec_size max_size]. rewrite Hfm.
  cbn [FDB_USING_FAL_MODE fal_storage]. apply wp_bind, wp_with_world.
  eapply wp_mono; [exact Hfal|]. cbn beta. intros _ f1 H1.
  apply wp_bind, wp_with_world. eapply wp_partition_find; [exact H1|exact Hp|].
  apply wp_bind, wp_modify, wp_bind, wp_with_world.
  cbn [fal_part_blk_size fal_storage]. apply wp_bind. eapply wp_part_at; [exact H1|exact Hpart|]. apply wp_bind.
  eapply wp_device_find; [apply H1|exact Hof|]. apply wp_bind. eapply wp_flash_dev; [exact Hdev|]. apply wp_ret.
  assert (forall db1, geo db1 = Geom nm (storage_part p) (sec_size G) (max_size (geo db1)) false ->
    user_part db1 = user_part db -> world (dbio db1) = f1 ->
    wp (l ← with_world (FlashIO.fal_part_len p); modify (set_max_size (u32 l));; check_sizes) P db1) as Hend.
  { intros db1 Eg En Ew. apply wp_bind, wp_with_world. rewrite Ew. cbn [fal_part_len fal_storage]. apply wp_bind.
    eapply wp_part_at; [exact H1|exact Hpart|]. apply wp_ret, wp_bind, wp_modify.
    rewrite (u32_small (part_len part)) by lia.
    assert (geo (set_max_size (part_len part) (set_dbio (set_world f1 (dbio db1)) db1)) = G) as EG
      by (unfold set_max_size; cbn; by rewrite Eg).
    apply wp_check_sizes; rewrite ?EG; [done..|]. split_and!; try done.
    split; [|done]. split; try done; [by exists part|]. intros k' dev' Hk' Hdev'. by simplify_eq. }
  change (sec_size G) with (if sec_size (geo db) =? 0 then dev_blk_size dev else sec_size (geo db)) in *.
  destruct (sec_size (geo db) =? 0) eqn:E0.
  + apply wp_bind, wp_modify, Hend; [|done..]. unfold set_sec_size. cbn. by rewrite u32_small, Hfm by lia.
  + assert (0 < dev_blk_size dev) as Hb.
    { destruct (parts_lookup _ _ _ _ _ _ H1 Hm) as (part' & k' & dev' & mm & Hp' & Hk' & Hdev' & _ & Hb & _).
      rewrite Hk in Hk'. injection Hk' as <-. rewrite Hdev in Hdev'. by injection Hdev' as <-. }
    rewrite (proj2 (Z.eqb_neq _ 0)) by lia. rewrite Hmod. change (negb (0 =? 0)) with false. cbv iota. apply Hend; [cbn; by rewrite Hfm|done..].
Qed.

(** C16: A database opens on a partition: when the layer initialises and the
    table has a partition of the given name on a device that exists,
    [_fdb_init_ex] succeeds; the database has the size of the partition, and
    the bytes of the partition are its medium, in the sense of [StorageLaws]: the
    theorems on both databases then hold for it. *)
Theorem partition_opens nm path type u db ps devs ms p part k dev m :
  init_ok db = false -> file_mode (geo db) = false ->
  wp fal_init (fun _ f' => parts_hold ps devs f' ms) (world (dbio db)) ->
  find_index (name_is (c_string path)) ps 0 = Some (Some p) ->
  ps !! p = Some part -> devs !! p = Some k -> FAL_FLASH_DEV_TABLE !! k = Some dev ->
  device_of (part_flash_name part) (Some k) -> ms !! p = Some m ->
  let G := partition_geom nm db p part dev in
  geom_ok G -> Z.land (sec_size G) (sec_size G - 1) = 0 -> sec_size G mod dev_blk_size dev = 0 ->
  exists db', opens nm path type u db db' m /\ geo db' = G /\ fal_holds_with G (dbio db') m p ps devs ms.
Proof.
  intros Hi Hfm Hfal Hp Hpart Hk Hdev Hof Hm G HG H2 Hmod. apply opens_of_wp; [done|].
  eapply wp_mono; [by apply (wp_open_partition nm path type u db ps devs ms p part k dev m)|]. cbn beta.
  intros r db' (-> & Hn & Hg & Hh). split_and!; try done. unfold db_holds. rewrite Hg. by exists p, ps, devs, ms.
Qed.
End init.
