(* ===== verification/FalTable.v ===== *)
(** The flash abstraction layer: the table of partitions on the flash. *)
From S2P Require Import Prelude FdbDef Status FlashIO FlashSpec Fal FalSpec FalInit.

(** Where the table lies on the device with the content [m]: the first entry at
    [off], below the address [top] where the search starts, the others below
    it.  The magic word occurs nowhere between the first entry and [top], nor in
    the 60 bytes before the first entry; what follows the last entry has no
    magic word. *)
Record table_on (m : list Z) (top off : Z) (ps : list fal_partition) : Prop := {
  to_top : top < len m;
  to_off : off + 4 <= top /\ off + SIZEOF_PARTITION <= len m;
  to_count : 0 < Z.of_nat (length ps) <= SIZEOF_PARTITION;
  to_low : SIZEOF_PARTITION * Z.of_nat (length ps) <= off;
  to_above : forall x, off < x -> x + 4 <= top -> le32_at m x <> FAL_PART_MAGIC_WORD;
  to_below : forall x, off - 60 <= x < off -> le32_at m x <> FAL_PART_MAGIC_WORD;
  to_entry : forall i p, ps !! i = Some p ->
    dec_partition (slice m (off - SIZEOF_PARTITION * Z.of_nat i) SIZEOF_PARTITION) = p /\ part_magic p = FAL_PART_MAGIC_WORD;
  to_stop : part_magic (dec_partition (slice m (off - SIZEOF_PARTITION * Z.of_nat (length ps)) SIZEOF_PARTITION)) <>
    FAL_PART_MAGIC_WORD;
}.

(** ** The search *)

Lemma magic_absent n b i :
  (forall j, i <= j < i + Z.of_nat n -> le32_at b j <> FAL_PART_MAGIC_WORD) -> find_magic n b i = None.
Proof.
  revert i. induction n as [|n IH]; intros i H; [done|]. cbn. rewrite (proj2 (Z.eqb_neq _ _)) by (apply H; lia).
  apply IH. intros j Hj. apply H. lia.
Qed.

Lemma magic_first n b i k :
  i <= k < i + Z.of_nat n -> le32_at b k = FAL_PART_MAGIC_WORD ->
  (forall j, i <= j < k -> le32_at b j <> FAL_PART_MAGIC_WORD) -> find_magic n b i = Some k.
Proof.
  revert i. induction n as [|n IH]; intros i Hk Hm H; [lia|]. cbn. destruct (decide (i = k)) as [->|Hne].
  - by rewrite Hm, Z.eqb_refl.
  - rewrite (proj2 (Z.eqb_neq _ _)) by (apply H; lia). apply IH; [lia|done|]. intros j Hj. apply H. lia.
Qed.

Lemma le32_at_slice m o n j : 0 <= o -> 0 <= j -> j + 4 <= n -> le32_at (slice m o n) j = le32_at m (o + j).
Proof. intros. unfold le32_at. by rewrite slice_slice by lia. Qed.

Section table.
Context {D} {CF : FalConfig} {DR : FlashDriver D} {FL : FlashLaws D} {IN : Indeterminate}.
Implicit Type f : fal D.
Context (k : nat) (m : list Z) (top off : Z) (ps : list fal_partition) (Ht : table_on m top off ps).

Lemma entry_magic i p : ps !! i = Some p -> le32_at m (off - SIZEOF_PARTITION * Z.of_nat i) = FAL_PART_MAGIC_WORD.
Proof.
  intros Hi. destruct (to_entry _ _ _ _ Ht _ _ Hi) as [Hd Hm]. apply lookup_lt_Some in Hi. destruct Ht.
  unfold SIZEOF_PARTITION in *. rewrite <- (Z.add_0_r (off - _)), <- (le32_at_slice m _ 80 0) by lia.
  rewrite <- Hm, <- Hd. done.
Qed.

(** The drivers were called, and hold what they held. *)
Definition same f0 f : Prop := exists w, f = set_drivers w f0 /\ keeps_devices (drivers f0) w.

Lemma wp_dev_read f a b Q :
  dev_holds (drivers f) k m -> 0 <= a -> 0 < len b -> a + len b <= len m ->
  (forall r w, 0 < r -> keeps_devices (drivers f) w -> Q (r, slice m a (len b)) (set_drivers w f)) ->
  wp (with_drivers (ops_read k a b)) Q f.
Proof.
  intros Hm Ha Hb Hl HQ. apply wp_zoom. eapply wp_mono; [by apply (ops_read_law _ _ m)|]. cbn beta.
  intros [r b'] w ([_ Hr] & Es & Hk). cbn [fst snd] in *. subst b'. apply HQ; [by apply Hr|done].
Qed.

Lemma wp_find_part_table f :
  dev_holds (drivers f) k m -> wp (find_part_table k top) (fun r f' => r = Some off /\ same f f') f.
Proof.
  intros Hm. pose proof Ht as [T1 [T2 T3] T4 T5 T6 T7 _ _]. unfold SIZEOF_PARTITION in *.
  destruct (lookup_lt_is_Some_2 ps 0) as [p0 Hp0]; [lia|].
  pose proof (entry_magic _ _ Hp0) as Hmag. rewrite Z.mul_0_r, Z.sub_0_r in Hmag.
  unfold find_part_table. eapply (wp_loop (fun '(o, b) f' => same f f' /\ len b = 64 /\ 0 <= o /\ o + 64 <= top /\ off <= o + 60)
    (fun '(o, b) _ => Z.to_nat o)).
  - intros [o b] f' ((w & -> & Hw) & Hb & Ho1 & Ho2 & Ho3). rewrite (proj2 (Z.leb_le 0 o)) by lia. apply wp_bind.
    eapply wp_dev_read; [by apply Hw|lia..|]. intros r w' Hr Hw'. rewrite (proj2 (Z.ltb_lt 0 r)), Hb by lia.
    assert (same f (set_drivers w' (set_drivers w f))) as Hs.
    { exists w'. split; [done|]. intros j mj Hj. by apply Hw', Hw. }
    change (Z.to_nat (READ_BUF_SIZE - 4 + 1)) with 61%nat. change READ_BUF_SIZE with 64. destruct (Z.le_gt_cases o off) as [Hle|Hgt].
    + rewrite (magic_first 61 _ 0 (off - o)); [|lia|rewrite le32_at_slice by lia; by replace (o + (off - o)) with off by lia|].
      * apply wp_ret. split; [|done]. f_equal. lia.
      * intros j Hj. rewrite le32_at_slice by lia. apply T7. lia.
    + rewrite magic_absent; [|intros j Hj; rewrite le32_at_slice by lia; apply T6; lia].
      rewrite (proj2 (Z.leb_le 64 o)) by lia. apply wp_ret. split; [|lia]. split_and!; try done; try lia.
      rewrite len_slice; lia.
  - split_and!; [|by apply len_indet_buf|unfold READ_BUF_SIZE; lia..].
    exists (drivers f). split; [by destruct f|apply keeps_devices_refl].
  - unfold READ_BUF_SIZE. lia.
Qed.

(** ** The entries *)

Lemma wp_load_part_table f :
  memory -> dev_holds (drivers f) k m -> partition_table f = None ->
  wp (load_part_table k off) (fun r f' => r = Z.of_nat (length ps) /\ same (set_partition_table (Some ps) f) f') f.
Proof.
  intros Hmem Hm Hnone. pose proof Ht as [T1 [T2 T3] T4 T5 _ _ T8 T9]. unfold SIZEOF_PARTITION in *.
  unfold load_part_table.
  eapply (wp_loop (fun '(n, b) f' => len b = 80 /\ exists i t, n = Z.of_nat i /\ (i <= length ps)%nat /\
      (t = if decide (i = 0%nat) then None else Some (take i ps)) /\ same (set_partition_table t f) f')
    (fun '(n, b) _ => (length ps - Z.to_nat n)%nat)).
  - intros [n b] f' (Hb & i & t & -> & Hi & Et & w & -> & Hw). unfold SIZEOF_PARTITION.
    rewrite (proj2 (Z.ltb_ge _ _)) by lia. apply wp_bind.
    assert (len (splice b 0 (replicate (Z.to_nat (Z.of_nat i)) 0)) = 80) as Hl by (by rewrite len_splice).
    eapply wp_dev_read; [by apply Hw|lia..|]. rewrite Hl. intros r w1 Hr Hw1. rewrite (proj2 (Z.ltb_ge r 0)) by lia.
    destruct (decide (i = length ps)) as [->|Hne].
    + rewrite (proj2 (Z.eqb_neq _ _)) by exact T9. apply wp_ret. split; [done|]. exists w1.
      rewrite decide_False in Et by lia. rewrite firstn_all in Et. subst t. split; [done|].
      intros j mj Hj. by apply Hw1, Hw.
    + destruct (lookup_lt_is_Some_2 ps i) as [p Hp]; [lia|]. destruct (T8 _ _ Hp) as [Ed Emag].
      rewrite Ed, Emag, Z.eqb_refl. cbn [negb]. apply wp_bind, wp_zoom. eapply wp_mono; [apply Hmem|].
      cbn beta. intros ok w2 [-> Hw2]. apply wp_bind, wp_gets, wp_bind, wp_modify, wp_ret. cbn [partition_table set_drivers set_partition_table].
      split; [|lia]. split; [rewrite len_slice; lia|]. exists (S i), (Some (take (S i) ps)).
      split_and!; [lia|lia|done|]. exists w2. rewrite Nat2Z.id. split.
      * unfold set_partition_table, set_drivers. cbn. f_equal. f_equal. rewrite (take_S_r _ _ _ Hp). f_equal. subst t.
        case_decide as E0; [by subst i|]. cbn. by rewrite take_take, Nat.min_id.
      * intros j mj Hj. by apply Hw2, Hw1, Hw.
  - split; [by apply len_indet_buf|]. exists 0%nat, None. split_and!; [done|lia|done|]. exists (drivers f).
    split; [|apply keeps_devices_refl]. destruct f. cbn in *. by subst.
  - lia.
Qed.
End table.

Section init.
Context {D} {CF : FalConfig} {DR : FlashDriver D} {FL : FlashLaws D} {IN : Indeterminate}.

(** C17: The table of partitions on the flash is found: when the entries lie
    below [FAL_PART_TABLE_END_OFFSET] on the configured device, one below the
    other, [fal_init] finds the first one with its backward search, reads all of
    them, finds their devices, and returns their number; the partitions then are
    the areas that the entries describe. *)
Theorem fal_init_finds_table w k dev m off ps devs ms :
  FAL_PART_HAS_TABLE_CFG = false -> memory ->
  device_of FAL_PART_TABLE_FLASH_DEV_NAME (Some k) -> FAL_FLASH_DEV_TABLE !! k = Some dev -> dev_holds w k m ->
  table_on m FAL_PART_TABLE_END_OFFSET off ps -> layout ps devs -> on_devices ps devs -> contents w ps devs ms ->
  wp fal_init (fun r f' => r = Z.of_nat (length ps) /\ parts_hold ps devs f' ms) (fal_start w).
Proof.
  intros Hcfg Hmem Hof Hdev Hm Ht Hlay Hon Hms. pose proof Ht as [T1 [T2 T3] T4 T5 _ _ _ _]. unfold SIZEOF_PARTITION in *.
  destruct (dev_holds_len _ _ _ Hm) as (dev' & Hdev' & Hlm & _). rewrite Hdev in Hdev'. injection Hdev' as <-.
  apply wp_fal_init; [lia|intros; by apply parts_hold_init_ok|]. intros w1 Hw1.
  unfold fal_partition_init. apply wp_bind, wp_gets. cbn [fal_start set_drivers set_flash_init_ok part_init_ok].
  rewrite Hcfg. apply wp_bind. eapply wp_device_find; [done|exact Hof|]. apply wp_bind. eapply wp_flash_dev; [exact Hdev|].
  rewrite (proj2 (Z.ltb_ge _ 0)), (proj2 (Z.leb_gt _ _)) by lia. cbn [orb].
  apply wp_bind, wp_zoom. eapply wp_mono; [apply Hmem|]. cbn beta. intros ok w2 [-> Hw2]. cbn [negb].
  apply wp_bind. eapply wp_mono; [eapply (wp_find_part_table k m _ off ps Ht); by apply Hw2, Hw1|].
  cbn beta. intros r f3 (-> & w3 & -> & Hw3). apply wp_bind.
  eapply wp_mono; [eapply (wp_load_part_table k m _ off ps Ht); [done|by apply Hw3, Hw2, Hw1|done]|].
  cbn beta. intros r f4 (-> & w4 & -> & Hw4). rewrite (proj2 (Z.eqb_neq _ 0)) by lia.
  apply wp_bind, wp_modify, wp_bind.
  eapply wp_mono; [apply (wp_init_finish ps devs _ ms); try done|].
  - unfold cache_room. by rewrite Hcfg.
  - eapply contents_keep; [|exact Hms]. intros j mj Hj. by apply Hw4, Hw3, Hw2, Hw1.
  - cbn beta. intros r f' [-> H']. apply wp_ret. split; [|done]. apply i32_small. lia.
Qed.
End init.
