(* ===== verification/FalWit.v ===== *)
(** The flash abstraction layer: devices in memory, on which the hypotheses of
    the theorems hold, and a key-value database on one of their partitions. *)
From S2P Require Import Prelude FdbDef Status FlashIO FlashSpec Mount FileIO FileSpec Disk Fal FalSpec FalThm FalInit FalTable.
From S2P Require Import KvDef KvRead KvWrite KvApi KvRing KvCacheSpec KvThm KvState KvTriple KvMap KvBoot KvDefault KvFormat KvBlank KvWit.

#[local] Existing Instance zeros.

(** ** Devices in memory *)

#[local] Notation ram := (gmap nat (list Z)).

Definition pad_name (s : string) : list Z :=
  let b := c_string s in b ++ replicate (24 - length b) 0.

Definition ram_dev : fal_flash_dev := FlashDev (pad_name "ram0") 0 1024 256 false 1.

Definition ram_access {A} (k : nat) (a n : Z) (bad : A) (good : list Z -> A * list Z) : M ram A :=
  fun w => match w !! k with
           | Some m => if (0 <=? a) && (a + n <=? len m) then let '(r, m') := good m in Done (r, <[k := m']> w)
                       else Done (bad, w)
           | None => Done (bad, w)
           end.

#[local] Instance ram_driver : FlashDriver ram := {|
  ops_init := fun _ => mret 0;
  ops_read := fun k a b => ram_access k a (len b) (-1, b) (fun m => ((len b, slice m a (len b)), m));
  ops_write := fun k a d => ram_access k a (len d) (-1) (fun m => (len d, splice m a d));
  ops_erase := fun k a n => ram_access k a n (-1) (fun m => (n, splice m a (replicate (Z.to_nat n) 255)));
  fal_malloc := fun _ => mret true;
|}.

Section laws.
Context {CF : FalConfig} (Hdevs : FAL_FLASH_DEV_TABLE = [ram_dev]).

Definition ram_holds (w : ram) (k : nat) (m : list Z) : Prop :=
  w !! k = Some m /\ k = 0%nat /\ len m = 1024 /\ bytes m.

Lemma wp_ram_access {A} w k m a n (bad : A) good Q :
  ram_holds w k m -> 0 <= a -> a + n <= len m ->
  Q (fst (good m)) (<[k := snd (good m)]> w) -> wp (ram_access k a n bad good) Q w.
Proof.
  intros (Hk & _) Ha Hn HQ. unfold wp, ram_access. rewrite Hk.
  rewrite (proj2 (Z.leb_le 0 a)), (proj2 (Z.leb_le _ _)) by lia. cbn. by destruct (good m).
Qed.

Lemma ram_other w k m j m' : j <> k -> ram_holds w j m' -> ram_holds (<[k := m]> w) j m'.
Proof. intros Hj (H & ? & ? & ?). split; [by rewrite lookup_insert_ne|done]. Qed.

Program Definition ram_laws : FlashLaws ram := {| dev_holds := ram_holds |}.
Next Obligation. intros w k m (_ & -> & Hl & _). exists ram_dev. by rewrite Hdevs. Qed.
Next Obligation. intros w k m m' (H & _) (H' & _). congruence. Qed.
Next Obligation. by intros w k m (_ & _ & _ & Hb). Qed.
Next Obligation. intros w k. by apply wp_ret. Qed.
Next Obligation.
  intros w k m a b Hm Ha Hb. eapply wp_ram_access; [exact Hm|done|done|]. cbn. destruct Hm as (Hm & _).
  rewrite insert_id by done. pose proof (len_nonneg b). by split_and!.
Qed.
Next Obligation.
  intros w k m a d Hm Ha Hd Hb _. eapply wp_ram_access; [exact Hm|done|done|]. cbn. destruct Hm as (Hm & -> & Hl & Hby).
  split_and!; [apply len_nonneg| |intros; by apply ram_other]. split_and!; [by rewrite lookup_insert_eq|done| |].
  - by rewrite len_splice.
  - by apply bytes_splice.
Qed.
Next Obligation.
  intros w k m dev a n Hm _ Ha Hn Hl _ _. eapply wp_ram_access; [exact Hm|done|done|]. cbn. destruct Hm as (Hm & -> & Hlm & Hby).
  split_and!; [done| |intros; by apply ram_other]. split_and!; [by rewrite lookup_insert_eq|done| |].
  - by rewrite len_splice.
  - apply bytes_splice; [done|]. by apply Forall_replicate.
Qed.

Lemma ram_memory : memory (FL := ram_laws).
Proof. intros n w. apply wp_ret. split; [done|apply keeps_devices_refl]. Qed.
End laws.

(** ** A table in the configuration *)

Definition ram_part (nm : string) (off n : Z) : fal_partition :=
  FalPartition FAL_PART_MAGIC_WORD (pad_name nm) (pad_name "ram0") off n 0.
Definition ram_parts : list fal_partition := [ram_part "kv" 0 512; ram_part "ts" 512 512].

Definition cfg_static : FalConfig := {|
  FAL_DEBUG := true;
  FAL_FLASH_DEV_TABLE := [ram_dev];
  FAL_PART_HAS_TABLE_CFG := true;
  FAL_PART_TABLE := ram_parts;
  FAL_PART_TABLE_FLASH_DEV_NAME := [];
  FAL_PART_TABLE_END_OFFSET := 0;
|}.

(** The table on the flash: the first entry at 880, the second below it. *)
Definition enc_partition (p : fal_partition) : list Z :=
  le_bytes 4 (part_magic p) ++ part_name p ++ part_flash_name p ++ le_bytes 4 0 ++
  le_bytes 8 (part_offset p) ++ le_bytes 8 (part_len p) ++ le_bytes 4 (part_reserved p) ++ le_bytes 4 0.
Definition ram_table : list Z :=
  replicate 800 255 ++ enc_partition (ram_part "ts" 256 256) ++ enc_partition (ram_part "kv" 0 256) ++ replicate 64 255.
Definition ram_found : list fal_partition := [ram_part "kv" 0 256; ram_part "ts" 256 256].

Definition cfg_flash : FalConfig := {|
  FAL_DEBUG := true;
  FAL_FLASH_DEV_TABLE := [ram_dev];
  FAL_PART_HAS_TABLE_CFG := false;
  FAL_PART_TABLE := [];
  FAL_PART_TABLE_FLASH_DEV_NAME := c_string "ram0";
  FAL_PART_TABLE_END_OFFSET := 1000;
|}.

Section parts.
Context (cf : FalConfig) (Hdevs : @FAL_FLASH_DEV_TABLE cf = [ram_dev]) (n : Z) (Hn : n = 256 \/ n = 512).
#[local] Existing Instance cf.
#[local] Instance laws_of : FlashLaws ram := ram_laws Hdevs.

Definition two_parts : list fal_partition := [ram_part "kv" 0 n; ram_part "ts" n n].

Lemma ram_layout : layout two_parts [0%nat; 0%nat].
Proof.
  split; [done|..].
  - intros [|[|p]] part k dev Hp Hk Hd; try done; injection Hp as <-; injection Hk as <-; rewrite Hdevs in Hd;
      injection Hd as <-; (split; cbn; unfold NO_WRAP; [lia..|by destruct Hn; subst n]).
  - intros [|[|p]] [|[|q]] part part' k Hne Hp Hq _ _; try done; injection Hp as <-; injection Hq as <-; cbn; lia.
Qed.

Lemma ram_on_devices : on_devices two_parts [0%nat; 0%nat].
Proof.
  split; [done|]. intros [|[|p]] part k Hp Hk; try done; injection Hp as <-; injection Hk as <-;
    (split; [unfold device_of; rewrite Hdevs; vm_compute; reflexivity|exists ram_dev; rewrite Hdevs; split; [done|cbn; lia]]).
Qed.

Lemma ram_contents w m :
  ram_holds w 0 m -> contents w two_parts [0%nat; 0%nat] [slice m 0 n; slice m n n].
Proof.
  intros Hm. split; [done|]. intros [|[|p]] part k x Hp Hk Hx; try done; injection Hp as <-; injection Hk as <-;
    injection Hx as <-; by exists m.
Qed.
End parts.

(** A device of erased bytes. *)
Definition ram_blank : ram := {[ 0%nat := replicate 1024 255 ]}.
Lemma ram_blank_holds : ram_holds ram_blank 0 (replicate 1024 255).
Proof. split_and!; [done|done|vm_compute; reflexivity|by apply Forall_replicate]. Qed.
Lemma ram_table_holds : ram_holds {[ 0%nat := ram_table ]} 0 ram_table.
Proof. split_and!; [done|done|vm_compute; reflexivity|apply Disk.bytes_check; vm_compute; reflexivity]. Qed.

Section static.
#[local] Existing Instance cfg_static.
#[local] Instance laws_static : FlashLaws ram := ram_laws (CF := cfg_static) eq_refl.

Definition ram_ms : list (list Z) := [replicate 512 255; replicate 512 255].

Lemma ram_init : wp fal_init (fun r f' => r = 2 /\ parts_hold ram_parts [0%nat; 0%nat] f' ram_ms) (fal_start ram_blank).
Proof.
  eapply wp_mono; [apply (wp_init_static ram_blank [0%nat; 0%nat] ram_ms); [done|done|..]|by intros].
  - by apply (ram_layout cfg_static eq_refl 512); right.
  - exact (ram_on_devices cfg_static eq_refl 512 (or_intror eq_refl)).
  - apply (ram_contents cfg_static eq_refl 512 ram_blank (replicate 1024 255)), ram_blank_holds.
Qed.

(** The layer after its initialisation. *)
Definition ram_fal : fal ram :=
  Fal true (Some ram_parts) (Some [CacheDev 0; CacheDev 0]) true 2 true ram_blank.

Lemma ram_parts_hold : parts_hold ram_parts [0%nat; 0%nat] ram_fal ram_ms.
Proof.
  split; try done; [exact (ram_layout cfg_static eq_refl 512 (or_intror eq_refl))|].
  apply (ram_contents cfg_static eq_refl 512 ram_blank (replicate 1024 255)), ram_blank_holds.
Qed.

Definition ram_ops : list part_op := [PWrite 0 3 [1; 2]; PRead 1 511 [0; 0]; PErase 1 0 256; PRead 0 3 [0; 0]].

Lemma partitions_refine_witness :
  wp (part_run ram_ops) (fun rs f' =>
    rs = [(true, []); (false, [0; 0]); (true, []); (true, [1; 2])] /\
    parts_hold ram_parts [0%nat; 0%nat] f' (snd (part_steps ram_ops ram_ms))) ram_fal.
Proof.
  eapply wp_mono.
  - apply (partitions_refine ram_parts [0%nat; 0%nat] ram_fal ram_ms ram_ops ram_parts_hold).
    split; [|split; [|split; [|split; [|done]]]].
    + exists (replicate 512 255). split_and!; [done..|]. intros _. split; [by apply Disk.bytes_check|vm_compute; reflexivity].
    + exists (replicate 512 255). by split_and!.
    + eexists. split; [vm_compute; reflexivity|]. split_and!; [done..|]. intros _ k dev [= <-] [= <-]. done.
    + eexists. split; [vm_compute; reflexivity|]. by split_and!.
  - cbn beta. intros rs f' [-> H]. split; [vm_compute; reflexivity|exact H].
Defined.

(** A database that is not yet open. *)
Definition ram_db : fdb_db (fal ram) :=
  FdbDb (Geom "" storage_none 256 0 false) (Io [] [] 0 (fal_start ram_blank)) FDB_DB_TYPE_KV 0 false false true true [] 0.

Definition ram_geom : geom := Geom "env" (storage_part 0) 256 512 false.

Lemma ram_geom_ok : geom_ok ram_geom.
Proof. split; cbn; (lia || done). Qed.

Lemma partition_opens_witness :
  exists db', opens "env" "kv" FDB_DB_TYPE_KV 0 ram_db db' (replicate 512 255) /\ geo db' = ram_geom /\
    fal_holds_with ram_geom (dbio db') (replicate 512 255) 0 ram_parts [0%nat; 0%nat] ram_ms.
Proof.
  apply (partition_opens "env" "kv" FDB_DB_TYPE_KV 0 ram_db ram_parts [0%nat; 0%nat] ram_ms 0 (ram_part "kv" 0 512) 0 ram_dev);
    try reflexivity; [|exact ram_geom_ok].
  eapply wp_mono; [exact ram_init|]. by intros r f' [_ H].
Defined.

(** A key-value database on the partition: opening it formats the partition. *)
Definition ram_kvdb : fdb_kvdb (fal ram) :=
  FdbKvdb ram_db [] false false no_kv zero_sec false (replicate 64 (KvCacheNode 0 0 0)) (replicate 8 zero_sec) 0.

Lemma ram_opens type :
  exists db', opens "env" "kv" type 0 ram_db db' (replicate 512 255) /\ geo db' = ram_geom.
Proof.
  apply opens_of_wp; [done|]. eapply wp_mono.
  - apply (wp_open_partition "env" "kv" type 0 ram_db ram_parts [0%nat; 0%nat] ram_ms 0 (ram_part "kv" 0 512) 0 ram_dev
             (replicate 512 255)); try reflexivity; [|exact ram_geom_ok].
    eapply wp_mono; [exact ram_init|]. by intros r f' [_ H].
  - cbn beta. intros r db' (-> & Hn & Hg & Hh). split_and!; try done. unfold db_holds. rewrite Hg. by eexists _, _, _, _.
Qed.

(** In a file without default values, and on the partition with two. *)
Lemma kv_init_formats_witness :
  wp (fdb_kvdb_init (KB := false) 1 "env" "/d" None 0) (fun r d' =>
    r = FDB_NO_ERR /\ kv_rep kgeom (name_of 2) d' ∅) (kdb_closed kblank) /\
  wp (fdb_kvdb_init (KB := false) 1 "env" "kv" (Some kdefs) 0) (fun r d' =>
    r = FDB_NO_ERR /\ kv_rep ram_geom (name_of 2) d' {[ [99; 100] := [55; 56]; [101; 102] := [1; 2] ]}) ram_kvdb.
Proof.
  split.
  - eapply wp_mono.
    + apply (kv_init_formats (KB := false) (name_of 2) (name_of_set 2 ltac:(done)) 1 "env" "/d" None 0 (kdb_closed kblank)
               (mounted "env" "/d" FDB_DB_TYPE_KV 0 (parent (kdb_closed kblank))) kblank);
        [|reflexivity..| |right; apply kzero|reflexivity|by split; constructor|reflexivity|lia|].
      * apply mountable_opens, kmountable; [vm_compute; reflexivity|apply Disk.bytes_check; vm_compute; reflexivity].
      * apply Forall_replicate. unfold active_ok. cbn. lia.
      * intros [|[|k]] Hk; [vm_compute; discriminate..|]. vm_compute in Hk. lia.
    + cbn beta. intros r d' (-> & mp & Hd' & Hm & _). split; [done|].
      assert (mp = ∅) as -> by (by apply (anti_symm (⊆)); [|apply map_empty_subseteq]). exact Hd'.
  - destruct (ram_opens FDB_DB_TYPE_KV) as (db & Ho & Hg). rewrite <- Hg. eapply wp_mono.
    + apply (kv_init_formats (KB := false) (name_of 2) (name_of_set 2 ltac:(done)) 1 "env" "kv" (Some kdefs) 0 ram_kvdb db (replicate 512 255));
        try done.
      * apply Forall_replicate. unfold active_ok. cbn. lia.
      * right. exists 0%nat, zero_sec. by split_and!.
      * exact kdefs_ok.
      * lia.
      * rewrite Hg. intros [|[|k]] Hk; [vm_compute; discriminate..|]. vm_compute in Hk. lia.
    + cbn beta. intros r d' (-> & mp & Hd' & Hm). split; [done|]. rewrite <- (kdefs_all mp); [exact Hd'|].
      by rewrite Hg in Hm.
Defined.
End static.

(** ** A table on the flash *)

Section flash.
#[local] Existing Instance cfg_flash.
#[local] Instance laws_flash : FlashLaws ram := ram_laws (CF := cfg_flash) eq_refl.

Lemma ram_table_on : table_on ram_table 1000 880 ram_found.
Proof.
  assert (forall a n, forallb (fun i => negb (le32_at ram_table (a + Z.of_nat i) =? FAL_PART_MAGIC_WORD)) (seq 0 n) = true ->
    forall x, a <= x < a + Z.of_nat n -> le32_at ram_table x <> FAL_PART_MAGIC_WORD) as Hnone.
  { intros a n H x Hx. rewrite forallb_forall in H. specialize (H (Z.to_nat (x - a))).
    replace (a + Z.of_nat (Z.to_nat (x - a))) with x in H by lia. intros E. rewrite E in H.
    discriminate H. apply in_seq. lia. }
  assert (len ram_table = 1024) as Hl by (vm_compute; reflexivity). split.
  - lia.
  - rewrite Hl. unfold SIZEOF_PARTITION. lia.
  - cbn. unfold SIZEOF_PARTITION. lia.
  - cbn. unfold SIZEOF_PARTITION. lia.
  - intros x Hx Hx'. apply (Hnone 881 116%nat); [vm_compute; reflexivity|lia].
  - intros x Hx. apply (Hnone 820 60%nat); [vm_compute; reflexivity|lia].
  - intros [|[|i]] p Hp; try done; injection Hp as <-; split; vm_compute; reflexivity.
  - vm_compute. discriminate.
Qed.

Lemma fal_init_finds_table_witness :
  wp fal_init (fun r f' => r = 2 /\
    parts_hold ram_found [0%nat; 0%nat] f' [slice ram_table 0 256; slice ram_table 256 256])
    (fal_start {[ 0%nat := ram_table ]}).
Proof.
  apply (fal_init_finds_table {[ 0%nat := ram_table ]} 0 ram_dev ram_table 880 ram_found [0%nat; 0%nat]
           [slice ram_table 0 256; slice ram_table 256 256]).
  - reflexivity.
  - apply ram_memory.
  - vm_compute. reflexivity.
  - reflexivity.
  - apply ram_table_holds.
  - exact ram_table_on.
  - exact (ram_layout cfg_flash eq_refl 256 (or_introl eq_refl)).
  - exact (ram_on_devices cfg_flash eq_refl 256 (or_introl eq_refl)).
  - apply (ram_contents cfg_flash eq_refl 256 {[ 0%nat := ram_table ]} ram_table), ram_table_holds.
Defined.
End flash.
