(* ===== verification/TsRun.v ===== *)
(** Time-series database: sequences of calls.

    The abstract machine [ts_spec] works on the sectors' logs and the last
    timestamp.  Every sequence of calls of the public functions finishes and
    gives the answers of the machine. *)
From S2P Require Import Prelude FdbDef Status FlashIO FlashSpec Mount KvRing FileIO FileSpec Disk.
From S2P Require Import TsDef TsOps TsApi TsSpec TsRead TsAppend TsIter TsRing TsLog TsStore TsDb TsInit TsFormat TsCalls.
From S2P Require Import TsSearch TsQuery TsThm.

(** ** The specification *)

(** The calls of a client; the objects that the functions take are those the
    iterator gives.  The client sets only later statuses, and reads into a new
    buffer of zeros. *)
Inductive ts_call :=
| CAppend (data : list Z) (t : Z)
| CIter
| CReverse
| CQuery (from to : Z)
| CCount (from to : Z) (st : fdb_tsl_status)
| CSetStatus (i : nat) (st : fdb_tsl_status)
| CRead (i n : nat)
| CClean
| CLastTime.

(** What a client sees of an object. *)
Definition tsl_view : Type := fdb_tsl_status * Z * Z.

Inductive ts_answer :=
| ADone (e : fdb_err_t)
| ALog (l : list tsl_view)
| ACount (n : Z)
| AStatus (e : option fdb_err_t)
| AData (r : option (Z * option (list Z)))
| AClean
| ATime (t : option Z).

(** The sectors from the oldest one on, which is the [ta_first]-th of the
    medium; the current one is the [ta_cur]-th from there. *)
Record ts_abs := TsAbs {
  ta_first : Z;
  ta_cur : nat;
  ta_secs : list sector_state;
  ta_last : Z;
}.

Definition entry_view (e : entry) : tsl_view := (e_status e, e_time e, len (e_data e)).
Definition log_view (a : ts_abs) : list tsl_view := map entry_view (entries (ta_secs a)).
Definition in_interval (from to : Z) (v : tsl_view) : bool := (from <=? snd (fst v)) && (snd (fst v) <=? to).
Definition has_status (st : fdb_tsl_status) (v : tsl_view) : bool := bool_decide (fst (fst v) = st).

(** The current sector holds no entry. *)
Definition cur_empty (a : ts_abs) : bool :=
  match ta_secs a !! ta_cur a with Some s => bool_decide (ss_status s = FDB_SECTOR_STORE_EMPTY) | None => true end.

(** The [i]-th entry with another status. *)
Definition mark_entry (i : nat) (st : fdb_tsl_status) (secs : list sector_state) : list sector_state :=
  match locate i secs with Some (k, j) => alter (sector_set_status st j) k secs | None => secs end.

(** A database with [count] sectors of [n] bytes, for entries of at most [max]
    bytes. *)
Definition ts_spec (n count max : Z) (c : ts_call) (a : ts_abs) : ts_answer * ts_abs :=
  match c with
  | CAppend data t =>
      if (max <? len data) || (t <=? ta_last a) then (ADone FDB_WRITE_ERR, a)
      else let '(o, c, secs) := ts_push n count (Entry FDB_TSL_WRITE t data) (ta_first a) (ta_cur a) (ta_secs a) in
           (ADone FDB_NO_ERR, TsAbs o c secs t)
  | CIter => (ALog (log_view a), a)
  | CReverse => (ALog (if cur_empty a then [] else rev (log_view a)), a)
  | CQuery from to => (ALog (List.filter (in_interval from to) (log_view a)), a)
  | CCount from to st =>
      (ACount (Z.of_nat (length (List.filter (fun v => in_interval from to v && has_status st v) (log_view a)))), a)
  | CSetStatus i st =>
      match entries (ta_secs a) !! i with
      | Some e =>
          if enum_val (e_status e) <=? enum_val st
          then (AStatus (Some FDB_NO_ERR), TsAbs (ta_first a) (ta_cur a) (mark_entry i st (ta_secs a)) (ta_last a))
          else (AStatus None, a)
      | None => (AStatus None, a)
      end
  | CRead i b =>
      match entries (ta_secs a) !! i with
      | Some e =>
          if 0 <? len (e_data e)
          then let k := Z.min (Z.of_nat b) (len (e_data e)) in
               (AData (Some (k, Some (splice (replicate b 0) 0 (slice (e_data e) 0 k)))), a)
          else (AData None, a)
      | None => (AData None, a)
      end
  | CClean => (AClean, TsAbs 0 0 (replicate (Z.to_nat count) (SecState FDB_SECTOR_STORE_EMPTY 0 [])) 0)
  | CLastTime => (ATime (Some (ta_last a)), a)
  end.

Fixpoint ts_specs (n count max : Z) (cs : list ts_call) (a : ts_abs) : list ts_answer * ts_abs :=
  match cs with
  | [] => ([], a)
  | c :: cs =>
      let (r, a) := ts_spec n count max c a in
      let (l, a) := ts_specs n count max cs a in (r :: l, a)
  end.

(** ** Logs *)

Definition start_ok (s : sector_state) : Prop := forall e, ss_log s !! 0%nat = Some e -> ss_start s = e_time e.

(** The timestamps increase, up to the last one; a sector starts with its first
    entry; the sectors are used in order. *)
Record log_ok (a : ts_abs) : Prop := {
  lo_increasing : increasing (entries (ta_secs a));
  lo_start : Forall start_ok (ta_secs a);
  lo_last : loaded_time (ta_secs a) (ta_last a) = ta_last a;
  lo_order : in_order (ta_first a) (ta_cur a) (ta_secs a);
}.

Lemma times_last l t : increasing l -> from_option e_time t (last l) = t -> Forall (fun e => e_time e <= t) l.
Proof.
  intros Hi Ht. apply Forall_lookup. intros i e He. pose proof (lookup_lt_Some _ _ _ He).
  rewrite last_lookup in Ht. destruct (lookup_lt_is_Some_2 l (Nat.pred (length l)) ltac:(lia)) as [e' He'].
  rewrite He' in Ht. cbn in Ht. subst t. destruct (decide (i = Nat.pred (length l))) as [->|Hne].
  - rewrite He in He'. injection He' as ->. lia.
  - apply Z.lt_le_incl. apply (Hi i (Nat.pred (length l))); [lia|done|done].
Qed.

Lemma increasing_drop k l : increasing l -> increasing (drop k l).
Proof.
  intros H i j ei ej Hij Hi Hj. rewrite lookup_drop in Hi, Hj. apply (H (k + i)%nat (k + j)%nat); [lia|done|done].
Qed.

Lemma increasing_snoc l e : increasing l -> Forall (fun x => e_time x < e_time e) l -> increasing (l ++ [e]).
Proof.
  intros H Hl i j ei ej Hij Hi Hj. pose proof (lookup_lt_Some _ _ _ Hj) as Hlen. rewrite length_app in Hlen. cbn in Hlen.
  rewrite lookup_app_l in Hi by lia. destruct (decide (j < length l)%nat) as [Hlt|Hge].
  - rewrite lookup_app_l in Hj by done. by apply (H i j).
  - rewrite lookup_app_r in Hj by lia. apply list_lookup_singleton_Some in Hj as [_ <-].
    exact (Forall_lookup_1 _ _ _ _ Hl Hi).
Qed.

Lemma increasing_times l l' : map e_time l = map e_time l' -> increasing l -> increasing l'.
Proof.
  intros E H i j ei ej Hij Hi Hj.
  assert (forall q x, l' !! q = Some x -> exists y, l !! q = Some y /\ e_time y = e_time x) as Hq.
  { intros q x Hx. apply (f_equal (lookup q)) in E. change (@map entry Z) with (@fmap list _ entry Z) in E.
    rewrite !list_lookup_fmap, Hx in E. apply fmap_Some in E as (y & Hy & Ey). by exists y. }
  destruct (Hq i ei Hi) as (yi & Hyi & <-), (Hq j ej Hj) as (yj & Hyj & <-). by apply (H i j).
Qed.

(** *** Appending *)

Lemma push_starts n count e o c secs s :
  secs !! c = Some s -> (ss_status s = FDB_SECTOR_STORE_EMPTY <-> ss_log s = []) -> Forall start_ok secs ->
  let '(_, _, secs') := ts_push n count e o c secs in Forall start_ok secs'.
Proof.
  intros Hc He H. pose proof (Forall_lookup_1 _ _ _ _ H Hc) as Hs. unfold ts_push. rewrite Hc.
  assert (start_ok (SecState FDB_SECTOR_STORE_USING (e_time e) [e])) as Hnew by (by intros x [= <-]).
  assert (forall st, start_ok (SecState st (ss_start s) (ss_log s))) as Hold by (intros st x Hx; by apply Hs).
  destruct (0 <=? _); [|destruct (_ <? _)%nat].
  - apply Forall_insert; [done|]. intros x. cbn [ss_log ss_start]. destruct (decide _) as [E|E].
    + rewrite (proj1 He E). by intros [= <-].
    + intros Hx. apply Hs. destruct (ss_log s) as [|y l]; [|done]. by destruct E, He as [_ ->].
  - by do 2 (apply Forall_insert; [|done]).
  - apply Forall_app. split; [|by constructor]. apply Forall_tail. by apply Forall_insert.
Qed.

Lemma push_order n count e c a :
  (c < length (ta_secs a))%nat -> in_order (ta_first a) c (ta_secs a) ->
  let '(o', c', secs') := ts_push n count e (ta_first a) c (ta_secs a) in in_order o' c' secs'.
Proof.
  intros Hc Ho. unfold ts_push. destruct (lookup_lt_is_Some_2 _ _ Hc) as [s ->]. unfold in_order in *.
  destruct (0 <=? _); [by rewrite length_insert|]. destruct (Nat.ltb_spec (S c) (length (ta_secs a))).
  - left. lia.
  - right. assert (forall l : list sector_state, length (tail l) = Nat.pred (length l)) as Ht by (by intros []).
    rewrite length_app, Ht, length_insert. cbn. lia.
Qed.

Lemma log_ok_push n count e a s :
  let '(o, c, secs) := (ta_first a, ta_cur a, ta_secs a) in
  secs !! c = Some s -> (forall k x, secs !! k = Some x -> (c < k)%nat -> ss_log x = []) ->
  (ss_status s = FDB_SECTOR_STORE_EMPTY <-> ss_log s = []) ->
  log_ok a -> ta_last a < e_time e ->
  let '(o', c', secs') := ts_push n count e o c secs in log_ok (TsAbs o' c' secs' (e_time e)).
Proof.
  intros Hc Hlater He [H1 H2 H3 H4] Hlt. pose proof (push_entries n count e (ta_first a) _ _ s Hc Hlater) as Hp.
  pose proof (push_starts n count e (ta_first a) _ _ s Hc He H2) as Hst.
  pose proof (push_order n count e _ a (lookup_lt_Some _ _ _ Hc) H4) as Ho.
  destruct (ts_push n count e _ _ _) as [[o' c'] secs']. split; cbn [ta_secs ta_last]; [|done| |done].
  - rewrite Hp. apply increasing_snoc; [by apply increasing_drop|]. apply Forall_drop.
    eapply Forall_impl; [by apply times_last|]. cbn. lia.
  - unfold loaded_time. by rewrite Hp, last_snoc.
Qed.

(** *** Changing a status *)

Lemma mark_entry_cons i st s secs :
  mark_entry i st (s :: secs) =
    if (i <? length (ss_log s))%nat then sector_set_status st i s :: secs
    else s :: mark_entry (i - length (ss_log s)) st secs.
Proof.
  unfold mark_entry. cbn [locate]. destruct (_ <? _)%nat; [done|]. by destruct (locate _ secs) as [[k j]|].
Qed.

Lemma mark_entries i st secs : entries (mark_entry i st secs) = alter (set_entry_status st) i (entries secs).
Proof.
  revert i. induction secs as [|s secs IH]; intros i; [done|]. rewrite mark_entry_cons. unfold entries in *. cbn [map concat].
  destruct (Nat.ltb_spec i (length (ss_log s))).
  - by rewrite alter_app_l by done.
  - by rewrite alter_app_r_alt, <- IH by done.
Qed.

Lemma mark_starts i st secs : Forall start_ok secs -> Forall start_ok (mark_entry i st secs).
Proof.
  intros H. revert i. induction H as [|s secs Hs H IH]; intros i; [done|]. rewrite mark_entry_cons.
  destruct (_ <? _)%nat; constructor; try done. intros e. cbn [ss_log ss_start sector_set_status].
  rewrite list_lookup_alter. destruct (decide _); [|apply Hs].
  destruct (ss_log s !! i) as [x|] eqn:E; [|done]. intros [= <-]. subst i. exact (Hs x E).
Qed.

Lemma times_alter st i l : map e_time (alter (set_entry_status st) i l) = map e_time l.
Proof.
  revert i. induction l as [|e l IH]; intros [|i]; [done..|]. cbn [map]. change (alter ?f (S i) (e :: l)) with (e :: alter f i l).
  cbn [map]. by rewrite IH.
Qed.

Lemma log_ok_mark i st a :
  log_ok a -> log_ok (TsAbs (ta_first a) (ta_cur a) (mark_entry i st (ta_secs a)) (ta_last a)).
Proof.
  intros [H1 H2 H3 H4].
  assert (map e_time (entries (ta_secs a)) = map e_time (entries (mark_entry i st (ta_secs a)))) as E
    by (by rewrite mark_entries, times_alter).
  split; cbn [ta_secs ta_last]; [by eapply increasing_times|by apply mark_starts| |].
  - rewrite <- H3 at 2. unfold loaded_time. rewrite mark_entries, !last_lookup, length_alter, list_lookup_alter.
    destruct (decide _) as [<-|]; [|done]. by destruct (entries (ta_secs a) !! i).
  - unfold in_order, mark_entry in *. cbn [ta_first ta_cur]. destruct (locate _ _) as [[k j]|]; [by rewrite length_alter|done].
Qed.

Lemma log_ok_empty n : log_ok (TsAbs 0 0 (replicate n (SecState FDB_SECTOR_STORE_EMPTY 0 [])) 0).
Proof.
  assert (entries (replicate n (SecState FDB_SECTOR_STORE_EMPTY 0 [])) = []) as E by (by induction n).
  split; cbn [ta_secs ta_last]; rewrite ?E; [by intros i j ei ej _ Hi| | |by left].
  - apply Forall_replicate. by intros e.
  - unfold loaded_time. by rewrite E.
Qed.

(** *** Objects and entries *)

Definition view (t : fdb_tsl) : tsl_view := (tsl_status t, tsl_time t, tsl_log_len t).

Lemma view_tsls g o secs : map view (ring_tsls g o secs) = map entry_view (entries secs).
Proof.
  apply list_eq. intros i. change (@map fdb_tsl tsl_view) with (@fmap list _ fdb_tsl tsl_view).
  change (@map entry tsl_view) with (@fmap list _ entry tsl_view). rewrite !list_lookup_fmap.
  pose proof (locate_entry g o secs i) as H. destruct (locate i secs) as [[k j]|].
  - by destruct H as (s & e & _ & _ & -> & ->).
  - by destruct H as [-> ->].
Qed.

Lemma view_inside from to g o secs :
  from <= to -> map view (List.filter (inside from to) (ring_tsls g o secs)) =
    List.filter (in_interval from to) (map entry_view (entries secs)).
Proof.
  intros Hle. rewrite <- (view_tsls g o), List.filter_map_swap. f_equal. apply List.filter_ext. intros t.
  unfold inside, in_interval. rewrite (proj2 (Z.leb_le _ _) Hle), (proj2 (Z.ltb_ge _ _) Hle). cbn. by rewrite orb_false_r.
Qed.

Lemma count_view from to st l :
  from <= to -> length (List.filter (fun e => counted from to st (e_time e) (e_status e)) l) =
    length (List.filter (fun v => in_interval from to v && has_status st v) (map entry_view l)).
Proof.
  intros Hle. rewrite List.filter_map_swap, length_map. f_equal. apply List.filter_ext. intros e.
  unfold counted, in_interval, has_status. rewrite (proj2 (Z.leb_le _ _) Hle), (proj2 (Z.ltb_ge _ _) Hle). cbn.
  by rewrite orb_false_r.
Qed.

Definition keep_object (t : fdb_tsl) (l : list fdb_tsl) : bool * list fdb_tsl := (false, l ++ [t]).

Lemma visit_keep ts l : snd (visit keep_object ts l) = l ++ ts.
Proof.
  revert l. induction ts as [|t ts IH]; intros l; cbn [visit keep_object fst snd]; [by rewrite app_nil_r|].
  by rewrite IH, <- app_assoc.
Qed.

(** ** The calls *)

Section run.
Context {W} {ST : Storage W} {SL : StorageLaws W} {IN : Indeterminate} {CL : Clock W}.
Implicit Type d : fdb_tsdb W.

(** The callback of the client keeps the objects. *)
Definition collect (t : fdb_tsl) (l : list fdb_tsl) : M (fdb_tsdb W) (bool * list fdb_tsl) := mret (keep_object t l).
Definition views (p : M (fdb_tsdb W) (list fdb_tsl)) : M (fdb_tsdb W) ts_answer := l ← p; mret (ALog (map view l)).

(** A call on the [i]-th object of the log. *)
Definition with_object {A} (i : nat) (p : fdb_tsl -> M (fdb_tsdb W) (option A)) : M (fdb_tsdb W) (option A) :=
  l ← fdb_tsl_iter (Some collect) [];
  match l !! i with Some t => p t | None => mret None end.

Definition run_ts_call (c : ts_call) : M (fdb_tsdb W) ts_answer :=
  match c with
  | CAppend data t => e ← fdb_tsl_append_with_ts (blob_of data) t; mret (ADone e)
  | CIter => views (fdb_tsl_iter (Some collect) [])
  | CReverse => views (fdb_tsl_iter_reverse (Some collect) [])
  | CQuery from to => views (fdb_tsl_iter_by_time from to (Some collect) [])
  | CCount from to st => n ← fdb_tsl_query_count from to st; mret (ACount n)
  | CSetStatus i st =>
      r ← with_object i (fun t =>
        if enum_val (tsl_status t) <=? enum_val st then e ← fdb_tsl_set_status t st; mret (Some e) else mret None);
      mret (AStatus r)
  | CRead i n =>
      r ← with_object i (fun t =>
        if 0 <? tsl_log_len t then
          let blob := fdb_blob_make (FdbBlob None 0 0 0 0) (Some (replicate n 0)) (Z.of_nat n) in
          r ← up (fdb_blob_read (fdb_tsl_to_blob t blob)); mret (Some (fst r, buf (snd r)))
        else mret None);
      mret (AData r)
  | CClean => fdb_tsl_clean;; mret AClean
  | CLastTime => t ← fdb_tsdb_control FDB_TSDB_CTRL_GET_LAST_TIME; mret (ATime t)
  end.

Fixpoint run_ts (cs : list ts_call) : M (fdb_tsdb W) (list ts_answer) :=
  match cs with
  | [] => mret []
  | c :: cs => r ← run_ts_call c; l ← run_ts cs; mret (r :: l)
  end.

(** ** The representation *)

Context (G : geom) (max : Z) (Hmax : max + SECTOR_HDR_DATA_SIZE + LOG_IDX_DATA_SIZE <= sec_size G).
Context (Hint : max_size G < 2147483648).

(** The database holds the state [a] of the machine.  Every entry of the
    greatest length fits in a sector, and addresses fit in an [int]. *)
Record ts_rep (a : ts_abs) d : Prop := {
  tr_state : exists m, ts_state d m (ta_first a) (ta_cur a) (ta_secs a);
  tr_geo : geo (parent d) = G;
  tr_init : init_ok (parent d) = true;
  tr_roll : rollover d = true;
  tr_max : max_len d = max;
  tr_last : last_time d = ta_last a;
  tr_log : log_ok a;
}.

Lemma ts_rep_next a a' d d' m :
  ts_rep a d -> ts_state d' m (ta_first a') (ta_cur a') (ta_secs a') -> ts_config d' = ts_config d ->
  last_time d' = ta_last a' -> log_ok a' -> ts_rep a' d'.
Proof.
  intros [_ H2 H3 H4 H5 _ _] Hs Hcf Hl Hok. unfold ts_config in Hcf. injection Hcf as E1 E2 _ _ E5 E6.
  split; [by exists m|congruence..|done].
Qed.

Lemma ts_rep_kept a d m d' :
  ts_rep a d -> ts_state d m (ta_first a) (ta_cur a) (ta_secs a) -> kept d m d' -> ts_rep a d'.
Proof.
  intros H Hs Hk. apply (ts_rep_next a a d d' m); [done|by apply (ts_state_kept d)|apply Hk| |apply H].
  rewrite <- (tr_last _ _ H). apply Hk.
Qed.

(** The current sector of the ring. *)
Lemma ts_rep_cur a d m :
  ts_rep a d -> ts_state d m (ta_first a) (ta_cur a) (ta_secs a) ->
  exists s, ta_secs a !! ta_cur a = Some s /\ (ss_status s = FDB_SECTOR_STORE_EMPTY <-> ss_log s = []) /\
    (ss_status s = FDB_SECTOR_STORE_EMPTY \/ ss_status s = FDB_SECTOR_STORE_USING) /\
    addr (cur_sec d) = ring_addr G (ta_first a) (Z.of_nat (ta_cur a)).
Proof.
  intros H Hs. destruct (rs_cur _ _ (tt_shape _ _ _ _ _ Hs)) as (s & Hc & Hst). exists s.
  destruct (rl_secs _ _ _ _ (tt_ring _ _ _ _ _ Hs) _ _ Hc) as [Hat Huse]. split; [done|]. split; [split|split; [done|]].
  - by intros [-> _]%(sa_empty _ _ _ _ _ _ Hat).
  - intros Hl. destruct Hst as [|Hu]; [done|]. by destruct (Huse Hu).
  - rewrite <- (tr_geo _ _ H). by apply (sl_addr _ _ _ _ _ _ (tt_cur _ _ _ _ _ Hs s Hc)).
Qed.

Lemma ts_rep_queryable a d from to : ts_rep a d -> from <= to -> queryable G from to (ta_secs a).
Proof.
  intros H Hle. destruct (tr_log _ _ H) as [L1 L2 _ _]. split; [done| |lia|done].
  intros k s e Hk. by apply (Forall_lookup_1 _ _ _ _ L2 Hk).
Qed.

(** ** Each call *)

Notation spec := (ts_spec (sec_size G) (sector_count G) max).

(** The code answers as the machine does. *)
Definition refines (c : ts_call) a d : Prop :=
  wp (run_ts_call c) (fun r d' => exists a', spec c a = (r, a') /\ ts_rep a' d') d.

Lemma refines_append data t a d : ts_rep a d -> bytes data -> -2147483648 <= t < 2147483648 -> refines (CAppend data t) a d.
Proof.
  intros H Hb Ht. destruct (tr_state _ _ H) as [m Hs]. unfold refines. cbn [run_ts_call ts_spec]. apply wp_bind.
  destruct ((max <? len data) || (t <=? ta_last a)) eqn:E.
  - apply orb_true_iff in E as [E%Z.ltb_lt|E%Z.leb_le].
    all: eapply wp_mono; [apply append_rejects; right; rewrite (tr_max _ _ H), (tr_last _ _ H); first [by left|by right]|].
    all: rewrite (tr_init _ _ H); intros r d' [-> ->]; apply wp_ret; exists a; split; [done|].
    all: apply (ts_rep_kept a d m); [done|done|]; apply kept_lock_trace, Hs.
  - apply orb_false_iff in E as [E1%Z.ltb_ge E2%Z.leb_gt].
    destruct (ts_rep_cur _ _ _ H Hs) as (s & Hc & He & _). pose proof (tt_ring _ _ _ _ _ Hs) as Hr.
    pose proof (ra_len _ _ _ _ (ring_log_at _ _ _ _ Hr)). pose proof (len_nonneg data).
    pose proof (max_size_eq G ltac:(rewrite <- (tr_geo _ _ H); eapply holds_geom, Hr)).
    pose proof (sector_count_two G ltac:(rewrite <- (tr_geo _ _ H); eapply holds_geom, Hr)).
    assert (entry_ok (Entry FDB_TSL_WRITE t data)) as Hok by (unfold SECTOR_HDR_DATA_SIZE, LOG_IDX_DATA_SIZE in *; split; cbn; [done|done|done|nia]).
    assert (0 <= free_space (sec_size G) [Entry FDB_TSL_WRITE t data]) as Hfit by (unfold free_space; cbn; lia).
    assert (forall k x, ta_secs a !! k = Some x -> (ta_cur a < k)%nat -> ss_log x = []) as Hlater.
    { intros k x Hx Hk. destruct (rl_secs _ _ _ _ Hr k x Hx) as [Hat _].
      by apply (sa_empty _ _ _ _ _ _ Hat), (rs_empty _ _ (tt_shape _ _ _ _ _ Hs) k). }
    pose proof (log_ok_push (sec_size G) (sector_count G) (Entry FDB_TSL_WRITE t data) a s Hc Hlater He (tr_log _ _ H) E2) as Hlog.
    eapply wp_mono.
    { apply (wp_append d m _ _ _ s t data Hs Hc); unfold ts_sec_size; rewrite ?(tr_geo _ _ H); try done; [apply H|apply H| |].
      - by rewrite (tr_last _ _ H).
      - by rewrite (tr_max _ _ H). }
    intros r d' [(-> & Hl & Hcf & m' & Hs') _]. unfold ts_sec_size in Hs'. rewrite (tr_geo _ _ H) in Hs'. apply wp_ret.
    destruct (ts_push _ _ _ _ _ _) as [[o c] secs]. eexists. split; [reflexivity|].
    by apply (ts_rep_next a (TsAbs o c secs t) d d' m').
Qed.

(** The calls that visit objects. *)
Lemma refines_views c p v a d m :
  ts_rep a d -> ts_state d m (ta_first a) (ta_cur a) (ta_secs a) -> spec c a = (ALog v, a) ->
  run_ts_call c = views p -> wp p (fun l d' => map view l = v /\ kept d m d') d -> refines c a d.
Proof.
  intros H Hs Hv Hc Hp. unfold refines. rewrite Hc, Hv. apply wp_bind. eapply wp_mono; [exact Hp|].
  intros l d' [<- Hk]. apply wp_ret. exists a. split; [done|]. by apply (ts_rep_kept a d m).
Qed.

Lemma wp_collect a d m :
  ts_rep a d -> ts_state d m (ta_first a) (ta_cur a) (ta_secs a) ->
  wp (fdb_tsl_iter (Some collect) []) (fun l d' => l = ring_tsls G (ta_first a) (ta_secs a) /\ kept d m d') d.
Proof.
  intros H Hs. eapply wp_mono.
  { apply (wp_iter d m (ta_first a) (ta_secs a) _ keep_object []); [apply Hs|apply Hs|apply (computes_pure keep_object)]. }
  intros l d' [-> Hk]. by rewrite visit_keep, (tr_geo _ _ H).
Qed.

Lemma refines_iter a d : ts_rep a d -> refines CIter a d.
Proof.
  intros H. destruct (tr_state _ _ H) as [m Hs]. eapply (refines_views _ _ _ a d m); [done..|reflexivity|reflexivity|].
  eapply wp_mono; [by apply wp_collect|]. intros l d' [-> Hk]. split; [apply view_tsls|done].
Qed.

Lemma refines_reverse a d : ts_rep a d -> refines CReverse a d.
Proof.
  intros H. destruct (tr_state _ _ H) as [m Hs]. eapply (refines_views _ _ _ a d m); [done..|reflexivity|reflexivity|].
  destruct (ts_rep_cur _ _ _ H Hs) as (s & Hc & _ & Hst & Ha). pose proof (lookup_lt_Some _ _ _ Hc). eapply wp_mono.
  { apply (wp_iter_reverse d m (ta_first a) (ta_secs a) (ta_cur a) _ keep_object []);
      [apply Hs|done|by rewrite (tr_geo _ _ H)|apply (computes_pure keep_object)]. }
  intros l d' [-> Hk]. split; [|done]. unfold cur_empty. rewrite Hc. destruct Hst as [He|Hu].
  - by rewrite bool_decide_eq_true_2, (back_sweep_empty _ _ _ _ s).
  - rewrite bool_decide_eq_false_2 by (by rewrite Hu). rewrite (back_sweep d m _ _ _ s) by (done || apply Hs).
    rewrite visit_keep, (tr_geo _ _ H). cbn [app]. rewrite List.map_rev. unfold log_view. f_equal. apply view_tsls.
Qed.

Lemma refines_query from to a d : ts_rep a d -> from <= to -> refines (CQuery from to) a d.
Proof.
  intros H Hle. destruct (tr_state _ _ H) as [m Hs]. eapply (refines_views _ _ _ a d m); [done..|reflexivity|reflexivity|].
  eapply wp_mono.
  { apply (wp_query d m (ta_first a) (ta_secs a) (ta_cur a) from to _ keep_object []);
      [apply Hs|apply Hs|apply Hs| |lia|apply (computes_pure keep_object)].
    rewrite (tr_geo _ _ H). by apply (ts_rep_queryable a d). }
  intros l d' [-> Hk]. split; [|done]. unfold ordered. rewrite (proj2 (Z.leb_le _ _) Hle), visit_keep, (tr_geo _ _ H).
  by apply view_inside.
Qed.

Lemma refines_count from to st a d : ts_rep a d -> from <= to -> refines (CCount from to st) a d.
Proof.
  intros H Hle. destruct (tr_state _ _ H) as [m Hs]. apply wp_bind. eapply wp_mono.
  { apply (query_count_log d m (ta_first a) (ta_secs a) (ta_cur a) from to st);
      [apply Hs|apply Hs|apply Hs| |lia|apply H]. rewrite (tr_geo _ _ H). by apply (ts_rep_queryable a d). }
  intros n d' [-> Hk]. apply wp_ret. exists a. cbn [ts_spec]. rewrite count_view by done.
  split; [done|]. by apply (ts_rep_kept a d m).
Qed.

(** The calls on an object: the object of the [i]-th entry, if there is one. *)
Lemma wp_with_object {A} i (p : fdb_tsl -> M (fdb_tsdb W) (option A)) a d m (Q : option A -> fdb_tsdb W -> Prop) :
  ts_rep a d -> ts_state d m (ta_first a) (ta_cur a) (ta_secs a) ->
  (entries (ta_secs a) !! i = None -> forall d', ts_rep a d' -> Q None d') ->
  (forall e k j s t d', entries (ta_secs a) !! i = Some e -> locate i (ta_secs a) = Some (k, j) ->
     ta_secs a !! k = Some s -> ss_log s !! j = Some e ->
     t = tsl_of (ring_addr G (ta_first a) (Z.of_nat k)) (sec_size G) (ss_log s) j e ->
     ring_tsls G (ta_first a) (ta_secs a) !! i = Some t ->
     ts_rep a d' -> ts_state d' m (ta_first a) (ta_cur a) (ta_secs a) -> wp (p t) Q d') ->
  wp (with_object i p) Q d.
Proof.
  intros H Hs Hnone Hsome. apply wp_bind. eapply wp_mono; [by apply wp_collect|]. intros l d' [-> Hk].
  pose proof (ts_rep_kept _ _ _ _ H Hs Hk) as H'. pose proof (ts_state_kept _ _ _ _ _ _ Hs Hk) as Hs'.
  pose proof (locate_entry G (ta_first a) (ta_secs a) i) as Hi. destruct (locate i (ta_secs a)) as [[k j]|] eqn:El.
  - destruct Hi as (s & e & E1 & E2 & E3 & E4). rewrite E4. by eapply Hsome.
  - destruct Hi as [E1 ->]. by apply wp_ret, Hnone.
Qed.

Lemma refines_set_status i st a d : ts_rep a d -> refines (CSetStatus i st) a d.
Proof.
  intros H. destruct (tr_state _ _ H) as [m Hs]. apply wp_bind. cbn [ts_spec].
  apply (wp_with_object i _ a d m); [done|done| |].
  - intros -> d' H'. apply wp_ret. by exists a.
  - intros e k j s t d' -> El Hk Hj -> _ H' Hs'. cbn [tsl_of tsl_status]. destruct (Z.leb_spec (enum_val (e_status e)) (enum_val st)).
    2:{ apply wp_ret, wp_ret. by exists a. }
    rewrite <- (tr_geo _ _ H'). apply wp_bind. eapply wp_mono; [by apply (wp_set_status d' m _ _ _ k s j e st Hs' Hk Hj)|].
    intros r d2 (-> & (m2 & H2) & Hl2 & Hcf2). apply wp_ret, wp_ret. eexists. split; [done|].
    apply (ts_rep_next a _ d' d2 m2); cbn [ta_first ta_cur ta_secs ta_last]; [done| |done| |by apply log_ok_mark, H].
    + unfold mark_entry. by rewrite El.
    + rewrite Hl2. apply H'.
Qed.

Lemma refines_read i n a d : ts_rep a d -> refines (CRead i n) a d.
Proof.
  intros H. destruct (tr_state _ _ H) as [m Hs]. apply wp_bind. cbn [ts_spec].
  apply (wp_with_object i _ a d m); [done|done| |].
  - intros -> d' H'. apply wp_ret. by exists a.
  - intros e k j s t d' He El Hk Hj -> Ht H' Hs'. rewrite He. cbn [tsl_of tsl_log_len]. destruct (Z.ltb_spec 0 (len (e_data e))) as [Hl|].
    2:{ apply wp_ret, wp_ret. by exists a. }
    rewrite <- (tr_geo _ _ H') in Ht |- *. assert (e_data e <> []) as Hne by (intros E; by rewrite E in Hl).
    destruct (read_back d' m _ _ i _ e (FdbBlob None 0 0 0 0) (replicate n 0) (Z.of_nat n) (tt_ring _ _ _ _ _ Hs') Ht He Hne)
      as (_ & _ & _ & Hwp); [rewrite len_replicate; lia|].
    apply wp_bind. eapply wp_mono; [exact Hwp|]. intros r d2 (E1 & E2 & Hkept). apply wp_ret, wp_ret.
    exists a. rewrite E1, E2. split; [done|]. by apply (ts_rep_kept a d' m).
Qed.

Lemma refines_clean a d : ts_rep a d -> refines CClean a d.
Proof.
  intros H. destruct (tr_state _ _ H) as [m Hs]. pose proof (ring_log_at _ _ _ _ (tt_ring _ _ _ _ _ Hs)) as Hr.
  apply wp_bind. eapply wp_mono.
  { apply (clean_empties d m); [apply (tt_ring _ _ _ _ _ Hs)|apply (ra_mult _ _ _ _ Hr)|by apply (ring_legible _ _ (ta_first a) (ta_secs a))]. }
  intros [] d' (m' & Hs' & He & Hl & Hcf). rewrite (tr_geo _ _ H) in Hs'. apply wp_ret. eexists. split; [reflexivity|].
  apply (ts_rep_next a _ d d' m'); [done|exact Hs'|done|done|apply log_ok_empty].
Qed.

(** ** Sequences of calls *)

(** The arguments: bytes, 32-bit timestamps, intervals forwards. *)
Definition ts_call_ok (c : ts_call) : Prop :=
  match c with
  | CAppend data t => bytes data /\ -2147483648 <= t < 2147483648
  | CQuery from to | CCount from to _ => from <= to
  | _ => True
  end.

Lemma refines_call c a d : ts_rep a d -> ts_call_ok c -> refines c a d.
Proof.
  destruct c; intros H Hok; [destruct Hok; by apply refines_append|by apply refines_iter|by apply refines_reverse|by apply refines_query
    |by apply refines_count|by apply refines_set_status|by apply refines_read|by apply refines_clean|].
  unfold refines. cbn. apply wp_bind, wp_bind, wp_gets, wp_ret, wp_ret. exists a. by rewrite (tr_last _ _ H).
Qed.

(** C2: The time-series database refines the abstract machine: in a database
    that holds a state of the machine, any sequence of calls finishes, whatever
    sectors are filled, closed and reused, and gives the machine's answers, and
    the database then holds the machine's state.  The calls append, iterate in
    both directions, query and count by time, set statuses, read data, clean,
    and ask for the last timestamp. *)
Theorem tsdb_refines_machine cs a d :
  ts_rep a d -> Forall ts_call_ok cs ->
  wp (run_ts cs) (fun l d' => exists a', ts_specs (sec_size G) (sector_count G) max cs a = (l, a') /\ ts_rep a' d') d.
Proof.
  intros H Hcs. revert a d H. induction Hcs as [|c cs Hc _ IH]; intros a d H; cbn [run_ts ts_specs].
  - apply wp_ret. by exists a.
  - apply wp_bind. eapply wp_mono; [by apply refines_call|]. intros r d1 (a1 & -> & H1). apply wp_bind.
    eapply wp_mono; [by apply IH|]. intros l d2 (a2 & -> & H2). apply wp_ret. by exists a2.
Qed.
End run.

(** ** Closing and opening *)

Section reopen.
Context {W} {ST : Storage W} {SL : StorageLaws W} {IN : Indeterminate} {CL : Clock W} {SC : StorageCloses W}.
Context (Hmode : FDB_USING_FILE_MODE = true).

(** C6: A time-series database in files is closed by [fdb_tsdb_deinit];
    [fdb_tsdb_init] with the same structure, name, directory and greatest length
    then succeeds, and the database holds the state of the machine that it
    held: the entries with their statuses, in their sectors, and the last
    timestamp.  (The sector size is a power of two, as [_fdb_init_ex]
    asserts.) *)
Theorem tsdb_reopen max path u a (d : fdb_tsdb W) :
  let G := geo (parent d) in
  ts_rep G max a d -> file_mode G = true -> storage G = storage_dir path -> path <> EmptyString ->
  Z.land (sec_size G) (sec_size G - 1) = 0 -> max < sec_size G ->
  wp (fdb_tsdb_deinit;; fdb_tsdb_init (name G) path true max u) (fun r d' =>
    r = FDB_NO_ERR /\ ts_rep G max a d') d.
Proof.
  intros G H Hf Hdir Hpath H2 Hmax. destruct (tr_state _ _ _ _ H) as [m Hs]. pose proof (tt_ring _ _ _ _ _ Hs) as Hr.
  apply wp_bind. unfold fdb_tsdb_deinit. apply wp_bind, wp_zoom, (wp_deinit Hmode (parent d) m); [apply Hr|apply H|].
  intros w Hw. apply wp_ret. destruct (closed_opens Hmode path FDB_DB_TYPE_TS u (parent d) w m) as (db & Ho & Hg); [done..|].
  set (d1 := set_parent _ d). change (opens (name G) path FDB_DB_TYPE_TS u (parent d1) db m) in Ho. fold G in Hg.
  eapply wp_mono.
  { apply (wp_init_recovers (name G) path u max d1 db m (ta_first a) (ta_cur a) (ta_secs a) Ho); rewrite ?Hg; [done| |apply Hs| |].
    - by apply (ring_log_at d).
    - apply (tr_log _ _ _ _ H).
    - intros k s Hk Hu. destruct (rl_secs _ _ _ _ Hr k s Hk) as [_ Huse]. by apply Huse. }
  intros r d' (-> & Hs' & Hl & Hg' & Hi & Hml & Hroll). split; [done|]. split; try done; [by exists m|congruence| |apply H].
  rewrite Hl. change (last_time d1) with (last_time d). rewrite (tr_last _ _ _ _ H). apply (tr_log _ _ _ _ H).
Qed.

(** A new database holds the empty state. *)
Lemma new_database_rep nm path u max d db m :
  let G := geo db in
  opens nm path FDB_DB_TYPE_TS u (parent d) db m -> max < sec_size G -> sec_size G mod LOG_IDX_DATA_SIZE = 0 ->
  unformatted G m -> all_legible G m -> not_formatable (parent d) = false ->
  wp (fdb_tsdb_init nm path true max u) (fun r d' =>
    r = FDB_NO_ERR /\ ts_rep G max (TsAbs 0 0 (empty_secs G) 0) d') d.
Proof.
  intros G Ho Hmax Hmult Hb Hleg Hnf. eapply wp_mono; [by apply (wp_init_formats nm path u max d db m)|].
  intros r d' (-> & Hs & Hl & Hg & Hi & Hml & Hroll). split; [done|]. split; try done. apply log_ok_empty.
Qed.
End reopen.

(** ** On the concrete database *)

#[local] Existing Instance ts_zeros.
#[local] Existing Instance ts_clock.

Definition tabs : ts_abs := TsAbs 0 1 tsecs 30.

Lemma tdb_rep : ts_rep tgeom 70 tabs tdb.
Proof.
  split; [by exists tmedium; apply tstate|done..|]. split.
  - apply (qy_increasing _ _ _ _ (tqueryable 0 0)).
  - repeat constructor; by intros e [= <-].
  - reflexivity.
  - by left.
Qed.

(** The second append does not fit behind the third entry: the oldest sector is
    reused and the first two entries are lost. *)
Definition tcalls : list ts_call :=
  [CIter; CSetStatus 1 FDB_TSL_USER_STATUS1; CCount 10 25 FDB_TSL_USER_STATUS1; CAppend [1] 30; CAppend (replicate 70 9) 40;
   CReverse; CRead 0 3; CQuery 35 50; CLastTime; CClean; CReverse; CAppend [8; 9] 5; CIter].

Example tcalls_answers :
  fst (ts_specs 128 2 70 tcalls tabs) =
  [ALog [(FDB_TSL_WRITE, 10, 3); (FDB_TSL_WRITE, 20, 60); (FDB_TSL_WRITE, 30, 2)]; AStatus (Some FDB_NO_ERR); ACount 1;
   ADone FDB_WRITE_ERR; ADone FDB_NO_ERR; ALog [(FDB_TSL_WRITE, 40, 70); (FDB_TSL_WRITE, 30, 2)];
   AData (Some (2, Some [4; 5; 0])); ALog [(FDB_TSL_WRITE, 40, 70)]; ATime (Some 40); AClean; ALog []; ADone FDB_NO_ERR;
   ALog [(FDB_TSL_WRITE, 5, 2)]].
Proof. vm_compute. reflexivity. Qed.

Lemma tsdb_refines_machine_witness :
  wp (run_ts tcalls) (fun l d' => exists a', ts_specs 128 2 70 tcalls tabs = (l, a') /\ ts_rep tgeom 70 a' d') tdb.
Proof.
  apply (tsdb_refines_machine tgeom 70); [vm_compute; discriminate|vm_compute; reflexivity|exact tdb_rep|].
  unfold tcalls. rewrite !Forall_cons, Forall_nil. unfold ts_call_ok. split_and!; try done; by apply bytes_check.
Defined.
