(* ===== verification/TsCrash.v ===== *)
(** Time-series database: power failures.

    Between the steps of formatting a sector the medium has a sector without a
    header; [fdb_tsdb_init] then takes the whole medium for one that is not a
    database.  Between the steps of an append the medium has a node without an
    entry, which the queries by time do not expect. *)
From S2P Require Import Prelude FdbDef Status FlashIO FlashSpec Mount KvRing FileIO FileSpec Disk.
From S2P Require Import TsDef TsOps TsApi TsSpec TsRead TsAppend TsIter TsRing TsLog TsStore TsDb TsInit TsFormat TsThm.

Section format.
Context {W} {ST : Storage W} {SL : StorageLaws W} {IN : Indeterminate} {CL : Clock W}.
Implicit Type d : fdb_tsdb W.

(** The media between the steps of [format_sector]: the sector is erased; its
    status is written. *)
Definition format_cuts (m : list Z) (a n : Z) : list (list Z) :=
  let erased := splice m a (replicate (Z.to_nat n) FDB_BYTE_ERASED) in
  [erased; splice erased a [status_byte (enum_val FDB_SECTOR_STORE_EMPTY)]].

(** They are those of the code. *)
Lemma format_steps d m a :
  ts_holds d m -> sector_in (geo (parent d)) a ->
  exists m1 m2, format_cuts m a (ts_sec_size d) = [m1; m2] /\
    tstores (up (_fdb_flash_erase a (ts_sec_size d))) d m1 (fun r => r = FDB_NO_ERR) /\
    tstores (up (_fdb_flash_erase a (ts_sec_size d)) >>> write_store_status a FDB_SECTOR_STORE_EMPTY) d m2
      (fun r => r = FDB_NO_ERR).
Proof.
  intros Hm Hs. destruct (Hs) as [Hg (Ha & Hmod & He) Hmul]. destruct (Hg) as [H64 Hdv H2 H32].
  pose proof (holds_len _ _ _ Hm) as Hlm. pose proof (erased_filled _ m a Hg ltac:(lia) ltac:(lia)) as Hff.
  assert (tstores (up (_fdb_flash_erase a (ts_sec_size d))) d
            (splice m a (erased_sector (geo (parent d)))) (fun r => r = FDB_NO_ERR)) as Herase
    by (apply tstores_erase; [done|lia|done]).
  eexists _, _. split; [reflexivity|]. split; [exact Herase|].
  eapply tstores_then; [exact Herase|]. intros i Hi.
  apply (tstores_write_status _ _ a FDB_SECTOR_STORE_STATUS_NUM (enum_val FDB_SECTOR_STORE_EMPTY) 255 true Hi); try done.
  - change (in_sector (geo (parent d)) a 1). eapply sector_in_part; [exact Hs|lia..].
  - change [255] with (replicate (Z.to_nat 1) FDB_BYTE_ERASED).
    apply (filled_sub _ a (sec_size (geo (parent d)))); [exact Hff|lia..].
Qed.

(** The sector has no header, and no other byte is different. *)
Lemma format_cuts_spec m m' a n :
  0 <= a -> a + n <= len m -> SECTOR_HDR_DATA_SIZE <= n -> m' ∈ format_cuts m a n ->
  blank m' a /\ forall b k, 0 <= b -> 0 <= k -> b + k <= a \/ a + n <= b -> slice m' b k = slice m b k.
Proof.
  intros Ha Hm Hn Hin. hdr_unfold. unfold format_cuts in Hin. set (e := replicate _ _) in *.
  assert (len e = n) as Hl by (unfold e; rewrite len_replicate; lia).
  assert (slice (splice m a e) (a + 1) 4 = replicate 4 255) as Hmagic.
  { change (filled (splice m a e) (a + 1) 4 255). apply (filled_sub _ a n); [|lia..].
    unfold filled. rewrite <- Hl at 1. rewrite slice_splice_same; [done|lia..]. }
  assert (forall x, slice x (a + 1) 4 = replicate 4 255 -> blank x a) as Hblank.
  { intros x Hx. unfold blank, SECTOR_MAGIC_OFFSET. rewrite Hx. vm_compute. discriminate. }
  apply elem_of_cons in Hin as [->|Hin]; [|apply elem_of_cons in Hin as [->|Hin]; [|set_solver]].
  - split; [by apply Hblank|]. intros b k Hb Hk Hout. apply slice_splice_other; lia.
  - split.
    + apply Hblank. rewrite slice_splice_other by (len_simpl; lia). exact Hmagic.
    + intros b k Hb Hk Hout. rewrite !slice_splice_other; len_simpl; (done || lia).
Qed.

(** C23: When the power fails while a sector of the ring is formatted, as every
    change to the oldest sector does, the whole log is lost: the next
    [fdb_tsdb_init] succeeds, formats all sectors and gives the empty database,
    whatever the other sectors hold. *)
Theorem interrupted_format_loses_log nm path u max d db m m' o secs k :
  let g := geo db in
  ring_at g m o secs -> (k < length secs)%nat ->
  m' ∈ format_cuts m (ring_addr g o (Z.of_nat k)) (sec_size g) ->
  opens nm path FDB_DB_TYPE_TS u (parent d) db m' -> max < sec_size g -> not_formatable (parent d) = false ->
  wp (fdb_tsdb_init nm path true max u) (fun r d' => r = FDB_NO_ERR /\ last_time d' = 0 /\
    exists m'' secs', ts_state d' m'' 0 0 secs' /\ entries secs' = []) d.
Proof.
  intros g Hring Hk Hcut Hmt Hmax Hnf. pose proof (ra_geom _ _ _ _ Hring) as Hg.
  destruct (cur_index_pos g m o k secs Hring Hk) as (Hi & Hp & Ha). set (j := cur_index g o k) in *.
  pose proof (ring_at_sector g m o secs j Hring Hi) as [_ (R1 & R2 & R3) Hmult].
  pose proof (ra_len _ _ _ _ Hring) as Hlen. pose proof (sec_size_hdr g Hg) as Hhdr.
  rewrite <- Ha in Hcut. destruct (format_cuts_spec m m' _ (sec_size g) R1 ltac:(lia) Hhdr Hcut) as [Hb Hother].
  assert (all_legible g m') as Hleg.
  { intros i Hi'. destruct (decide (i = j)) as [->|Hne]; [by left|].
    apply (legible_frame m); [|done|by apply (ring_legible g m o secs)]. intros b n Hb' Hn Hbn. destruct Hg. apply Hother; [nia|done|].
    destruct (Nat.lt_gt_cases i j) as [Hc _]. destruct (Hc Hne); [left|right]; nia. }
  eapply wp_mono; [apply (wp_init_formats nm path u max d db m' Hmt Hmax Hmult); [by exists j|done|done]|].
  intros r d' (-> & (m'' & Hst) & Hl & _). split; [done|]. split; [done|]. exists m'', (empty_secs g).
  split; [done|]. apply entries_empty.
Qed.
End format.

(** ** On the concrete database *)

#[local] Existing Instance ts_zeros.
#[local] Existing Instance ts_clock.

(** The append of [append_reuses_oldest] formats the first sector; the power
    fails after its status is written. *)
Definition tcut : list Z :=
  splice (splice tmedium 0 (replicate 128 255)) 0 [status_byte (enum_val FDB_SECTOR_STORE_EMPTY)].

Lemma interrupted_format_loses_log_witness :
  wp (fdb_tsdb_init "log" "/d" true 70 0) (fun r d' => r = FDB_NO_ERR /\ last_time d' = 0 /\
    exists m'' secs', ts_state d' m'' 0 0 secs' /\ entries secs' = []) (tdb_on tcut false false).
Proof.
  apply (interrupted_format_loses_log "log" "/d" 0 70 (tdb_on tcut false false)
           (mounted "log" "/d" FDB_DB_TYPE_TS 0 (parent (tdb_on tcut false false))) tmedium tcut 0 tsecs 0);
    [exact tring|vm_compute; lia| | |vm_compute; reflexivity|reflexivity].
  - right. left.
  - apply tmountable; [vm_compute; reflexivity|apply bytes_check; vm_compute; reflexivity].
Defined.

(** The database when the power fails in an append to the second sector, after
    the first of its steps: the node is marked, and not written. *)
Definition ttorn : fdb_tsdb libc :=
  tdb_on (splice tmedium (node_addr 128 1) [status_byte (enum_val FDB_TSL_PRE_WRITE)]) false false.
Definition tcount : M (fdb_tsdb libc) Z := fdb_tsl_query_count 30 100 FDB_TSL_WRITE.

