(* ===== verification/TsWit.v ===== *)
(** Time-series database: a new database in files, by streams and by descriptors,
    and on a partition of the flash abstraction layer. *)
From S2P Require Import Prelude FdbDef Status FlashIO FlashSpec Mount FileIO FileSpec FileThm PosixIO PosixThm Disk KvRing Fal FalSpec FalThm FalInit FalWit.
From S2P Require Import TsDef TsOps TsApi TsSpec TsRead TsAppend TsIter TsRing TsLog TsStore TsDb TsInit TsFormat TsThm TsRun.

#[local] Existing Instance ts_zeros.
#[local] Notation ram := (gmap nat (list Z)).
#[local] Existing Instances ram_driver cfg_static.
#[local] Existing Instance laws_static.

(** The structure of a new database. *)
Definition ram_tsdb : fdb_tsdb (fal ram) := FdbTsdb ram_db tcur 30 70 true.

Definition posix_on (m : list Z) (init : bool) : fdb_tsdb posix :=
  FdbTsdb (FdbDb tgeom (posix_disk_io tgeom "/d" m) FDB_DB_TYPE_TS 0 init false true true [] 0) tcur 30 70 true.
Definition posix_tsdb : fdb_tsdb posix := posix_on tblank false.

Lemma posix_tsdb_opens :
  opens "log" "/d" FDB_DB_TYPE_TS 0 (parent posix_tsdb) (mounted "log" "/d" FDB_DB_TYPE_TS 0 (parent posix_tsdb)) tblank.
Proof.
  apply mountable_opens. split; try done.
  apply (posix_disk_holds tgeom "/d" tblank); [apply tgeom_file|vm_compute; reflexivity|apply bytes_check; vm_compute; reflexivity].
Qed.

Lemma init_formats_witness :
  wp (fdb_tsdb_init "log" "/d" true 70 0) (fun r d' =>
    r = FDB_NO_ERR /\ (exists m', ts_state d' m' 0 0 (empty_secs tgeom)) /\ last_time d' = 0 /\
    geo (parent d') = tgeom /\ init_ok (parent d') = true /\ max_len d' = 70 /\ rollover d' = true) (tdb_on tblank false false) /\
  wp (fdb_tsdb_init "log" "/d" true 70 0) (fun r d' =>
    r = FDB_NO_ERR /\ (exists m', ts_state d' m' 0 0 (empty_secs tgeom)) /\ last_time d' = 0 /\
    geo (parent d') = tgeom /\ init_ok (parent d') = true /\ max_len d' = 70 /\ rollover d' = true) posix_tsdb /\
  wp (fdb_tsdb_init "env" "kv" true 70 0) (fun r d' =>
    r = FDB_NO_ERR /\ (exists m', ts_state d' m' 0 0 (empty_secs ram_geom)) /\ last_time d' = 0 /\
    geo (parent d') = ram_geom /\ init_ok (parent d') = true /\ max_len d' = 70 /\ rollover d' = true) ram_tsdb.
Proof.
  split; [|split].
  - apply (init_formats "log" "/d" 0 70 (tdb_on tblank false false) (mounted "log" "/d" FDB_DB_TYPE_TS 0 (parent (tdb_on tblank false false))) tblank);
      [|reflexivity|reflexivity|exists 0%nat; split; [vm_compute; lia|vm_compute; discriminate]| |reflexivity].
    + apply tmountable; [vm_compute; reflexivity|apply bytes_check; vm_compute; reflexivity].
    + apply tblank_legible; vm_compute; discriminate.
  - apply (init_formats "log" "/d" 0 70 posix_tsdb (mounted "log" "/d" FDB_DB_TYPE_TS 0 (parent posix_tsdb)) tblank);
      [apply posix_tsdb_opens|reflexivity|reflexivity|exists 0%nat; split; [vm_compute; lia|vm_compute; discriminate]| |reflexivity].
    apply tblank_legible; vm_compute; discriminate.
  - destruct (ram_opens FDB_DB_TYPE_TS) as (db & Ho & Hg). rewrite <- Hg.
    apply (init_formats "env" "kv" 0 70 ram_tsdb db (replicate 512 255)); rewrite ?Hg; try done.
    { exists 0%nat. split; [vm_compute; lia|vm_compute; discriminate]. }
    intros [|[|i]] Hi; [left; vm_compute; discriminate..|]. change (Z.to_nat (sector_count ram_geom)) with 2%nat in Hi. lia.
Defined.

(** The database of [TsThm] in files over descriptors. *)
Lemma posix_rep : ts_rep tgeom 70 tabs (posix_on tmedium true).
Proof.
  split; [exists tmedium|done..|apply tdb_rep].
  apply ts_state_intro with (SecState FDB_SECTOR_STORE_USING 30 [tentry3]);
    [exact tring|exact tshape|done|done|done| |done|done].
  split; [|split; [apply tgeom_file|vm_compute; intuition discriminate|done]|by right|exact tsector1|exact tlog].
  apply (posix_disk_holds tgeom "/d" tmedium); [apply tgeom_file|vm_compute; reflexivity|apply bytes_check; vm_compute; reflexivity].
Qed.

Lemma tsdb_reopen_witness :
  wp (fdb_tsdb_deinit;; fdb_tsdb_init "log" "/d" true 70 0) (fun r d' => r = FDB_NO_ERR /\ ts_rep tgeom 70 tabs d') tdb /\
  wp (fdb_tsdb_deinit;; fdb_tsdb_init "log" "/d" true 70 0) (fun r d' => r = FDB_NO_ERR /\ ts_rep tgeom 70 tabs d')
     (posix_on tmedium true).
Proof.
  split.
  - apply (tsdb_reopen (ST := libc_storage) eq_refl 70 "/d" 0 tabs tdb);
      [exact tdb_rep|reflexivity|reflexivity|discriminate|reflexivity|reflexivity].
  - apply (tsdb_reopen (ST := posix_storage) eq_refl 70 "/d" 0 tabs (posix_on tmedium true));
      [exact posix_rep|reflexivity|reflexivity|discriminate|reflexivity|reflexivity].
Defined.
